(* ===== verification/_CoqProject ===== *)
-Q . S2P
Prelude.v
Status.v
Posix.v
SafeIO.v
Codec.v
Crc32.v
Records.v
Ringbuf.v
Uthash.v
Keydir.v
Log.v
Filenames.v
Logging.v
Files.v
Disk.v
DiskWrite.v
Iterator.v
World.v
Hint.v
Recovery.v
HintGen.v
Rotate.v
Reader.v
Writer.v
Core.v
Frames.v
Compactor.v
Main.v
Teardown.v
Store.v
Durable.v
Rotated.v
Tidy.v
Run.v
Turns.v
System.v
Private.v
Races.v
Scan.v
Directory.v
DirOps.v
Dump.v
Compaction.v
Compacted.v
Start.v
Shutdown.v
Session.v
History.v
Program.v
Samples.v
BaseTheorems.v
TableTheorems.v
StoreTheorems.v
DurableTheorems.v
SystemTheorems.v
RaceTheorems.v
StartTheorems.v
CompactTheorems.v
SessionTheorems.v
