(* ===== verification/Prelude.v ===== *)
(** * ccask: a log-structured key-value store, verified

    ccask keeps byte strings under byte-string keys in append-only data files.
    A [put] appends a record to the active file; an index in memory, the key
    directory, says where the newest record of each key is; a [get] looks the
    position up and reads the record back.  When the active file is full it is
    rotated: a new file becomes active and a thread writes a hint file with
    the positions of the old one's records.  At start the key directory is
    built again from the hint files and data files.  This library models the
    C code under [src/] and proves what makes it correct; this first file also
    holds what all the others share.

    ** The model

    A C function is a computation [M S A := S → outcome S A] over the state of
    the translation units it uses.  An [outcome] is [Ret] (it returned),
    [Blocked] (it waits on a lock or condition that only another thread can
    change), [Undef] (undefined behaviour: a bad pointer, [free] of something
    else than a live block, a division by zero), or [NoFuel] (a loop used up
    its fuel).  [Part E W] and [zoom] run an operation of a component in a
    larger state; [wp] is the weakest precondition, which asks for [Ret], so
    that every theorem stated with it is one of total correctness.

    The environment ([Posix.v], [env]) is a heap of blocks (a malloc may fail
    as [e_malloc] says; addresses are never used again), and a kernel with a
    directory, files, descriptors and a list of events: each system call takes
    the next one, which cuts the transfer short, interrupts it, fails it with
    an error or lets it be.  Theorems about the [safe_*] functions hold for
    all events; those about whole operations for events that are not errors
    ([calm]: transfers may be cut short anywhere, but no call fails, not even
    with [EINTR], and neither does a malloc).  Integers are [Z]
    with their wrap-around written out ([u32], [u64], [i64]); bytes are
    [list Byte.byte]; the byte order of the host is a class ([Host]); zlib's
    [crc32] is a parameter ([Zlib]) with the laws its manual gives ([ZlibLaws]),
    and [Crc32.v] instantiates it by a bit-serial CRC-32.

    ** The files

    - [Prelude], [Status] ([include/ccask/status.h], [status.c]: the codes,
      [ccask_errno], [CCASK_ATTEMPT]).
    - [Posix]: heap, kernel, system calls, time, locks.  [SafeIO]: the five
      [safe_*] functions of [utils.c].  [Codec]: the big-endian accessors and
      [calculate_crc32] of [utils.c].  [Crc32]: an instance of [Zlib].
    - [Records] ([records.c], [records.h]).  [Ringbuf] ([writer_ringbuf.c]).
    - [Uthash]: what the macros of uthash do to the list of items of a table.
      [Keydir]: the table of [keydir.c], its lock, its iteration.
    - [Log]: what the bytes of a data file or a hint file mean, as a list of
      records.  [Filenames] ([parse_filename] and [build_filepath] of [utils.c]).
      [Logging] ([log.cc]).
    - [Files] ([files.c]: the list of files, descriptors, start, rotation,
      deletion, renaming).  [Disk], [DiskWrite]: the invariant [disk_ok] that
      ties the list to the kernel's files, and what system calls do to it.
    - [Iterator] ([iterator.c]).  [World]: the statics of all units in one
      record, and [pthread_create]/[pthread_join].
    - [Hint] ([hint.c]), [HintGen] (its thread writes the hints of the
      records).  [Recovery] (the start-up half of [keydir.c]).  [Rotate]
      ([ccask_files_rotate] seen from the outside), [Reader] ([reader.c]),
      [Writer] ([writer.c]), [Core] ([core.c]), [Compactor] ([compactor.c]),
      [Main] ([bin/src/main.c]).
    - [Store]: [store_ok w l m], the store [w] with the files [l] represents
      the map [m]; get and put against it.  [Durable]: [durable], the replay
      of the files is the map, and [recoverable], recovery has enough fuel.
      [Rotated]: both after a rotation.  [Run]: [running], the invariant of a
      store between two calls, with its threads, and puts with rotation.
      [Turns]: gets and threads.  [Tidy]: the names in the directory.
      [System]: [system cap mx w l m q n], all of it together.  [Private]: the
      memory that an interrupted call keeps to itself.
    - [Scan]: the list of files that [files.c] makes of a directory.
      [Start]: what [ccask_init] makes of it.
    - [Directory]: the files as the kernel sees them, under their paths;
      [DirOps]: the operations of [files.c] that the compactor uses, on them.
      [Dump]: the loop that copies the live records into temporary files.
      [Compaction]: the old files are replaced; [Compacted]: what the
      directory means then.
    - [Teardown]: what the functions that give memory back leave alone.
      [Shutdown]: [ccask_shutdown] of a running store.  [Session]:
      [represents], what a process finds and leaves in a directory, and
      [process], a whole process.  [History]: one process after another.
      [Program]: [main].
    - [Frames]: the class of calls that keep the entries of the key directory
      where they are.  [Races]: a get with other calls between its steps.
    - [Samples]: concrete states for the witnesses.  [BaseTheorems],
      [TableTheorems], [StoreTheorems], [DurableTheorems], [SystemTheorems],
      [RaceTheorems], [StartTheorems], [CompactTheorems], [SessionTheorems]:
      the properties, each with a witness where it has hypotheses.

    ** What is shown

    - [BaseTheorems]: the restartable transfers (functional behaviour on every
      event, and the loop that does not end for an empty last buffer); round
      trips of the byte order, of records, hints and file names; allocation
      failures; [CCASK_ATTEMPT].
    - [TableTheorems]: the ring is a FIFO under every interleaving, its
      operations refine a bounded queue, the failed push that leaves the mutex
      locked; the key directory refines a finite map (find, upsert, delete,
      shutdown, iteration); the list of files stays sorted and linked.
    - [StoreTheorems]: a put for which the active file has room and a get
      refine insertion and lookup; a blocking deletion never returns.
    - [DurableTheorems]: a value that was put survives a restart; recovery is
      the replay of the files; a hint file stands for its data file; a torn
      record is ignored; what the hint thread writes.
    - [SystemTheorems]: a get after a put, and a put that keeps the active file
      within its bound, both with or without a rotation; every sequence of calls and turns of the threads is one
      of an abstract map with a bounded queue, if keys and values that are put
      are not empty and their records fit into a file.
    - [StartTheorems]: opening an empty directory establishes the invariant of
      the system; opening the directory of a store whose process died gives
      its map back; an unfinished hint file hides records.
    - [CompactTheorems]: compaction leaves one record for each key in the files
      [0], [1], ..., none larger than the threshold, and the map is the same;
      a process that opens the directory, with exactly the files that are then
      there and in any order, gets it.
    - [SessionTheorems]: a process that opens a directory representing a map
      and works there, until it closes the store, dies, or compacts the files,
      answers as the abstract machine does and leaves a directory that
      represents the result, from which the next process starts, and so on;
      closing a store writes what is queued and gives its memory back; the
      command line program compacts the directory.
    - [RaceTheorems]: a get that other calls interrupt at any of its six uses
      of the entry, or before its read, returns the value of the moment at
      which its place was looked up, if the lengths do not change in between;
      what it returns if they do; and the undefined behaviour if a value has
      become longer since the buffers were allocated or the record was read.
    - [Logging]: every message reaches the function of the logger with its
      level, cut off after 1023 characters, and the array on the stack is not
      overrun; the calls whose arguments do not have the types of their format.

    ** Fuel and bounds

    A loop over system calls gets its number of turns as [fuel].  Each turn
    takes an event or moves a byte, so the events that are left plus the bytes
    to move are enough; the theorems ask for that and prove that the call
    returns.  Loops over nodes and entries have fuel computed from the tables
    ([1 + size ...]).  [recoverable s l n] bounds each data file by [n] with
    [2 * n < 2^32], since [iterator.c] adds sizes in 32 bits and a hint file
    is at most twice as long as its data file.  File identifiers are below
    [2^64], and below [2^31] where [atoi] reads them back.

    ** Concurrency

    The steps of an interleaving are whole functions: the ring's functions run
    under their mutex, the writer's under the lock of the active file, the key
    directory's under its lock.  [System.run_ops] interleaves calls and turns
    of threads at that grain.  [Races.split_get] also interleaves them with the
    steps of one [ccask_get], which holds no lock on the table while it uses
    the entry: before the buffers are allocated, before the place of the
    record is looked up, before it is read, before the caller's block is
    allocated, before the copy into it, and before its size is reported.  The
    two sizes of the buffers are loaded in one step, and so are the file and
    the position of the place (a put between these two loads, which would give
    the file of one record and the position of another, is not covered); the
    read is one step too, although [reader.c] gives up the lock of the file
    when it has to open it first.  The windows of the other calls (the active file is looked up
    before it is locked; [upsert] looks an entry up before it locks the table)
    are not interleaved, and neither are the single loads and stores.

    ** Not modelled

    The buckets and the hash function of uthash (vendored: only the order of
    the items matters to its callers); the calls of [log_*], which the models
    of the callers leave out as the build without [CCASK_ENABLE_LOGGING] does
    ([Logging.v] has the functions themselves); [sleep]; alignment and sizes of structures, except that a
    block has a size.  A deletion cannot be refined, since it never returns
    ([StoreTheorems.delete_blocking_never_returns]). *)
From stdpp Require Export base tactics option list numbers gmap strings.
From Stdlib Require Export ZArith Lia.
From Stdlib Require Import Strings.Byte.

#[global] Open Scope Z_scope.

Declare Scope ccask_scope.
Delimit Scope ccask_scope with ccask.

Create HintDb ccask.

(** ** Outcomes and the state monad

    A C function is a state transformer over the state of the translation
    units it touches.  Besides returning, a call may block for ever on a lock
    or a condition that only another thread can change, it may reach undefined
    behaviour, and a loop may use up the fuel it was given. *)

Inductive outcome (S A : Type) : Type :=
  | Ret (a : A) (s : S)
  | Blocked
  | Undef
  | NoFuel.
Arguments Ret {S A} a s.
Arguments Blocked {S A}.
Arguments Undef {S A}.
Arguments NoFuel {S A}.

Definition M (S A : Type) : Type := S → outcome S A.

#[export] Instance M_ret (S : Type) : MRet (M S) := λ A a s, Ret a s.

#[export] Instance M_bind (S : Type) : MBind (M S) :=
  λ A B (f : A → M S B) (m : M S A) (s : S),
    match m s with
    | Ret a s' => f a s'
    | Blocked => Blocked
    | Undef => Undef
    | NoFuel => NoFuel
    end.

Definition get {S : Type} : M S S := λ s, Ret s s.
Definition gets {S A : Type} (f : S → A) : M S A := λ s, Ret (f s) s.
Definition modify {S : Type} (f : S → S) : M S unit := λ s, Ret tt (f s).
Definition blocked {S A : Type} : M S A := λ _, Blocked.
Definition undef {S A : Type} : M S A := λ _, Undef.
Definition no_fuel {S A : Type} : M S A := λ _, NoFuel.

(** [deref o] is the use of a pointer (or an array cell) that may be invalid. *)
Definition deref {S A : Type} (o : option A) : M S A :=
  match o with Some a => mret a | None => undef end.

(** ** Components of a larger state

    [Part E W] says that a state [W] holds a state [E] of a component: the
    operations of the component run in [W] with [zoom], and change nothing
    else of it. *)

Class Part (E W : Type) := {
  part : W → E;
  set_part : E → W → W;
  part_set : ∀ e w, part (set_part e w) = e;
  set_part_part : ∀ w, set_part (part w) w = w;
  set_part_twice : ∀ e1 e2 w, set_part e1 (set_part e2 w) = set_part e1 w;
}.

Definition zoom {E W A : Type} `{!Part E W} (m : M E A) : M W A := λ w,
  match m (part w) with
  | Ret a e => Ret a (set_part e w)
  | Blocked => Blocked
  | Undef => Undef
  | NoFuel => NoFuel
  end.

#[export, refine] Instance part_fst (E F : Type) : Part E (E * F) :=
  {| part := fst; set_part e w := (e, w.2) |}.
Proof. all: intros; try destruct w; reflexivity. Defined.

#[export, refine] Instance part_refl (E : Type) : Part E E | 100 :=
  {| part w := w; set_part e w := e |}.
Proof. all: reflexivity. Defined.

(** ** Weakest preconditions: the call returns, in a state and with a value
    that satisfy [Q]. *)

Definition wp {S A : Type} (m : M S A) (s : S) (Q : A → S → Prop) : Prop :=
  match m s with Ret a s' => Q a s' | _ => False end.

Section wp.
Context {S A B : Type}.
Implicit Types (m : M S A) (s : S).

Lemma wp_ret (a : A) s (Q : A → S → Prop) : wp (mret a) s Q = Q a s.
Proof. reflexivity. Qed.

Lemma wp_bind m (f : A → M S B) s (Q : B → S → Prop) :
  wp (m ≫= f) s Q = wp m s (λ a s', wp (f a) s' Q).
Proof. unfold wp, mbind, M_bind. by destruct (m s). Qed.

Lemma wp_get s (Q : S → S → Prop) : wp get s Q = Q s s.
Proof. reflexivity. Qed.

Lemma wp_gets (f : S → A) s (Q : A → S → Prop) : wp (gets f) s Q = Q (f s) s.
Proof. reflexivity. Qed.

Lemma wp_modify (f : S → S) s (Q : unit → S → Prop) :
  wp (modify f) s Q = Q tt (f s).
Proof. reflexivity. Qed.

Lemma wp_deref_Some (a : A) s (Q : A → S → Prop) :
  wp (deref (Some a)) s Q = Q a s.
Proof. reflexivity. Qed.

Lemma wp_mono m s (Q Q' : A → S → Prop) :
  wp m s Q → (∀ a s', Q a s' → Q' a s') → wp m s Q'.
Proof. unfold wp. destruct (m s) as [a s1| | |]; [|done..]. intros H1 H2. by apply H2. Qed.

Lemma wp_run m s (a : A) s' (Q : A → S → Prop) :
  m s = Ret a s' → Q a s' → wp m s Q.
Proof. unfold wp. by intros ->. Qed.

Lemma wp_inv m s (Q : A → S → Prop) :
  wp m s Q → ∃ a s', m s = Ret a s' ∧ Q a s'.
Proof. unfold wp. destruct (m s); naive_solver. Qed.

Lemma wp_eq m s (a : A) s' :
  wp m s (λ x t, x = a ∧ t = s') ↔ m s = Ret a s'.
Proof. unfold wp. destruct (m s); naive_solver. Qed.

Lemma bind_run m (f : A → M S B) s a s' :
  m s = Ret a s' → (m ≫= f) s = f a s'.
Proof. unfold mbind, M_bind. by intros ->. Qed.

Lemma bind_mret (a : A) (f : A → M S B) s : (mret a ≫= f) s = f a s.
Proof. reflexivity. Qed.

Lemma bind_get (f : S → M S B) s : (get ≫= f) s = f s s.
Proof. reflexivity. Qed.

Lemma bind_modify g (f : unit → M S B) s : (modify g ≫= f) s = f tt (g s).
Proof. reflexivity. Qed.

Lemma bind_deref (a : A) o (f : A → M S B) s : o = Some a → (deref o ≫= f) s = f a s.
Proof. by intros ->. Qed.

Lemma bind_assoc {C} m (f : A → M S B) (g : B → M S C) s :
  ((m ≫= f) ≫= g) s = (m ≫= λ a, f a ≫= g) s.
Proof. unfold mbind, M_bind. by destruct (m s). Qed.

Lemma bind_nofuel m (f : A → M S B) s :
  m s = NoFuel → (m ≫= f) s = NoFuel.
Proof. unfold mbind, M_bind. by intros ->. Qed.

Lemma bind_undef m (f : A → M S B) s :
  m s = Undef → (m ≫= f) s = Undef.
Proof. unfold mbind, M_bind. by intros ->. Qed.

Lemma bind_blocked m (f : A → M S B) s :
  m s = Blocked → (m ≫= f) s = Blocked.
Proof. unfold mbind, M_bind. by intros ->. Qed.

(** A call that returned, taken apart. *)
Lemma bind_Ret m (f : A → M S B) s b s' :
  (m ≫= f) s = Ret b s' ↔ ∃ a s1, m s = Ret a s1 ∧ f a s1 = Ret b s'.
Proof.
  unfold mbind, M_bind. destruct (m s) as [x t| | |]; split.
  - intros Hf. by exists x, t.
  - intros (x' & t' & [= <- <-] & Hf). done.
  - done.
  - by intros (?&?&?&?).
  - done.
  - by intros (?&?&?&?).
  - done.
  - by intros (?&?&?&?).
Qed.
End wp.

Lemma wp_zoom {E W A : Type} `{!Part E W} (m : M E A) (w : W) (Q : A → W → Prop) :
  wp (zoom m) w Q = wp m (part w) (λ a e, Q a (set_part e w)).
Proof. unfold wp, zoom. by destruct (m (part w)). Qed.

Lemma zoom_run {E W A : Type} `{!Part E W} (m : M E A) (w : W) a e :
  m (part w) = Ret a e → zoom m w = Ret a (set_part e w).
Proof. unfold zoom. by intros ->. Qed.

Lemma zoom_fst {E F A : Type} (m : M E A) (e : E) (f : F) a e' :
  m e = Ret a e' → zoom m (e, f) = Ret a (e', f).
Proof. unfold zoom. simpl. by intros ->. Qed.

(** [wp_step] exposes the next call of a program; [wp_steps] runs through the
    calls that only read or write the state. *)
Ltac wp_step := first
  [ rewrite wp_bind | rewrite wp_zoom | rewrite wp_ret | rewrite wp_get
  | rewrite wp_gets | rewrite wp_modify | rewrite wp_deref_Some ].
Ltac wp_steps := repeat (wp_step; cbn beta iota).

(** Case analysis on the match or the conditional the goal is stuck on. *)
Ltac case_goal :=
  match goal with
  | |- context [match ?x with _ => _ end] => destruct x eqn:?
  end.

Lemma bool_decide_neq_refl {A} (a : A) `{!Decision (a ≠ a)} : bool_decide (a ≠ a) = false.
Proof. apply bool_decide_eq_false_2. intros H. by apply H. Qed.

(** ** Machine integers: an unsigned [w]-bit value is its residue. *)

Definition wrap (w z : Z) : Z := z mod 2 ^ w.
Definition u32 (z : Z) : Z := wrap 32 z.
Definition u64 (z : Z) : Z := wrap 64 z.
(** The conversion to an [int]. *)
Definition i32 (z : Z) : Z := wrap 32 (z + 2 ^ 31) - 2 ^ 31.
Definition is_u32 (z : Z) : Prop := 0 ≤ z < 2 ^ 32.
Definition is_u64 (z : Z) : Prop := 0 ≤ z < 2 ^ 64.
#[export] Instance is_u32_dec z : Decision (is_u32 z).
Proof. unfold is_u32. apply _. Defined.
#[export] Instance is_u64_dec z : Decision (is_u64 z).
Proof. unfold is_u64. apply _. Defined.

(** A 64-bit value converted to a signed one ([off_t], [ssize_t]). *)
Definition i64 (z : Z) : Z :=
  if bool_decide (u64 z < 2 ^ 63) then u64 z else u64 z - 2 ^ 64.

Lemma i64_small z : 0 ≤ z < 2 ^ 63 → i64 z = z.
Proof.
  intros. unfold i64, u64, wrap. rewrite Z.mod_small by lia.
  by rewrite bool_decide_eq_true_2 by lia.
Qed.

Lemma u32_small z : is_u32 z → u32 z = z.
Proof. intros. by apply Z.mod_small. Qed.
Lemma u64_small z : is_u64 z → u64 z = z.
Proof. intros. by apply Z.mod_small. Qed.
Lemma u32_range z : is_u32 (u32 z).
Proof. by apply Z.mod_pos_bound. Qed.
Lemma u64_range z : is_u64 (u64 z).
Proof. by apply Z.mod_pos_bound. Qed.
Lemma u32_u64 z : is_u32 z → is_u64 z.
Proof. unfold is_u32, is_u64. lia. Qed.
#[export] Hint Resolve u32_range u64_range u32_u64 : ccask.

(** ** Bytes *)

Abbreviation byte := Byte.byte.
Abbreviation bytes := (list Byte.byte).

#[export] Instance byte_eq_dec : EqDecision byte := Byte.byte_eq_dec.

Definition Z_of_byte (b : byte) : Z := Z.of_N (Byte.to_N b).
Definition byte_of_Z (z : Z) : byte :=
  default Byte.x00 (Byte.of_N (Z.to_N (z mod 256))).

Lemma Z_of_byte_range b : 0 ≤ Z_of_byte b < 256.
Proof. unfold Z_of_byte. pose proof (Byte.to_N_bounded b). lia. Qed.

Lemma Z_of_byte_of_Z z : Z_of_byte (byte_of_Z z) = z mod 256.
Proof.
  unfold Z_of_byte, byte_of_Z.
  pose proof (Z.mod_pos_bound z 256 ltac:(lia)).
  destruct (Byte.of_N (Z.to_N (z mod 256))) as [b|] eqn:E; simpl.
  - apply Byte.to_of_N in E. lia.
  - apply Byte.of_N_None_iff in E. lia.
Qed.

Lemma byte_of_Z_of_byte b : byte_of_Z (Z_of_byte b) = b.
Proof.
  unfold Z_of_byte, byte_of_Z. pose proof (Byte.to_N_bounded b).
  rewrite Z.mod_small by lia. rewrite N2Z.id.
  by rewrite Byte.of_to_N.
Qed.

Lemma byte_of_Z_inj_mod x y : byte_of_Z x = byte_of_Z y → x mod 256 = y mod 256.
Proof. intros H%(f_equal Z_of_byte). by rewrite !Z_of_byte_of_Z in H. Qed.

Definition zeros (n : Z) : bytes := replicate (Z.to_nat n) Byte.x00.
Definition zlen {A} (l : list A) : Z := Z.of_nat (length l).
Arguments zlen {A} l : simpl never.

Lemma zlen_nonneg {A} (l : list A) : 0 ≤ zlen l.
Proof. unfold zlen. lia. Qed.
Lemma zlen_app {A} (l k : list A) : zlen (l ++ k) = zlen l + zlen k.
Proof. unfold zlen. rewrite length_app. lia. Qed.
Lemma zlen_cons {A} x (l : list A) : zlen (x :: l) = 1 + zlen l.
Proof. unfold zlen. rewrite length_cons. lia. Qed.
Lemma zlen_nil {A} : zlen (@nil A) = 0.
Proof. reflexivity. Qed.
Lemma zlen_zeros n : 0 ≤ n → zlen (zeros n) = n.
Proof. intros. unfold zlen, zeros. rewrite length_replicate. lia. Qed.
#[export] Hint Resolve zlen_nonneg : ccask.

(** Lengths of appended lists, for [lia]. *)
Ltac zlen_lia :=
  unfold zlen in *; rewrite ?length_app, ?length_take, ?length_drop in *;
  cbn [length] in *; lia.

(** [slice off n l] is the window of [n] elements of [l] at [off]. *)
Definition slice {A} (off n : Z) (l : list A) : list A :=
  take (Z.to_nat n) (drop (Z.to_nat off) l).

(** [splice off new l] overwrites [l] at [off] with [new]. *)
Definition splice {A} (off : Z) (new l : list A) : list A :=
  take (Z.to_nat off) l ++ new ++ drop (Z.to_nat off + length new) l.

Section slices.
Context {A : Type}.
Implicit Types l k : list A.

Lemma zlen_slice off n l :
  0 ≤ off → 0 ≤ n → off + n ≤ zlen l → zlen (slice off n l) = n.
Proof. intros. unfold zlen, slice in *. rewrite length_take, length_drop. lia. Qed.

Lemma slice_app_r off n l k :
  zlen l = off → slice off n (l ++ k) = take (Z.to_nat n) k.
Proof.
  intros <-. unfold slice, zlen. by rewrite Nat2Z.id, drop_app_length.
Qed.

Lemma slice_exact off n l k m :
  zlen l = off → zlen k = n → slice off n (l ++ k ++ m) = k.
Proof.
  intros. rewrite slice_app_r by done. subst n.
  unfold zlen. by rewrite Nat2Z.id, take_app_length.
Qed.

Lemma slice_last off n l k : zlen l = off → zlen k = n → slice off n (l ++ k) = k.
Proof. intros. rewrite <-(app_nil_r k) at 1. by apply slice_exact. Qed.

Lemma slice_full l : slice 0 (zlen l) l = l.
Proof. unfold slice, zlen. by rewrite Nat2Z.id, drop_0, firstn_all. Qed.

Lemma slice_split (off n k : Z) l :
  0 ≤ off → 0 ≤ k ≤ n →
  slice off n l = take (Z.to_nat k) (slice off n l) ++ slice (off + k) (n - k) l.
Proof.
  intros. unfold slice. rewrite take_take, Nat.min_l by lia.
  replace (Z.to_nat (off + k)) with (Z.to_nat off + Z.to_nat k)%nat by lia.
  rewrite <-drop_drop. replace (Z.to_nat n) with (Z.to_nat k + Z.to_nat (n - k))%nat by lia.
  symmetry. apply take_take_drop.
Qed.

Lemma slice_shorter off m n l : 0 ≤ m ≤ n → slice off m l = take (Z.to_nat m) (slice off n l).
Proof. intros. unfold slice. by rewrite take_take, Nat.min_l by lia. Qed.

Lemma length_slice off n l :
  0 ≤ off → 0 ≤ n → length (slice off n l) = Z.to_nat (Z.min n (Z.max 0 (zlen l - off))).
Proof. intros. unfold zlen, slice in *. rewrite length_take, length_drop. lia. Qed.

Lemma length_slice_le off n l : (length (slice off n l) ≤ Z.to_nat n)%nat.
Proof. unfold slice. rewrite length_take. lia. Qed.

Lemma length_slice_drop off n l : (length (slice off n l) ≤ length l)%nat.
Proof. unfold slice. rewrite length_take, length_drop. lia. Qed.

Lemma slice_app_l off n l k :
  0 ≤ off → 0 ≤ n → off + n ≤ zlen l → slice off n (l ++ k) = slice off n l.
Proof.
  intros. unfold slice, zlen in *. rewrite skipn_app, firstn_app, length_drop.
  replace (Z.to_nat n - (length l - Z.to_nat off))%nat with 0%nat by lia.
  by rewrite take_0, app_nil_r.
Qed.

Lemma slice_zero off l : slice off 0 l = [].
Proof. reflexivity. Qed.

Lemma zlen_splice off new l :
  0 ≤ off → off + zlen new ≤ zlen l → zlen (splice off new l) = zlen l.
Proof.
  intros. unfold zlen, splice in *.
  rewrite !length_app, length_take, length_drop. lia.
Qed.

Lemma splice_full new l : zlen new = zlen l → splice 0 new l = new.
Proof.
  intros. unfold splice, zlen in *. simpl.
  rewrite drop_ge by lia. by rewrite app_nil_r.
Qed.

Lemma splice_nil off l : splice off [] l = l.
Proof.
  unfold splice. simpl. rewrite Nat.add_0_r. apply take_drop.
Qed.

(** Two adjacent writes are one. *)
Lemma splice_splice off d1 d2 l :
  0 ≤ off → off + zlen d1 + zlen d2 ≤ zlen l →
  splice (off + zlen d1) d2 (splice off d1 l) = splice off (d1 ++ d2) l.
Proof.
  intros. unfold splice, zlen in *.
  replace (Z.to_nat (off + Z.of_nat (length d1)))
    with (Z.to_nat off + length d1)%nat by lia.
  assert (length (take (Z.to_nat off) l) = Z.to_nat off) as Ht
    by (rewrite length_take; lia).
  rewrite (take_app_add' _ _ _ _ (eq_sym Ht)), take_app_length.
  rewrite <-!app_assoc. f_equal. f_equal.
  rewrite <-Nat.add_assoc, (drop_app_add' _ _ _ _ (eq_sym Ht)).
  rewrite (drop_app_add' _ _ (length d1) _ eq_refl).
  rewrite drop_drop, length_app. f_equal. f_equal. lia.
Qed.
End slices.
