(* ===== verification/Status.v ===== *)
(** * Status: result codes, the error variable and the retry macro

    Models [include/ccask/status.h]: the enumerations with their integer codes,
    and [CCASK_ATTEMPT], which runs an expression again, at most
    [max_attempts] times in all, as long as it yields [CCASK_RETRY]. *)
From S2P Require Import Prelude.

Inductive ccask_error_e : Type :=
  | CCASK_ERR_UNKNOWN
  | CCASK_ERR_NO_MEMORY
  | CCASK_ERR_CRC_INVALID
  | CCASK_ERR_NO_KEY
  | CCASK_ERR_ITER_END
  | CCASK_ERR_GET_FD_FAILED
  | CCASK_ERR_MAX_FDS_OPENED
  | CCASK_ERR_NO_SUCH_DATAFILE
  | CCASK_ERR_READ_FAILED
  | CCASK_ERR_WRITE_FAILED
  | CCASK_ERR_COULDNT_START_THREAD
  | CCASK_ERR_UNEXPECTED_EOF
  | CCASK_ERR_RINGBUFFER_FULL.

#[export] Instance ccask_error_e_eq_dec : EqDecision ccask_error_e.
Proof. solve_decision. Defined.

Inductive ccask_status_e : Type := CCASK_OK | CCASK_FAIL | CCASK_RETRY.

#[export] Instance ccask_status_e_eq_dec : EqDecision ccask_status_e.
Proof. solve_decision. Defined.

(** The integer a status is, where the code stores one in an [int] (a file
    descriptor or a status). *)
Definition status_code (s : ccask_status_e) : Z :=
  match s with CCASK_OK => 0 | CCASK_FAIL => -1 | CCASK_RETRY => -2 end.

(** The initial value of the global error variable, of [status.c]. *)
Definition ccask_errno_init : ccask_error_e := CCASK_ERR_UNKNOWN.

(** What [CCASK_ATTEMPT] compares its result with: a status, or an [int]. *)
Class Attempt (A : Type) := is_retry : A → bool.
#[export] Instance attempt_status : Attempt ccask_status_e :=
  λ s, bool_decide (s = CCASK_RETRY).
#[export] Instance attempt_int : Attempt Z :=
  λ z, bool_decide (z = status_code CCASK_RETRY).
(** The expression may also assign to variables of the caller. *)
#[export] Instance attempt_pair {A B : Type} `{!Attempt A} : Attempt (A * B) :=
  λ p, is_retry p.1.

(** [CCASK_ATTEMPT(max_attempts, out_var, expr)]: the value left in [out_var].
    With no attempt [out_var] is never assigned. *)
Fixpoint CCASK_ATTEMPT {S A : Type} `{!Attempt A} (max_attempts : nat)
    (expr : M S A) : M S A :=
  match max_attempts with
  | O => undef
  | S n =>
      out ← expr;
      if is_retry out
      then match n with O => mret out | _ => CCASK_ATTEMPT n expr end
      else mret out
  end.

Lemma attempt_S {S A : Type} `{!Attempt A} n (expr : M S A) :
  CCASK_ATTEMPT (Datatypes.S n) expr =
  (out ← expr;
   if is_retry out then match n with O => mret out | _ => CCASK_ATTEMPT n expr end else mret out).
Proof. reflexivity. Qed.

Lemma attempt_ext {S A : Type} `{!Attempt A} n (e e' : M S A) s :
  (∀ s, e s = e' s) → CCASK_ATTEMPT n e s = CCASK_ATTEMPT n e' s.
Proof.
  intros He. revert s. induction n as [|n IH]; intros s; [done|].
  rewrite !attempt_S. unfold mbind, M_bind. rewrite He. destruct (e' s) as [a s'| | |]; [|done..].
  destruct (is_retry a); [|done]. destruct n; [done | apply IH].
Qed.

(** A value that comes with the result. *)
Lemma attempt_with {S A B : Type} `{!Attempt A} n (e : M S A) (b : B) s :
  CCASK_ATTEMPT n (a ← e; mret (a, b)) s = (a ← CCASK_ATTEMPT n e; mret (a, b)) s.
Proof.
  revert s. induction n as [|n IH]; intros s; [done|].
  rewrite !attempt_S. unfold mbind, M_bind, mret, M_ret. destruct (e s) as [a s'| | |]; [|done..].
  unfold is_retry at 1, attempt_pair. cbn [fst]. destruct (is_retry a); [|done].
  destruct n as [|n]; [done|]. exact (IH s').
Qed.

(** [CCASK_ATTEMPT] is a bounded iteration of its expression: [attempts n e s k
    a s'] says that the first [k] runs from [s] gave [CCASK_RETRY], and the
    next one ended in [s'] with [a]. *)
Inductive attempts {S A : Type} `{!Attempt A} (e : M S A) : S → nat → A → S → Prop :=
  | attempts_last s a s' : e s = Ret a s' → attempts e s 0 a s'
  | attempts_again s a s1 k a' s' :
      e s = Ret a s1 → is_retry a = true →
      attempts e s1 k a' s' → attempts e s (1 + k) a' s'.

Section attempt.
Context {S A : Type} `{!Attempt A}.
Implicit Types (e : M S A).

(** One attempt is enough when it does not ask for another. *)
Lemma attempt_once n e s a s' :
  e s = Ret a s' → is_retry a = false →
  CCASK_ATTEMPT (1 + n) e s = Ret a s'.
Proof.
  intros He Ha. simpl. rewrite (bind_run _ _ _ _ _ He). by rewrite Ha.
Qed.

(** The last attempt, whatever it gives. *)
Lemma attempt_last e s a s' : e s = Ret a s' → CCASK_ATTEMPT 1 e s = Ret a s'.
Proof. intros He. simpl. rewrite (bind_run _ _ _ _ _ He). by destruct (is_retry a). Qed.

Lemma attempt_wp n e s (Q : A → S → Prop) :
  wp e s (λ a s', is_retry a = false ∧ Q a s') → wp (CCASK_ATTEMPT (1 + n) e) s Q.
Proof.
  intros (a & s' & He & Ha & HQ)%wp_inv.
  eapply wp_run; [by eapply attempt_once | done].
Qed.

Lemma attempt_retry n e s a s' :
  e s = Ret a s' → is_retry a = true →
  CCASK_ATTEMPT (2 + n) e s = CCASK_ATTEMPT (1 + n) e s'.
Proof.
  intros He Ha. simpl. rewrite (bind_run _ _ _ _ _ He). by rewrite Ha.
Qed.

Lemma attempt_iff n e s a s' :
  CCASK_ATTEMPT (1 + n) e s = Ret a s' ↔
  ∃ k, (k ≤ n)%nat ∧ attempts e s k a s' ∧ (is_retry a = true → k = n).
Proof.
  revert s. induction n as [|n IH]; intros s.
  - simpl. rewrite bind_Ret. split.
    + intros (x & s1 & He & Hx). exists 0%nat.
      destruct (is_retry x); injection Hx as -> ->;
        (split_and!; [lia | by apply attempts_last | done]).
    + intros (k & Hk & Hat & _). assert (k = 0%nat) as -> by lia.
      inversion Hat as [? ? ? He|]; subst. exists a, s'.
      split; [done|]. by destruct (is_retry a).
  - change (CCASK_ATTEMPT (1 + Datatypes.S n) e s) with
      ((out ← e; if is_retry out then CCASK_ATTEMPT (1 + n) e else mret out) s).
    rewrite bind_Ret. split.
    + intros (x & s1 & He & Hx). destruct (is_retry x) eqn:Hr.
      * apply IH in Hx as (k & Hk & Hat & Hlast).
        exists (1 + k)%nat. split_and!; [lia | by eapply attempts_again |].
        intros H. rewrite (Hlast H). lia.
      * injection Hx as -> ->. exists 0%nat.
        split_and!; [lia | by apply attempts_last | congruence].
    + intros (k & Hk & Hat & Hlast).
      inversion Hat as [? ? ? He | ? x s1 k' ? ? He Hr Hat']; subst.
      * exists a, s'. split; [done|].
        destruct (is_retry a) eqn:Hr; [|done]. by specialize (Hlast eq_refl).
      * exists x, s1. split; [done|]. rewrite Hr. apply IH.
        exists k'. split_and!; [lia | done |]. intros H. specialize (Hlast H). lia.
Qed.
End attempt.

#[global] Arguments CCASK_ATTEMPT : simpl never.
