(* ===== verification/Posix.v ===== *)
(** * Posix: the memory and the operating system the code runs on

    The part of the C library and of POSIX that the sources use: the heap with
    [malloc] and [free], descriptors, files and directories, [time].  A call
    whose outcome depends on the machine takes it from a list of choices made
    beforehand ([k_events] for system calls, [e_malloc] for allocations); when
    the list has run out every call succeeds and transfers all it can.  A
    theorem that quantifies over the lists covers every finite pattern of
    failures, interruptions and short transfers. *)
From S2P Require Import Prelude Status.
From Stdlib Require Import Strings.Byte.

(** ** Data *)

(** The error numbers the sources tell apart; [EOTHER] is any other one. *)
Inductive errno : Type :=
  | EINTR | EAGAIN | EWOULDBLOCK
  | EACCES | EPERM | EISDIR | ENAMETOOLONG | ENOENT | EFAULT | EROFS | ENOTDIR
  | EBADF | EINVAL | EOTHER.

#[export] Instance errno_eq_dec : EqDecision errno.
Proof. solve_decision. Defined.

(** What the machine decides about one system call. *)
Inductive event : Type :=
  | EvOk                 (* succeed, and transfer as much as possible *)
  | EvShort (n : nat)    (* transfer at most [1 + n] bytes *)
  | EvErr (e : errno).   (* fail *)

(** A pointer is a block and an offset; [NULL] is [None]. *)
Definition ptr : Type := Z * Z.

(** [struct iovec]. *)
Record iovec := IOV { iov_base : option ptr; iov_len : Z }.

(** A buffer a caller hands in: [NULL], or memory with these contents. *)
Definition cbuf : Type := option bytes.

(** An open file description; [fd_pos] is the offset [read] and [write] use. *)
Record fdesc := FDesc {
  fd_inode : Z;
  fd_pos : Z;
  fd_append : bool;   (* O_APPEND *)
  fd_write : bool;    (* O_RDWR, not O_RDONLY *)
}.

(** The flags of [open] that occur in the sources. *)
Record oflags := OFlags { o_creat : bool; o_rdwr : bool; o_append : bool }.

Record kernel := Kernel {
  k_dir : gmap string Z;        (* path names of regular files *)
  k_inodes : gmap Z bytes;      (* their contents *)
  k_fds : gmap Z fdesc;
  k_next_fd : Z;
  k_next_ino : Z;
  k_events : list event;
  k_clock : list Z;             (* what time(NULL) returns; then 0 *)
}.

Record env := Env {
  e_heap : gmap Z bytes;        (* live blocks *)
  e_brk : Z;                    (* every address so far is below *)
  e_malloc : list bool;         (* does the next malloc succeed; then yes *)
  e_kernel : kernel;
  e_errno : ccask_error_e;      (* ccask_errno *)
}.

Definition set_heap (h : gmap Z bytes) (e : env) : env :=
  Env h (e_brk e) (e_malloc e) (e_kernel e) (e_errno e).
Definition set_kernel (k : kernel) (e : env) : env :=
  Env (e_heap e) (e_brk e) (e_malloc e) k (e_errno e).
Definition set_err (x : ccask_error_e) (e : env) : env :=
  Env (e_heap e) (e_brk e) (e_malloc e) (e_kernel e) x.
Definition set_events (l : list event) (k : kernel) : kernel :=
  Kernel (k_dir k) (k_inodes k) (k_fds k) (k_next_fd k) (k_next_ino k) l (k_clock k).
Definition set_inodes (m : gmap Z bytes) (k : kernel) : kernel :=
  Kernel (k_dir k) m (k_fds k) (k_next_fd k) (k_next_ino k) (k_events k) (k_clock k).
Definition set_dir (m : gmap string Z) (k : kernel) : kernel :=
  Kernel m (k_inodes k) (k_fds k) (k_next_fd k) (k_next_ino k) (k_events k) (k_clock k).
Definition set_fds (m : gmap Z fdesc) (k : kernel) : kernel :=
  Kernel (k_dir k) (k_inodes k) m (k_next_fd k) (k_next_ino k) (k_events k) (k_clock k).

Definition set_ccask_errno (x : ccask_error_e) : M env unit := modify (set_err x).

(** ** The heap *)

(** [malloc(n)] and [calloc]: a fresh block, or [NULL]. *)
Definition malloc (n : Z) : M env (option Z) := λ e,
  let l := tail (e_malloc e) in
  if default true (head (e_malloc e))
  then Ret (Some (e_brk e))
         (Env (<[e_brk e := zeros n]> (e_heap e)) (e_brk e + 1) l (e_kernel e) (e_errno e))
  else Ret None (Env (e_heap e) (e_brk e) l (e_kernel e) (e_errno e)).

(** [free(p)]: [NULL] is allowed; anything else is the start of a live block. *)
Definition free (p : option ptr) : M env unit := λ e,
  match p with
  | None => Ret tt e
  | Some (a, off) =>
      if bool_decide (off = 0 ∧ is_Some (e_heap e !! a))
      then Ret tt (set_heap (delete a (e_heap e)) e)
      else Undef
  end.

Definition base_ptr (a : option Z) : option ptr := (λ a, (a, 0)) <$> a.

(** The [n] bytes at [p]: [None] when one of them is outside a live block. *)
Definition mem_read (h : gmap Z bytes) (p : option ptr) (n : Z) : option bytes :=
  if bool_decide (n = 0) then Some []
  else
    '(a, off) ← p;
    blk ← h !! a;
    if bool_decide (0 ≤ off ∧ 0 ≤ n ∧ off + n ≤ zlen blk)
    then Some (slice off n blk) else None.

(** The heap after the bytes [d] are stored at [p]. *)
Definition mem_write (h : gmap Z bytes) (p : option ptr) (d : bytes) : option (gmap Z bytes) :=
  if bool_decide (d = []) then Some h
  else
    '(a, off) ← p;
    blk ← h !! a;
    if bool_decide (0 ≤ off ∧ off + zlen d ≤ zlen blk)
    then Some (<[a := splice off d blk]> h) else None.

Definition load (p : option ptr) (n : Z) : M env bytes :=
  e ← get; deref (mem_read (e_heap e) p n).
Definition store (p : option ptr) (d : bytes) : M env unit :=
  e ← get; h ← deref (mem_write (e_heap e) p d); modify (set_heap h).

(** [p + n]. *)
Definition ptr_add (p : option ptr) (n : Z) : option ptr :=
  (λ '(a, off), (a, off + n)) <$> p.

(** Reading [n] bytes of a caller's buffer, as [memcpy] does. *)
Definition cbuf_read (b : cbuf) (n : Z) : option bytes :=
  if bool_decide (n = 0) then Some []
  else d ← b; if bool_decide (0 ≤ n ≤ zlen d) then Some (take (Z.to_nat n) d) else None.

(** ** Scatter and gather over an array of [struct iovec] *)

Definition iov_total (l : list iovec) : Z := foldr (λ v n, iov_len v + n) 0 l.

Fixpoint gather (h : gmap Z bytes) (l : list iovec) : option bytes :=
  match l with
  | [] => Some []
  | v :: l' =>
      d ← mem_read h (iov_base v) (iov_len v); r ← gather h l'; Some (d ++ r)
  end.

(** The heap after [d] has been distributed over the buffers, in order. *)
Fixpoint scatter (h : gmap Z bytes) (l : list iovec) (d : bytes) : option (gmap Z bytes) :=
  match l with
  | [] => Some h
  | v :: l' =>
      let n := Z.to_nat (iov_len v) in
      h' ← mem_write h (iov_base v) (take n d); scatter h' l' (drop n d)
  end.

(** ** System calls: a count or an error number *)

Definition next_event : M env event := λ e,
  let l := k_events (e_kernel e) in
  Ret (default EvOk (head l)) (set_kernel (set_events (tail l) (e_kernel e)) e).

(** How many of [n] bytes a transfer moves: all, or a part that is not empty. *)
Definition transfer (ev : event) (n : nat) : nat :=
  match ev with EvShort k => Nat.min (S k) n | _ => n end.

Definition file_content (k : kernel) (ino : Z) : bytes := default [] (k_inodes k !! ino).

(** [data] written at [off]; a gap before it is filled with zeros. *)
Definition file_write (off : Z) (data content : bytes) : bytes :=
  splice off data (content ++ zeros (off - zlen content)).

(** [writev], and [pwritev] with [Some off].  On a descriptor opened with
    [O_APPEND] the data goes to the end of the file, whatever the offset. *)
Definition sys_writev (fd : Z) (iov : list iovec) (offset : option Z) : M env (Z + errno) :=
  ev ← next_event;
  e ← get;
  match ev with
  | EvErr x => mret (inr x)
  | _ =>
    match k_fds (e_kernel e) !! fd with
    | None => mret (inr EBADF)
    | Some d =>
      if bool_decide (default 0 offset < 0) then mret (inr EINVAL)
      else if fd_write d then
        data ← deref (gather (e_heap e) iov);
        let n := transfer ev (length data) in
        let k := e_kernel e in
        let old := file_content k (fd_inode d) in
        let off := if fd_append d then zlen old else default (fd_pos d) offset in
        let k' := set_inodes
          (<[fd_inode d := file_write off (take n data) old]> (k_inodes k)) k in
        let k'' := match offset with
          | Some _ => k'
          | None => set_fds (<[fd := FDesc (fd_inode d) (off + Z.of_nat n)
                                (fd_append d) (fd_write d)]> (k_fds k)) k'
          end in
        _ ← modify (set_kernel k'');
        mret (inl (Z.of_nat n))
      else mret (inr EBADF)
    end
  end.
Definition writev (fd : Z) (iov : list iovec) := sys_writev fd iov None.
Definition pwritev (fd : Z) (iov : list iovec) (offset : Z) := sys_writev fd iov (Some offset).

(** [readv], and [preadv] with [Some off]; a negative offset is refused. *)
Definition sys_readv (fd : Z) (iov : list iovec) (offset : option Z) : M env (Z + errno) :=
  ev ← next_event;
  e ← get;
  match ev with
  | EvErr x => mret (inr x)
  | _ =>
    match k_fds (e_kernel e) !! fd with
    | None => mret (inr EBADF)
    | Some d =>
      if bool_decide (default 0 offset < 0) then mret (inr EINVAL)
      else
        let k := e_kernel e in
        let off := default (fd_pos d) offset in
        let data := slice off (iov_total iov) (file_content k (fd_inode d)) in
        let n := transfer ev (length data) in
        h ← deref (scatter (e_heap e) iov (take n data));
        let k' := match offset with
          | Some _ => k
          | None => set_fds (<[fd := FDesc (fd_inode d) (off + Z.of_nat n)
                                (fd_append d) (fd_write d)]> (k_fds k)) k
          end in
        _ ← modify (λ e, set_kernel k' (set_heap h e));
        mret (inl (Z.of_nat n))
    end
  end.
Definition readv (fd : Z) (iov : list iovec) := sys_readv fd iov None.
Definition preadv (fd : Z) (iov : list iovec) (offset : Z) := sys_readv fd iov (Some offset).
Definition pread (fd : Z) (buf : option ptr) (n offset : Z) :=
  preadv fd [IOV buf n] offset.

(** [lseek(fd, 0, SEEK_END)]: the size of the file, or [-1]. *)
Definition lseek_end (fd : Z) : M env Z :=
  ev ← next_event;
  e ← get;
  let k := e_kernel e in
  match ev, k_fds k !! fd with
  | EvErr _, _ | _, None => mret (-1)
  | _, Some d =>
      let n := zlen (file_content k (fd_inode d)) in
      _ ← modify (set_kernel (set_fds
            (<[fd := FDesc (fd_inode d) n (fd_append d) (fd_write d)]> (k_fds k)) k));
      mret n
  end.

(** [open]: a new descriptor.  With [O_CREAT] a missing file is created. *)
Definition sys_open (path : string) (fl : oflags) : M env (Z + errno) :=
  ev ← next_event;
  e ← get;
  let k := e_kernel e in
  match ev with
  | EvErr x => mret (inr x)
  | _ =>
    match k_dir k !! path with
    | Some ino =>
        let d := FDesc ino 0 (o_append fl) (o_rdwr fl) in
        _ ← modify (set_kernel (Kernel (k_dir k) (k_inodes k) (<[k_next_fd k := d]> (k_fds k))
              (k_next_fd k + 1) (k_next_ino k) (k_events k) (k_clock k)));
        mret (inl (k_next_fd k))
    | None =>
        if o_creat fl then
          let ino := k_next_ino k in
          let d := FDesc ino 0 (o_append fl) (o_rdwr fl) in
          _ ← modify (set_kernel (Kernel (<[path := ino]> (k_dir k)) (<[ino := []]> (k_inodes k))
                (<[k_next_fd k := d]> (k_fds k)) (k_next_fd k + 1) (ino + 1)
                (k_events k) (k_clock k)));
          mret (inl (k_next_fd k))
        else mret (inr ENOENT)
    end
  end.

(** [close], whose result the sources never look at. *)
Definition sys_close (fd : Z) : M env unit :=
  modify (λ e, set_kernel (set_fds (delete fd (k_fds (e_kernel e))) (e_kernel e)) e).

(** [unlink] and [rename]: [None], or the error number. *)
Definition sys_unlink (path : string) : M env (option errno) :=
  ev ← next_event;
  e ← get;
  let k := e_kernel e in
  match ev, k_dir k !! path with
  | EvErr x, _ => mret (Some x)
  | _, None => mret (Some ENOENT)
  | _, Some _ => _ ← modify (set_kernel (set_dir (delete path (k_dir k)) k)); mret None
  end.

Definition sys_rename (from to : string) : M env (option errno) :=
  ev ← next_event;
  e ← get;
  let k := e_kernel e in
  match ev, k_dir k !! from with
  | EvErr x, _ => mret (Some x)
  | _, None => mret (Some ENOENT)
  | _, Some ino =>
      _ ← modify (set_kernel (set_dir (<[to := ino]> (delete from (k_dir k))) k)); mret None
  end.

(** [access(path, F_OK) == 0]. *)
Definition path_exists (path : string) : M env bool :=
  gets (λ e, bool_decide (is_Some (k_dir (e_kernel e) !! path))).

(** [time(NULL)]. *)
Definition time : M env Z := λ e,
  let k := e_kernel e in
  Ret (default 0 (head (k_clock k)))
    (set_kernel (Kernel (k_dir k) (k_inodes k) (k_fds k) (k_next_fd k)
                   (k_next_ino k) (k_events k) (tail (k_clock k))) e).

(** [pthread_create]: whether the thread was started. *)
Definition thread_started : M env bool :=
  ev ← next_event; mret (match ev with EvErr _ => false | _ => true end).

(** ** Lemmas: memory *)

Section memory.
Implicit Types (h : gmap Z bytes) (p : option ptr) (d : bytes).

Lemma mem_read_zlen h p n d : mem_read h p n = Some d → zlen d = n.
Proof.
  unfold mem_read. case_bool_decide as Hn; [by intros [= <-]|].
  destruct p as [[a off]|]; [|done]. simpl.
  destruct (h !! a) as [blk|]; [|done]. simpl.
  case_bool_decide; [|done]. intros [= <-]. apply zlen_slice; lia.
Qed.

Lemma mem_read_add h p n d k :
  mem_read h p n = Some d → 0 ≤ k ≤ n →
  mem_read h (ptr_add p k) (n - k) = Some (drop (Z.to_nat k) d).
Proof.
  intros Hr Hk. pose proof (mem_read_zlen _ _ _ _ Hr) as Hd. unfold zlen in Hd.
  unfold mem_read in *. case_bool_decide as Hn; case_bool_decide as Hn'.
  - injection Hr as <-. by rewrite drop_nil.
  - lia.
  - f_equal. rewrite drop_ge; [done | lia].
  - destruct p as [[a off]|]; [|done]. simpl in *.
    destruct (h !! a) as [blk|]; [|done]. simpl in *.
    case_bool_decide; [|done]. injection Hr as <-.
    rewrite bool_decide_eq_true_2 by lia. f_equal. unfold slice.
    rewrite skipn_firstn_comm, drop_drop. f_equal; [lia|f_equal; lia].
Qed.

Lemma mem_write_nil h p : mem_write h p [] = Some h.
Proof. reflexivity. Qed.

(** Writing two pieces one after the other is writing them together. *)
Lemma mem_write_app h p d1 d2 :
  mem_write h p (d1 ++ d2) =
  (h1 ← mem_write h p d1; mem_write h1 (ptr_add p (zlen d1)) d2).
Proof.
  unfold mem_write.
  destruct (decide (d1 = [])) as [->|H1].
  { rewrite (bool_decide_eq_true_2 (_ = _) eq_refl). simpl.
    case_bool_decide; [done|].
    destruct p as [[a off]|]; [|done]. simpl. by rewrite (zlen_nil (A := byte)), Z.add_0_r. }
  destruct (decide (d2 = [])) as [->|H2].
  { rewrite app_nil_r, (bool_decide_eq_false_2 _ H1).
    destruct p as [[a off]|]; [|done]. simpl.
    destruct (h !! a); simpl; [|done]. by case_bool_decide. }
  assert (d1 ++ d2 ≠ []) as H12 by (by destruct d1).
  rewrite (bool_decide_eq_false_2 _ H12), (bool_decide_eq_false_2 _ H1),
    (bool_decide_eq_false_2 _ H2).
  destruct p as [[a off]|]; [|done]. simpl.
  destruct (h !! a) as [blk|] eqn:Ha; simpl; [|done].
  pose proof (zlen_nonneg d1). pose proof (zlen_nonneg d2).
  rewrite zlen_app.
  destruct (decide (0 ≤ off ∧ off + zlen d1 ≤ zlen blk)) as [Hok|Hko].
  2: { rewrite !bool_decide_eq_false_2 by lia. done. }
  rewrite (bool_decide_eq_true_2 _ Hok). simpl.
  rewrite lookup_insert_eq. simpl.
  rewrite zlen_splice by lia.
  destruct (decide (off + zlen d1 + zlen d2 ≤ zlen blk)) as [Hle|Hgt].
  - rewrite !bool_decide_eq_true_2 by lia.
    f_equal. rewrite insert_insert_eq, splice_splice by lia. done.
  - by rewrite !bool_decide_eq_false_2 by lia.
Qed.

(** The sizes of the blocks: what pointer validity depends on. *)
Definition sizes h : gmap Z Z := zlen <$> h.

Lemma sizes_lookup h h' a : sizes h = sizes h' → zlen <$> h !! a = zlen <$> h' !! a.
Proof.
  intros H%(f_equal (.!! a)). unfold sizes in H. by rewrite !lookup_fmap in H.
Qed.

Lemma mem_read_sizes h h' p n :
  sizes h = sizes h' → is_Some (mem_read h p n) → is_Some (mem_read h' p n).
Proof.
  intros Hs. unfold mem_read. case_bool_decide; [eauto|].
  destruct p as [[a off]|]; [|done]. simpl.
  pose proof (sizes_lookup _ _ a Hs) as Ha.
  destruct (h !! a) as [blk|], (h' !! a) as [blk'|]; simpl in *; try done.
  injection Ha as ->. case_bool_decide; [eauto | by intros []].
Qed.

Lemma mem_write_sizes h h' p d : mem_write h p d = Some h' → sizes h' = sizes h.
Proof.
  unfold mem_write. case_bool_decide; [by intros [= ->]|].
  destruct p as [[a off]|]; [|done]. simpl.
  destruct (h !! a) as [blk|] eqn:Ha; simpl; [|done].
  case_bool_decide; [|done]. intros [= <-]. unfold sizes.
  rewrite fmap_insert, zlen_splice by lia. apply insert_id.
  by rewrite lookup_fmap, Ha.
Qed.

(** A buffer that can be read can be written. *)
Lemma mem_write_is_Some h p n d :
  is_Some (mem_read h p n) → zlen d ≤ n → is_Some (mem_write h p d).
Proof.
  unfold mem_read, mem_write. pose proof (zlen_nonneg d).
  intros Hr Hd. case_bool_decide as Hn.
  { subst n. destruct d; [by eauto | zlen_lia]. }
  destruct p as [[a off]|]; [|by destruct Hr]. simpl in *.
  case_bool_decide; [eauto|].
  destruct (h !! a) as [blk|]; [|by destruct Hr]. simpl in *.
  case_bool_decide; [|by destruct Hr].
  rewrite bool_decide_eq_true_2 by lia. eauto.
Qed.

Lemma mem_write_other h h' a off d b :
  mem_write h (Some (a, off)) d = Some h' → a ≠ b → h' !! b = h !! b.
Proof.
  unfold mem_write. case_bool_decide; [by intros [= ->]|]. simpl.
  destruct (h !! a); simpl; [|done]. case_bool_decide; [|done].
  intros [= <-] ?. by rewrite lookup_insert_ne.
Qed.

(** Filling a whole block. *)
Lemma mem_write_block h a blk d :
  h !! a = Some blk → zlen d = zlen blk →
  mem_write h (Some (a, 0)) d = Some (<[a := d]> h).
Proof.
  intros Ha Hd. unfold mem_write. case_bool_decide as Hnil.
  - subst d. destruct blk; [|unfold zlen in *; simpl in *; lia].
    by rewrite insert_id.
  - simpl. rewrite Ha. simpl. rewrite bool_decide_eq_true_2 by lia.
    by rewrite splice_full.
Qed.

Lemma mem_read_block h a blk :
  h !! a = Some blk → mem_read h (Some (a, 0)) (zlen blk) = Some blk.
Proof.
  intros Ha. unfold mem_read. case_bool_decide as Hz.
  - destruct blk; [done | unfold zlen in *; simpl in *; lia].
  - simpl. rewrite Ha. simpl. pose proof (zlen_nonneg blk).
    rewrite bool_decide_eq_true_2 by lia. by rewrite slice_full.
Qed.

Lemma mem_read_slice h a blk off n :
  h !! a = Some blk → 0 ≤ off → 0 ≤ n → off + n ≤ zlen blk →
  mem_read h (Some (a, off)) n = Some (slice off n blk).
Proof.
  intros Ha ???. unfold mem_read. case_bool_decide as Hz.
  - by rewrite Hz, slice_zero.
  - simpl. rewrite Ha. simpl. by rewrite bool_decide_eq_true_2 by lia.
Qed.
End memory.

(** ** Lemmas: system calls

    An input or output call changes the heap or the contents of files, moves
    file positions, uses up events and may set the error variable: [io_frame]
    says that it changes nothing else.  The positions do not matter to a
    descriptor opened with [O_APPEND], nor to [preadv], so descriptors are
    compared through [fd_view]. *)

Definition fd_view (m : gmap Z fdesc) : gmap Z (Z * bool * bool) :=
  (λ d, (fd_inode d, fd_append d, fd_write d)) <$> m.

(** Descriptor [fd] refers to the file [ino]. *)
Definition fd_opened (e : env) (fd ino : Z) (app wr : bool) : Prop :=
  fd_view (k_fds (e_kernel e)) !! fd = Some (ino, app, wr).

(** An event after which the loops of [utils.c] do not give up. *)
Definition benign (ev : event) : bool :=
  match ev with EvErr (EINTR | EAGAIN | EWOULDBLOCK) | EvOk | EvShort _ => true | _ => false end.

Definition events (e : env) : list event := k_events (e_kernel e).
Definition inodes (e : env) : gmap Z bytes := k_inodes (e_kernel e).

Definition io_frame (e e' : env) (h : gmap Z bytes) (m : gmap Z bytes) : Prop :=
  ∃ fds evs x,
    fd_view fds = fd_view (k_fds (e_kernel e)) ∧
    evs `suffix_of` events e ∧
    e' = Env h (e_brk e) (e_malloc e)
           (Kernel (k_dir (e_kernel e)) m fds (k_next_fd (e_kernel e))
              (k_next_ino (e_kernel e)) evs (k_clock (e_kernel e))) x.

Lemma io_frame_refl e : io_frame e e (e_heap e) (inodes e).
Proof.
  exists (k_fds (e_kernel e)), (events e), (e_errno e).
  split_and!; [done | done | by destruct e as [???[]?]].
Qed.

Lemma io_frame_trans e e1 e2 h1 m1 h2 m2 :
  io_frame e e1 h1 m1 → io_frame e1 e2 h2 m2 → io_frame e e2 h2 m2.
Proof.
  intros (f1 & v1 & x1 & Hf1 & Hv1 & ->) (f2 & v2 & x2 & Hf2 & Hv2 & ->).
  exists f2, v2, x2. split_and!; [by rewrite Hf2 | by etrans | done].
Qed.

Lemma io_frame_err e e' h m x : io_frame e e' h m → io_frame e (set_err x e') h m.
Proof. intros (f & v & y & ?&?&->). by exists f, v, x. Qed.

Lemma io_frame_heap e e' h m : io_frame e e' h m → e_heap e' = h.
Proof. by intros (?&?&?&?&?&->). Qed.
Lemma io_frame_inodes e e' h m : io_frame e e' h m → inodes e' = m.
Proof. by intros (?&?&?&?&?&->). Qed.
Lemma io_frame_fd e e' h m fd ino app wr :
  io_frame e e' h m → fd_opened e fd ino app wr → fd_opened e' fd ino app wr.
Proof. intros (?&?&?&Hf&?&->). unfold fd_opened. simpl. by rewrite Hf. Qed.
Lemma io_frame_events e e' h m : io_frame e e' h m → events e' `suffix_of` events e.
Proof. by intros (?&?&?&?&?&->). Qed.
Lemma io_frame_benign e e' h m :
  io_frame e e' h m → Forall benign (events e) → Forall benign (events e').
Proof. intros [k Hk]%io_frame_events. rewrite Hk, Forall_app. naive_solver. Qed.
#[export] Hint Resolve io_frame_refl io_frame_err io_frame_fd io_frame_benign : ccask.

Lemma transfer_bounds ev n : (transfer ev n ≤ n)%nat ∧ (0 < n → 0 < transfer ev n)%nat.
Proof. unfold transfer. destruct ev; lia. Qed.

Lemma fd_opened_lookup e fd ino app wr :
  fd_opened e fd ino app wr ↔
  ∃ pos, k_fds (e_kernel e) !! fd = Some (FDesc ino pos app wr).
Proof.
  unfold fd_opened, fd_view. rewrite lookup_fmap. split.
  - destruct (k_fds (e_kernel e) !! fd) as [[i p a w]|]; simpl; [|done].
    intros [= -> -> ->]. eauto.
  - by intros [pos ->].
Qed.

Lemma fd_view_insert m fd ino pos pos' app wr :
  m !! fd = Some (FDesc ino pos app wr) →
  fd_view (<[fd := FDesc ino pos' app wr]> m) = fd_view m.
Proof.
  intros Hm. unfold fd_view. rewrite fmap_insert. apply insert_id.
  by rewrite lookup_fmap, Hm.
Qed.

Lemma file_write_append d old : file_write (zlen old) d old = old ++ d.
Proof.
  unfold file_write, splice. rewrite Z.sub_diag. unfold zeros. simpl.
  rewrite app_nil_r. unfold zlen. rewrite Nat2Z.id, firstn_all.
  rewrite drop_ge by lia. by rewrite app_nil_r.
Qed.

(** The state after the next event is taken. *)
Definition pop_event (e : env) : env :=
  set_kernel (set_events (tail (events e)) (e_kernel e)) e.

Lemma wp_next_event e (Q : event → env → Prop) :
  wp next_event e Q = Q (default EvOk (head (events e))) (pop_event e).
Proof. reflexivity. Qed.

(** Every event that is there to take is one fewer afterwards. *)
Lemma pop_event_progress e :
  events e = [] ∨ (length (events (pop_event e)) < length (events e))%nat.
Proof. unfold pop_event, events. simpl. destruct (k_events _); simpl; [by left | right; lia]. Qed.

Lemma tail_suffix {A} (l : list A) : tail l `suffix_of` l.
Proof. destruct l; [done | by apply suffix_cons_r]. Qed.

Lemma head_EvErr (l : list event) x :
  default EvOk (head l) = EvErr x → l = EvErr x :: tail l.
Proof. destruct l; simpl; congruence. Qed.

(** One call of [writev] or [pwritev] on a file opened for appending. *)
Lemma sys_writev_append e fd iov off ino old data :
  fd_opened e fd ino true true → inodes e !! ino = Some old →
  gather (e_heap e) iov = Some data → 0 ≤ default 0 off →
  wp (sys_writev fd iov off) e (λ r e',
    match r with
    | inl z => ∃ n, z = Z.of_nat n ∧ (n ≤ length data)%nat ∧
        (0 < length data → 0 < n)%nat ∧
        (n = length data ∨ length (events e') < length (events e))%nat ∧
        io_frame e e' (e_heap e) (<[ino := old ++ take n data]> (inodes e))
    | inr x => io_frame e e' (e_heap e) (inodes e) ∧ events e = EvErr x :: events e'
    end).
Proof.
  intros [pos Hfd]%fd_opened_lookup Hino Hg Hoff.
  unfold sys_writev. rewrite wp_bind, wp_next_event, wp_bind, wp_get.
  destruct (default EvOk (head (events e))) as [|k|x] eqn:Hev.
  3: { rewrite wp_ret. split; [|by apply head_EvErr].
       exists (k_fds (e_kernel e)), (tail (events e)), (e_errno e).
       split_and!; [done | apply tail_suffix | done]. }
  all: simpl; rewrite Hfd; rewrite bool_decide_eq_false_2 by lia; simpl.
  all: rewrite wp_bind, Hg, wp_deref_Some, wp_bind, wp_modify, wp_ret.
  all: unfold file_content; simpl; fold (inodes e); rewrite Hino; simpl.
  all: rewrite file_write_append.
  all: destruct (transfer_bounds (default EvOk (head (events e))) (length data)) as [Hn1 Hn2].
  all: rewrite Hev in Hn1, Hn2.
  all: eexists; split; [reflexivity|]; split_and!; [exact Hn1 | exact Hn2 | |].
  1: by left.
  2: { right. destruct (pop_event_progress e) as [H0|H0].
       - by rewrite H0 in Hev.
       - destruct off; exact H0. }
  all: destruct off; eexists _, (tail (events e)), (e_errno e);
    (split_and!; [ | apply tail_suffix | reflexivity]); [done | by eapply fd_view_insert].
Qed.

(** ** Lemmas: allocation *)

(** Every live block is below the next address. *)
Definition heap_wf (e : env) : Prop :=
  ∀ a, is_Some (e_heap e !! a) → a < e_brk e.

(** The next [n] allocations succeed. *)
Definition mallocs_ok (n : nat) (e : env) : Prop := Forall (λ b, b = true) (take n (e_malloc e)).

(** The state after a block with contents [d] has been allocated. *)
Definition put_block (d : bytes) (e : env) : env :=
  Env (<[e_brk e := d]> (e_heap e)) (e_brk e + 1) (tail (e_malloc e)) (e_kernel e) (e_errno e).

(** The state after an allocation has failed. *)
Definition fail_malloc (e : env) : env :=
  Env (e_heap e) (e_brk e) (tail (e_malloc e)) (e_kernel e) (e_errno e).

Lemma malloc_ok n e :
  default true (head (e_malloc e)) = true →
  malloc n e = Ret (Some (e_brk e)) (put_block (zeros n) e).
Proof. intros H. unfold malloc. by rewrite H. Qed.

Lemma malloc_null n e :
  default true (head (e_malloc e)) = false →
  malloc n e = Ret None (fail_malloc e).
Proof. intros H. unfold malloc. by rewrite H. Qed.

Lemma mallocs_ok_S n e d :
  mallocs_ok (S n) e →
  default true (head (e_malloc e)) = true ∧ mallocs_ok n (put_block d e).
Proof.
  unfold mallocs_ok. simpl. destruct (e_malloc e) as [|b l]; simpl.
  - intros _. split; [done|]. by rewrite take_nil.
  - by intros [? ?]%Forall_cons.
Qed.

Lemma heap_wf_put d e : heap_wf e → heap_wf (put_block d e).
Proof.
  intros H a. simpl. rewrite lookup_insert. case_decide; [lia|].
  intros Ha%H. lia.
Qed.
#[export] Hint Resolve heap_wf_put : ccask.

Lemma heap_wf_fresh e a : heap_wf e → e_brk e ≤ a → e_heap e !! a = None.
Proof. intros H ?. apply eq_None_not_Some. intros ?%H. lia. Qed.

Lemma store_run e a off d blk :
  e_heap e !! a = Some blk → 0 ≤ off → off + zlen d ≤ zlen blk →
  store (Some (a, off)) d e = Ret tt (set_heap (<[a := splice off d blk]> (e_heap e)) e).
Proof.
  intros Ha ? ?. unfold store, mbind, M_bind, get. simpl. unfold mem_write.
  case_bool_decide as Hd.
  - subst d. rewrite splice_nil, insert_id by done. reflexivity.
  - simpl. rewrite Ha. simpl. by rewrite bool_decide_eq_true_2 by lia.
Qed.

Lemma load_run e a off n blk :
  e_heap e !! a = Some blk → 0 ≤ off → 0 ≤ n → off + n ≤ zlen blk →
  load (Some (a, off)) n e = Ret (slice off n blk) e.
Proof.
  intros Ha ???. unfold load, mbind, M_bind, get. simpl.
  by rewrite (mem_read_slice _ _ blk).
Qed.

Lemma free_run e a :
  is_Some (e_heap e !! a) → free (Some (a, 0)) e = Ret tt (set_heap (delete a (e_heap e)) e).
Proof. intros. simpl. by rewrite bool_decide_eq_true_2. Qed.

(** ** Read-write locks

    [pthread_rwlock_t]: how many readers hold it, and whether a writer does.
    Acquiring a lock that is held the wrong way blocks; releasing a lock that
    nobody holds is undefined. *)

Record rwlock := RWLock { rw_readers : nat; rw_writer : bool }.

Definition rwlock_new : rwlock := RWLock 0 false.

Definition rdlock {S : Type} (l : rwlock) : M S rwlock :=
  if rw_writer l then blocked else mret (RWLock (1 + rw_readers l) false).
Definition wrlock {S : Type} (l : rwlock) : M S rwlock :=
  if rw_writer l then blocked
  else match rw_readers l with O => mret (RWLock 0 true) | _ => blocked end.
Definition rwunlock {S : Type} (l : rwlock) : M S rwlock :=
  if rw_writer l then mret (RWLock (rw_readers l) false)
  else match rw_readers l with O => undef | Datatypes.S n => mret (RWLock n false) end.
