(* ===== verification/SafeIO.v ===== *)
(** * SafeIO: the retrying input and output loops of [utils.c]

    [safe_writev], [safe_readv], [safe_pwritev], [safe_preadv] and
    [safe_pread]: loops that go on after a short transfer or an interruption.
    The array [local_iov] from [current_iov_idx] on is the list of the buffers
    that are left; the inner loop of the four functions is [consume]. *)
From S2P Require Import Prelude Status Posix.

(** The errors after which the loops try again. *)
Definition retriable (x : errno) : bool :=
  match x with EINTR | EAGAIN | EWOULDBLOCK => true | _ => false end.

(** [while (current_iov_idx < iovcnt && nread > 0)]: skip [n] bytes. *)
Fixpoint consume (n : Z) (iov : list iovec) : list iovec :=
  match iov with
  | [] => []
  | v :: rest =>
      if bool_decide (0 < n) then
        if bool_decide (n < iov_len v)
        then IOV (ptr_add (iov_base v) n) (iov_len v - n) :: rest
        else consume (n - iov_len v) rest
      else iov
  end.

(** [while (current_iov_idx < iovcnt)] of the writing functions; [offset] is
    the argument of [safe_pwritev]. *)
Fixpoint write_loop (fuel : nat) (fd : Z) (iov : list iovec)
    (total_written : Z) (offset : option Z) : M env ccask_status_e :=
  match fuel with
  | O => no_fuel
  | S fuel' =>
      match iov with
      | [] => mret CCASK_OK
      | _ :: _ =>
          r ← sys_writev fd iov ((λ off, off + total_written) <$> offset);
          match r with
          | inr x =>
              if retriable x then write_loop fuel' fd iov total_written offset
              else _ ← set_ccask_errno CCASK_ERR_WRITE_FAILED; mret CCASK_FAIL
          | inl nwritten =>
              write_loop fuel' fd (consume nwritten iov) (total_written + nwritten) offset
          end
      end
  end.

(** The same of the reading functions. *)
Fixpoint read_loop (fuel : nat) (fd : Z) (iov : list iovec)
    (total_read : Z) (offset : option Z) : M env ccask_status_e :=
  match fuel with
  | O => no_fuel
  | S fuel' =>
      match iov with
      | [] => mret CCASK_OK
      | _ :: _ =>
          r ← sys_readv fd iov ((λ off, off + total_read) <$> offset);
          match r with
          | inr x =>
              if retriable x then read_loop fuel' fd iov total_read offset
              else _ ← set_ccask_errno CCASK_ERR_READ_FAILED; mret CCASK_FAIL
          | inl nread =>
              if bool_decide (nread = 0)
              then _ ← set_ccask_errno CCASK_ERR_UNEXPECTED_EOF; mret CCASK_FAIL
              else read_loop fuel' fd (consume nread iov) (total_read + nread) offset
          end
      end
  end.

(** [while (to_read > 0)] of [safe_pread]. *)
Fixpoint pread_loop (fuel : nat) (fd : Z) (p : option ptr) (to_read pos : Z) :
    M env ccask_status_e :=
  match fuel with
  | O => no_fuel
  | S fuel' =>
      if bool_decide (0 < to_read) then
        r ← pread fd p to_read pos;
        match r with
        | inr x =>
            if retriable x then pread_loop fuel' fd p to_read pos
            else _ ← set_ccask_errno CCASK_ERR_READ_FAILED; mret CCASK_FAIL
        | inl n =>
            if bool_decide (n = 0)
            then _ ← set_ccask_errno CCASK_ERR_UNEXPECTED_EOF; mret CCASK_FAIL
            else pread_loop fuel' fd (ptr_add p n) (to_read - n) (pos + n)
        end
      else mret CCASK_OK
  end.

Section functions.
Variable fuel : nat.

Definition safe_writev (fd : Z) (iov : list iovec) : M env ccask_status_e :=
  if bool_decide (fd < 0 ∨ iov = []) then mret CCASK_FAIL
  else write_loop fuel fd iov 0 None.

Definition safe_readv (fd : Z) (iov : list iovec) : M env ccask_status_e :=
  if bool_decide (fd < 0 ∨ iov = []) then mret CCASK_FAIL
  else read_loop fuel fd iov 0 None.

Definition safe_pwritev (fd : Z) (iov : list iovec) (offset : Z) : M env ccask_status_e :=
  if bool_decide (fd < 0 ∨ iov = []) then mret CCASK_FAIL
  else write_loop fuel fd iov 0 (Some offset).

Definition safe_preadv (fd : Z) (iov : list iovec) (offset : Z) : M env ccask_status_e :=
  if bool_decide (fd < 0 ∨ iov = []) then mret CCASK_FAIL
  else read_loop fuel fd iov 0 (Some offset).

Definition safe_pread (fd : Z) (buf : option ptr) (len offset : Z) : M env ccask_status_e :=
  if bool_decide (len < 0 ∨ buf = None) then mret CCASK_FAIL
  else pread_loop fuel fd buf len offset.
End functions.

(** ** Scatter and gather against [consume] *)

#[export] Instance iovec_eq_dec : EqDecision iovec.
Proof. solve_decision. Defined.

Definition lens_ok (iov : list iovec) : Prop := Forall (λ v, 0 ≤ iov_len v) iov.

(** The last buffer of the array, if any, is not empty. *)
Definition ends_nonempty (iov : list iovec) : bool :=
  match last iov with Some v => bool_decide (iov_len v ≠ 0) | None => true end.

Section scatter_gather.
Implicit Types (h : gmap Z bytes) (iov : list iovec) (d : bytes).

Lemma iov_total_nonneg iov : lens_ok iov → 0 ≤ iov_total iov.
Proof. induction 1; simpl; unfold iov_total in *; simpl; lia. Qed.

Lemma gather_zlen h iov d : gather h iov = Some d → zlen d = iov_total iov.
Proof.
  revert d. induction iov as [|v iov IH]; intros d; simpl.
  { by intros [= <-]. }
  destruct (mem_read _ _ _) as [d1|] eqn:H1; [|done]. simpl.
  destruct (gather h iov) as [d2|]; [|done]. simpl. intros [= <-].
  apply mem_read_zlen in H1. unfold iov_total in *. simpl.
  rewrite zlen_app, H1. by rewrite (IH _ eq_refl).
Qed.

Lemma gather_lens h iov : is_Some (gather h iov) → lens_ok iov.
Proof.
  induction iov as [|v iov IH]; simpl; [constructor|].
  destruct (mem_read _ _ _) as [d1|] eqn:H1; [|by intros []]. simpl.
  destruct (gather h iov) as [d2|]; [|by intros []]. intros _.
  constructor; [|by apply IH; eauto].
  apply mem_read_zlen in H1. pose proof (zlen_nonneg d1). lia.
Qed.

Lemma consume_0 iov : consume 0 iov = iov.
Proof. by destruct iov. Qed.

Lemma iov_total_consume n iov :
  lens_ok iov → 0 ≤ n ≤ iov_total iov →
  iov_total (consume n iov) = iov_total iov - n ∧ lens_ok (consume n iov).
Proof.
  intros Hl. revert n. induction Hl as [|v iov Hv Hl IH]; intros n Hn.
  { simpl in *. split; [lia | constructor]. }
  unfold iov_total in *. simpl in *.
  repeat case_bool_decide; simpl.
  - split; [lia|]. constructor; [simpl; lia | done].
  - destruct (IH (n - iov_len v)) as [-> ?]; [lia|]. split; [lia | done].
  - split; [lia|]. by constructor.
Qed.

Lemma gather_consume h iov d n :
  gather h iov = Some d → 0 ≤ n ≤ zlen d →
  gather h (consume n iov) = Some (drop (Z.to_nat n) d).
Proof.
  revert d n. induction iov as [|v iov IH]; intros d n; simpl.
  { intros [= <-] ?. by rewrite drop_nil. }
  destruct (mem_read _ _ _) as [d1|] eqn:H1; [|done]. simpl.
  destruct (gather h iov) as [d2|] eqn:H2; [|done]. simpl. intros [= <-] Hn.
  pose proof (mem_read_zlen _ _ _ _ H1) as Hd1.
  repeat case_bool_decide; simpl.
  - erewrite (mem_read_add _ _ _ _ _ H1) by lia. simpl. rewrite H2. simpl.
    f_equal. rewrite drop_app. f_equal.
    replace (_ - _)%nat with 0%nat by zlen_lia. done.
  - rewrite (IH d2) by (done || zlen_lia). f_equal.
    rewrite drop_app_ge by zlen_lia. f_equal. zlen_lia.
  - replace n with 0 by lia. rewrite H1. simpl. by rewrite H2.
Qed.

Lemma scatter_nil h iov : scatter h iov [] = Some h.
Proof.
  induction iov as [|v iov IH]; simpl; [done|].
  rewrite take_nil, drop_nil. simpl. apply IH.
Qed.

(** What is read in two parts is read in one. *)
Lemma scatter_app h iov d1 d2 :
  lens_ok iov →
  scatter h iov (d1 ++ d2) =
  (h1 ← scatter h iov d1; scatter h1 (consume (zlen d1) iov) d2).
Proof.
  intros Hl. revert h d1. induction Hl as [|v iov Hv Hl IH]; intros h d1; [done|].
  simpl. repeat case_bool_decide; simpl.
  - rewrite (take_ge d1) by zlen_lia. rewrite (drop_ge d1) by zlen_lia.
    rewrite take_app_ge, drop_app_ge by zlen_lia.
    rewrite mem_write_app. destruct (mem_write h _ d1) as [h1|]; [|done]. simpl.
    rewrite scatter_nil. simpl.
    replace (Z.to_nat (iov_len v - zlen d1))
      with (Z.to_nat (iov_len v) - length d1)%nat by zlen_lia. done.
  - rewrite take_app_le, drop_app_le by zlen_lia.
    destruct (mem_write h _ _) as [h1|]; [|done]. simpl.
    rewrite IH. destruct (scatter h1 _ _) as [h2|]; [|done]. simpl.
    f_equal. f_equal. zlen_lia.
  - assert (d1 = []) as -> by (destruct d1; [done | zlen_lia]).
    rewrite take_nil, drop_nil. simpl. rewrite scatter_nil. done.
Qed.

Lemma scatter_sizes h iov d h' : scatter h iov d = Some h' → sizes h' = sizes h.
Proof.
  revert h d. induction iov as [|v iov IH]; intros h d; simpl; [by intros [= ->]|].
  destruct (mem_write h _ _) as [h1|] eqn:H1; [|done]. simpl. intros H2.
  rewrite (IH _ _ H2). by eapply mem_write_sizes.
Qed.

(** Blocks no buffer points to are as before. *)
Lemma scatter_other h iov d h' a :
  scatter h iov d = Some h' → Forall (λ v, ∀ p, iov_base v = Some p → p.1 ≠ a) iov →
  h' !! a = h !! a.
Proof.
  revert h d. induction iov as [|v iov IH]; intros h d; simpl; [by intros [= ->]|].
  intros Hsc [Hv Hl]%Forall_cons.
  destruct (mem_write h (iov_base v) _) as [h1|] eqn:Hw; [|done]. simpl in Hsc.
  rewrite (IH _ _ Hsc Hl). destruct (iov_base v) as [[b off]|] eqn:Hb.
  - eapply mem_write_other; [exact Hw|]. intros ->. by apply (Hv (a, off)).
  - unfold mem_write in Hw. case_bool_decide; [by injection Hw as ->|done].
Qed.

Lemma gather_sizes h h' iov :
  sizes h = sizes h' → is_Some (gather h iov) → is_Some (gather h' iov).
Proof.
  intros Hs. induction iov as [|v iov IH]; simpl; [done|].
  pose proof (mem_read_sizes h h' (iov_base v) (iov_len v) Hs) as Hr.
  destruct (mem_read h _ _); [|by intros []]. simpl.
  destruct Hr as [? ->]; [eauto|]. simpl.
  destruct (gather h iov); [|by intros []]. simpl. destruct IH as [? ->]; eauto.
Qed.

(** Buffers that can be read can be filled. *)
Lemma scatter_is_Some h iov d :
  is_Some (gather h iov) → is_Some (scatter h iov d).
Proof.
  revert h d. induction iov as [|v iov IH]; intros h d; simpl; [eauto|].
  destruct (mem_read _ _ _) as [d1|] eqn:H1; [|by intros []]. simpl.
  destruct (gather h iov) as [d2|] eqn:H2; [|by intros []]. intros _.
  pose proof (mem_read_zlen _ _ _ _ H1).
  destruct (mem_write_is_Some h (iov_base v) (iov_len v)
              (take (Z.to_nat (iov_len v)) d)) as [h1 Hw];
    [by eauto | zlen_lia |].
  rewrite Hw. simpl. apply IH.
  apply (gather_sizes h); [|by eauto]. symmetry. by eapply mem_write_sizes.
Qed.

(** *** Arrays whose last buffer is empty or not *)

Lemma ends_nonempty_cons v iov :
  ends_nonempty (v :: iov) =
  match iov with [] => bool_decide (iov_len v ≠ 0) | _ => ends_nonempty iov end.
Proof. by destruct iov. Qed.

Lemma ends_nonempty_total iov :
  lens_ok iov → ends_nonempty iov = true → iov ≠ [] → 0 < iov_total iov.
Proof.
  induction 1 as [|v iov Hv Hl IH]; [done|]. intros He _.
  rewrite ends_nonempty_cons in He. unfold iov_total in *. simpl.
  destruct iov as [|v' iov].
  - apply bool_decide_eq_true in He. simpl. lia.
  - assert (0 < foldr (λ v n, iov_len v + n) 0 (v' :: iov)) by (by apply IH). lia.
Qed.

Lemma ends_nonempty_consume n iov :
  lens_ok iov → 0 ≤ n ≤ iov_total iov → ends_nonempty iov = true →
  ends_nonempty (consume n iov) = true.
Proof.
  intros Hl. revert n. induction Hl as [|v iov Hv Hl IH]; intros n Hn He; [done|].
  unfold iov_total in *. simpl in *. repeat case_bool_decide; [| |done].
  - rewrite ends_nonempty_cons in *. destruct iov; [|done]. simpl.
    apply bool_decide_eq_true. lia.
  - rewrite ends_nonempty_cons in He. destruct iov as [|v' iov]; [done|].
    apply IH; [lia | done].
Qed.

(** An array that ends with an empty buffer is never used up by [consume]. *)
Lemma ends_empty_consume n iov :
  lens_ok iov → 0 ≤ n ≤ iov_total iov → ends_nonempty iov = false →
  ends_nonempty (consume n iov) = false.
Proof.
  intros Hl. revert n. induction Hl as [|v iov Hv Hl IH]; intros n Hn He; [done|].
  unfold iov_total in *. simpl in *. repeat case_bool_decide; [| |done].
  - rewrite ends_nonempty_cons in *. destruct iov; [|done]. simpl.
    apply bool_decide_eq_false in He. lia.
  - rewrite ends_nonempty_cons in He. destruct iov as [|v' iov].
    + apply bool_decide_eq_false in He. simpl in *. lia.
    + apply IH; [lia | done].
Qed.
End scatter_gather.
(** One call of [readv] or [preadv]. *)
Lemma sys_preadv_spec e fd iov off ino app wr content :
  fd_opened e fd ino app wr → inodes e !! ino = Some content →
  is_Some (gather (e_heap e) iov) → 0 ≤ off →
  let data := slice off (iov_total iov) content in
  wp (sys_readv fd iov (Some off)) e (λ r e',
    match r with
    | inl z => ∃ n h', z = Z.of_nat n ∧ (n ≤ length data)%nat ∧
        (0 < length data → 0 < n)%nat ∧
        (n = length data ∨ length (events e') < length (events e))%nat ∧
        scatter (e_heap e) iov (take n data) = Some h' ∧
        io_frame e e' h' (inodes e)
    | inr x => io_frame e e' (e_heap e) (inodes e) ∧ events e = EvErr x :: events e'
    end).
Proof.
  intros [pos Hfd]%fd_opened_lookup Hino Hg Hoff data.
  unfold sys_readv. rewrite wp_bind, wp_next_event, wp_bind, wp_get.
  destruct (default EvOk (head (events e))) as [|k|x] eqn:Hev.
  3: { rewrite wp_ret. split; [|by apply head_EvErr].
       exists (k_fds (e_kernel e)), (tail (events e)), (e_errno e).
       split_and!; [done | apply tail_suffix | done]. }
  all: simpl; rewrite Hfd; rewrite bool_decide_eq_false_2 by lia; simpl.
  all: unfold file_content; simpl; fold (inodes e); rewrite Hino; simpl; fold data.
  all: destruct (transfer_bounds (default EvOk (head (events e))) (length data)) as [Hn1 Hn2].
  all: rewrite Hev in Hn1, Hn2; cbn [transfer] in Hn1, Hn2.
  all: match goal with |- context [scatter _ _ ?d] =>
         destruct (scatter_is_Some (e_heap e) iov d Hg) as [h' Hh'] end.
  all: rewrite wp_bind, Hh', wp_deref_Some, wp_bind, wp_modify, wp_ret.
  all: eexists _, h'; split; [reflexivity|];
    split_and!; [exact Hn1 | exact Hn2 | | exact Hh' |].
  1: by left.
  2: { right. destruct (pop_event_progress e) as [H0|H0].
       - by rewrite H0 in Hev.
       - exact H0. }
  all: eexists _, (tail (events e)), (e_errno e);
    (split_and!; [ | apply tail_suffix | reflexivity]); done.
Qed.

(** ** The loops *)

(** Whether the loop that gave [r] succeeded, or gave up on an error. *)
Lemma benign_retriable x : benign (EvErr x) = retriable x.
Proof. by destruct x. Qed.

Lemma write_loop_S fuel fd iov tot off :
  iov ≠ [] →
  write_loop (S fuel) fd iov tot off =
  (r ← sys_writev fd iov ((λ o, o + tot) <$> off);
   match r with
   | inr x =>
       if retriable x then write_loop fuel fd iov tot off
       else _ ← set_ccask_errno CCASK_ERR_WRITE_FAILED; mret CCASK_FAIL
   | inl n => write_loop fuel fd (consume n iov) (tot + n) off
   end).
Proof. by destruct iov. Qed.

Lemma read_loop_S fuel fd iov tot off :
  iov ≠ [] →
  read_loop (S fuel) fd iov tot off =
  (r ← sys_readv fd iov ((λ o, o + tot) <$> off);
   match r with
   | inr x =>
       if retriable x then read_loop fuel fd iov tot off
       else _ ← set_ccask_errno CCASK_ERR_READ_FAILED; mret CCASK_FAIL
   | inl n =>
       if bool_decide (n = 0)
       then _ ← set_ccask_errno CCASK_ERR_UNEXPECTED_EOF; mret CCASK_FAIL
       else read_loop fuel fd (consume n iov) (tot + n) off
   end).
Proof. by destruct iov. Qed.

(** Writing to a file opened for appending, when the last buffer is not empty:
    the loop ends; what has been appended is a prefix of the data, all of it
    when the result is [CCASK_OK]; and nothing but an error other than an
    interruption makes it fail. *)
Lemma write_loop_spec fuel fd iov tot off e ino old data :
  fd_opened e fd ino true true → inodes e !! ino = Some old →
  gather (e_heap e) iov = Some data → ends_nonempty iov = true →
  0 ≤ default 0 off → 0 ≤ tot →
  (length (events e) + length data < fuel)%nat →
  wp (write_loop fuel fd iov tot off) e (λ r e', ∃ n, (n ≤ length data)%nat ∧
    io_frame e e' (e_heap e) (<[ino := old ++ take n data]> (inodes e)) ∧
    (r = CCASK_OK ∧ n = length data ∨
     r = CCASK_FAIL ∧ (n < length data)%nat ∧ e_errno e' = CCASK_ERR_WRITE_FAILED ∧
       ¬ Forall benign (events e))).
Proof.
  revert e iov tot old data.
  induction fuel as [|fuel IH]; intros e iov tot old data Hfd Hino Hg Hne Hoff Htot Hfuel;
    [lia|].
  destruct (decide (iov = [])) as [->|Hnil].
  { injection Hg as <-. simpl. rewrite wp_ret. exists 0%nat. split; [done|]. split; [|by left].
    rewrite take_0, app_nil_r, insert_id by done. apply io_frame_refl. }
  assert (0 < length data)%nat as Hlen.
  { pose proof (gather_zlen _ _ _ Hg) as Hz. unfold zlen in Hz.
    pose proof (ends_nonempty_total iov (gather_lens _ _ (ex_intro _ _ Hg)) Hne Hnil).
    lia. }
  rewrite write_loop_S, wp_bind by done. eapply wp_mono.
  { eapply sys_writev_append; [done..|]. destruct off; simpl in *; lia. }
  intros [z|x] e1 Hr; simpl in *.
  - destruct Hr as (n & -> & Hn & Hpos & Hprog & Hfr).
    eapply wp_mono.
    { eapply (IH e1 _ _ (old ++ take n data) (drop n data)).
      - by eapply io_frame_fd.
      - rewrite (io_frame_inodes _ _ _ _ Hfr). apply lookup_insert_eq.
      - rewrite (io_frame_heap _ _ _ _ Hfr).
        rewrite (gather_consume _ _ data); [|done|zlen_lia]. by rewrite Nat2Z.id.
      - apply ends_nonempty_consume; [by eapply gather_lens | | done].
        rewrite <-(gather_zlen _ _ _ Hg). zlen_lia.
      - done.
      - lia.
      - pose proof (suffix_length _ _ (io_frame_events _ _ _ _ Hfr)).
        rewrite length_drop. lia. }
    intros r e' (m & Hm & Hfr' & Hr). exists (n + m)%nat.
    rewrite length_drop in *. split; [lia|]. split.
    + eapply io_frame_trans; [exact Hfr|].
      rewrite (io_frame_heap _ _ _ _ Hfr), (io_frame_inodes _ _ _ _ Hfr) in Hfr'.
      rewrite insert_insert_eq, <-app_assoc, take_take_drop in Hfr'. done.
    + destruct Hr as [[-> Hr] | (-> & Hlt & Hx & Hr)]; [left; split; [done | lia]|].
      right. split; [done|]. split; [lia|]. split; [done|]. contradict Hr. by eapply io_frame_benign.
  - destruct Hr as [Hfr Hev]. destruct (retriable x) eqn:Hx.
    + eapply wp_mono.
      { eapply (IH e1 iov tot old data); try done.
        - by eapply io_frame_fd.
        - by rewrite (io_frame_inodes _ _ _ _ Hfr).
        - by rewrite (io_frame_heap _ _ _ _ Hfr).
        - rewrite Hev in Hfuel. simpl in Hfuel. lia. }
      intros r e' (m & Hm & Hfr' & Hr). exists m. split; [done|]. split.
      * eapply io_frame_trans; [exact Hfr|].
        by rewrite (io_frame_heap _ _ _ _ Hfr), (io_frame_inodes _ _ _ _ Hfr) in Hfr'.
      * destruct Hr as [?|(-> & ? & ? & Hr)]; [by left|]. right. split_and!; [done..|].
        contradict Hr. by eapply io_frame_benign.
    + rewrite wp_bind. unfold set_ccask_errno. rewrite wp_modify, wp_ret.
      exists 0%nat. split; [lia|]. split.
      * rewrite take_0, app_nil_r, insert_id by done. by apply io_frame_err.
      * right. split_and!; [done..|]. rewrite Hev, Forall_cons, benign_retriable, Hx.
        by intros [[] _].
Qed.

Lemma read_loop_spec fuel fd iov tot off e ino app wr content :
  fd_opened e fd ino app wr → inodes e !! ino = Some content →
  is_Some (gather (e_heap e) iov) → 0 ≤ off → 0 ≤ tot →
  let data := slice (off + tot) (iov_total iov) content in
  (length (events e) + length data < fuel)%nat →
  wp (read_loop fuel fd iov tot (Some off)) e (λ r e', ∃ n h', (n ≤ length data)%nat ∧
    scatter (e_heap e) iov (take n data) = Some h' ∧ io_frame e e' h' (inodes e) ∧
    (r = CCASK_OK ∧ n = length data ∧ ends_nonempty iov = true ∧
       (iov_total iov = 0 ∨ off + tot + iov_total iov ≤ zlen content) ∨
     r = CCASK_FAIL ∧
       (e_errno e' = CCASK_ERR_UNEXPECTED_EOF ∧
          (zlen content < off + tot + iov_total iov ∨ ends_nonempty iov = false) ∨
        e_errno e' = CCASK_ERR_READ_FAILED ∧ ¬ Forall benign (events e)))).
Proof.
  revert e iov tot.
  induction fuel as [|fuel IH]; intros e iov tot Hfd Hino Hg Hoff Htot data Hfuel; [lia|].
  destruct (decide (iov = [])) as [->|Hnil].
  { simpl. rewrite wp_ret. exists 0%nat, (e_heap e).
    split; [lia|]. split; [done|]. split; [apply io_frame_refl|]. left.
    split_and!; [done..|by left]. }
  pose proof (gather_lens _ _ Hg) as Hlens.
  pose proof (iov_total_nonneg _ Hlens) as HT.
  pose proof (length_slice (off + tot) (iov_total iov) content ltac:(lia) HT) as Hlen.
  fold data in Hlen.
  rewrite read_loop_S, wp_bind by done. eapply wp_mono.
  { apply (sys_preadv_spec e fd iov (off + tot) ino app wr content); [done..|lia]. }
  intros [z|x] e1 Hr; simpl in Hr.
  - fold data in Hr. destruct Hr as (n & h1 & -> & Hn & Hpos & Hprog & Hsc & Hfr).
    case_bool_decide as Hz.
    { rewrite wp_bind. unfold set_ccask_errno. rewrite wp_modify, wp_ret.
      exists n, h1. split; [done|]. split; [done|]. split; [by apply io_frame_err|].
      right. split; [done|]. left. split; [done|].
      destruct (ends_nonempty iov) eqn:He; [left|by right].
      pose proof (ends_nonempty_total iov Hlens He Hnil). lia. }
    pose proof (scatter_sizes _ _ _ _ Hsc) as Hsz.
    destruct (iov_total_consume (Z.of_nat n) iov Hlens ltac:(lia)) as [HT' Hlens'].
    pose proof (slice_split (off + tot) (iov_total iov) (Z.of_nat n) content
                  ltac:(lia) ltac:(lia)) as Hsplit.
    fold data in Hsplit. rewrite Nat2Z.id in Hsplit.
    eapply wp_mono.
    { apply (IH e1).
      - by eapply io_frame_fd.
      - by rewrite (io_frame_inodes _ _ _ _ Hfr).
      - rewrite (io_frame_heap _ _ _ _ Hfr).
        apply (gather_sizes (e_heap e)); [by symmetry|].
        destruct Hg as [d Hd]. erewrite gather_consume; [eauto | exact Hd|].
        rewrite (gather_zlen _ _ _ Hd). lia.
      - done.
      - lia.
      - pose proof (suffix_length _ _ (io_frame_events _ _ _ _ Hfr)).
        rewrite HT', Z.add_assoc. apply (f_equal length) in Hsplit.
        rewrite length_app, length_take in Hsplit. lia. }
    intros r e' (m & h' & Hm & Hsc' & Hfr' & Hr).
    rewrite (io_frame_inodes _ _ _ _ Hfr) in Hfr'.
    rewrite (io_frame_heap _ _ _ _ Hfr) in Hsc'.
    rewrite HT', Z.add_assoc in *.
    set (data' := slice (off + tot + Z.of_nat n) (iov_total iov - Z.of_nat n) content) in *.
    assert (length (take n data) = n) as Hlt by (rewrite length_take; lia).
    exists (n + m)%nat, h'.
    split. { rewrite Hsplit, length_app. lia. }
    split. { rewrite Hsplit, take_app_add' by done.
             rewrite scatter_app, Hsc by done. simpl.
             by replace (zlen (take n data)) with (Z.of_nat n) by zlen_lia. }
    split; [by eapply io_frame_trans|].
    destruct Hr as [(-> & -> & He & Hend) | (-> & Hr)].
    + left. split; [done|]. split; [rewrite Hsplit, length_app; lia|].
      split; [|right; lia]. destruct (ends_nonempty iov) eqn:Hiov; [done|].
      by rewrite ends_empty_consume in He by (done || lia).
    + right. split; [done|]. destruct Hr as [[? Hr] | [? Hr]].
      * left. split; [done|]. destruct Hr as [Hr|Hr]; [left; lia|right].
        destruct (ends_nonempty iov) eqn:Hiov; [|done].
        by rewrite ends_nonempty_consume in Hr by (done || lia).
      * right. split; [done|]. contradict Hr. by eapply io_frame_benign.
  - destruct Hr as [Hfr Hev]. destruct (retriable x) eqn:Hx.
    + eapply wp_mono.
      { eapply (IH e1); try done.
        - by eapply io_frame_fd.
        - by rewrite (io_frame_inodes _ _ _ _ Hfr).
        - by rewrite (io_frame_heap _ _ _ _ Hfr).
        - fold data. rewrite Hev in Hfuel. simpl in Hfuel. lia. }
      intros r e' (m & h' & Hm & Hsc & Hfr' & Hr).
      rewrite (io_frame_heap _ _ _ _ Hfr) in Hsc.
      rewrite (io_frame_inodes _ _ _ _ Hfr) in Hfr'.
      exists m, h'. split; [done|]. split; [done|]. split; [by eapply io_frame_trans|].
      destruct Hr as [?|(-> & Hr)]; [by left|right]. split; [done|].
      destruct Hr as [?|[? Hr]]; [by left|right]. split; [done|].
      contradict Hr. by eapply io_frame_benign.
    + rewrite wp_bind. unfold set_ccask_errno. rewrite wp_modify, wp_ret.
      exists 0%nat, (e_heap e). rewrite take_0, scatter_nil. split; [lia|].
      split; [done|]. split; [by apply io_frame_err|].
      right. split; [done|]. right. split; [done|].
      rewrite Hev, Forall_cons, benign_retriable, Hx. by intros [[] _].
Qed.

(** *** An array that ends with an empty buffer *)

(** After an uninterrupted transfer the array is never used up, and the next
    call transfers nothing: the writing loop does not end. *)
Lemma write_loop_diverges fuel fd iov tot off e ino old :
  fd_opened e fd ino true true → inodes e !! ino = Some old →
  is_Some (gather (e_heap e) iov) → ends_nonempty iov = false →
  0 ≤ default 0 off → 0 ≤ tot → Forall benign (events e) →
  write_loop fuel fd iov tot off e = NoFuel.
Proof.
  revert e iov tot old.
  induction fuel as [|fuel IH]; intros e iov tot old Hfd Hino [d Hd] He Hoff Htot Hben; [done|].
  assert (iov ≠ []) as Hnil by (by intros ->).
  rewrite write_loop_S by done.
  edestruct (wp_inv _ _ _ (sys_writev_append e fd iov ((λ o, o + tot) <$> off) ino old d
    Hfd Hino Hd ltac:(destruct off; simpl in *; lia))) as ([z|x] & e1 & Hrun & Hr).
  - destruct Hr as (n & -> & Hn & Hpos & _ & Hfr).
    rewrite (bind_run _ _ _ _ _ Hrun).
    assert (0 ≤ Z.of_nat n ≤ zlen d) by zlen_lia.
    eapply (IH _ _ _ (old ++ take n d)); [| | | |done|lia|].
    + by eapply io_frame_fd.
    + rewrite (io_frame_inodes _ _ _ _ Hfr). apply lookup_insert_eq.
    + rewrite (io_frame_heap _ _ _ _ Hfr). erewrite gather_consume; eauto.
    + apply ends_empty_consume; [by eapply gather_lens | | done].
      by rewrite <-(gather_zlen _ _ _ Hd).
    + by eapply io_frame_benign.
  - destruct Hr as [Hfr Hev]. rewrite (bind_run _ _ _ _ _ Hrun).
    assert (retriable x = true) as ->.
    { rewrite <-benign_retriable. rewrite Hev in Hben.
      apply Forall_inv in Hben. by apply Is_true_true. }
    eapply (IH _ _ _ old); [| | |done|done|done|].
    + by eapply io_frame_fd.
    + by rewrite (io_frame_inodes _ _ _ _ Hfr).
    + rewrite (io_frame_heap _ _ _ _ Hfr). eauto.
    + by eapply io_frame_benign.
Qed.

(** A transfer never moves more bytes than the buffers hold. *)
Lemma sys_writev_count fd iov off e z e' :
  sys_writev fd iov off e = Ret (inl z) e' → lens_ok iov ∧ 0 ≤ z ≤ iov_total iov.
Proof.
  unfold sys_writev. rewrite bind_Ret. intros (ev & e1 & _ & (s & e2 & Hs & H)%bind_Ret).
  injection Hs as <- <-.
  assert (match k_fds (e_kernel e1) !! fd with
    | Some d => is_Some (gather (e_heap e1) iov) ∧
        ∃ data, gather (e_heap e1) iov = Some data ∧ z = Z.of_nat (transfer ev (length data))
    | None => False end) as Hc.
  { destruct ev; [| |done]; destruct (k_fds _ !! fd) as [d|]; try done;
      (case_bool_decide; [done|]); (destruct (fd_write d); [|done]);
      destruct (gather _ iov) as [data|]; try done;
      injection H as <- _; eauto. }
  destruct (k_fds _ !! fd); [|done]. destruct Hc as (Hg & data & Hd & ->).
  split; [by eapply gather_lens|]. rewrite <-(gather_zlen _ _ _ Hd).
  pose proof (transfer_bounds ev (length data)). zlen_lia.
Qed.

Lemma sys_readv_count fd iov off e z e' :
  lens_ok iov → sys_readv fd iov (Some off) e = Ret (inl z) e' → 0 ≤ z ≤ iov_total iov.
Proof.
  intros Hl. unfold sys_readv. rewrite bind_Ret.
  intros (ev & e1 & _ & (s & e2 & Hs & H)%bind_Ret). injection Hs as <- <-.
  assert (∃ content : bytes, 0 ≤ off ∧
    z = Z.of_nat (transfer ev (length (slice off (iov_total iov) content)))) as Hc.
  { destruct ev; [| |done]; destruct (k_fds _ !! fd) as [d|]; try done;
      (case_bool_decide; [done|]); simpl in *;
      destruct (scatter _ iov _) as [h|]; try done;
      injection H as <- _; (eexists; split; [lia | reflexivity]). }
  destruct Hc as (content & Hoff & ->).
  pose proof (iov_total_nonneg _ Hl).
  pose proof (transfer_bounds ev (length (slice off (iov_total iov) content))) as [Ht _].
  pose proof (length_slice off (iov_total iov) content ltac:(lia) ltac:(lia)). lia.
Qed.

(** Whatever the machine does, no loop over an array that ends with an empty
    buffer returns [CCASK_OK]. *)
Lemma write_loop_never_ok fuel fd iov tot off e e' :
  ends_nonempty iov = false →
  write_loop fuel fd iov tot off e ≠ Ret CCASK_OK e'.
Proof.
  revert e iov tot. induction fuel as [|fuel IH]; intros e iov tot He; [done|].
  rewrite write_loop_S by (by intros ->).
  intros ([z|x] & e1 & Hrun & H)%bind_Ret.
  - apply sys_writev_count in Hrun as [Hl Hz].
    eapply IH, H. by apply ends_empty_consume.
  - destruct (retriable x); [by eapply IH|]. done.
Qed.

Lemma read_loop_never_ok fuel fd iov tot off e e' :
  lens_ok iov → ends_nonempty iov = false →
  read_loop fuel fd iov tot (Some off) e ≠ Ret CCASK_OK e'.
Proof.
  revert e iov tot. induction fuel as [|fuel IH]; intros e iov tot Hl He; [done|].
  rewrite read_loop_S by (by intros ->).
  intros ([z|x] & e1 & Hrun & H)%bind_Ret.
  - apply sys_readv_count in Hrun as Hz; [|done]. case_bool_decide; [done|].
    destruct (iov_total_consume z iov Hl Hz) as [_ Hl'].
    eapply IH, H; [done|]. by apply ends_empty_consume.
  - destruct (retriable x); [by eapply IH|]. done.
Qed.

(** [safe_pread]'s loop is the reading loop over one buffer. *)
Lemma pread_loop_eq fuel fd p n off tot e :
  0 < n → pread_loop fuel fd p n (off + tot) e = read_loop fuel fd [IOV p n] tot (Some off) e.
Proof.
  revert e p n tot. induction fuel as [|fuel IH]; intros e p n tot Hn; [done|].
  rewrite read_loop_S by done. simpl. rewrite bool_decide_eq_true_2 by done.
  unfold pread, preadv, mbind, M_bind; simpl.
  destruct (sys_readv fd [IOV p n] (Some (off + tot)) e) as [[z|x] e1| | |] eqn:Hrun; try done.
  - apply sys_readv_count in Hrun as Hz; [|repeat constructor; simpl; lia].
    unfold iov_total in Hz. simpl in Hz.
    case_bool_decide; [done|]. rewrite bool_decide_eq_true_2 by lia.
    rewrite <-Z.add_assoc. case_bool_decide.
    + apply IH. lia.
    + assert (z = n) as -> by lia. rewrite Z.sub_diag. by destruct fuel.
  - destruct (retriable x); [by apply IH | done].
Qed.

(** ** The functions *)

Section specs.
Variable fuel : nat.

Lemma safe_writev_spec fd iov e ino old data :
  0 ≤ fd → fd_opened e fd ino true true → inodes e !! ino = Some old →
  gather (e_heap e) iov = Some data → iov ≠ [] → ends_nonempty iov = true →
  (length (events e) + length data < fuel)%nat →
  wp (safe_writev fuel fd iov) e (λ r e', ∃ n, (n ≤ length data)%nat ∧
    io_frame e e' (e_heap e) (<[ino := old ++ take n data]> (inodes e)) ∧
    (r = CCASK_OK ∧ n = length data ∨
     r = CCASK_FAIL ∧ (n < length data)%nat ∧ e_errno e' = CCASK_ERR_WRITE_FAILED ∧
       ¬ Forall benign (events e))).
Proof.
  intros Hfd0 ? ? ? Hnil ? ?. unfold safe_writev.
  rewrite bool_decide_eq_false_2 by (intros [?|?]; [lia | done]).
  by apply (write_loop_spec fuel fd iov 0 None e ino old data).
Qed.

Lemma safe_preadv_spec fd iov off e ino app wr content :
  0 ≤ fd → fd_opened e fd ino app wr → inodes e !! ino = Some content →
  is_Some (gather (e_heap e) iov) → iov ≠ [] → 0 ≤ off →
  let data := slice off (iov_total iov) content in
  (length (events e) + length data < fuel)%nat →
  wp (safe_preadv fuel fd iov off) e (λ r e', ∃ n h', (n ≤ length data)%nat ∧
    scatter (e_heap e) iov (take n data) = Some h' ∧ io_frame e e' h' (inodes e) ∧
    (r = CCASK_OK ∧ n = length data ∧ ends_nonempty iov = true ∧
       off + iov_total iov ≤ zlen content ∨
     r = CCASK_FAIL ∧
       (e_errno e' = CCASK_ERR_UNEXPECTED_EOF ∧
          (zlen content < off + iov_total iov ∨ ends_nonempty iov = false) ∨
        e_errno e' = CCASK_ERR_READ_FAILED ∧ ¬ Forall benign (events e)))).
Proof.
  intros Hfd0 ? ? Hg Hnil ? data ?. unfold safe_preadv.
  rewrite bool_decide_eq_false_2 by (intros [?|?]; [lia | done]).
  eapply wp_mono.
  { apply (read_loop_spec fuel fd iov 0 off e ino app wr content); try done.
    by rewrite Z.add_0_r. }
  rewrite Z.add_0_r. intros r e' (n & h' & ? & ? & ? & Hr). exists n, h'.
  split_and!; [done..|].
  destruct Hr as [(? & ? & He & Hend)|?]; [left|by right].
  pose proof (ends_nonempty_total iov (gather_lens _ _ Hg) He Hnil).
  split_and!; try done. lia.
Qed.

(** Filling a block of the heap from a file. *)
Lemma safe_pread_spec fd a off e ino app wr content blk :
  fd_opened e fd ino app wr → inodes e !! ino = Some content →
  e_heap e !! a = Some blk → 0 < zlen blk → 0 ≤ off →
  (length (events e) + length blk < fuel)%nat →
  wp (safe_pread fuel fd (Some (a, 0)) (zlen blk) off) e (λ r e', ∃ blk',
    zlen blk' = zlen blk ∧ io_frame e e' (<[a := blk']> (e_heap e)) (inodes e) ∧
    (r = CCASK_OK ∧ off + zlen blk ≤ zlen content ∧ blk' = slice off (zlen blk) content ∨
     r = CCASK_FAIL ∧
       (e_errno e' = CCASK_ERR_UNEXPECTED_EOF ∧ zlen content < off + zlen blk ∨
        e_errno e' = CCASK_ERR_READ_FAILED ∧ ¬ Forall benign (events e)))).
Proof.
  intros Hfd Hino Ha Hpos Hoff Hfuel. unfold safe_pread.
  rewrite bool_decide_eq_false_2 by (intros [?|?]; [lia | done]).
  pose proof (pread_loop_eq fuel fd (Some (a, 0)) (zlen blk) off 0 e Hpos) as Heq.
  rewrite Z.add_0_r in Heq. unfold wp. rewrite Heq.
  pose proof (mem_read_block _ _ _ Ha) as Hread.
  assert (gather (e_heap e) [IOV (Some (a, 0)) (zlen blk)] = Some blk) as Hg.
  { cbn [gather iov_base iov_len]. rewrite Hread. simpl. by rewrite app_nil_r. }
  pose proof (gather_zlen _ _ _ Hg) as Htot.
  edestruct (wp_inv _ _ _ (read_loop_spec fuel fd [IOV (Some (a, 0)) (zlen blk)] 0 off e
    ino app wr content Hfd Hino (ex_intro _ _ Hg) Hoff ltac:(lia)
    ltac:(rewrite length_slice; zlen_lia)))
    as (r & e' & Hrun & n & h' & Hn & Hsc & Hfr & Hr).
  rewrite Hrun. rewrite <-Htot, Z.add_0_r in *. clear Hrun Heq.
  set (data := slice off (zlen blk) content) in *.
  assert (length data ≤ length blk)%nat as Hle.
  { unfold data. rewrite length_slice by lia. zlen_lia. }
  exists (take n data ++ drop n blk).
  assert (scatter (e_heap e) [IOV (Some (a, 0)) (zlen blk)] (take n data) =
          Some (<[a := take n data ++ drop n blk]> (e_heap e))) as Hsc'.
  { cbn [scatter iov_base iov_len]. rewrite take_take, Nat.min_r by zlen_lia.
    unfold mem_write. case_bool_decide as Hnil.
    - simpl. assert (n = 0%nat ∨ data = []) as [->|Hd0].
      { destruct n; [by left|]. right. by destruct data. }
      + by rewrite take_0, drop_0, insert_id.
      + rewrite Hd0 in *. simpl in *. assert (n = 0%nat) as -> by lia.
        by rewrite take_0, drop_0, insert_id.
    - simpl. rewrite Ha. simpl. rewrite bool_decide_eq_true_2 by zlen_lia. simpl.
      unfold splice. simpl. rewrite length_take, Nat.min_l by lia. done. }
  rewrite Hsc in Hsc'. injection Hsc' as ->.
  split; [unfold zlen; rewrite length_app, length_take, length_drop; lia|].
  split; [done|]. destruct Hr as [(-> & -> & He & Hend)|(-> & Hr)].
  - left. split; [done|]. split; [lia|].
    assert (length data = length blk) as Hll.
    { unfold data. rewrite length_slice by lia. zlen_lia. }
    rewrite Hll, firstn_all2, drop_ge by lia. by rewrite app_nil_r.
  - right. split; [done|]. destruct Hr as [[? [?|Hne]]|?]; [by left; split | | by right].
    unfold ends_nonempty in Hne. simpl in Hne. apply bool_decide_eq_false in Hne. lia.
Qed.

(** *** An empty last buffer *)

Lemma safe_writev_diverges fd iov e ino old :
  0 ≤ fd → fd_opened e fd ino true true → inodes e !! ino = Some old →
  is_Some (gather (e_heap e) iov) → ends_nonempty iov = false →
  Forall benign (events e) →
  safe_writev fuel fd iov e = NoFuel.
Proof.
  intros ? ? ? ? He ?. unfold safe_writev.
  rewrite bool_decide_eq_false_2 by (intros [?| ->]; [lia | done]).
  by apply (write_loop_diverges _ _ _ 0 None e ino old).
Qed.

Lemma safe_writev_never_ok fd iov e e' :
  ends_nonempty iov = false → safe_writev fuel fd iov e ≠ Ret CCASK_OK e'.
Proof.
  intros. unfold safe_writev. case_bool_decide; [done|]. by apply write_loop_never_ok.
Qed.

Lemma safe_preadv_never_ok fd iov off e e' :
  lens_ok iov → ends_nonempty iov = false →
  safe_preadv fuel fd iov off e ≠ Ret CCASK_OK e'.
Proof.
  intros. unfold safe_preadv. case_bool_decide; [done|]. by apply read_loop_never_ok.
Qed.
End specs.
