(* ===== verification/Codec.v ===== *)
(** * Codec: fixed-width integers in memory and the record checksum

    Models [write_be16] ... [read_be64] and [calculate_crc32] of [utils.c].
    The byte order of the host is a parameter ([Host]), and so is zlib's
    [crc32] ([Zlib]); what zlib's manual promises of it is [ZlibLaws]. *)
From S2P Require Import Prelude Status Posix.

(** ** Parameters *)

(** The host is little endian, or big endian. *)
Class Host := little_endian : bool.

(** [crc32(crc, buf, len)]: the buffer is [NULL], or [len] bytes. *)
Class Zlib := crc32 : Z → option bytes → Z.

(** zlib's manual: with a null buffer [crc32] returns the required initial
    value, which is [0]; a checksum has 32 bits; and a checksum can be
    continued over a second piece of data. *)
Class ZlibLaws {zlib : Zlib} := {
  crc32_null : ∀ c, crc32 c None = 0;
  crc32_range : ∀ c d, is_u32 (crc32 c d);
  crc32_app : ∀ c d1 d2,
    crc32 c (Some (d1 ++ d2)) = crc32 (crc32 c (Some d1)) (Some d2);
}.

(** ** Bytes of an integer *)

Fixpoint le_bytes (n : nat) (z : Z) : bytes :=
  match n with
  | O => []
  | S n' => byte_of_Z z :: le_bytes n' (z / 256)
  end.

Fixpoint le_val (d : bytes) : Z :=
  match d with
  | [] => 0
  | b :: d' => Z_of_byte b + 256 * le_val d'
  end.

Definition be_bytes (n : nat) (z : Z) : bytes := reverse (le_bytes n z).
Definition be_val (d : bytes) : Z := le_val (reverse d).

Lemma length_le_bytes n z : length (le_bytes n z) = n.
Proof. revert z. induction n; intros; simpl; [done | by rewrite IHn]. Qed.

Lemma le_val_bytes n z : le_val (le_bytes n z) = z mod 256 ^ Z.of_nat n.
Proof.
  revert z. induction n as [|n IH]; intros z; simpl le_val.
  - by rewrite Z.mod_1_r.
  - rewrite IH, Z_of_byte_of_Z, Nat2Z.inj_succ, Z.pow_succ_r by lia.
    rewrite Z.rem_mul_r by lia. lia.
Qed.

Lemma le_val_range d : 0 ≤ le_val d < 256 ^ zlen d.
Proof.
  induction d as [|b d IH]; simpl; [done|].
  rewrite zlen_cons, Z.pow_add_r by (done || apply zlen_nonneg).
  pose proof (Z_of_byte_range b). lia.
Qed.

Lemma le_bytes_val d : le_bytes (length d) (le_val d) = d.
Proof.
  induction d as [|b d IH]; simpl; [done|].
  pose proof (Z_of_byte_range b). f_equal.
  - rewrite <-(byte_of_Z_of_byte b) at 2. unfold byte_of_Z.
    by rewrite (Z.mul_comm 256), Z_mod_plus_full.
  - rewrite Z.add_comm, Z.mul_comm, Z.div_add_l, Z.div_small by lia.
    by rewrite Z.add_0_r.
Qed.

Lemma length_be_bytes n z : length (be_bytes n z) = n.
Proof. unfold be_bytes. by rewrite length_reverse, length_le_bytes. Qed.

Lemma zlen_be_bytes n z : zlen (be_bytes n z) = Z.of_nat n.
Proof. unfold zlen. by rewrite length_be_bytes. Qed.

Lemma be_val_bytes n z : be_val (be_bytes n z) = z mod 256 ^ Z.of_nat n.
Proof. unfold be_val, be_bytes. by rewrite reverse_involutive, le_val_bytes. Qed.

Lemma be_bytes_val d : be_bytes (length d) (be_val d) = d.
Proof.
  unfold be_bytes, be_val. rewrite <-length_reverse, le_bytes_val.
  apply reverse_involutive.
Qed.

Lemma be_val_range d : 0 ≤ be_val d < 256 ^ zlen d.
Proof.
  unfold be_val. pose proof (le_val_range (reverse d)) as H.
  unfold zlen in *. by rewrite length_reverse in H.
Qed.

(** ** The accessors *)

Section host.
Context {host : Host}.

(** How the host stores an integer, and reads it back. *)
Definition native_bytes (n : nat) (z : Z) : bytes :=
  if little_endian then le_bytes n z else be_bytes n z.
Definition native_val (d : bytes) : Z :=
  if little_endian then le_val d else be_val d.

(** [htobe16], [htobe32] and [htobe64], by the width in bytes; they are
    their own inverses [be16toh], [be32toh] and [be64toh]. *)
Definition htobe (n : nat) (z : Z) : Z :=
  if little_endian then be_val (le_bytes n z) else z.

Definition write_be16 (buf : option ptr) (v : Z) : M env unit :=
  let be := htobe 2 v in store buf (native_bytes 2 be).
Definition read_be16 (buf : option ptr) : M env Z :=
  be ← load buf 2; mret (htobe 2 (native_val be)).
Definition write_be32 (buf : option ptr) (v : Z) : M env unit :=
  let be := htobe 4 v in store buf (native_bytes 4 be).
Definition read_be32 (buf : option ptr) : M env Z :=
  be ← load buf 4; mret (htobe 4 (native_val be)).
Definition write_be64 (buf : option ptr) (v : Z) : M env unit :=
  let be := htobe 8 v in store buf (native_bytes 8 be).
Definition read_be64 (buf : option ptr) : M env Z :=
  be ← load buf 8; mret (htobe 8 (native_val be)).

(** Whatever the host, what is stored is the big-endian representation. *)
Lemma native_htobe n z : native_bytes n (htobe n z) = be_bytes n z.
Proof.
  unfold native_bytes, htobe. destruct little_endian; [|done].
  pose proof (le_bytes_val (reverse (le_bytes n z))) as Hv.
  by rewrite length_reverse, length_le_bytes in Hv.
Qed.

Lemma htobe_native n d : length d = n → htobe n (native_val d) = be_val d.
Proof.
  intros <-. unfold native_val, htobe. destruct little_endian; [|done].
  by rewrite le_bytes_val.
Qed.
End host.

(** ** The checksum *)

Section crc.
Context {host : Host} {zlib : Zlib}.

(** One call of zlib on [len] bytes at a buffer; [None] when the buffer is
    shorter. *)
Definition crc32_over (crc : Z) (buf : cbuf) (len : Z) : option Z :=
  match buf with
  | None => Some (u32 (crc32 crc None))
  | Some _ => d ← cbuf_read buf len; Some (u32 (crc32 crc (Some d)))
  end.

Definition calculate_crc32 (timestamp key_size value_size : Z) (key value : cbuf) : option Z :=
  crc ← crc32_over 0 (Some (native_bytes 4 timestamp)) 4;
  crc ← crc32_over crc (Some (native_bytes 4 key_size)) 4;
  crc ← crc32_over crc (Some (native_bytes 4 value_size)) 4;
  crc ← crc32_over crc key key_size;
  crc32_over crc value value_size.

(** The checksum of a record with these contents. *)
Definition record_crc (timestamp : Z) (key value : bytes) : Z :=
  crc32 0 (Some (native_bytes 4 timestamp ++ native_bytes 4 (zlen key) ++
                 native_bytes 4 (zlen value) ++ key ++ value)).
End crc.

Lemma cbuf_read_all d : cbuf_read (Some d) (zlen d) = Some d.
Proof.
  unfold cbuf_read. pose proof (zlen_nonneg d). case_bool_decide as Hz.
  - destruct d; [done | zlen_lia].
  - simpl. rewrite bool_decide_eq_true_2 by lia. unfold zlen.
    by rewrite Nat2Z.id, firstn_all.
Qed.

Lemma zlen_native_bytes {host : Host} n z : zlen (native_bytes n z) = Z.of_nat n.
Proof.
  unfold native_bytes, zlen. destruct little_endian.
  - by rewrite length_le_bytes.
  - by rewrite length_be_bytes.
Qed.

Lemma cbuf_read_zlen src n d : cbuf_read src n = Some d → zlen d = n.
Proof.
  unfold cbuf_read. case_bool_decide; [by intros [= <-]|].
  destruct src as [b|]; [|done]. simpl. case_bool_decide; [|done].
  intros [= <-]. zlen_lia.
Qed.

Lemma crc32_over_buf {zlib : Zlib} `{!ZlibLaws} c b d n :
  cbuf_read (Some b) n = Some d → crc32_over c (Some b) n = Some (crc32 c (Some d)).
Proof.
  intros Hr. unfold crc32_over. rewrite Hr. simpl.
  by rewrite u32_small by apply crc32_range.
Qed.

Lemma crc32_over_all {zlib : Zlib} `{!ZlibLaws} c d n :
  zlen d = n → crc32_over c (Some d) n = Some (crc32 c (Some d)).
Proof. intros <-. apply crc32_over_buf, cbuf_read_all. Qed.

#[local] Arguments crc32_over : simpl never.

(** The five calls compute the checksum of the concatenation. *)
Lemma calculate_crc32_record {host : Host} {zlib : Zlib} `{!ZlibLaws} ts kb ks key vb vs value :
  cbuf_read (Some kb) ks = Some key → cbuf_read (Some vb) vs = Some value →
  calculate_crc32 ts ks vs (Some kb) (Some vb) = Some (record_crc ts key value).
Proof.
  intros Hk Hv. unfold calculate_crc32, record_crc.
  pose proof (cbuf_read_zlen _ _ _ Hk). pose proof (cbuf_read_zlen _ _ _ Hv). subst ks vs.
  do 3 (rewrite crc32_over_all by apply zlen_native_bytes; simpl).
  rewrite (crc32_over_buf _ _ _ _ Hk). simpl. rewrite (crc32_over_buf _ _ _ _ Hv).
  by rewrite <-!crc32_app.
Qed.

(** With a null value the checksum is [0], whatever the rest. *)
Lemma calculate_crc32_null {host : Host} {zlib : Zlib} `{!ZlibLaws} ts kb ks key :
  cbuf_read (Some kb) ks = Some key → calculate_crc32 ts ks 0 (Some kb) None = Some 0.
Proof.
  intros Hk. unfold calculate_crc32.
  do 3 (rewrite crc32_over_all by apply zlen_native_bytes; simpl).
  rewrite (crc32_over_buf _ _ _ _ Hk). simpl. unfold crc32_over. by rewrite crc32_null.
Qed.
