(* ===== verification/Crc32.v ===== *)
(** * Crc32: the CRC-32 of zlib as an instance of [Zlib]

    The theorems are about any [crc32] with the documented laws; this is the
    one zlib computes (polynomial 0xEDB88320, reflected), bit by bit, and the
    proof that it has them.  The witnesses run with it. *)
From S2P Require Import Prelude Status Posix Codec.
From Stdlib Require Import Strings.Byte.

Definition crc_mask : Z := 2 ^ 32 - 1.

Definition crc_bit (c : Z) : Z :=
  Z.lxor (Z.shiftr c 1) (if Z.testbit c 0 then 0xEDB88320 else 0).

Fixpoint crc_bits (n : nat) (c : Z) : Z :=
  match n with O => c | S n' => crc_bits n' (crc_bit c) end.

Definition crc_step (c : Z) (b : byte) : Z := crc_bits 8 (Z.lxor c (Z_of_byte b)).

#[export] Instance zlib_crc32 : Zlib := λ c d,
  match d with
  | None => 0
  | Some d => Z.lxor (foldl crc_step (Z.lxor (u32 c) crc_mask) d) crc_mask
  end.

Lemma lxor_u32 a b : is_u32 a → is_u32 b → is_u32 (Z.lxor a b).
Proof.
  unfold is_u32. intros [Ha Ha'] [Hb Hb'].
  assert (0 ≤ Z.lxor a b) as Hn by (apply Z.lxor_nonneg; lia). split; [done|].
  destruct (decide (Z.lxor a b = 0)) as [->|Hz]; [lia|].
  apply Z.log2_lt_pow2; [lia|].
  assert (∀ z, 0 ≤ z < 2 ^ 32 → Z.log2 z < 32) as Hlog.
  { intros z Hz'. destruct (decide (z = 0)) as [->|]; [done|]. apply Z.log2_lt_pow2; lia. }
  pose proof (Z.log2_lxor a b Ha Hb). pose proof (Hlog a). pose proof (Hlog b). lia.
Qed.

Lemma crc_bit_u32 c : is_u32 c → is_u32 (crc_bit c).
Proof.
  intros Hc. unfold crc_bit. apply lxor_u32.
  - unfold is_u32 in *. rewrite Z.shiftr_div_pow2 by lia.
    split; [apply Z.div_pos; lia | apply Z.div_lt_upper_bound; lia].
  - destruct (Z.testbit c 0); done.
Qed.

Lemma crc_step_u32 c b : is_u32 c → is_u32 (crc_step c b).
Proof.
  intros Hc. unfold crc_step. assert (is_u32 (Z.lxor c (Z_of_byte b))) as H.
  { apply lxor_u32; [done|]. pose proof (Z_of_byte_range b). unfold is_u32. lia. }
  revert H. generalize (Z.lxor c (Z_of_byte b)) as x. generalize 8%nat as n.
  induction n as [|n IH]; intros x Hx; [done|]. simpl. by apply IH, crc_bit_u32.
Qed.

Lemma crc_fold_u32 d c : is_u32 c → is_u32 (foldl crc_step c d).
Proof. revert c. induction d as [|b d IH]; intros c Hc; [done|]. by apply IH, crc_step_u32. Qed.

#[export] Instance zlib_crc32_laws : ZlibLaws.
Proof.
  assert (is_u32 crc_mask) as Hm by done.
  assert (∀ c d, is_u32 (crc32 c d)) as Hr.
  { intros c [d|]; [|done]. apply lxor_u32; [|done]. apply crc_fold_u32, lxor_u32; [|done].
    apply u32_range. }
  constructor; [done | done |]. intros c d1 d2. unfold crc32, zlib_crc32.
  rewrite foldl_app, (u32_small (Z.lxor _ crc_mask)), Z.lxor_assoc, Z.lxor_nilpotent, Z.lxor_0_r; [done|].
  apply lxor_u32; [|done]. apply crc_fold_u32, lxor_u32; [|done]. apply u32_range.
Qed.

(** The check value of CRC-32, of the nine characters [123456789]. *)
Example crc32_check :
  crc32 0 (Some [x31; x32; x33; x34; x35; x36; x37; x38; x39]%byte) = 0xCBF43926.
Proof. vm_compute. reflexivity. Qed.

(** A host with the byte order of x86. *)
Definition little : Host := true.
Definition big : Host := false.
