(* ===== verification/Records.v ===== *)
(** * Records: the records of data files and hint files

    Models [records.c] and [records.h].  A record is an array of [struct
    iovec]: header, key and value in a data file, header and key in a hint
    file.  The array belongs to the caller, so a function takes its contents
    and returns the new ones. *)
From S2P Require Import Prelude Status Posix SafeIO Codec.

Definition DATAFILE_RECORD_HEADER_SIZE : Z := 16.
Definition HINTFILE_RECORD_HEADER_SIZE : Z := 20.

Record ccask_datafile_record_header := DatafileHeader {
  df_crc : Z;
  df_timestamp : Z;
  df_key_size : Z;
  df_value_size : Z;
}.

Record ccask_hintfile_record_header := HintfileHeader {
  hf_timestamp : Z;
  hf_key_size : Z;
  hf_value_size : Z;
  hf_record_pos : Z;
}.

(** [struct iovec record[3]] and [struct iovec record[2]]. *)
Abbreviation ccask_datafile_record_t := (list iovec).
Abbreviation ccask_hintfile_record_t := (list iovec).

(** A local array before anything is stored in it: its pointers are garbage. *)
Definition iov_garbage : iovec := IOV (Some (-1, 0)) 0.
Definition datafile_record_garbage : ccask_datafile_record_t := replicate 3 iov_garbage.
Definition hintfile_record_garbage : ccask_hintfile_record_t := replicate 2 iov_garbage.

#[export] Instance iovec_inhabited : Inhabited iovec := populate iov_garbage.

Definition set_iov_len (i : nat) (n : Z) (record : list iovec) : list iovec :=
  alter (λ v, IOV (iov_base v) n) i record.
Definition set_iov_base (i : nat) (p : option ptr) (record : list iovec) : list iovec :=
  alter (λ v, IOV p (iov_len v)) i record.

(** [for (; i < n; i++)] of the allocating functions: [todo] cells are left
    from [i] on.  Returns [done], [i] and the array. *)
Fixpoint alloc_loop (todo i : nat) (record : list iovec) : M env (bool * nat * list iovec) :=
  match todo with
  | O => mret (true, i, record)
  | S todo' =>
      a ← malloc (iov_len (record !!! i));
      let record := set_iov_base i (base_ptr a) record in
      match a with
      | None => mret (false, i, record)
      | Some _ => alloc_loop todo' (S i) record
      end
  end.

(** [for (; i > 0; i--) free(record[i].iov_base)]. *)
Fixpoint free_loop (i : nat) (record : list iovec) : M env unit :=
  match i with
  | O => mret tt
  | S i' => _ ← free (iov_base (record !!! i)); free_loop i' record
  end.

Definition ccask_allocate_datafile_record (record : ccask_datafile_record_t)
    (key_size value_size : Z) : M env (ccask_status_e * ccask_datafile_record_t) :=
  let record := set_iov_len 0 DATAFILE_RECORD_HEADER_SIZE record in
  let record := set_iov_len 1 key_size record in
  let record := set_iov_len 2 value_size record in
  '(done, i, record) ← alloc_loop 3 0 record;
  if done : bool then mret (CCASK_OK, record)
  else
    _ ← free_loop i record;
    _ ← set_ccask_errno CCASK_ERR_NO_MEMORY;
    mret (CCASK_FAIL, record).

Definition ccask_allocate_hintfile_record (record : ccask_hintfile_record_t)
    (key_size : Z) : M env (ccask_status_e * ccask_hintfile_record_t) :=
  let record := set_iov_len 0 HINTFILE_RECORD_HEADER_SIZE record in
  let record := set_iov_len 1 key_size record in
  '(done, i, record) ← alloc_loop 2 0 record;
  if done : bool then mret (CCASK_OK, record)
  else
    _ ← free_loop i record;
    _ ← set_ccask_errno CCASK_ERR_NO_MEMORY;
    mret (CCASK_FAIL, record).

(** [memcpy(dst, src, n)] from a caller's buffer. *)
Definition memcpy (dst : option ptr) (src : cbuf) (n : Z) : M env unit :=
  d ← deref (cbuf_read src n); store dst d.

(** The memory a pointer into the heap can be read up to, as a buffer. *)
Definition heap_buf (p : option ptr) : M env cbuf :=
  match p with
  | None => mret None
  | Some (a, off) =>
      e ← get; blk ← deref (e_heap e !! a); mret (Some (drop (Z.to_nat off) blk))
  end.

Definition ccask_get_datafile_record_key (record : ccask_datafile_record_t) : option ptr :=
  iov_base (record !!! 1%nat).
Definition ccask_get_datafile_record_value (record : ccask_datafile_record_t) : option ptr :=
  iov_base (record !!! 2%nat).
Definition ccask_get_datafile_record_total_size (record : ccask_datafile_record_t) : Z :=
  u64 (iov_len (record !!! 0%nat) + iov_len (record !!! 1%nat) + iov_len (record !!! 2%nat)).
Definition ccask_get_hintfile_record_key (record : ccask_hintfile_record_t) : option ptr :=
  iov_base (record !!! 1%nat).
Definition ccask_get_hintfile_record_total_size (record : ccask_hintfile_record_t) : Z :=
  u64 (iov_len (record !!! 0%nat) + iov_len (record !!! 1%nat)).

Section records.
Context {host : Host} {zlib : Zlib}.

Definition ccask_create_datafile_record (record : ccask_datafile_record_t)
    (timestamp : Z) (key : cbuf) (key_size : Z) (value : cbuf) (value_size : Z) :
    M env (ccask_status_e * ccask_datafile_record_t) :=
  crc ← deref (calculate_crc32 timestamp key_size value_size key value);
  '(res, record) ← ccask_allocate_datafile_record record key_size value_size;
  match res with
  | CCASK_OK =>
      let header_buf := iov_base (record !!! 0%nat) in
      _ ← write_be32 header_buf crc;
      _ ← write_be32 (ptr_add header_buf 4) timestamp;
      _ ← write_be32 (ptr_add header_buf 8) key_size;
      _ ← write_be32 (ptr_add header_buf 12) value_size;
      _ ← memcpy (iov_base (record !!! 1%nat)) key key_size;
      _ ← memcpy (iov_base (record !!! 2%nat)) value value_size;
      mret (CCASK_OK, record)
  | _ => mret (res, record)
  end.

Definition ccask_get_datafile_record_header (record : ccask_datafile_record_t) :
    M env ccask_datafile_record_header :=
  let header_buf := iov_base (record !!! 0%nat) in
  crc ← read_be32 header_buf;
  timestamp ← read_be32 (ptr_add header_buf 4);
  key_size ← read_be32 (ptr_add header_buf 8);
  value_size ← read_be32 (ptr_add header_buf 12);
  mret (DatafileHeader crc timestamp key_size value_size).

Definition ccask_create_hintfile_record (record : ccask_hintfile_record_t)
    (timestamp key_size value_size record_pos : Z) (key : cbuf) :
    M env (ccask_status_e * ccask_hintfile_record_t) :=
  '(res, record) ← ccask_allocate_hintfile_record record key_size;
  match res with
  | CCASK_OK =>
      let header_buf := iov_base (record !!! 0%nat) in
      _ ← write_be32 header_buf timestamp;
      _ ← write_be32 (ptr_add header_buf 4) key_size;
      _ ← write_be32 (ptr_add header_buf 8) value_size;
      _ ← write_be64 (ptr_add header_buf 12) record_pos;
      _ ← memcpy (iov_base (record !!! 1%nat)) key key_size;
      mret (CCASK_OK, record)
  | _ => mret (res, record)
  end.

Definition ccask_get_hintfile_record_header (record : ccask_hintfile_record_t) :
    M env ccask_hintfile_record_header :=
  let header_buf := iov_base (record !!! 0%nat) in
  timestamp ← read_be32 header_buf;
  key_size ← read_be32 (ptr_add header_buf 4);
  value_size ← read_be32 (ptr_add header_buf 8);
  record_pos ← read_be64 (ptr_add header_buf 12);
  mret (HintfileHeader timestamp key_size value_size record_pos).
End records.

(** [free(NULL)] does nothing, so the tests of the pointers need no branch. *)
Definition free_datafile_record (record : ccask_datafile_record_t) : M env unit :=
  _ ← free (iov_base (record !!! 0%nat));
  _ ← free (iov_base (record !!! 1%nat));
  free (iov_base (record !!! 2%nat)).

Definition free_hintfile_record (record : ccask_hintfile_record_t) : M env unit :=
  _ ← free (iov_base (record !!! 0%nat));
  free (iov_base (record !!! 1%nat)).

(** ** The encodings *)

Definition datafile_header_bytes (h : ccask_datafile_record_header) : bytes :=
  be_bytes 4 (df_crc h) ++ be_bytes 4 (df_timestamp h) ++
  be_bytes 4 (df_key_size h) ++ be_bytes 4 (df_value_size h).

Definition datafile_header_of (d : bytes) : ccask_datafile_record_header :=
  DatafileHeader (be_val (slice 0 4 d)) (be_val (slice 4 4 d))
    (be_val (slice 8 4 d)) (be_val (slice 12 4 d)).

Definition hintfile_header_bytes (h : ccask_hintfile_record_header) : bytes :=
  be_bytes 4 (hf_timestamp h) ++ be_bytes 4 (hf_key_size h) ++
  be_bytes 4 (hf_value_size h) ++ be_bytes 8 (hf_record_pos h).

Definition hintfile_header_of (d : bytes) : ccask_hintfile_record_header :=
  HintfileHeader (be_val (slice 0 4 d)) (be_val (slice 4 4 d))
    (be_val (slice 8 4 d)) (be_val (slice 12 8 d)).

Definition datafile_header_ok (h : ccask_datafile_record_header) : Prop :=
  is_u32 (df_crc h) ∧ is_u32 (df_timestamp h) ∧ is_u32 (df_key_size h) ∧ is_u32 (df_value_size h).
Definition hintfile_header_ok (h : ccask_hintfile_record_header) : Prop :=
  is_u32 (hf_timestamp h) ∧ is_u32 (hf_key_size h) ∧ is_u32 (hf_value_size h) ∧
  is_u64 (hf_record_pos h).

Lemma zlen_datafile_header h : zlen (datafile_header_bytes h) = 16.
Proof. unfold datafile_header_bytes. by rewrite !zlen_app, !zlen_be_bytes. Qed.
Lemma zlen_hintfile_header h : zlen (hintfile_header_bytes h) = 20.
Proof. unfold hintfile_header_bytes. by rewrite !zlen_app, !zlen_be_bytes. Qed.

Lemma be_val_u32 z : is_u32 z → be_val (be_bytes 4 z) = z.
Proof. intros. rewrite be_val_bytes. by apply Z.mod_small. Qed.
Lemma be_val_u64 z : is_u64 z → be_val (be_bytes 8 z) = z.
Proof. intros. rewrite be_val_bytes. by apply Z.mod_small. Qed.

(** The fields of four pieces that follow each other. *)
Lemma slices_of_four n4 (d1 d2 d3 d4 : bytes) :
  zlen d1 = 4 → zlen d2 = 4 → zlen d3 = 4 → zlen d4 = n4 →
  let d := d1 ++ d2 ++ d3 ++ d4 in
  slice 0 4 d = d1 ∧ slice 4 4 d = d2 ∧ slice 8 4 d = d3 ∧ slice 12 n4 d = d4.
Proof.
  intros H1 H2 H3 H4 d. unfold d. split_and!.
  - by apply (slice_exact 0 4 []).
  - by apply slice_exact.
  - rewrite app_assoc. apply slice_exact; [by rewrite zlen_app, H1, H2 | done].
  - rewrite !app_assoc. apply slice_last; [by rewrite !zlen_app, H1, H2, H3 | done].
Qed.

Lemma datafile_header_of_bytes h :
  datafile_header_ok h → datafile_header_of (datafile_header_bytes h) = h.
Proof.
  intros (?&?&?&?). unfold datafile_header_of, datafile_header_bytes.
  destruct (slices_of_four 4 (be_bytes 4 (df_crc h)) (be_bytes 4 (df_timestamp h))
    (be_bytes 4 (df_key_size h)) (be_bytes 4 (df_value_size h))) as (->&->&->&->);
    rewrite ?zlen_be_bytes; try done.
  rewrite !be_val_u32 by done. by destruct h.
Qed.

Lemma hintfile_header_of_bytes h :
  hintfile_header_ok h → hintfile_header_of (hintfile_header_bytes h) = h.
Proof.
  intros (?&?&?&?). unfold hintfile_header_of, hintfile_header_bytes.
  destruct (slices_of_four 8 (be_bytes 4 (hf_timestamp h)) (be_bytes 4 (hf_key_size h))
    (be_bytes 4 (hf_value_size h)) (be_bytes 8 (hf_record_pos h))) as (->&->&->&->);
    rewrite ?zlen_be_bytes; try done.
  rewrite !be_val_u32, be_val_u64 by done. by destruct h.
Qed.

(** ** Allocation *)

(** The array over three (two) consecutive blocks from [a] on. *)
Definition datafile_iov (a key_size value_size : Z) : ccask_datafile_record_t :=
  [IOV (Some (a, 0)) 16; IOV (Some (a + 1, 0)) key_size; IOV (Some (a + 2, 0)) value_size].
Definition hintfile_iov (a key_size : Z) : ccask_hintfile_record_t :=
  [IOV (Some (a, 0)) 20; IOV (Some (a + 1, 0)) key_size].

Lemma allocate_datafile_record_ok e v0 v1 v2 ks vs :
  mallocs_ok 3 e →
  ccask_allocate_datafile_record [v0; v1; v2] ks vs e =
  Ret (CCASK_OK, datafile_iov (e_brk e) ks vs)
    (put_block (zeros vs) (put_block (zeros ks) (put_block (zeros 16) e))).
Proof.
  intros [H0 [H1 [H2 _]%(mallocs_ok_S _ _ (zeros vs))]%(mallocs_ok_S _ _ (zeros ks))]%(mallocs_ok_S _ _ (zeros 16)).
  unfold ccask_allocate_datafile_record. simpl.
  rewrite (bind_run _ _ _ (true, 3%nat, datafile_iov (e_brk e) ks vs)
    (put_block (zeros vs) (put_block (zeros ks) (put_block (zeros 16) e)))); [done|].
  rewrite (bind_run _ _ _ _ _ (malloc_ok _ _ H0)). simpl.
  rewrite (bind_run _ _ _ _ _ (malloc_ok _ _ H1)). simpl.
  rewrite (bind_run _ _ _ _ _ (malloc_ok _ _ H2)). simpl.
  unfold datafile_iov. do 2 f_equal. f_equal. f_equal. f_equal. f_equal. f_equal. f_equal. lia.
Qed.

Lemma allocate_hintfile_record_ok e v0 v1 ks :
  mallocs_ok 2 e →
  ccask_allocate_hintfile_record [v0; v1] ks e =
  Ret (CCASK_OK, hintfile_iov (e_brk e) ks) (put_block (zeros ks) (put_block (zeros 20) e)).
Proof.
  intros [H0 [H1 _]%(mallocs_ok_S _ _ (zeros ks))]%(mallocs_ok_S _ _ (zeros 20)).
  unfold ccask_allocate_hintfile_record. simpl.
  rewrite (bind_run _ _ _ (true, 2%nat, hintfile_iov (e_brk e) ks)
    (put_block (zeros ks) (put_block (zeros 20) e))); [done|].
  rewrite (bind_run _ _ _ _ _ (malloc_ok _ _ H0)). simpl.
  by rewrite (bind_run _ _ _ _ _ (malloc_ok _ _ H1)).
Qed.

(** ** Headers in memory *)

(** Four adjacent stores fill a block. *)
Lemma store_four {A} e a blk d1 d2 d3 d4 n (k : M env A) :
  e_heap e !! a = Some blk → zlen blk = 12 + n →
  zlen d1 = 4 → zlen d2 = 4 → zlen d3 = 4 → zlen d4 = n →
  (_ ← store (Some (a, 0)) d1; _ ← store (Some (a, 4)) d2;
   _ ← store (Some (a, 8)) d3; _ ← store (Some (a, 12)) d4; k) e =
  k (set_heap (<[a := d1 ++ d2 ++ d3 ++ d4]> (e_heap e)) e).
Proof.
  intros Ha Hn H1 H2 H3 H4. pose proof (zlen_nonneg d4).
  rewrite (bind_run _ _ _ _ _ (store_run e a 0 d1 blk Ha ltac:(lia) ltac:(lia))).
  set (e1 := set_heap _ e).
  rewrite (bind_run _ _ _ _ _ (store_run e1 a 4 d2 _ (lookup_insert_eq _ _ _) ltac:(lia)
    ltac:(rewrite zlen_splice; lia))).
  set (e2 := set_heap _ e1).
  rewrite (bind_run _ _ _ _ _ (store_run e2 a 8 d3 _ (lookup_insert_eq _ _ _) ltac:(lia)
    ltac:(rewrite !zlen_splice; rewrite ?zlen_splice; lia))).
  set (e3 := set_heap _ e2).
  rewrite (bind_run _ _ _ _ _ (store_run e3 a 12 d4 _ (lookup_insert_eq _ _ _) ltac:(lia)
    ltac:(rewrite !zlen_splice; rewrite ?zlen_splice; rewrite ?zlen_splice; lia))).
  f_equal. unfold e3, e2, e1, set_heap. simpl. rewrite !insert_insert_eq.
  do 2 f_equal.
  pose proof (splice_splice 0 d1 d2 blk ltac:(lia) ltac:(lia)) as Hs1.
  pose proof (splice_splice 0 (d1 ++ d2) d3 blk ltac:(lia) ltac:(zlen_lia)) as Hs2.
  pose proof (splice_splice 0 ((d1 ++ d2) ++ d3) d4 blk ltac:(lia) ltac:(zlen_lia)) as Hs3.
  rewrite zlen_app, H1, H2 in Hs2. rewrite !zlen_app, H1, H2, H3 in Hs3. rewrite H1 in Hs1.
  change (0 + 4) with 4 in Hs1. change (0 + (4 + 4)) with 8 in Hs2.
  change (0 + (4 + 4 + 4)) with 12 in Hs3.
  rewrite Hs1, Hs2, Hs3, splice_full by zlen_lia. by rewrite <-!app_assoc.
Qed.

(** [memcpy] into a whole block. *)
Lemma memcpy_block e a blk src n d :
  e_heap e !! a = Some blk → zlen blk = n → cbuf_read src n = Some d → zlen d = n →
  memcpy (Some (a, 0)) src n e = Ret tt (set_heap (<[a := d]> (e_heap e)) e).
Proof.
  intros Ha Hn Hsrc Hd. unfold memcpy. rewrite Hsrc. simpl. unfold mbind, M_bind; simpl.
  rewrite (store_run e a 0 d blk) by (done || lia). by rewrite splice_full by lia.
Qed.

Section create.
Context {host : Host} {zlib : Zlib}.

Lemma write_be32_eq buf v : write_be32 buf v = store buf (be_bytes 4 v).
Proof. unfold write_be32. by rewrite native_htobe. Qed.
Lemma write_be64_eq buf v : write_be64 buf v = store buf (be_bytes 8 v).
Proof. unfold write_be64. by rewrite native_htobe. Qed.

Lemma read_be32_run e a off blk :
  e_heap e !! a = Some blk → 0 ≤ off → off + 4 ≤ zlen blk →
  read_be32 (Some (a, off)) e = Ret (be_val (slice off 4 blk)) e.
Proof.
  intros. unfold read_be32, mbind, M_bind. rewrite (load_run _ _ _ _ blk) by (done || lia).
  rewrite htobe_native; [done|].
  pose proof (zlen_slice off 4 blk ltac:(lia) ltac:(lia) ltac:(lia)). zlen_lia.
Qed.

Lemma read_be64_run e a off blk :
  e_heap e !! a = Some blk → 0 ≤ off → off + 8 ≤ zlen blk →
  read_be64 (Some (a, off)) e = Ret (be_val (slice off 8 blk)) e.
Proof.
  intros. unfold read_be64, mbind, M_bind. rewrite (load_run _ _ _ _ blk) by (done || lia).
  rewrite htobe_native; [done|].
  pose proof (zlen_slice off 8 blk ltac:(lia) ltac:(lia) ltac:(lia)). zlen_lia.
Qed.

Lemma get_datafile_record_header_run e record a len blk :
  record !! 0%nat = Some (IOV (Some (a, 0)) len) →
  e_heap e !! a = Some blk → zlen blk = 16 →
  ccask_get_datafile_record_header record e = Ret (datafile_header_of blk) e.
Proof.
  intros Hr Ha Hblk. unfold ccask_get_datafile_record_header.
  rewrite (list_lookup_total_correct _ _ _ Hr). simpl.
  unfold mbind, M_bind. by rewrite !(read_be32_run _ _ _ blk) by (done || lia).
Qed.

Lemma get_hintfile_record_header_run e record a len blk :
  record !! 0%nat = Some (IOV (Some (a, 0)) len) →
  e_heap e !! a = Some blk → zlen blk = 20 →
  ccask_get_hintfile_record_header record e = Ret (hintfile_header_of blk) e.
Proof.
  intros Hr Ha Hblk. unfold ccask_get_hintfile_record_header.
  rewrite (list_lookup_total_correct _ _ _ Hr). simpl.
  unfold mbind, M_bind.
  by rewrite !(read_be32_run _ _ _ blk), (read_be64_run _ _ _ blk) by (done || lia).
Qed.

(** Creating a record: three fresh blocks with header, key and value. *)
Lemma create_datafile_record_ok e v0 v1 v2 ts key ks value vs crc kb vb :
  heap_wf e → mallocs_ok 3 e →
  calculate_crc32 ts ks vs key value = Some crc →
  cbuf_read key ks = Some kb → cbuf_read value vs = Some vb →
  ccask_create_datafile_record [v0; v1; v2] ts key ks value vs e =
  Ret (CCASK_OK, datafile_iov (e_brk e) ks vs)
    (put_block vb (put_block kb (put_block
      (datafile_header_bytes (DatafileHeader crc ts ks vs)) e))).
Proof.
  intros Hwf Hm Hcrc Hk Hv.
  pose proof (cbuf_read_zlen _ _ _ Hk). pose proof (cbuf_read_zlen _ _ _ Hv).
  pose proof (zlen_nonneg kb). pose proof (zlen_nonneg vb).
  unfold ccask_create_datafile_record. rewrite Hcrc.
  rewrite (bind_run _ _ _ crc e) by done.
  rewrite (bind_run _ _ _ _ _ (allocate_datafile_record_ok e v0 v1 v2 ks vs Hm)).
  set (b := e_brk e). simpl. rewrite !write_be32_eq.
  set (e3 := put_block (zeros vs) _).
  assert (e_heap e3 !! b = Some (zeros 16)) as Hb0.
  { simpl. rewrite !lookup_insert_ne by lia. apply lookup_insert_eq. }
  rewrite (store_four e3 b (zeros 16) _ _ _ _ 4) by (done || apply zlen_be_bytes).
  set (h := _ ++ _ ++ _). set (e4 := set_heap _ e3).
  assert (e_heap e4 !! (b + 1) = Some (zeros ks)) as Hb1.
  { simpl. rewrite lookup_insert_ne, lookup_insert_ne by lia. apply lookup_insert_eq. }
  rewrite (bind_run _ _ _ _ _ (memcpy_block e4 (b + 1) (zeros ks) key ks kb Hb1
    ltac:(apply zlen_zeros; lia) Hk ltac:(done))).
  set (e5 := set_heap _ e4).
  assert (e_heap e5 !! (b + 2) = Some (zeros vs)) as Hb2.
  { simpl. rewrite !lookup_insert_ne by lia. fold b.
    replace (b + 1 + 1) with (b + 2) by lia. apply lookup_insert_eq. }
  rewrite (bind_run _ _ _ _ _ (memcpy_block e5 (b + 2) (zeros vs) value vs vb Hb2
    ltac:(apply zlen_zeros; lia) Hv ltac:(done))).
  unfold mret, M_ret. f_equal. unfold e5, e4, e3, set_heap, put_block. simpl. fold b.
  f_equal. unfold datafile_header_bytes. simpl. fold h.
  replace (b + 1 + 1) with (b + 2) by lia.
  apply map_eq. intros i. rewrite !lookup_insert. repeat case_decide; done || lia.
Qed.

(** The same for a hint record: two blocks. *)
Lemma create_hintfile_record_ok e v0 v1 ts ks vs pos key kb :
  heap_wf e → mallocs_ok 2 e → cbuf_read key ks = Some kb →
  ccask_create_hintfile_record [v0; v1] ts ks vs pos key e =
  Ret (CCASK_OK, hintfile_iov (e_brk e) ks)
    (put_block kb (put_block (hintfile_header_bytes (HintfileHeader ts ks vs pos)) e)).
Proof.
  intros Hwf Hm Hk. pose proof (cbuf_read_zlen _ _ _ Hk). pose proof (zlen_nonneg kb).
  unfold ccask_create_hintfile_record.
  rewrite (bind_run _ _ _ _ _ (allocate_hintfile_record_ok e v0 v1 ks Hm)).
  set (b := e_brk e). simpl. rewrite !write_be32_eq, write_be64_eq.
  set (e2 := put_block (zeros ks) _).
  assert (e_heap e2 !! b = Some (zeros 20)) as Hb0.
  { simpl. rewrite !lookup_insert_ne by lia. apply lookup_insert_eq. }
  rewrite (store_four e2 b (zeros 20) _ _ _ _ 8) by (done || apply zlen_be_bytes).
  set (h := _ ++ _ ++ _). set (e4 := set_heap _ e2).
  assert (e_heap e4 !! (b + 1) = Some (zeros ks)) as Hb1.
  { simpl. rewrite lookup_insert_ne by lia. apply lookup_insert_eq. }
  rewrite (bind_run _ _ _ _ _ (memcpy_block e4 (b + 1) (zeros ks) key ks kb Hb1
    ltac:(apply zlen_zeros; lia) Hk ltac:(done))).
  unfold mret, M_ret. f_equal. unfold e4, e2, set_heap, put_block. simpl. fold b.
  f_equal. unfold hintfile_header_bytes. simpl. fold h.
  apply map_eq. intros i. rewrite !lookup_insert. repeat case_decide; done || lia.
Qed.
End create.

(** ** Whole records *)

(** A record as it lies in a data file. *)
Definition datafile_record_bytes (h : ccask_datafile_record_header) (key value : bytes) : bytes :=
  datafile_header_bytes h ++ key ++ value.
Definition hintfile_record_bytes (h : ccask_hintfile_record_header) (key : bytes) : bytes :=
  hintfile_header_bytes h ++ key.

(** The header says how long key and value are, and its fields fit. *)
Definition datafile_record_ok (h : ccask_datafile_record_header) (key value : bytes) : Prop :=
  datafile_header_ok h ∧ zlen key = df_key_size h ∧ zlen value = df_value_size h.
Definition hintfile_record_ok (h : ccask_hintfile_record_header) (key : bytes) : Prop :=
  hintfile_header_ok h ∧ zlen key = hf_key_size h.

Lemma zlen_datafile_record h key value :
  datafile_record_ok h key value →
  zlen (datafile_record_bytes h key value) = 16 + df_key_size h + df_value_size h.
Proof.
  intros (_ & Hk & Hv). unfold datafile_record_bytes.
  rewrite !zlen_app, zlen_datafile_header. lia.
Qed.

Lemma zlen_hintfile_record h key :
  hintfile_record_ok h key → zlen (hintfile_record_bytes h key) = 20 + hf_key_size h.
Proof.
  intros (_ & Hk). unfold hintfile_record_bytes. rewrite zlen_app, zlen_hintfile_header. lia.
Qed.

(** Three blocks of the heap as a record. *)
Lemma gather_datafile_iov h a hd kb vb :
  h !! a = Some hd → zlen hd = 16 → h !! (a + 1) = Some kb → h !! (a + 2) = Some vb →
  gather h (datafile_iov a (zlen kb) (zlen vb)) = Some (hd ++ kb ++ vb).
Proof.
  intros H0 H16 H1 H2. unfold datafile_iov. cbn [gather iov_base iov_len].
  rewrite <-H16, (mem_read_block _ _ _ H0). simpl.
  rewrite (mem_read_block _ _ _ H1). simpl. rewrite (mem_read_block _ _ _ H2). simpl.
  by rewrite app_nil_r.
Qed.

Lemma gather_hintfile_iov h a hd kb :
  h !! a = Some hd → zlen hd = 20 → h !! (a + 1) = Some kb →
  gather h (hintfile_iov a (zlen kb)) = Some (hd ++ kb).
Proof.
  intros H0 H20 H1. unfold hintfile_iov. cbn [gather iov_base iov_len].
  rewrite <-H20, (mem_read_block _ _ _ H0). simpl.
  rewrite (mem_read_block _ _ _ H1). simpl. by rewrite app_nil_r.
Qed.

(** Filling the three blocks of a fresh record. *)
Lemma scatter_datafile_iov h a b0 b1 b2 d0 d1 d2 :
  h !! a = Some b0 → h !! (a + 1) = Some b1 → h !! (a + 2) = Some b2 →
  zlen b0 = 16 → zlen d0 = 16 → zlen d1 = zlen b1 → zlen d2 = zlen b2 →
  scatter h (datafile_iov a (zlen b1) (zlen b2)) (d0 ++ d1 ++ d2) =
  Some (<[a + 2 := d2]> (<[a + 1 := d1]> (<[a := d0]> h))).
Proof.
  intros H0 H1 H2 Hb0 Hd0 Hd1 Hd2. unfold datafile_iov.
  cbn [scatter iov_base iov_len].
  rewrite take_app_length', drop_app_length' by zlen_lia.
  rewrite (mem_write_block _ _ b0) by (done || lia). simpl.
  rewrite take_app_length', drop_app_length' by zlen_lia.
  rewrite (mem_write_block _ _ b1) by (rewrite ?lookup_insert_ne by lia; done || lia). simpl.
  rewrite take_ge by zlen_lia.
  by rewrite (mem_write_block _ _ b2) by (rewrite ?lookup_insert_ne by lia; done || lia).
Qed.

Lemma free_block e a k {A} (m : M env A) :
  k = a → is_Some (e_heap e !! a) →
  (_ ← free (Some (k, 0)); m) e = m (set_heap (delete a (e_heap e)) e).
Proof. intros -> Ha. by rewrite (bind_run _ _ _ _ _ (free_run e a Ha)). Qed.

Lemma free_datafile_iov e a ks vs :
  is_Some (e_heap e !! a) → is_Some (e_heap e !! (a + 1)) → is_Some (e_heap e !! (a + 2)) →
  free_datafile_record (datafile_iov a ks vs) e =
  Ret tt (set_heap (delete (a + 2) (delete (a + 1) (delete a (e_heap e)))) e).
Proof.
  intros H0 H1 H2. unfold free_datafile_record. simpl iov_base.
  rewrite (free_block e a) by done.
  rewrite (free_block _ (a + 1)); [|done | simpl; by rewrite lookup_delete_ne by lia].
  rewrite (free_run _ (a + 2)); [done | simpl; by rewrite !lookup_delete_ne by lia].
Qed.

Lemma free_hintfile_iov e a ks :
  is_Some (e_heap e !! a) → is_Some (e_heap e !! (a + 1)) →
  free_hintfile_record (hintfile_iov a ks) e =
  Ret tt (set_heap (delete (a + 1) (delete a (e_heap e))) e).
Proof.
  intros H0 H1. unfold free_hintfile_record. simpl iov_base.
  rewrite (free_block e a) by done.
  rewrite (free_run _ (a + 1)); [done | simpl; by rewrite !lookup_delete_ne by lia].
Qed.

(** The blocks of a fresh record removed again. *)
Lemma delete_put_three e d0 d1 d2 :
  heap_wf e →
  let e' := put_block d2 (put_block d1 (put_block d0 e)) in
  delete (e_brk e + 2) (delete (e_brk e + 1) (delete (e_brk e) (e_heap e'))) = e_heap e.
Proof.
  intros Hwf e'. simpl. replace (e_brk e + 1 + 1) with (e_brk e + 2) by lia.
  apply map_eq. intros i. rewrite !lookup_delete, !lookup_insert.
  repeat case_decide; subst; try done; symmetry; apply heap_wf_fresh; done || lia.
Qed.

(** ** Out of memory *)

(** The allocation that fails first decides what is left behind: the loop that
    frees the buffers stops before [record[0]]. *)
Lemma allocate_datafile_record_nomem_run e v0 v1 v2 ks vs k l :
  heap_wf e → (k < 3)%nat → e_malloc e = replicate k true ++ false :: l →
  wp (ccask_allocate_datafile_record [v0; v1; v2] ks vs) e (λ r e',
    r.1 = CCASK_FAIL ∧ e_errno e' = CCASK_ERR_NO_MEMORY ∧ e_kernel e' = e_kernel e ∧
    e_heap e' = if decide (k = 0%nat) then e_heap e
                else <[e_brk e := zeros 16]> (e_heap e)).
Proof.
  intros Hwf Hk Hm. destruct e as [h b m kn err]. simpl in *. subst m.
  assert (h !! (b + 1) = None) as Hb1 by (apply (heap_wf_fresh _ _ Hwf); simpl; lia).
  destruct k as [|[|[|]]]; [| | |lia]; simpl.
  - done.
  - done.
  - unfold wp, ccask_allocate_datafile_record, mbind, M_bind. simpl.
    change (@mbind (M env) _ _ _ (λ _ : (), free (Some (b + 1, 0)) ≫= λ _ : (), mret ()) (free None))
      with (free (Some (b + 1, 0)) ≫= λ _ : (), mret ()).
    rewrite (bind_run _ _ _ _ _ (free_run _ (b + 1) (ex_intro _ _ (lookup_insert_eq _ _ _)))).
    simpl. split_and!; try done. apply delete_insert_id.
    by rewrite lookup_insert_ne by lia.
Qed.

(** ** The array keeps its length *)

Lemma alloc_loop_length todo i record e done i' record' e' :
  alloc_loop todo i record e = Ret (done, i', record') e' → length record' = length record.
Proof.
  revert i record e. induction todo as [|todo IH]; intros i record e; simpl.
  { by intros [= <- <- <- <-]. }
  intros (a & e1 & _ & H)%bind_Ret. destruct a as [a|].
  - apply IH in H. unfold set_iov_base in H. by rewrite length_alter in H.
  - injection H as <- <- <- <-. unfold set_iov_base. by rewrite length_alter.
Qed.

Lemma create_datafile_record_length {host : Host} {zlib : Zlib} record ts key ks value vs e res record' e' :
  ccask_create_datafile_record record ts key ks value vs e = Ret (res, record') e' →
  length record' = length record.
Proof.
  unfold ccask_create_datafile_record.
  intros (crc & e1 & _ & ([res1 record1] & e2 & Hal & H)%bind_Ret)%bind_Ret.
  assert (length record1 = length record) as Hl.
  { unfold ccask_allocate_datafile_record in Hal.
    apply bind_Ret in Hal as ([[d i] record2] & e3 & Hloop%alloc_loop_length & Hal).
    unfold set_iov_len in Hloop. rewrite !length_alter in Hloop.
    destruct d; [by injection Hal as <- <- <-|].
    apply bind_Ret in Hal as (? & ? & _ & (? & ? & _ & Hal)%bind_Ret).
    by injection Hal as <- <- <-. }
  destruct res1; [|by injection H as <- <- <-|by injection H as <- <- <-].
  do 6 apply bind_Ret in H as (? & ? & _ & H). by injection H as <- <- <-.
Qed.

(** A whole block as a buffer. *)
Lemma heap_buf_run e a blk :
  e_heap e !! a = Some blk → heap_buf (Some (a, 0)) e = Ret (Some blk) e.
Proof. intros Ha. unfold heap_buf, mbind, M_bind, get. simpl. by rewrite Ha. Qed.

Lemma datafile_iov_ends a ks (v : bytes) : v ≠ [] → ends_nonempty (datafile_iov a ks (zlen v)) = true.
Proof.
  intros Hv. unfold ends_nonempty. simpl. apply bool_decide_eq_true.
  destruct v; [done | zlen_lia].
Qed.

Lemma datafile_iov_size a ks vs :
  0 ≤ ks → 0 ≤ vs → 16 + ks + vs < 2 ^ 64 →
  ccask_get_datafile_record_total_size (datafile_iov a ks vs) = 16 + ks + vs.
Proof.
  intros. unfold ccask_get_datafile_record_total_size. simpl. apply u64_small.
  unfold is_u64. lia.
Qed.

(** Three fresh blocks: what was live is untouched. *)
Definition three_blocks (d0 d1 d2 : bytes) (e : env) : env :=
  put_block d2 (put_block d1 (put_block d0 e)).

Lemma three_blocks_lookup d0 d1 d2 e :
  let b := e_brk e in let h := e_heap (three_blocks d0 d1 d2 e) in
  h !! b = Some d0 ∧ h !! (b + 1) = Some d1 ∧ h !! (b + 2) = Some d2 ∧
  ∀ a, a < b → h !! a = e_heap e !! a.
Proof.
  simpl. replace (e_brk e + 1 + 1) with (e_brk e + 2) by lia. split_and!.
  - by rewrite !lookup_insert_ne, lookup_insert_eq by lia.
  - by rewrite lookup_insert_ne, lookup_insert_eq by lia.
  - apply lookup_insert_eq.
  - intros a ?. by rewrite !lookup_insert_ne by lia.
Qed.
