(* ===== verification/Ringbuf.v ===== *)
(** * Ringbuf: the queue between the clients and the writer thread

    Models [writer_ringbuf.c].  The static pointer [ringbuf] is [None] while it
    is [NULL] or dangling.  The mutex is a flag: locking a locked mutex blocks,
    and so does waiting for the condition [not_empty], since only another
    thread can make it true.  Each function runs under the mutex, so the
    functions are the atomic steps of any interleaving of the threads. *)
From S2P Require Import Prelude Status Posix Codec Records.

Record ccask_writer_ringbuf := Ringbuf {
  rb_buf : list ccask_datafile_record_t;
  rb_capacity : Z;
  rb_head : Z;
  rb_tail : Z;
  rb_mutex : bool;           (* locked *)
  rb_shutdown : bool;
  rb_self_at : Z;            (* where the structure was allocated *)
  rb_buf_at : Z;             (* and its array *)
}.

Definition set_rb_buf (b : list ccask_datafile_record_t) (r : ccask_writer_ringbuf) :=
  Ringbuf b (rb_capacity r) (rb_head r) (rb_tail r) (rb_mutex r) (rb_shutdown r)
    (rb_self_at r) (rb_buf_at r).
Definition set_rb_head (h : Z) (r : ccask_writer_ringbuf) :=
  Ringbuf (rb_buf r) (rb_capacity r) h (rb_tail r) (rb_mutex r) (rb_shutdown r)
    (rb_self_at r) (rb_buf_at r).
Definition set_rb_tail (t : Z) (r : ccask_writer_ringbuf) :=
  Ringbuf (rb_buf r) (rb_capacity r) (rb_head r) t (rb_mutex r) (rb_shutdown r)
    (rb_self_at r) (rb_buf_at r).
Definition set_rb_mutex (m : bool) (r : ccask_writer_ringbuf) :=
  Ringbuf (rb_buf r) (rb_capacity r) (rb_head r) (rb_tail r) m (rb_shutdown r)
    (rb_self_at r) (rb_buf_at r).
Definition set_rb_shutdown (s : bool) (r : ccask_writer_ringbuf) :=
  Ringbuf (rb_buf r) (rb_capacity r) (rb_head r) (rb_tail r) (rb_mutex r) s
    (rb_self_at r) (rb_buf_at r).

(** The state of the translation unit. *)
Definition rstate : Type := env * option ccask_writer_ringbuf.

Definition ringbuf : M rstate ccask_writer_ringbuf := s ← get; deref s.2.
Definition set_ringbuf (r : option ccask_writer_ringbuf) : M rstate unit :=
  modify (λ s, (s.1, r)).

Definition mutex_lock : M rstate unit :=
  r ← ringbuf;
  if rb_mutex r then blocked else set_ringbuf (Some (set_rb_mutex true r)).
Definition mutex_unlock : M rstate unit :=
  r ← ringbuf; set_ringbuf (Some (set_rb_mutex false r)).

Definition ccask_writer_ringbuf_count : M rstate Z :=
  _ ← mutex_lock;
  r ← ringbuf;
  let head := rb_head r in
  let tail := rb_tail r in
  _ ← mutex_unlock;
  if bool_decide (tail ≤ head) then mret (head - tail)
  else r ← ringbuf; mret (u64 (rb_capacity r - (tail - head))).

(** [sizeof(ccask_writer_ringbuf_t)] and [sizeof(ccask_datafile_record_t)]; the
    values do not matter. *)
Definition sizeof_ringbuf : Z := 136.
Definition sizeof_datafile_record : Z := 48.

Definition ccask_writer_ringbuf_init (capacity : Z) : M rstate ccask_status_e :=
  p ← zoom (malloc sizeof_ringbuf);
  match p with
  | None =>
      _ ← set_ringbuf None;
      _ ← zoom (set_ccask_errno CCASK_ERR_NO_MEMORY);
      mret CCASK_FAIL
  | Some self =>
      b ← zoom (malloc (capacity * sizeof_datafile_record));
      match b with
      | None =>
          _ ← zoom (free (Some (self, 0)));
          _ ← set_ringbuf None;
          _ ← zoom (set_ccask_errno CCASK_ERR_NO_MEMORY);
          mret CCASK_FAIL
      | Some buf =>
          let zeroed := replicate (Z.to_nat capacity) (replicate 3 (IOV None 0)) in
          _ ← set_ringbuf (Some (Ringbuf zeroed capacity 0 0 false false self buf));
          mret CCASK_OK
      end
  end.

Definition ccask_writer_ringbuf_start_shutdown : M rstate unit :=
  _ ← mutex_lock;
  r ← ringbuf;
  _ ← set_ringbuf (Some (set_rb_shutdown true r));
  mutex_unlock.

Definition ccask_writer_ringbuf_destroy : M rstate unit :=
  r ← ringbuf;
  _ ← zoom (free (Some (rb_buf_at r, 0)));
  _ ← zoom (free (Some (rb_self_at r, 0)));
  set_ringbuf None.

(** [i % capacity]: dividing by zero is undefined. *)
Definition ring_mod (i capacity : Z) : option Z :=
  if bool_decide (capacity = 0) then None else Some (i mod capacity).

Section ops.
Context {host : Host} {zlib : Zlib}.

(** When the record cannot be created the function returns without
    unlocking the mutex. *)
Definition ccask_writer_ringbuf_push (timestamp : Z) (key : cbuf) (key_size : Z)
    (value : cbuf) (value_size : Z) : M rstate ccask_status_e :=
  _ ← mutex_lock;
  r ← ringbuf;
  next ← deref (ring_mod (u64 (rb_head r + 1)) (rb_capacity r));
  if bool_decide (next = rb_tail r) then
    _ ← mutex_unlock;
    _ ← zoom (set_ccask_errno CCASK_ERR_RINGBUFFER_FULL);
    mret CCASK_RETRY
  else
    slot ← deref (rb_buf r !! Z.to_nat (rb_head r));
    '(res, slot) ← zoom (ccask_create_datafile_record slot timestamp
                           key key_size value value_size);
    _ ← set_ringbuf (Some (set_rb_buf (<[Z.to_nat (rb_head r) := slot]> (rb_buf r)) r));
    match res with
    | CCASK_OK =>
        r ← ringbuf;
        _ ← set_ringbuf (Some (set_rb_head next r));
        _ ← mutex_unlock;
        mret CCASK_OK
    | _ => mret CCASK_FAIL
    end.
End ops.

Definition ccask_writer_ringbuf_pop (record : ccask_datafile_record_t) :
    M rstate (ccask_status_e * ccask_datafile_record_t) :=
  _ ← mutex_lock;
  r ← ringbuf;
  if bool_decide (rb_tail r = rb_head r) && negb (rb_shutdown r) then blocked
  else if rb_shutdown r && bool_decide (rb_tail r = rb_head r) then
    _ ← mutex_unlock; mret (CCASK_FAIL, record)
  else
    slot ← deref (rb_buf r !! Z.to_nat (rb_tail r));
    tail ← deref (ring_mod (u64 (rb_tail r + 1)) (rb_capacity r));
    _ ← set_ringbuf (Some (set_rb_tail tail r));
    _ ← mutex_unlock;
    mret (CCASK_OK, slot).

(** ** The queue a ring represents *)

Record ring_ok (r : ccask_writer_ringbuf) : Prop := {
  ring_cap : zlen (rb_buf r) = rb_capacity r;
  ring_cap_u64 : 0 < rb_capacity r < 2 ^ 63;
  ring_head : 0 ≤ rb_head r < rb_capacity r;
  ring_tail : 0 ≤ rb_tail r < rb_capacity r;
  ring_slots : Forall (λ slot, length slot = 3%nat) (rb_buf r);
}.

Definition ring_count (r : ccask_writer_ringbuf) : Z :=
  (rb_head r - rb_tail r) mod rb_capacity r.

(** The records from [tail] up to [head], the oldest first. *)
Definition ring_queue (r : ccask_writer_ringbuf) : list ccask_datafile_record_t :=
  (λ i : nat, rb_buf r !!! Z.to_nat ((rb_tail r + Z.of_nat i) mod rb_capacity r))
    <$> seq 0 (Z.to_nat (ring_count r)).

Section queue.
Implicit Types (r : ccask_writer_ringbuf).

Lemma mod_window a c : 0 < c → - c ≤ a < c → a mod c = if bool_decide (0 ≤ a) then a else a + c.
Proof.
  intros. case_bool_decide.
  - apply Z.mod_small. lia.
  - rewrite <-(Z.mod_add a 1 c) by lia. rewrite Z.mul_1_l. apply Z.mod_small. lia.
Qed.

Lemma mod_window' a c : 0 < c → 0 ≤ a < 2 * c → a mod c = if bool_decide (a < c) then a else a - c.
Proof.
  intros. case_bool_decide.
  - apply Z.mod_small. lia.
  - rewrite <-(Z.mod_add a (-1) c) by lia. rewrite Z.mod_small by lia. lia.
Qed.

Lemma ring_count_eq r :
  ring_ok r →
  ring_count r = if bool_decide (rb_tail r ≤ rb_head r) then rb_head r - rb_tail r
                 else rb_capacity r - (rb_tail r - rb_head r).
Proof.
  intros [? ? ? ? ?]. unfold ring_count. rewrite mod_window by lia.
  repeat case_bool_decide; lia.
Qed.

Lemma ring_count_range r : ring_ok r → 0 ≤ ring_count r < rb_capacity r.
Proof. intros [? ? ? ? ?]. apply Z.mod_pos_bound. lia. Qed.

Lemma length_ring_queue r : ring_ok r → zlen (ring_queue r) = ring_count r.
Proof.
  intros Hr. pose proof (ring_count_range r Hr).
  unfold zlen, ring_queue. rewrite length_fmap, length_seq. lia.
Qed.

Lemma ring_queue_lookup r i :
  ring_ok r → (i < Z.to_nat (ring_count r))%nat →
  ring_queue r !! i =
  rb_buf r !! Z.to_nat ((rb_tail r + Z.of_nat i) mod rb_capacity r).
Proof.
  intros [Hc ? ? ? Hslots] Hi. unfold ring_queue.
  rewrite list_lookup_fmap, lookup_seq_lt by done. simpl.
  symmetry. apply list_lookup_lookup_total_lt.
  pose proof (Z.mod_pos_bound (rb_tail r + Z.of_nat i) (rb_capacity r)).
  unfold zlen in Hc. lia.
Qed.

(** The slot at the head is not in the queue. *)
Lemma ring_index_head r i :
  ring_ok r → (i < Z.to_nat (ring_count r))%nat →
  Z.to_nat ((rb_tail r + Z.of_nat i) mod rb_capacity r) ≠ Z.to_nat (rb_head r).
Proof.
  intros Hr Hi Heq. pose proof (ring_count_range r Hr).
  pose proof Hr as [Hc ? ? ? Hslots].
  apply Z2Nat.inj in Heq; [| apply Z.mod_pos_bound; lia | lia].
  rewrite ring_count_eq in * by done. rewrite mod_window' in Heq by lia.
  repeat case_bool_decide; lia.
Qed.

Lemma ring_queue_slot r slot :
  ring_ok r → length slot = 3%nat →
  let r' := set_rb_buf (<[Z.to_nat (rb_head r) := slot]> (rb_buf r)) r in
  ring_ok r' ∧ ring_queue r' = ring_queue r.
Proof.
  intros Hr Hslot r'. pose proof Hr as [Hc ? ? ? Hslots].
  assert (ring_ok r') as Hr'.
  { constructor; simpl; try done.
    - unfold zlen in *. by rewrite length_insert.
    - by apply Forall_insert. }
  split; [done|]. apply list_eq. intros i.
  pose proof (length_ring_queue r Hr). pose proof (length_ring_queue r' Hr').
  change (ring_count r') with (ring_count r) in *.
  destruct (decide (i < Z.to_nat (ring_count r))%nat) as [Hi|Hi].
  - rewrite !ring_queue_lookup by done. simpl.
    apply list_lookup_insert_ne. by apply not_eq_sym, ring_index_head.
  - rewrite !lookup_ge_None_2 by zlen_lia. done.
Qed.

(** One more record at the head. *)
Lemma ring_queue_push r slot next :
  ring_ok r → length slot = 3%nat → next = (rb_head r + 1) mod rb_capacity r → next ≠ rb_tail r →
  let r' := set_rb_head next (set_rb_buf (<[Z.to_nat (rb_head r) := slot]> (rb_buf r)) r) in
  ring_ok r' ∧ ring_queue r' = ring_queue r ++ [slot].
Proof.
  intros Hr Hslot Hnext Hne r'. pose proof Hr as [Hc ? ? ? Hslots].
  assert (ring_ok r') as Hr'.
  { constructor; simpl; try done.
    - unfold zlen in *. by rewrite length_insert.
    - subst next. apply Z.mod_pos_bound. lia.
    - by apply Forall_insert. }
  split; [done|].
  pose proof (ring_count_range r Hr). pose proof (ring_count_range r' Hr').
  assert (ring_count r' = ring_count r + 1) as Hcount.
  { rewrite !ring_count_eq by done. simpl.
    rewrite mod_window' in Hnext by lia. repeat case_bool_decide; lia. }
  apply list_eq_same_length with (n := Z.to_nat (ring_count r')).
  { rewrite length_app. simpl. pose proof (length_ring_queue r Hr). zlen_lia. }
  { pose proof (length_ring_queue r' Hr'). zlen_lia. }
  intros i x y Hi. rewrite ring_queue_lookup by done. simpl.
  destruct (decide (i < Z.to_nat (ring_count r))%nat) as [Hlt|Hge].
  - rewrite lookup_app_l by (pose proof (length_ring_queue r Hr); zlen_lia).
    rewrite ring_queue_lookup by done.
    rewrite list_lookup_insert_ne by (by apply not_eq_sym, ring_index_head). congruence.
  - assert (i = Z.to_nat (ring_count r)) as -> by lia.
    assert (Z.to_nat (ring_count r) = length (ring_queue r)) as Hl
      by (pose proof (length_ring_queue r Hr); zlen_lia).
    rewrite Hl, list_lookup_middle by done. rewrite <-Hl, Z2Nat.id by lia.
    replace ((rb_tail r + ring_count r) mod rb_capacity r) with (rb_head r).
    + rewrite list_lookup_insert_eq by (unfold zlen in *; lia). congruence.
    + unfold ring_count. rewrite Zplus_mod_idemp_r.
      replace (rb_tail r + (rb_head r - rb_tail r)) with (rb_head r) by lia.
      symmetry. by apply Z.mod_small.
Qed.

(** One record fewer at the tail. *)
Lemma ring_queue_pop r tail :
  ring_ok r → rb_tail r ≠ rb_head r → tail = (rb_tail r + 1) mod rb_capacity r →
  let r' := set_rb_tail tail r in
  ring_ok r' ∧
  ∃ slot, rb_buf r !! Z.to_nat (rb_tail r) = Some slot ∧
    ring_queue r = slot :: ring_queue r'.
Proof.
  intros Hr Hne Htail r'. pose proof Hr as [Hc ? ? ? Hslots].
  assert (ring_ok r') as Hr'.
  { constructor; simpl; try done. subst tail. apply Z.mod_pos_bound. lia. }
  split; [done|].
  pose proof (ring_count_range r Hr). pose proof (ring_count_range r' Hr').
  assert (ring_count r = ring_count r' + 1) as Hcount.
  { rewrite !ring_count_eq by done. simpl.
    rewrite mod_window' in Htail by lia. repeat case_bool_decide; lia. }
  destruct (lookup_lt_is_Some_2 (rb_buf r) (Z.to_nat (rb_tail r)))
    as [slot Hslot]; [zlen_lia|].
  exists slot. split; [done|]. apply list_eq. intros i.
  pose proof (length_ring_queue r Hr). pose proof (length_ring_queue r' Hr').
  destruct (decide (i < Z.to_nat (ring_count r))%nat) as [Hi|Hi].
  2: { rewrite !lookup_ge_None_2 by zlen_lia. done. }
  rewrite ring_queue_lookup by done. destruct i as [|i]; simpl.
  - rewrite Z.add_0_r, Z.mod_small by lia. done.
  - rewrite ring_queue_lookup by (done || lia). simpl. f_equal. f_equal.
    subst tail. rewrite Zplus_mod_idemp_l. f_equal. lia.
Qed.
End queue.

(** ** The functions on a ring whose mutex is free *)

Definition ring_free (s : rstate) (r : ccask_writer_ringbuf) : Prop :=
  s.2 = Some r ∧ rb_mutex r = false ∧ ring_ok r.

Lemma set_rb_mutex_twice m1 m2 r : set_rb_mutex m1 (set_rb_mutex m2 r) = set_rb_mutex m1 r.
Proof. reflexivity. Qed.
Lemma set_rb_mutex_id r : rb_mutex r = false → set_rb_mutex false r = r.
Proof. destruct r. simpl. by intros ->. Qed.
Lemma ring_ok_mutex m r : ring_ok r → ring_ok (set_rb_mutex m r).
Proof. by intros []; constructor. Qed.
Lemma ring_queue_mutex m r : ring_queue (set_rb_mutex m r) = ring_queue r.
Proof. reflexivity. Qed.
#[export] Hint Resolve ring_ok_mutex : ccask.

Lemma mutex_lock_run e r :
  rb_mutex r = false → mutex_lock (e, Some r) = Ret tt (e, Some (set_rb_mutex true r)).
Proof.
  intros Hm. unfold mutex_lock, ringbuf, set_ringbuf, mbind, M_bind, get, modify. simpl.
  by rewrite Hm.
Qed.

Lemma mutex_lock_blocked e r :
  rb_mutex r = true → mutex_lock (e, Some r) = Blocked.
Proof. intros Hm. unfold mutex_lock, ringbuf, mbind, M_bind, get. simpl. by rewrite Hm. Qed.

Lemma ring_next_eq r :
  ring_ok r →
  ring_mod (u64 (rb_head r + 1)) (rb_capacity r) = Some ((rb_head r + 1) mod rb_capacity r) ∧
  ring_mod (u64 (rb_tail r + 1)) (rb_capacity r) = Some ((rb_tail r + 1) mod rb_capacity r).
Proof.
  intros [? ? ? ? ?]. unfold ring_mod. rewrite !bool_decide_eq_false_2 by lia.
  by rewrite !u64_small by (unfold is_u64; lia).
Qed.

(** The ring is full when one slot is left. *)
Lemma ring_full r :
  ring_ok r →
  (rb_head r + 1) mod rb_capacity r = rb_tail r ↔ ring_count r = rb_capacity r - 1.
Proof.
  intros Hr. pose proof Hr as [? ? ? ? ?]. rewrite ring_count_eq by done.
  rewrite mod_window' by lia. repeat case_bool_decide; lia.
Qed.

Lemma ring_empty r : ring_ok r → rb_tail r = rb_head r ↔ ring_queue r = [].
Proof.
  intros Hr. pose proof (length_ring_queue r Hr) as Hl.
  pose proof (ring_count_eq r Hr) as Hc. pose proof Hr as [? ? ? ? ?].
  split.
  - intros He. apply length_zero_iff_nil.
    rewrite Hc, bool_decide_eq_true_2 in Hl by lia. zlen_lia.
  - intros He. rewrite He, zlen_nil in Hl. rewrite Hc in Hl. case_bool_decide; lia.
Qed.

Lemma count_run e r :
  rb_mutex r = false → ring_ok r →
  ccask_writer_ringbuf_count (e, Some r) = Ret (zlen (ring_queue r)) (e, Some r).
Proof.
  intros Hm Hr. unfold ccask_writer_ringbuf_count.
  rewrite (bind_run _ _ _ _ _ (mutex_lock_run e r Hm)).
  unfold ringbuf, mutex_unlock, set_ringbuf, mbind, M_bind, get, modify. simpl.
  rewrite set_rb_mutex_twice, set_rb_mutex_id by done.
  rewrite length_ring_queue, ring_count_eq by done.
  destruct Hr as [? ? ? ? ?]. case_bool_decide; simpl; [done|].
  by rewrite u64_small by (unfold is_u64; lia).
Qed.

(** A new ring. *)
Definition new_ring (capacity self buf : Z) : ccask_writer_ringbuf :=
  Ringbuf (replicate (Z.to_nat capacity) (replicate 3 (IOV None 0))) capacity 0 0 false false self buf.

Lemma new_ring_ok capacity self buf :
  0 < capacity < 2 ^ 63 →
  ring_ok (new_ring capacity self buf) ∧ ring_queue (new_ring capacity self buf) = [].
Proof.
  intros Hc. assert (ring_ok (new_ring capacity self buf)) as Hr.
  { constructor; simpl; [|lia..|].
    - unfold zlen. rewrite length_replicate. lia.
    - by apply Forall_replicate. }
  split; [done|]. by apply (ring_empty _ Hr).
Qed.

Lemma ring_init_run e rg capacity :
  mallocs_ok 2 e →
  let e1 := put_block (zeros sizeof_ringbuf) e in
  ccask_writer_ringbuf_init capacity (e, rg) =
    Ret CCASK_OK (put_block (zeros (capacity * sizeof_datafile_record)) e1,
      Some (new_ring capacity (e_brk e) (e_brk e1))).
Proof.
  intros [H0 [H1 _]%(mallocs_ok_S _ _ (zeros (capacity * sizeof_datafile_record)))]%(mallocs_ok_S _ _ (zeros sizeof_ringbuf)).
  unfold ccask_writer_ringbuf_init.
  erewrite bind_run by exact (zoom_fst (malloc _) _ _ _ _ (malloc_ok _ _ H0)). cbn match.
  by erewrite bind_run by exact (zoom_fst (malloc _) _ _ _ _ (malloc_ok _ _ H1)).
Qed.

Section specs.
Context {host : Host} {zlib : Zlib}.

(** What [ccask_writer_ringbuf_push] does once the mutex is taken. *)
Lemma push_run e r ts key ks value vs :
  rb_mutex r = false → ring_ok r →
  ccask_writer_ringbuf_push ts key ks value vs (e, Some r) =
  if bool_decide (ring_count r = rb_capacity r - 1)
  then Ret CCASK_RETRY (set_err CCASK_ERR_RINGBUFFER_FULL e, Some r)
  else match ccask_create_datafile_record
               (rb_buf r !!! Z.to_nat (rb_head r)) ts key ks value vs e with
       | Ret (res, slot) e' =>
           let r' := set_rb_buf (<[Z.to_nat (rb_head r) := slot]> (rb_buf r)) r in
           match res with
           | CCASK_OK =>
               Ret CCASK_OK (e', Some (set_rb_head ((rb_head r + 1) mod rb_capacity r) r'))
           | _ => Ret CCASK_FAIL (e', Some (set_rb_mutex true r'))
           end
       | Blocked => Blocked | Undef => Undef | NoFuel => NoFuel
       end.
Proof.
  intros Hm Hr. unfold ccask_writer_ringbuf_push.
  rewrite (bind_run _ _ _ _ _ (mutex_lock_run e r Hm)).
  rewrite (bind_run _ _ _ (set_rb_mutex true r) (e, Some (set_rb_mutex true r))) by done.
  simpl. destruct (ring_next_eq r Hr) as [-> _].
  rewrite (bind_run _ _ _ ((rb_head r + 1) mod rb_capacity r)
    (e, Some (set_rb_mutex true r))) by done.
  rewrite (bool_decide_ext _ _ (ring_full r Hr)). case_bool_decide as Hfull.
  { unfold ringbuf, mutex_unlock, set_ringbuf, zoom, mbind, M_bind, get, modify. simpl.
    by rewrite set_rb_mutex_twice, set_rb_mutex_id. }
  pose proof Hr as [Hc ? ? ? ?].
  rewrite (list_lookup_lookup_total_lt (rb_buf r) (Z.to_nat (rb_head r))) by zlen_lia.
  rewrite (bind_run _ _ _ (rb_buf r !!! Z.to_nat (rb_head r))
    (e, Some (set_rb_mutex true r))) by done.
  unfold mbind, M_bind, zoom. simpl.
  destruct (ccask_create_datafile_record _ _ _ _ _ _ e) as [[res slot] e'| | |];
    [|done..]. destruct res; simpl; try done. destruct r; simpl in *. by subst.
Qed.

(** The same of [ccask_writer_ringbuf_pop]. *)
Lemma pop_run e r record :
  rb_mutex r = false → ring_ok r →
  ccask_writer_ringbuf_pop record (e, Some r) =
  match ring_queue r with
  | [] => if rb_shutdown r then Ret (CCASK_FAIL, record) (e, Some r) else Blocked
  | slot :: _ =>
      Ret (CCASK_OK, slot)
        (e, Some (set_rb_tail ((rb_tail r + 1) mod rb_capacity r) r))
  end.
Proof.
  intros Hm Hr. unfold ccask_writer_ringbuf_pop.
  rewrite (bind_run _ _ _ _ _ (mutex_lock_run e r Hm)).
  rewrite (bind_run _ _ _ (set_rb_mutex true r) (e, Some (set_rb_mutex true r))) by done.
  simpl. destruct (decide (rb_tail r = rb_head r)) as [He|He].
  - rewrite (bool_decide_eq_true_2 _ He). apply ring_empty in He as ->; [|done].
    destruct (rb_shutdown r); simpl; [|done].
    unfold ringbuf, mutex_unlock, set_ringbuf, mbind, M_bind, get, modify. simpl.
    by rewrite set_rb_mutex_twice, set_rb_mutex_id.
  - rewrite (bool_decide_eq_false_2 _ He), andb_false_r. simpl.
    destruct (ring_queue_pop r _ Hr He eq_refl) as (_ & slot & -> & ->).
    destruct (ring_next_eq r Hr) as [_ ->].
    unfold ringbuf, mutex_unlock, set_ringbuf, mbind, M_bind, get, modify. simpl.
    destruct r; simpl in *; by subst.
Qed.
End specs.

(** ** Interleavings

    Clients push, the writer pops, anybody counts or shuts down, and between
    two calls the threads do other work, which leaves the ring alone.  A label
    records the arguments of a push, with the memory that it found, and the
    record that a pop gave its caller. *)
Record push_call := PushCall {
  pc_env : env;
  pc_timestamp : Z;
  pc_key : cbuf;
  pc_key_size : Z;
  pc_value : cbuf;
  pc_value_size : Z;
}.

Inductive rlabel : Type :=
  | RPush (c : push_call)
  | RPop (slot : ccask_datafile_record_t)
  | RTau.

Section interleavings.
Context {host : Host} {zlib : Zlib}.

(** [slot] is the record that is created of the arguments. *)
Definition record_of (c : push_call) (slot : ccask_datafile_record_t) : Prop :=
  ∃ old e', ccask_create_datafile_record old (pc_timestamp c) (pc_key c) (pc_key_size c)
    (pc_value c) (pc_value_size c) (pc_env c) = Ret (CCASK_OK, slot) e'.

Inductive rstep : rstate → rlabel → rstate → Prop :=
  | rstep_push ts key ks value vs s s' :
      ccask_writer_ringbuf_push ts key ks value vs s = Ret CCASK_OK s' →
      rstep s (RPush (PushCall s.1 ts key ks value vs)) s'
  | rstep_push_refused ts key ks value vs s res s' :
      ccask_writer_ringbuf_push ts key ks value vs s = Ret res s' → res ≠ CCASK_OK →
      rstep s RTau s'
  | rstep_pop record s slot s' :
      ccask_writer_ringbuf_pop record s = Ret (CCASK_OK, slot) s' → rstep s (RPop slot) s'
  | rstep_pop_end record s res slot s' :
      ccask_writer_ringbuf_pop record s = Ret (res, slot) s' → res ≠ CCASK_OK →
      rstep s RTau s'
  | rstep_count s n s' :
      ccask_writer_ringbuf_count s = Ret n s' → rstep s RTau s'
  | rstep_shutdown s s' :
      ccask_writer_ringbuf_start_shutdown s = Ret tt s' → rstep s RTau s'
  | rstep_other e e' r : rstep (e, r) RTau (e', r).

Inductive rexec : rstate → list rlabel → rstate → Prop :=
  | rexec_nil s : rexec s [] s
  | rexec_cons s l s1 ls s' : rstep s l s1 → rexec s1 ls s' → rexec s (l :: ls) s'.

Definition pushed (ls : list rlabel) : list push_call :=
  omap (λ l, match l with RPush c => Some c | _ => None end) ls.
Definition popped (ls : list rlabel) : list ccask_datafile_record_t :=
  omap (λ l, match l with RPop slot => Some slot | _ => None end) ls.

(** The abstract queue under a label. *)
Definition qstep (q : list ccask_datafile_record_t) (l : rlabel)
    (q' : list ccask_datafile_record_t) : Prop :=
  match l with
  | RPush c => ∃ slot, record_of c slot ∧ q' = q ++ [slot]
  | RPop slot => q = slot :: q'
  | RTau => q' = q
  end.

Lemma mutex_lock_inv s s' :
  mutex_lock s = Ret tt s' → ∃ e r, s = (e, Some r) ∧ rb_mutex r = false.
Proof.
  destruct s as [e [r|]]; [|done]. destruct (rb_mutex r) eqn:Hm.
  - by rewrite mutex_lock_blocked.
  - eauto.
Qed.

(** Every function starts by locking the mutex. *)
Lemma locked_inv {A} (m : M rstate A) s a s' :
  (_ ← mutex_lock; m) s = Ret a s' → ∃ e r, s = (e, Some r) ∧ rb_mutex r = false.
Proof. intros ([] & s1 & Hl & _)%bind_Ret. by eapply mutex_lock_inv. Qed.

(** Every step is a step of the queue, and keeps the ring in order. *)
Lemma rstep_queue s l s' r :
  rstep s l s' → s.2 = Some r → ring_ok r →
  ∃ r', s'.2 = Some r' ∧ ring_ok r' ∧ qstep (ring_queue r) l (ring_queue r').
Proof.
  intros Hstep Hs Hr. destruct Hstep as
    [ts key ks value vs s s' H | ts key ks value vs s res s' H Hres
    | rec s slot s' H | rec s res slot s' H Hres | s n s' H | s s' H | e e' r0];
    try (destruct (locked_inv _ _ _ _ H) as (e & rr & -> & Hm); simpl in Hs; injection Hs as ->).
  - rewrite push_run in H by done. case_bool_decide as Hfull; [done|].
    destruct (ccask_create_datafile_record _ _ _ _ _ _ e) as [[res slot] e'| | |] eqn:Hc;
      try done. destruct res; try done. injection H as <-. pose proof Hc as Hcreate.
    apply create_datafile_record_length in Hc.
    pose proof Hr as [Hcap ? ? ? Hslots].
    assert (length slot = 3%nat) as Hslot.
    { rewrite Hc. apply (Forall_lookup_1 _ _ (Z.to_nat (rb_head r)) _ Hslots).
      apply list_lookup_lookup_total_lt. zlen_lia. }
    rewrite <-ring_full in Hfull by done.
    destruct (ring_queue_push r slot _ Hr Hslot eq_refl Hfull) as [Hr' Hq].
    eexists. split; [done|]. split; [done|]. exists slot. split; [|exact Hq]. by eexists _, _.
  - rewrite push_run in H by done. case_bool_decide as Hfull.
    { injection H as <- <-. by exists r. }
    destruct (ccask_create_datafile_record _ _ _ _ _ _ e) as [[res' slot] e'| | |] eqn:Hc;
      try done. apply create_datafile_record_length in Hc.
    pose proof Hr as [Hcap ? ? ? Hslots].
    assert (length slot = 3%nat) as Hslot.
    { rewrite Hc. apply (Forall_lookup_1 _ _ (Z.to_nat (rb_head r)) _ Hslots).
      apply list_lookup_lookup_total_lt. zlen_lia. }
    destruct (ring_queue_slot r slot Hr Hslot) as [Hr' Hq].
    destruct res'; [by injection H as <- <- | |];
      injection H as <- <-; eexists; (split; [reflexivity|]);
      (split; [by apply ring_ok_mutex | exact Hq]).
  - rewrite pop_run in H by done. destruct (ring_queue r) as [|slot' q] eqn:Hq.
    { by destruct (rb_shutdown r). }
    simplify_eq. assert (rb_tail r ≠ rb_head r) as Hne by (rewrite ring_empty, Hq; done).
    destruct (ring_queue_pop r _ Hr Hne eq_refl) as (Hr' & slot' & Hslot & Hq').
    eexists. split; [done|]. split; [done|]. simpl. congruence.
  - rewrite pop_run in H by done. destruct (ring_queue r) as [|slot' q] eqn:Hq; [|by simplify_eq].
    destruct (rb_shutdown r); [|done]. injection H as <- <- <-. exists r. by rewrite Hq.
  - rewrite count_run in H by done. injection H as <- <-. by exists r.
  - unfold ccask_writer_ringbuf_start_shutdown in H.
    rewrite (bind_run _ _ _ _ _ (mutex_lock_run e r Hm)) in H. injection H as <-.
    eexists. split; [done|]. split; [by destruct Hr; constructor | done].
  - simpl in Hs. subst r0. by exists r.
Qed.

Lemma rexec_queue s ls s' r :
  rexec s ls s' → s.2 = Some r → ring_ok r →
  ∃ r' slots, s'.2 = Some r' ∧ ring_ok r' ∧ Forall2 record_of (pushed ls) slots ∧
    ring_queue r ++ slots = popped ls ++ ring_queue r'.
Proof.
  intros H. revert r. induction H as [s | s l s1 ls s' Hstep Hexec IH]; intros r Hs Hr.
  - exists r, []. rewrite app_nil_r. by split_and!; [| |constructor|].
  - destruct (rstep_queue _ _ _ _ Hstep Hs Hr) as (r1 & Hs1 & Hr1 & Hq1).
    destruct (IH r1 Hs1 Hr1) as (r' & slots & Hs' & Hr' & Hslots & Hq').
    destruct l as [c|slot|]; simpl in *.
    + destruct Hq1 as (slot & Hslot & Hq1). exists r', (slot :: slots).
      do 2 (split; [done|]). split; [by constructor|]. by rewrite Hq1, <-app_assoc in Hq'.
    + exists r', slots. do 3 (split; [done|]). rewrite Hq1. simpl. by rewrite Hq'.
    + exists r', slots. do 3 (split; [done|]). by rewrite <-Hq1.
Qed.
End interleavings.
