(* ===== verification/Uthash.v ===== *)
(** * Uthash: the hash tables of [uthash.h], seen from outside

    The macros keep the items of a table in a doubly linked list, in the order
    in which they were added, next to the buckets.  A table is modelled by
    that list; [key] is what an item is hashed on and [at_] where it is. *)
From S2P Require Import Prelude.

Section uthash.
Context {A K : Type} `{!EqDecision K}.
Variable key : A → K.
Variable at_ : A → Z.

(** [HASH_FIND]: buckets are searched from the last item added. *)
Fixpoint hash_find (k : K) (l : list A) : option A :=
  match l with
  | [] => None
  | x :: l' =>
      match hash_find k l' with
      | Some y => Some y
      | None => if bool_decide (key x = k) then Some x else None
      end
  end.

(** [HASH_ADD] and [HASH_ADD_KEYPTR]: at the end of the list. *)
Definition hash_add (x : A) (l : list A) : list A := l ++ [x].

(** [HASH_DEL]: the item at this address is unlinked. *)
Definition hash_del (x : A) (l : list A) : list A :=
  filter (λ y, at_ y ≠ at_ x) l.

(** A store through a pointer to an item. *)
Definition hash_update (p : Z) (f : A → A) (l : list A) : list A :=
  (λ x, if bool_decide (at_ x = p) then f x else x) <$> l.

(** [hh.next]: the item after the one at this address. *)
Fixpoint hash_next (p : Z) (l : list A) : option A :=
  match l with
  | [] => None
  | x :: l' => if bool_decide (at_ x = p) then head l' else hash_next p l'
  end.

(** The item at an address. *)
Fixpoint hash_at (p : Z) (l : list A) : option A :=
  match l with
  | [] => None
  | x :: l' => if bool_decide (at_ x = p) then Some x else hash_at p l'
  end.

Lemma hash_find_Some k l x : hash_find k l = Some x → x ∈ l ∧ key x = k.
Proof.
  induction l as [|y l IH]; simpl; [done|].
  destruct (hash_find k l) as [z|].
  - intros [= ->]. destruct IH; [done|]. split; [by right | done].
  - case_bool_decide; [|done]. intros [= ->]. split; [by left | done].
Qed.

Lemma hash_find_None k l : hash_find k l = None ↔ ∀ x, x ∈ l → key x ≠ k.
Proof.
  induction l as [|y l IH]; simpl.
  - split; [|done]. intros _ x Hx. by apply not_elem_of_nil in Hx.
  - destruct (hash_find k l) as [z|] eqn:Hz.
    + split; [done|]. intros H. apply hash_find_Some in Hz as [Hz1 Hz2].
      exfalso. apply (H z); [by right | done].
    + case_bool_decide as Hy; (split; [|try done]).
      * done.
      * intros H. exfalso. by apply (H y); [left|].
      * intros _ x [->|Hx]%elem_of_cons; [done|]. by apply IH.
Qed.

(** With distinct keys the search finds the one item with the key. *)
Lemma hash_find_unique k l x :
  NoDup (key <$> l) → x ∈ l → key x = k → hash_find k l = Some x.
Proof.
  intros Hnd Hx Hk. destruct (hash_find k l) as [y|] eqn:Hy.
  - apply hash_find_Some in Hy as [Hy Hyk]. f_equal.
    apply list_elem_of_lookup in Hx as [i Hi], Hy as [j Hj].
    assert (i = j) as ->; [|congruence].
    eapply (NoDup_lookup _ i j k Hnd); rewrite list_lookup_fmap.
    + by rewrite Hi, <-Hk.
    + by rewrite Hj, <-Hyk.
  - rewrite hash_find_None in Hy. by destruct (Hy x).
Qed.

Lemma hash_at_Some p l x : hash_at p l = Some x → x ∈ l ∧ at_ x = p.
Proof.
  induction l as [|y l IH]; simpl; [done|]. case_bool_decide.
  - intros [= ->]. split; [by left | done].
  - intros [? ?]%IH. split; [by right | done].
Qed.

(** The walk along [hh.next]. *)
Lemma hash_next_app l1 x y l2 :
  NoDup (at_ <$> l1 ++ x :: y :: l2) → hash_next (at_ x) (l1 ++ x :: y :: l2) = Some y.
Proof.
  induction l1 as [|z l1 IH]; simpl; intros Hnd.
  - by rewrite bool_decide_eq_true_2.
  - apply NoDup_cons in Hnd as [Hz Hnd]. rewrite bool_decide_eq_false_2; [by apply IH|].
    intros Heq. apply Hz. rewrite Heq. apply list_elem_of_fmap_2.
    apply elem_of_app. right. by left.
Qed.

Lemma hash_next_last l1 x :
  NoDup (at_ <$> l1 ++ [x]) → hash_next (at_ x) (l1 ++ [x]) = None.
Proof.
  induction l1 as [|z l1 IH]; simpl; intros Hnd.
  - by rewrite bool_decide_eq_true_2.
  - apply NoDup_cons in Hnd as [Hz Hnd]. rewrite bool_decide_eq_false_2; [by apply IH|].
    intros Heq. apply Hz. rewrite Heq. apply list_elem_of_fmap_2.
    apply elem_of_app. right. by left.
Qed.

Lemma hash_at_elem l x : NoDup (at_ <$> l) → x ∈ l → hash_at (at_ x) l = Some x.
Proof.
  induction l as [|y l IH]; simpl; intros Hnd Hx; [by apply not_elem_of_nil in Hx|].
  apply NoDup_cons in Hnd as [Hy Hnd]. case_bool_decide as Heq.
  - apply elem_of_cons in Hx as [->|Hx]; [done|]. exfalso. apply Hy. rewrite Heq.
    by apply list_elem_of_fmap_2.
  - apply elem_of_cons in Hx as [->|Hx]; [done|]. by apply IH.
Qed.

Lemma hash_del_app l1 x l2 :
  NoDup (at_ <$> l1 ++ x :: l2) → hash_del x (l1 ++ x :: l2) = l1 ++ l2.
Proof.
  intros Hnd. unfold hash_del. rewrite filter_app, filter_cons_False by (intros Hx; by apply Hx).
  rewrite fmap_app, fmap_cons in Hnd. apply NoDup_app in Hnd as (_ & Hl & Hr).
  apply NoDup_cons in Hr as [Hr _].
  assert (∀ l : list A, (∀ y, y ∈ l → at_ y ≠ at_ x) →
    filter (λ y, at_ y ≠ at_ x) l = l) as Hid.
  { induction l as [|y l IH]; intros Hne; [done|].
    rewrite filter_cons_True by (apply Hne; by left). f_equal.
    apply IH. intros z Hz. apply Hne. by right. }
  rewrite !Hid; [done| |].
  - intros y Hy Heq. apply Hr. rewrite <-Heq. by apply list_elem_of_fmap_2.
  - intros y Hy Heq. apply (Hl (at_ y)); [by apply list_elem_of_fmap_2|].
    rewrite Heq. by left.
Qed.

Lemma hash_update_app l1 x l2 f :
  NoDup (at_ <$> l1 ++ x :: l2) →
  hash_update (at_ x) f (l1 ++ x :: l2) = l1 ++ f x :: l2.
Proof.
  intros Hnd. unfold hash_update. rewrite fmap_app, fmap_cons.
  rewrite bool_decide_eq_true_2 by done.
  rewrite fmap_app, fmap_cons in Hnd. apply NoDup_app in Hnd as (_ & Hl & Hr).
  apply NoDup_cons in Hr as [Hr _].
  assert (∀ l : list A, (∀ y, y ∈ l → at_ y ≠ at_ x) →
    (λ y, if bool_decide (at_ y = at_ x) then f y else y) <$> l = l) as Hid.
  { intros l Hne. rewrite <-(list_fmap_id l) at 2. apply list_fmap_ext.
    intros i y Hy%list_elem_of_lookup_2%Hne. by rewrite bool_decide_eq_false_2. }
  rewrite !Hid; [done| |].
  - intros y Hy Heq. apply Hr. rewrite <-Heq. by apply list_elem_of_fmap_2.
  - intros y Hy Heq. apply (Hl (at_ y)); [by apply list_elem_of_fmap_2|].
    rewrite Heq. by left.
Qed.
End uthash.
