(* ===== verification/Keydir.v ===== *)
(** * Keydir: the index from keys to the latest record of each

    Models the hash table of [keydir.c] and its functions; recovery from files
    is in [Recovery].  Only this file reads or writes the table, so an entry is
    a value: its key is the copy the code keeps in a block of its own, and the
    two blocks are remembered for [free]. *)
From S2P Require Import Prelude Status Posix Codec Records Uthash.

Record ccask_keydir_record := KdRecord {
  kd_key : bytes;            (* what [key] points to *)
  kd_key_size : Z;
  kd_file_id : Z;
  kd_record_pos : Z;
  kd_value_size : Z;
  kd_timestamp : Z;
  kd_at : Z;                 (* where the entry itself is *)
  kd_key_at : Z;             (* [key] *)
}.

(** The statics of [keydir.c]: [hash_table] and [hash_table_lock]. *)
Record keydir := Keydir { hash_table : list ccask_keydir_record; hash_table_lock : rwlock }.

Definition kdstate : Type := env * keydir.

Definition kd_table : M kdstate (list ccask_keydir_record) := gets (λ s, hash_table s.2).
Definition set_kd_table (t : list ccask_keydir_record) : M kdstate unit :=
  modify (λ s, (s.1, Keydir t (hash_table_lock s.2))).
(** An operation on the lock of the table. *)
Definition kd_lock (op : rwlock → M kdstate rwlock) : M kdstate unit :=
  s ← get;
  l ← op (hash_table_lock s.2);
  modify (λ s, (s.1, Keydir (hash_table s.2) l)).

Definition sizeof_keydir_record : Z := 104.

Definition ccask_keydir_find (key : cbuf) (key_size : Z) :
    M kdstate (option ccask_keydir_record) :=
  _ ← kd_lock rdlock;
  k ← deref (cbuf_read key key_size);
  t ← kd_table;
  let entry := hash_find kd_key k t in
  _ ← kd_lock rwunlock;
  mret entry.

(** What a pointer to an entry leads to: the fields as they are now. *)
Definition kd_entry (p : Z) : M kdstate ccask_keydir_record :=
  t ← kd_table; deref (hash_at kd_at p t).

Definition ccask_keydir_delete (key : cbuf) (key_size : Z) : M kdstate ccask_status_e :=
  entry ← ccask_keydir_find key key_size;
  match entry with
  | None => mret CCASK_FAIL
  | Some entry =>
      _ ← kd_lock wrlock;
      t ← kd_table;
      _ ← set_kd_table (hash_del kd_at entry t);
      _ ← zoom (free (Some (kd_key_at entry, 0)));
      _ ← zoom (free (Some (kd_at entry, 0)));
      _ ← kd_lock rwunlock;
      mret CCASK_OK
  end.

Definition ccask_keydir_upsert (key : cbuf) (key_size file_id record_pos value_size timestamp : Z) :
    M kdstate ccask_status_e :=
  entry ← ccask_keydir_find key key_size;
  _ ← kd_lock wrlock;
  match entry with
  | Some entry =>
      t ← kd_table;
      _ ← set_kd_table (hash_update kd_at (kd_at entry)
            (λ x, KdRecord (kd_key x) (kd_key_size x) file_id record_pos value_size timestamp
                    (kd_at x) (kd_key_at x)) t);
      _ ← kd_lock rwunlock;
      mret CCASK_OK
  | None =>
      entry ← zoom (malloc sizeof_keydir_record);
      match entry with
      | None =>
          _ ← kd_lock rwunlock;
          _ ← zoom (set_ccask_errno CCASK_ERR_NO_MEMORY);
          mret CCASK_RETRY
      | Some entry =>
          entry_key ← zoom (malloc key_size);
          match entry_key with
          | None =>
              _ ← kd_lock rwunlock;
              _ ← zoom (free (Some (entry, 0)));
              _ ← zoom (set_ccask_errno CCASK_ERR_NO_MEMORY);
              mret CCASK_RETRY
          | Some entry_key =>
              k ← deref (cbuf_read key key_size);
              _ ← zoom (store (Some (entry_key, 0)) k);
              t ← kd_table;
              _ ← set_kd_table (hash_add
                    (KdRecord k key_size file_id record_pos value_size timestamp
                       entry entry_key) t);
              _ ← kd_lock rwunlock;
              mret CCASK_OK
          end
      end
  end.

(** [HASH_ITER] of [ccask_keydir_shutdown]: each entry is deleted and freed. *)
Fixpoint keydir_free_all (l : list ccask_keydir_record) : M kdstate unit :=
  match l with
  | [] => mret tt
  | entry :: l' =>
      t ← kd_table;
      _ ← set_kd_table (hash_del kd_at entry t);
      _ ← zoom (free (Some (kd_key_at entry, 0)));
      _ ← zoom (free (Some (kd_at entry, 0)));
      keydir_free_all l'
  end.

Definition ccask_keydir_shutdown : M kdstate unit :=
  _ ← kd_lock wrlock;
  t ← kd_table;
  _ ← keydir_free_all t;
  _ ← kd_lock rwunlock;
  set_kd_table [].

(** [ccask_keydir_record_iter_t]: a pointer to the next entry. *)
Definition ccask_keydir_record_iter_t : Type := option Z.

(** The read lock stays held until the iterator is closed. *)
Definition ccask_keydir_record_iter : M kdstate ccask_keydir_record_iter_t :=
  _ ← kd_lock rdlock;
  t ← kd_table;
  mret (kd_at <$> head t).

Definition ccask_keydir_record_iter_next (iter : ccask_keydir_record_iter_t) :
    M kdstate (option ccask_keydir_record * ccask_keydir_record_iter_t) :=
  match iter with
  | None => mret (None, iter)
  | Some p =>
      t ← kd_table;
      record ← deref (hash_at kd_at p t);
      mret (Some record, kd_at <$> hash_next kd_at p t)
  end.

Definition ccask_keydir_record_iter_close : M kdstate ccask_keydir_record_iter_t :=
  _ ← kd_lock rwunlock; mret None.

(** ** The map a table represents *)

(** Where the latest record of a key is: file, position, value size, time. *)
Record kd_info := KdInfo {
  ki_file_id : Z; ki_record_pos : Z; ki_value_size : Z; ki_timestamp : Z }.

Definition kd_info_of (x : ccask_keydir_record) : kd_info :=
  KdInfo (kd_file_id x) (kd_record_pos x) (kd_value_size x) (kd_timestamp x).

#[export] Instance byte_countable : Countable byte.
Proof.
  refine (inj_countable Byte.to_N Byte.of_N _). apply Byte.of_to_N.
Defined.

Definition keydir_map (d : keydir) : gmap bytes kd_info :=
  list_to_map ((λ x, (kd_key x, kd_info_of x)) <$> hash_table d).

(** The two blocks of each entry. *)
Definition kd_blocks (t : list ccask_keydir_record) : list Z :=
  t ≫= λ x, [kd_at x; kd_key_at x].

(** The keys are distinct and have the size recorded with them; the blocks are
    distinct and live, and hold the keys. *)
Record table_ok (h : gmap Z bytes) (t : list ccask_keydir_record) : Prop := {
  table_keys : NoDup (kd_key <$> t);
  table_blocks : NoDup (kd_blocks t);
  table_sizes : Forall (λ x, zlen (kd_key x) = kd_key_size x) t;
  table_live : Forall (λ x, is_Some (h !! kd_at x) ∧ h !! kd_key_at x = Some (kd_key x)) t;
}.

(** The state between two calls. *)
Record keydir_ok (s : kdstate) : Prop := {
  keydir_table : table_ok (e_heap s.1) (hash_table s.2);
  keydir_free : hash_table_lock s.2 = rwlock_new;
  keydir_heap : heap_wf s.1;
}.

(** ** Lemmas *)

Section tables.
Implicit Types (t : list ccask_keydir_record) (x : ccask_keydir_record).

Definition table_map t : gmap bytes kd_info :=
  list_to_map ((λ x, (kd_key x, kd_info_of x)) <$> t).

Lemma table_map_None t k : k ∉ kd_key <$> t → table_map t !! k = None.
Proof.
  intros Hk. apply not_elem_of_list_to_map. by rewrite <-list_fmap_compose.
Qed.

(** The entry of a key, taken out of the table. *)
Lemma table_map_middle t1 x t2 :
  NoDup (kd_key <$> t1 ++ x :: t2) →
  table_map (t1 ++ x :: t2) = <[kd_key x := kd_info_of x]> (table_map (t1 ++ t2)) ∧
  table_map (t1 ++ t2) !! kd_key x = None.
Proof.
  intros Hnd. rewrite fmap_app, fmap_cons in Hnd.
  apply NoDup_app in Hnd as (_ & H1 & [Hx _]%NoDup_cons).
  assert (kd_key x ∉ kd_key <$> t1) as Hx1 by (intros ?%H1; by destruct H; left).
  unfold table_map. rewrite !fmap_app, fmap_cons, !list_to_map_app. simpl.
  split.
  - rewrite insert_union_r; [done|]. by apply table_map_None.
  - apply lookup_union_None. split; by apply table_map_None.
Qed.

Lemma table_map_lookup t k :
  NoDup (kd_key <$> t) → table_map t !! k = kd_info_of <$> hash_find kd_key k t.
Proof.
  intros Hnd. destruct (hash_find kd_key k t) as [x|] eqn:Hf; simpl.
  - apply hash_find_Some in Hf as [(t1 & t2 & ->)%list_elem_of_split <-].
    destruct (table_map_middle _ _ _ Hnd) as [-> _]. apply lookup_insert_eq.
  - apply table_map_None. rewrite hash_find_None in Hf.
    intros (x & -> & Hx)%list_elem_of_fmap. by apply (Hf x).
Qed.

Lemma kd_blocks_elem t x : x ∈ t → kd_at x ∈ kd_blocks t ∧ kd_key_at x ∈ kd_blocks t.
Proof.
  intros Hx. unfold kd_blocks. rewrite !list_elem_of_bind.
  split; exists x; (split; [|done]); set_solver.
Qed.

Lemma kd_blocks_live h t a : table_ok h t → a ∈ kd_blocks t → is_Some (h !! a).
Proof.
  intros [_ _ _ Hlive] (x & Ha & Hx)%list_elem_of_bind.
  rewrite Forall_forall in Hlive. destruct (Hlive x Hx) as [? Hk].
  apply elem_of_cons in Ha as [->|[->|[]%not_elem_of_nil]%elem_of_cons]; [done|].
  rewrite Hk. eauto.
Qed.

Lemma kd_blocks_at t : NoDup (kd_blocks t) → NoDup (kd_at <$> t).
Proof.
  induction t as [|x t IH]; simpl; [constructor|]. fold (kd_blocks t).
  intros [Hx [_ Ht]%NoDup_cons]%NoDup_cons. constructor; [|by apply IH].
  intros (y & Heq & Hy)%list_elem_of_fmap. apply Hx. rewrite Heq. right.
  by apply kd_blocks_elem.
Qed.

Lemma table_ok_frame h h' t :
  table_ok h t → (∀ a, a ∈ kd_blocks t → h' !! a = h !! a) → table_ok h' t.
Proof.
  intros [? ? ? Hlive] Hh. constructor; [done..|].
  rewrite Forall_forall in *. intros x Hx.
  destruct (kd_blocks_elem t x Hx) as [Ha Hk].
  rewrite (Hh _ Ha), (Hh _ Hk). by apply Hlive.
Qed.

Lemma kd_blocks_app t1 t2 : kd_blocks (t1 ++ t2) = kd_blocks t1 ++ kd_blocks t2.
Proof. apply bind_app. Qed.

(** The table with the entry of one key changed. *)
Lemma table_ok_update h t1 x t2 y :
  table_ok h (t1 ++ x :: t2) →
  kd_key y = kd_key x → kd_key_size y = kd_key_size x →
  kd_at y = kd_at x → kd_key_at y = kd_key_at x →
  table_ok h (t1 ++ y :: t2).
Proof.
  intros [Hk Hb Hs Hl] H1 H2 H3 H4. constructor.
  - rewrite fmap_app, fmap_cons in *. by rewrite H1.
  - rewrite kd_blocks_app in *. simpl in *. by rewrite H3, H4.
  - rewrite Forall_app, Forall_cons in *. by rewrite H1, H2.
  - rewrite Forall_app, Forall_cons in *. by rewrite H1, H3, H4.
Qed.

(** The table without an entry, whose blocks are gone. *)
Lemma table_ok_delete h t1 x t2 :
  table_ok h (t1 ++ x :: t2) →
  table_ok (delete (kd_at x) (delete (kd_key_at x) h)) (t1 ++ t2).
Proof.
  intros [Hk Hb Hs Hl]. apply (table_ok_frame h).
  - constructor.
    + rewrite fmap_app, fmap_cons in *. apply NoDup_app in Hk as (? & H & [_ ?]%NoDup_cons).
      apply NoDup_app. split_and!; [done | | done]. intros y Hy ?. apply (H y Hy). by right.
    + rewrite kd_blocks_app in *. simpl in Hb.
      apply NoDup_app in Hb as (? & H & [_ [_ ?]%NoDup_cons]%NoDup_cons).
      apply NoDup_app. split_and!; [done | | done].
      intros y Hy ?. apply (H y Hy). right. by right.
    + rewrite Forall_app, Forall_cons in *. naive_solver.
    + rewrite Forall_app, Forall_cons in *. naive_solver.
  - intros a Ha. rewrite kd_blocks_app in *. simpl in Hb.
    apply NoDup_app in Hb as (_ & H & [Hx [Hy _]%NoDup_cons]%NoDup_cons).
    apply elem_of_app in Ha as [Ha|Ha].
    + rewrite !lookup_delete_ne; [done| |]; intros <-; apply (H _ Ha);
        [right; by left | by left].
    + rewrite !lookup_delete_ne; [done| |]; intros <-; [done|].
      apply Hx. by right.
Qed.

(** The table with a new entry in two fresh blocks. *)
Lemma table_ok_add h t x blk :
  table_ok h t → kd_key x ∉ kd_key <$> t → zlen (kd_key x) = kd_key_size x →
  h !! kd_at x = None → h !! kd_key_at x = None → kd_at x ≠ kd_key_at x →
  table_ok (<[kd_key_at x := kd_key x]> (<[kd_at x := blk]> h)) (t ++ [x]).
Proof.
  intros Ht Hnew Hsize Ha Hb Hab.
  assert (kd_at x ∉ kd_blocks t ∧ kd_key_at x ∉ kd_blocks t) as [Ha' Hb'].
  { split; intros Hin; apply (kd_blocks_live _ _ _ Ht) in Hin as [? ?]; congruence. }
  assert (table_ok (<[kd_key_at x := kd_key x]> (<[kd_at x := blk]> h)) t) as [Hk Hbs Hs Hl].
  { apply (table_ok_frame h); [done|]. intros a Hin.
    rewrite !lookup_insert_ne by (intros <-; done). done. }
  constructor.
  - rewrite fmap_app. apply NoDup_app. split_and!; [done | | apply NoDup_singleton].
    intros k Hkin ->%list_elem_of_singleton. done.
  - rewrite kd_blocks_app. apply NoDup_app. split_and!; [done | |].
    + intros a Hin Hin'. simpl in Hin'.
      apply elem_of_cons in Hin' as [->|[->|[]%not_elem_of_nil]%elem_of_cons]; done.
    + simpl. repeat constructor; set_solver.
  - apply Forall_app. by repeat constructor.
  - apply Forall_app. split; [done|]. repeat constructor.
    + rewrite lookup_insert_ne by done. rewrite lookup_insert_eq. eauto.
    + apply lookup_insert_eq.
Qed.
End tables.

(** The representation only depends on the blocks of the table. *)
(** The blocks that a table has come to use are not below [b]. *)
Definition kd_new (b : Z) (d d' : keydir) : Prop :=
  ∀ c, c ∈ kd_blocks (hash_table d') → c ∈ kd_blocks (hash_table d) ∨ b ≤ c.

Lemma kd_new_refl b d : kd_new b d d.
Proof. by left. Qed.

Lemma kd_new_trans b1 b2 d1 d2 d3 : kd_new b1 d1 d2 → kd_new b2 d2 d3 → b1 ≤ b2 → kd_new b1 d1 d3.
Proof. intros H1 H2 Hb c [Hc|Hc]%H2; [by apply H1 | right; lia]. Qed.

Lemma keydir_blocks_old e d :
  keydir_ok (e, d) → ∀ c, c ∈ kd_blocks (hash_table d) → c < e_brk e.
Proof. intros H c Hc. apply (keydir_heap _ H). by eapply kd_blocks_live; [apply H|]. Qed.

Lemma keydir_ok_blocks e e' d :
  keydir_ok (e, d) → heap_wf e' →
  (∀ a, a ∈ kd_blocks (hash_table d) → e_heap e' !! a = e_heap e !! a) → keydir_ok (e', d).
Proof.
  intros [Ht Hl _] Hwf Hh. constructor; [|done|done]. simpl in *. by eapply table_ok_frame.
Qed.

Lemma keydir_ok_frame e e' d :
  keydir_ok (e, d) → heap_wf e' →
  (∀ a, is_Some (e_heap e !! a) → e_heap e' !! a = e_heap e !! a) → keydir_ok (e', d).
Proof.
  intros Hok Hwf Hh. eapply keydir_ok_blocks; [done..|]. intros a Ha. apply Hh.
  eapply kd_blocks_live; [apply (keydir_table _ Hok) | done].
Qed.

Lemma keydir_ok_same_heap e e' d :
  keydir_ok (e, d) → e_heap e' = e_heap e → e_brk e' = e_brk e → keydir_ok (e', d).
Proof.
  intros Hok Hh Hb. eapply keydir_ok_frame; [done | | by intros; rewrite Hh].
  intros a. rewrite Hh, Hb. apply (keydir_heap _ Hok).
Qed.

(** ** The functions *)

#[local] Arguments store : simpl never.
#[local] Arguments free : simpl never.
#[local] Arguments malloc : simpl never.

Lemma keydir_find_run s key ks k n :
  hash_table_lock s.2 = RWLock n false → cbuf_read key ks = Some k →
  ccask_keydir_find key ks s = Ret (hash_find kd_key k (hash_table s.2)) s.
Proof.
  intros Hl Hk. destruct s as [e [t l]]. simpl in *. subst l.
  unfold ccask_keydir_find, kd_lock, kd_table, mbind, M_bind, get, gets, modify, rdlock.
  simpl. by rewrite Hk.
Qed.

Lemma keydir_map_lookup s k :
  keydir_ok s → keydir_map s.2 !! k = kd_info_of <$> hash_find kd_key k (hash_table s.2).
Proof. intros [[] _ _]. by apply table_map_lookup. Qed.

(** An update in place, or a new entry in two new blocks. *)
Lemma keydir_upsert_ok s key ks k fid pos vs ts :
  keydir_ok s → cbuf_read key ks = Some k → mallocs_ok 2 s.1 →
  wp (ccask_keydir_upsert key ks fid pos vs ts) s (λ r s',
    r = CCASK_OK ∧ keydir_ok s' ∧
    keydir_map s'.2 = <[k := KdInfo fid pos vs ts]> (keydir_map s.2) ∧
    (s'.1 = s.1 ∨ s'.1 = put_block k (put_block (zeros sizeof_keydir_record) s.1)) ∧
    (∀ a, a ∈ kd_blocks (hash_table s'.2) → a ∈ kd_blocks (hash_table s.2) ∨ e_brk s.1 ≤ a)).
Proof.
  intros Hok Hk Hm. pose proof Hok as [Ht Hl Hwf]. pose proof (cbuf_read_zlen _ _ _ Hk) as Hks.
  unfold ccask_keydir_upsert. rewrite wp_bind.
  eapply wp_run; [by apply (keydir_find_run _ _ _ k 0)|].
  destruct s as [e [t l]]. simpl in *. subst l.
  destruct (hash_find kd_key k t) as [x|] eqn:Hf.
  - apply hash_find_Some in Hf as [(t1 & t2 & ->)%list_elem_of_split <-].
    unfold wp, kd_lock, kd_table, set_kd_table, mbind, M_bind, get, gets, modify, wrlock; simpl.
    rewrite hash_update_app by (apply kd_blocks_at, Ht).
    set (y := KdRecord _ _ _ _ _ _ _ _).
    assert (table_ok (e_heap e) (t1 ++ y :: t2)) as Hty by (by eapply table_ok_update).
    split; [done|]. split; [by constructor|]. split; [|split; [by left|]].
    2: { intros c. simpl. rewrite !kd_blocks_app. by left. }
    unfold keydir_map. simpl. fold (table_map (t1 ++ y :: t2)) (table_map (t1 ++ x :: t2)).
    destruct (table_map_middle t1 x t2 (table_keys _ _ Ht)) as [-> _].
    destruct (table_map_middle t1 y t2 (table_keys _ _ Hty)) as [-> _].
    by rewrite insert_insert_eq.
  - destruct (mallocs_ok_S _ _ (zeros sizeof_keydir_record) Hm) as [H0 [H1 _]%(mallocs_ok_S _ _ (zeros ks))].
    set (e1 := put_block (zeros sizeof_keydir_record) e) in *.
    set (e2 := put_block (zeros ks) e1).
    set (a := e_brk e). set (b := e_brk e1).
    assert (b = a + 1) as Hb by done.
    pose proof (zlen_nonneg k).
    assert (store (Some (b, 0)) k e2 = Ret tt (put_block k e1)) as Hst.
    { rewrite (store_run e2 b 0 k (zeros ks)); [| apply lookup_insert_eq | done |].
      - rewrite splice_full by (rewrite zlen_zeros; lia).
        unfold set_heap, e2, put_block. simpl. by rewrite insert_insert_eq.
      - rewrite zlen_zeros by lia. lia. }
    unfold wp, kd_lock, kd_table, set_kd_table, zoom, mbind, M_bind, get, gets, modify, wrlock; simpl.
    rewrite (malloc_ok _ _ H0). fold e1. simpl. rewrite (malloc_ok _ _ H1). fold e2. simpl.
    rewrite Hk. simpl. change (e_brk e + 1) with b. rewrite Hst. simpl.
    set (x := KdRecord _ _ _ _ _ _ _ _).
    assert (k ∉ kd_key <$> t) as Hnew.
    { rewrite hash_find_None in Hf. intros (y & -> & Hy)%list_elem_of_fmap. by apply (Hf y). }
    assert (table_ok (e_heap (put_block k e1)) (t ++ [x])) as Htx.
    { apply (table_ok_add (e_heap e) t x); simpl; try done.
      - by apply heap_wf_fresh.
      - apply heap_wf_fresh; [done|]. lia.
      - lia. }
    split; [done|]. split; [constructor; eauto with ccask|]. split; [|split; [by right|]].
    2: { intros c. simpl. unfold hash_add. rewrite kd_blocks_app, elem_of_app. simpl.
      rewrite !elem_of_cons. fold a. intros [?|[->|[->|[]%not_elem_of_nil]]];
        [by left | by right | right; lia]. }
    unfold keydir_map. simpl. fold (table_map (hash_add x t)) (table_map t). unfold hash_add.
    destruct (table_map_middle t x [] (table_keys _ _ Htx)) as [-> _].
    by rewrite app_nil_r.
Qed.

(** An entry of a table is found again under its address. *)
Lemma kd_entry_run e e' d x :
  keydir_ok (e, d) → x ∈ hash_table d → kd_entry (kd_at x) (e', d) = Ret x (e', d).
Proof.
  intros [Ht _ _] Hx. cbn [fst snd] in Ht. unfold kd_entry, kd_table, mbind, M_bind, gets, deref.
  cbn [snd]. by rewrite (hash_at_elem _ _ _ (kd_blocks_at _ (table_blocks _ _ Ht)) Hx).
Qed.

(** When one of the two allocations fails nothing is left behind. *)
Lemma keydir_upsert_nomem s key ks k fid pos vs ts m l :
  keydir_ok s → cbuf_read key ks = Some k → hash_find kd_key k (hash_table s.2) = None →
  e_malloc s.1 = replicate m true ++ false :: l → (m < 2)%nat →
  wp (ccask_keydir_upsert key ks fid pos vs ts) s (λ r s',
    r = CCASK_RETRY ∧ s'.2 = s.2 ∧ e_heap s'.1 = e_heap s.1 ∧
    e_kernel s'.1 = e_kernel s.1 ∧ e_errno s'.1 = CCASK_ERR_NO_MEMORY ∧ e_malloc s'.1 = l).
Proof.
  intros [Ht Hl Hwf] Hk Hf Hm Hlt.
  unfold ccask_keydir_upsert. rewrite wp_bind.
  eapply wp_run; [by apply (keydir_find_run _ _ _ k 0)|]. rewrite Hf.
  destruct s as [[h b ml kn err] [t lk]]. simpl in *. subst lk ml.
  destruct m as [|[|]]; [done| |lia].
  unfold wp, kd_lock, zoom, mbind, M_bind, get, modify, wrlock; simpl.
  unfold free; simpl. rewrite bool_decide_eq_true_2 by (rewrite lookup_insert_eq; eauto). simpl.
  split_and!; try done. apply delete_insert_id. by apply (heap_wf_fresh _ _ Hwf).
Qed.

(** An entry's two blocks, freed one after the other. *)
Lemma keydir_free_entry e t1 x t2 :
  table_ok (e_heap e) (t1 ++ x :: t2) →
  let e1 := set_heap (delete (kd_key_at x) (e_heap e)) e in
  free (Some (kd_key_at x, 0)) e = Ret tt e1 ∧
  free (Some (kd_at x, 0)) e1 =
    Ret tt (set_heap (delete (kd_at x) (delete (kd_key_at x) (e_heap e))) e).
Proof.
  intros [_ Hb _ Hlive] e1. rewrite Forall_app, Forall_cons in Hlive.
  destruct Hlive as (_ & [Ha Hka] & _).
  assert (kd_at x ≠ kd_key_at x) as Hne.
  { rewrite kd_blocks_app in Hb. simpl in Hb.
    apply NoDup_app in Hb as (_ & _ & [Hin _]%NoDup_cons). intros Heq. apply Hin.
    rewrite Heq. by left. }
  rewrite free_run by (rewrite Hka; eauto). split; [done|].
  rewrite free_run; [done|]. simpl. by rewrite lookup_delete_ne by done.
Qed.

(** Deleting a key frees the two blocks of its entry. *)
Lemma keydir_delete_run s key ks k :
  keydir_ok s → cbuf_read key ks = Some k →
  wp (ccask_keydir_delete key ks) s (λ r s',
    keydir_ok s' ∧ keydir_map s'.2 = delete k (keydir_map s.2) ∧
    match hash_find kd_key k (hash_table s.2) with
    | None => r = CCASK_FAIL ∧ s' = s
    | Some x => r = CCASK_OK ∧
        s'.1 = set_heap (delete (kd_at x) (delete (kd_key_at x) (e_heap s.1))) s.1
    end).
Proof.
  intros Hok Hk. pose proof Hok as [Ht Hl Hwf].
  unfold ccask_keydir_delete. rewrite wp_bind.
  eapply wp_run; [by apply (keydir_find_run _ _ _ k 0)|].
  pose proof (keydir_map_lookup s k Hok) as Hlook.
  destruct (hash_find kd_key k (hash_table s.2)) as [x|] eqn:Hf; simpl in Hlook.
  2: { rewrite wp_ret. split; [done|]. split; [|done]. by rewrite delete_id. }
  clear Hlook. destruct s as [e [t l]]. simpl in *. subst l.
  apply hash_find_Some in Hf as [(t1 & t2 & ->)%list_elem_of_split <-].
  pose proof (table_ok_delete _ _ _ _ Ht) as Htd. pose proof Ht as [Hks Hb _ _].
  destruct (keydir_free_entry _ _ _ _ Ht) as [Hf1 Hf2].
  unfold wp, kd_lock, kd_table, set_kd_table, zoom, mbind, M_bind, get, gets, modify, wrlock; simpl.
  rewrite (hash_del_app kd_at t1 x t2 (kd_blocks_at _ Hb)).
  rewrite Hf1. simpl. rewrite Hf2. simpl.
  split.
  { constructor; [done | done |]. intros a. simpl. intros [? Ha']. apply Hwf.
    apply lookup_delete_Some in Ha' as [_ [_ Ha']%lookup_delete_Some]. eauto. }
  split; [|done]. unfold keydir_map. simpl. fold (table_map (t1 ++ t2)) (table_map (t1 ++ x :: t2)).
  destruct (table_map_middle t1 x t2 Hks) as [-> Hnone].
  by rewrite delete_insert_id.
Qed.

(** ** Shutdown and iteration *)

Lemma keydir_free_all_run t e lk :
  table_ok (e_heap e) t →
  ∃ h, keydir_free_all t (e, Keydir t lk) = Ret tt (set_heap h e, Keydir [] lk) ∧
    ∀ a, h !! a = if decide (a ∈ kd_blocks t) then None else e_heap e !! a.
Proof.
  revert e. induction t as [|x t IH]; intros e Ht.
  { exists (e_heap e). split; [by destruct e|]. intros a.
    rewrite decide_False; [done|]. apply not_elem_of_nil. }
  pose proof (table_ok_delete _ [] x t Ht) as Htd.
  destruct (keydir_free_entry e [] x t Ht) as [Hf1 Hf2].
  destruct (IH (set_heap (delete (kd_at x) (delete (kd_key_at x) (e_heap e))) e) Htd)
    as (h & Hrun & Hh).
  exists h. split.
  - cbn [keydir_free_all]. unfold kd_table, set_kd_table, zoom, mbind, M_bind, gets, modify; simpl.
    pose proof (hash_del_app kd_at [] x t (kd_blocks_at _ (table_blocks _ _ Ht))) as Hdel.
    simpl in Hdel. rewrite Hdel, Hf1. simpl. rewrite Hf2. simpl. exact Hrun.
  - intros a. rewrite Hh. simpl. repeat case_decide; try done.
    + by destruct H0; right; right.
    + apply elem_of_cons in H0 as [->|[->|?]%elem_of_cons]; [| |done].
      * apply lookup_delete_eq.
      * destruct (decide (kd_at x = kd_key_at x)) as [->|?]; [apply lookup_delete_eq|].
        rewrite lookup_delete_ne by done. apply lookup_delete_eq.
    + rewrite !lookup_delete_ne; [done| |]; intros <-; apply H0; [right; by left | by left].
Qed.

Lemma keydir_shutdown_run s :
  keydir_ok s →
  ∃ h, ccask_keydir_shutdown s = Ret tt (set_heap h s.1, Keydir [] rwlock_new) ∧
    ∀ a, h !! a = if decide (a ∈ kd_blocks (hash_table s.2)) then None else e_heap s.1 !! a.
Proof.
  intros [Ht Hl _]. destruct s as [e [t l]]. simpl in *. subst l.
  destruct (keydir_free_all_run t e (RWLock 0 true) Ht) as (h & Hrun & Hh).
  exists h. split; [|done].
  unfold ccask_keydir_shutdown, kd_lock, kd_table, mbind, M_bind, get, gets, modify, wrlock; simpl.
  by rewrite Hrun.
Qed.

(** [while ((record = ccask_keydir_record_iter_next(&iter)) != NULL)]: the
    entries a walk meets. *)
Fixpoint iter_walk (fuel : nat) (iter : ccask_keydir_record_iter_t) :
    M kdstate (list ccask_keydir_record) :=
  match fuel with
  | O => no_fuel
  | S fuel' =>
      '(record, iter) ← ccask_keydir_record_iter_next iter;
      match record with
      | None => mret []
      | Some x => l ← iter_walk fuel' iter; mret (x :: l)
      end
  end.

Lemma iter_next_run e lk t1 t2 :
  NoDup (kd_at <$> t1 ++ t2) →
  ccask_keydir_record_iter_next (kd_at <$> head t2) (e, Keydir (t1 ++ t2) lk) =
  Ret (head t2, kd_at <$> head (tail t2)) (e, Keydir (t1 ++ t2) lk).
Proof.
  intros Hnd. destruct t2 as [|x t2]; [done|].
  simpl. unfold mbind, M_bind, kd_table, gets; simpl.
  rewrite (hash_at_elem kd_at) by (done || (apply elem_of_app; right; left)). simpl.
  destruct t2 as [|y t2]; [by rewrite hash_next_last | by rewrite hash_next_app].
Qed.

Lemma iter_walk_run e lk t1 t2 fuel :
  NoDup (kd_at <$> t1 ++ t2) → (length t2 < fuel)%nat →
  iter_walk fuel (kd_at <$> head t2) (e, Keydir (t1 ++ t2) lk) =
  Ret t2 (e, Keydir (t1 ++ t2) lk).
Proof.
  revert t1 fuel. induction t2 as [|x t2 IH]; intros t1 fuel Hnd Hf.
  { destruct fuel; [lia | done]. }
  destruct fuel as [|fuel]; [lia|]. simpl in Hf. cbn [iter_walk].
  erewrite bind_run by exact (iter_next_run e lk t1 (x :: t2) Hnd). cbn [head tail].
  replace (t1 ++ x :: t2) with ((t1 ++ [x]) ++ t2) in * by by rewrite <-app_assoc.
  by erewrite bind_run by (apply IH; [exact Hnd | lia]).
Qed.
