(* ===== verification/Log.v ===== *)
(** * Log: what is in a data file or a hint file

    The abstract contents of the files: a list of records.  [records_of] is
    how far the iterator of [iterator.c] gets in the bytes of a data file, and
    [hints_of_file] in those of a hint file; [index_log] is what recovery
    enters into the key directory. *)
From S2P Require Import Prelude Posix Codec Records Uthash Keydir.
Open Scope Z_scope.

Record log_record := LogRecord {
  lr_header : ccask_datafile_record_header;
  lr_key : bytes;
  lr_value : bytes;
}.

Definition log_record_bytes (r : log_record) : bytes :=
  datafile_record_bytes (lr_header r) (lr_key r) (lr_value r).
Definition log_record_size (r : log_record) : Z := 16 + zlen (lr_key r) + zlen (lr_value r).

(** A record that can be read back: its value is not empty. *)
Definition log_record_ok (r : log_record) : Prop :=
  datafile_record_ok (lr_header r) (lr_key r) (lr_value r) ∧ lr_value r ≠ [].

Definition log_bytes (l : list log_record) : bytes := concat (log_record_bytes <$> l).

(** The record at the beginning of [d], if there is a whole one there. *)
Definition next_record (d : bytes) : option log_record :=
  let h := datafile_header_of (take 16 d) in
  if bool_decide (16 ≤ zlen d ∧ df_value_size h ≠ 0 ∧
                  16 + df_key_size h + df_value_size h ≤ zlen d)
  then Some (LogRecord h (slice 16 (df_key_size h) d)
                         (slice (16 + df_key_size h) (df_value_size h) d))
  else None.

Fixpoint read_log (n : nat) (d : bytes) : list log_record :=
  match n with
  | O => []
  | S n' =>
      match next_record d with
      | Some r => r :: read_log n' (drop (length (log_record_bytes r)) d)
      | None => []
      end
  end.

Definition records_of (d : bytes) : list log_record := read_log (length d) d.

(** What recovery makes of the records from position [pos] of file [id] on. *)
Fixpoint index_log (id pos : Z) (l : list log_record) (m : gmap bytes kd_info) :
    gmap bytes kd_info :=
  match l with
  | [] => m
  | r :: l' =>
      let i := KdInfo id pos (df_value_size (lr_header r)) (df_timestamp (lr_header r)) in
      index_log id (pos + log_record_size r) l' (<[lr_key r := i]> m)
  end.

(** ** Hint files: the key, size, time and position of each record *)

Record hint_record := HintRecord {
  hr_header : ccask_hintfile_record_header;
  hr_key : bytes;
}.

Definition hint_record_bytes (r : hint_record) : bytes :=
  hintfile_record_bytes (hr_header r) (hr_key r).
Definition hint_record_ok (r : hint_record) : Prop :=
  hintfile_record_ok (hr_header r) (hr_key r) ∧ hr_key r ≠ [].
Definition hint_bytes (l : list hint_record) : bytes := concat (hint_record_bytes <$> l).

Definition next_hint (d : bytes) : option hint_record :=
  let h := hintfile_header_of (take 20 d) in
  if bool_decide (20 ≤ zlen d ∧ hf_key_size h ≠ 0 ∧ 20 + hf_key_size h ≤ zlen d)
  then Some (HintRecord h (slice 20 (hf_key_size h) d))
  else None.

Fixpoint read_hints (n : nat) (d : bytes) : list hint_record :=
  match n with
  | O => []
  | S n' =>
      match next_hint d with
      | Some r => r :: read_hints n' (drop (length (hint_record_bytes r)) d)
      | None => []
      end
  end.

Definition hints_of_file (d : bytes) : list hint_record := read_hints (length d) d.

Definition index_hints (id : Z) (l : list hint_record) (m : gmap bytes kd_info) :
    gmap bytes kd_info :=
  foldl (λ m r, <[hr_key r := KdInfo id (hf_record_pos (hr_header r))
                    (hf_value_size (hr_header r)) (hf_timestamp (hr_header r))]> m) m l.

(** The hints the generator writes for a log. *)
Definition hint_of (pos : Z) (r : log_record) : hint_record :=
  HintRecord (HintfileHeader (df_timestamp (lr_header r)) (df_key_size (lr_header r))
                (df_value_size (lr_header r)) pos) (lr_key r).

Fixpoint hints_of (pos : Z) (l : list log_record) : list hint_record :=
  match l with
  | [] => []
  | r :: l' => hint_of pos r :: hints_of (pos + log_record_size r) l'
  end.

(** ** Reading back *)

Lemma be_val_slice_u32 off d : is_u32 (be_val (slice off 4 d)).
Proof.
  pose proof (be_val_range (slice off 4 d)) as [H1 H2]. split; [done|].
  eapply Z.lt_le_trans; [exact H2|]. change (2 ^ 32) with (256 ^ 4).
  apply Z.pow_le_mono_r; [lia|]. unfold slice, zlen. rewrite length_take. lia.
Qed.

Lemma be_val_slice_u64 off d : is_u64 (be_val (slice off 8 d)).
Proof.
  pose proof (be_val_range (slice off 8 d)) as [H1 H2]. split; [done|].
  eapply Z.lt_le_trans; [exact H2|]. change (2 ^ 64) with (256 ^ 8).
  apply Z.pow_le_mono_r; [lia|]. unfold slice, zlen. rewrite length_take. lia.
Qed.

Lemma datafile_header_of_ok d : datafile_header_ok (datafile_header_of d).
Proof. split_and!; apply be_val_slice_u32. Qed.
Lemma hintfile_header_of_ok d : hintfile_header_ok (hintfile_header_of d).
Proof. split_and!; first [apply be_val_slice_u32 | apply be_val_slice_u64]. Qed.

Lemma be_bytes_slice (n : nat) m off d :
  m = Z.of_nat n → 0 ≤ off → off + m ≤ zlen d → be_bytes n (be_val (slice off m d)) = slice off m d.
Proof.
  intros ???. pose proof (zlen_slice off m d ltac:(lia) ltac:(lia) ltac:(lia)).
  assert (length (slice off m d) = n) as Hn by zlen_lia.
  rewrite <-Hn at 1. apply be_bytes_val.
Qed.

(** Four windows that follow each other. *)
Lemma four_slices n4 (d : bytes) :
  zlen d = 12 + n4 → 0 ≤ n4 →
  slice 0 4 d ++ slice 4 4 d ++ slice 8 4 d ++ slice 12 n4 d = d.
Proof.
  intros Hd Hn. unfold slice, zlen in *. simpl.
  rewrite (take_ge (drop _ d) (Z.to_nat n4)) by (rewrite length_drop; lia).
  rewrite drop_0. change (Z.to_nat 12) with 12%nat. change (Pos.to_nat 4) with 4%nat.
  change (Pos.to_nat 8) with 8%nat.
  do 12 (destruct d as [|? d]; [simpl in Hd; lia|]). reflexivity.
Qed.

Lemma datafile_header_bytes_of d :
  zlen d = 16 → datafile_header_bytes (datafile_header_of d) = d.
Proof.
  intros Hd. unfold datafile_header_bytes, datafile_header_of.
  cbn [df_crc df_timestamp df_key_size df_value_size].
  rewrite !be_bytes_slice by lia.
  by apply (four_slices 4).
Qed.

Lemma hintfile_header_bytes_of d :
  zlen d = 20 → hintfile_header_bytes (hintfile_header_of d) = d.
Proof.
  intros Hd. unfold hintfile_header_bytes, hintfile_header_of.
  cbn [hf_timestamp hf_key_size hf_value_size hf_record_pos].
  rewrite !be_bytes_slice by lia.
  by apply (four_slices 8).
Qed.

(** The next record is a prefix. *)
Lemma next_record_Some d r :
  next_record d = Some r →
  log_record_ok r ∧ log_record_size r ≤ zlen d ∧
  ∃ rest, d = log_record_bytes r ++ rest.
Proof.
  unfold next_record. set (h := datafile_header_of (take 16 d)).
  case_bool_decide as H; [|done]. intros <-%(inj Some). destruct H as (H16 & Hvs & Hlen).
  destruct (datafile_header_of_ok (take 16 d)) as (Hc & Ht & Hk & Hv).
  fold h in Hc, Ht, Hk, Hv. unfold is_u32 in *.
  assert (zlen (slice 16 (df_key_size h) d) = df_key_size h) as Hk' by (apply zlen_slice; lia).
  assert (zlen (slice (16 + df_key_size h) (df_value_size h) d) = df_value_size h) as Hv'
    by (apply zlen_slice; lia).
  split; [|split].
  - split; [by split_and!|]. cbn [lr_value]. intros Hnil. rewrite Hnil in Hv'. by rewrite <-Hv' in Hvs.
  - unfold log_record_size. cbn [lr_key lr_value]. lia.
  - exists (drop (Z.to_nat (16 + df_key_size h + df_value_size h)) d).
    unfold log_record_bytes, datafile_record_bytes. cbn [lr_header lr_key lr_value].
    unfold h at 1. rewrite datafile_header_bytes_of by (unfold zlen in *; rewrite length_take; lia).
    rewrite <-(take_drop 16 d) at 1. rewrite <-!app_assoc. f_equal.
    unfold slice. rewrite <-(take_drop (Z.to_nat (df_key_size h)) (drop 16 d)) at 1.
    change (Z.to_nat 16) with 16%nat. f_equal. rewrite drop_drop.
    replace (Z.to_nat (16 + df_key_size h)) with (16 + Z.to_nat (df_key_size h))%nat by lia.
    rewrite <-(take_drop (Z.to_nat (df_value_size h)) (drop _ d)) at 1. f_equal.
    rewrite drop_drop. f_equal. lia.
Qed.

Lemma zlen_log_record r : log_record_ok r → zlen (log_record_bytes r) = log_record_size r.
Proof.
  intros [(? & Hk & Hv) _]. unfold log_record_bytes. rewrite zlen_datafile_record by done.
  unfold log_record_size. lia.
Qed.

Lemma log_record_size_pos r : log_record_ok r → 17 ≤ log_record_size r.
Proof.
  intros [_ Hv]. unfold log_record_size. pose proof (zlen_nonneg (lr_key r)).
  destruct (lr_value r); [done | zlen_lia].
Qed.

Lemma next_record_app r rest :
  log_record_ok r → next_record (log_record_bytes r ++ rest) = Some r.
Proof.
  intros [(Hh & Hk & Hv) Hne]. unfold next_record.
  assert (take 16 (log_record_bytes r ++ rest) = datafile_header_bytes (lr_header r)) as ->.
  { unfold log_record_bytes, datafile_record_bytes. rewrite <-!app_assoc.
    apply take_app_length'. pose proof (zlen_datafile_header (lr_header r)). zlen_lia. }
  rewrite datafile_header_of_bytes by done. pose proof (zlen_nonneg (lr_key r)).
  pose proof (zlen_nonneg rest). pose proof (zlen_nonneg (lr_value r)).
  rewrite bool_decide_eq_true_2.
  2: { rewrite zlen_app, zlen_log_record by done. unfold log_record_size.
       rewrite <-Hk, <-Hv. split_and!; [lia | destruct (lr_value r); [done | zlen_lia] | lia]. }
  destruct r as [h k v]. cbn [lr_header lr_key lr_value] in *.
  unfold log_record_bytes, datafile_record_bytes. cbn [lr_header lr_key lr_value].
  do 2 f_equal.
  - rewrite <-!app_assoc. apply slice_exact; [apply zlen_datafile_header | done].
  - rewrite <-!app_assoc, app_assoc. apply slice_exact; [|done].
    rewrite zlen_app, zlen_datafile_header. lia.
Qed.

(** Enough fuel is the length of the data. *)
Lemma read_log_fuel n d : (length d ≤ n)%nat → read_log n d = records_of d.
Proof.
  unfold records_of. remember (length d) as len eqn:Hlen.
  assert (length d ≤ len)%nat as Hle by lia. clear Hlen. revert len d Hle.
  induction n as [|n IH]; intros len d Hle Hn.
  { by replace len with 0%nat by lia. }
  destruct len as [|len]; cbn [read_log].
  - assert (d = []) as -> by (destruct d; [done | simpl in Hle; lia]). reflexivity.
  - destruct (next_record d) as [r|] eqn:Hr; [|done]. f_equal.
    apply next_record_Some in Hr as (Hok & Hsz & _).
    pose proof (log_record_size_pos _ Hok). pose proof (zlen_log_record _ Hok).
    apply IH; [rewrite length_drop; zlen_lia | lia].
Qed.

(** The unfolding of [records_of]. *)
Lemma records_of_eq d :
  records_of d = match next_record d with
                 | Some r => r :: records_of (drop (Z.to_nat (log_record_size r)) d)
                 | None => []
                 end.
Proof.
  unfold records_of at 1. destruct d as [|b d']; [done|]. set (d := b :: d').
  change (length d) with (S (length d')). cbn [read_log].
  destruct (next_record d) as [r|] eqn:Hr; [|done]. f_equal.
  apply next_record_Some in Hr as (Hok & Hsz & _).
  pose proof (log_record_size_pos _ Hok). pose proof (zlen_log_record _ Hok) as Hz.
  replace (length (log_record_bytes r)) with (Z.to_nat (log_record_size r)) by zlen_lia.
  apply read_log_fuel. rewrite length_drop. unfold d. zlen_lia.
Qed.

Lemma log_bytes_cons r l : log_bytes (r :: l) = log_record_bytes r ++ log_bytes l.
Proof. reflexivity. Qed.

Lemma records_of_app l rest :
  Forall log_record_ok l → records_of (log_bytes l ++ rest) = l ++ records_of rest.
Proof.
  induction 1 as [|r l Hr _ IH]; [done|].
  rewrite log_bytes_cons, <-app_assoc, records_of_eq, next_record_app by done.
  cbn [app]. f_equal. rewrite <-(zlen_log_record _ Hr). unfold zlen.
  by rewrite Nat2Z.id, drop_app_length.
Qed.

(** A file is its records, and a rest in which no record begins. *)
Lemma records_of_split d :
  Forall log_record_ok (records_of d) ∧
  ∃ rest, d = log_bytes (records_of d) ++ rest ∧ next_record rest = None.
Proof.
  remember (length d) as n eqn:Hn. revert d Hn. induction (lt_wf n) as [n _ IH].
  intros d ->. rewrite records_of_eq. destruct (next_record d) as [r|] eqn:Hr.
  2: { split; [done|]. by exists d. }
  apply next_record_Some in Hr as (Hok & Hsz & rest & Hd).
  pose proof (log_record_size_pos _ Hok). pose proof (zlen_log_record _ Hok) as Hz.
  assert (drop (Z.to_nat (log_record_size r)) d = rest) as ->.
  { rewrite Hd, <-Hz. unfold zlen. by rewrite Nat2Z.id, drop_app_length. }
  destruct (IH (length rest)) with (d := rest) as (Hall & rest' & Hrest & Hnone); [|done|].
  - rewrite Hd, length_app. zlen_lia.
  - split; [by constructor|]. exists rest'. split; [|done].
    rewrite log_bytes_cons. by rewrite <-app_assoc, <-Hrest.
Qed.

Lemma log_bytes_app l k : log_bytes (l ++ k) = log_bytes l ++ log_bytes k.
Proof. unfold log_bytes. by rewrite fmap_app, concat_app. Qed.

Lemma index_log_app id pos l k m :
  Forall log_record_ok l →
  index_log id pos (l ++ k) m = index_log id (pos + zlen (log_bytes l)) k (index_log id pos l m).
Proof.
  intros Hl. revert pos m. induction Hl as [|r l Hr _ IH]; intros pos m.
  { simpl. by rewrite Z.add_0_r. }
  cbn [app index_log]. rewrite IH, log_bytes_cons. f_equal.
  rewrite zlen_app, (zlen_log_record _ Hr). lia.
Qed.

Lemma index_log_other id pos l m k :
  k ∉ lr_key <$> l → index_log id pos l m !! k = m !! k.
Proof.
  revert pos m. induction l as [|r l IH]; intros pos m; [done|].
  rewrite fmap_cons, not_elem_of_cons. intros [Hk Hl]. cbn [index_log].
  by rewrite IH, lookup_insert_ne.
Qed.

(** ** The same of hint files *)

Definition hint_record_size (r : hint_record) : Z := 20 + zlen (hr_key r).

Lemma zlen_hint_record r : hint_record_ok r → zlen (hint_record_bytes r) = hint_record_size r.
Proof.
  intros [[? Hk] _]. unfold hint_record_bytes. rewrite zlen_hintfile_record by done.
  unfold hint_record_size. lia.
Qed.

Lemma hint_record_size_pos r : 20 ≤ hint_record_size r.
Proof. unfold hint_record_size. pose proof (zlen_nonneg (hr_key r)). lia. Qed.

Lemma next_hint_Some d r :
  next_hint d = Some r →
  hint_record_ok r ∧ hint_record_size r ≤ zlen d ∧ ∃ rest, d = hint_record_bytes r ++ rest.
Proof.
  unfold next_hint. set (h := hintfile_header_of (take 20 d)).
  case_bool_decide as H; [|done]. intros <-%(inj Some). destruct H as (H20 & Hks & Hlen).
  pose proof (hintfile_header_of_ok (take 20 d)) as Hh. fold h in Hh.
  pose proof Hh as (_ & [Hk _] & _).
  assert (zlen (slice 20 (hf_key_size h) d) = hf_key_size h) as Hk' by (apply zlen_slice; lia).
  split; [|split].
  - split; [done|]. cbn [hr_key]. intros Hnil. rewrite Hnil in Hk'. by rewrite <-Hk' in Hks.
  - unfold hint_record_size. cbn [hr_key]. lia.
  - exists (drop (Z.to_nat (20 + hf_key_size h)) d).
    unfold hint_record_bytes, hintfile_record_bytes. cbn [hr_header hr_key].
    unfold h at 1. rewrite hintfile_header_bytes_of by (unfold zlen in *; rewrite length_take; lia).
    rewrite <-(take_drop 20 d) at 1. rewrite <-!app_assoc. f_equal.
    unfold slice. rewrite <-(take_drop (Z.to_nat (hf_key_size h)) (drop 20 d)) at 1.
    change (Z.to_nat 20) with 20%nat. f_equal. rewrite drop_drop. f_equal. lia.
Qed.

Lemma next_hint_app r rest :
  hint_record_ok r → next_hint (hint_record_bytes r ++ rest) = Some r.
Proof.
  intros [[Hh Hk] Hne]. unfold next_hint.
  assert (take 20 (hint_record_bytes r ++ rest) = hintfile_header_bytes (hr_header r)) as ->.
  { unfold hint_record_bytes, hintfile_record_bytes. rewrite <-!app_assoc.
    apply take_app_length'. pose proof (zlen_hintfile_header (hr_header r)). zlen_lia. }
  rewrite hintfile_header_of_bytes by done.
  pose proof (zlen_nonneg (hr_key r)). pose proof (zlen_nonneg rest).
  rewrite bool_decide_eq_true_2.
  2: { rewrite zlen_app, zlen_hint_record by done. unfold hint_record_size.
       rewrite <-Hk. split_and!; [lia | destruct (hr_key r); [done | zlen_lia] | lia]. }
  destruct r as [h k]. cbn [hr_header hr_key] in *.
  unfold hint_record_bytes, hintfile_record_bytes. cbn [hr_header hr_key].
  do 2 f_equal. rewrite <-!app_assoc. apply slice_exact; [apply zlen_hintfile_header | done].
Qed.

Lemma read_hints_fuel n d : (length d ≤ n)%nat → read_hints n d = hints_of_file d.
Proof.
  unfold hints_of_file. remember (length d) as len eqn:Hlen.
  assert (length d ≤ len)%nat as Hle by lia. clear Hlen. revert len d Hle.
  induction n as [|n IH]; intros len d Hle Hn.
  { by replace len with 0%nat by lia. }
  destruct len as [|len]; cbn [read_hints].
  - assert (d = []) as -> by (destruct d; [done | simpl in Hle; lia]). reflexivity.
  - destruct (next_hint d) as [r|] eqn:Hr; [|done]. f_equal.
    apply next_hint_Some in Hr as (Hok & Hsz & _).
    pose proof (hint_record_size_pos r). pose proof (zlen_hint_record _ Hok).
    apply IH; [rewrite length_drop; zlen_lia | lia].
Qed.

Lemma hints_of_file_eq d :
  hints_of_file d = match next_hint d with
                    | Some r => r :: hints_of_file (drop (Z.to_nat (hint_record_size r)) d)
                    | None => []
                    end.
Proof.
  unfold hints_of_file at 1. destruct d as [|b d']; [done|]. set (d := b :: d').
  change (length d) with (S (length d')). cbn [read_hints].
  destruct (next_hint d) as [r|] eqn:Hr; [|done]. f_equal.
  apply next_hint_Some in Hr as (Hok & Hsz & _).
  pose proof (hint_record_size_pos r). pose proof (zlen_hint_record _ Hok) as Hz.
  replace (length (hint_record_bytes r)) with (Z.to_nat (hint_record_size r)) by zlen_lia.
  apply read_hints_fuel. rewrite length_drop. unfold d. zlen_lia.
Qed.

Lemma hint_bytes_cons r l : hint_bytes (r :: l) = hint_record_bytes r ++ hint_bytes l.
Proof. reflexivity. Qed.

Lemma hints_of_file_app l rest :
  Forall hint_record_ok l → hints_of_file (hint_bytes l ++ rest) = l ++ hints_of_file rest.
Proof.
  induction 1 as [|r l Hr _ IH]; [done|].
  rewrite hint_bytes_cons, <-app_assoc, hints_of_file_eq, next_hint_app by done.
  cbn [app]. f_equal. rewrite <-(zlen_hint_record _ Hr). unfold zlen.
  by rewrite Nat2Z.id, drop_app_length.
Qed.

(** Hints written for a log are read back as they were written, and lead to
    the same entries as the log itself. *)
Lemma hint_of_ok pos r :
  log_record_ok r → lr_key r ≠ [] → is_u64 pos → hint_record_ok (hint_of pos r).
Proof.
  intros [((? & ? & ? & ?) & Hk & Hv) _] Hne Hp. by split; [split; [split_and!|]|].
Qed.

Lemma hints_of_ok pos l :
  Forall log_record_ok l → Forall (λ r, lr_key r ≠ []) l →
  0 ≤ pos → pos + zlen (log_bytes l) < 2 ^ 64 → Forall hint_record_ok (hints_of pos l).
Proof.
  intros Hl. revert pos. induction Hl as [|r l Hr Hl IH]; intros pos Hk Hp Hlt; [done|].
  apply Forall_cons in Hk as [Hk Hks]. rewrite log_bytes_cons, zlen_app, zlen_log_record in Hlt by done.
  pose proof (log_record_size_pos _ Hr). pose proof (zlen_nonneg (log_bytes l)).
  constructor.
  - apply hint_of_ok; [done | done | unfold is_u64; lia].
  - apply IH; [done | lia | lia].
Qed.

Lemma hints_roundtrip pos l :
  Forall log_record_ok l → Forall (λ r, lr_key r ≠ []) l →
  0 ≤ pos → pos + zlen (log_bytes l) < 2 ^ 64 →
  hints_of_file (hint_bytes (hints_of pos l)) = hints_of pos l.
Proof.
  intros. rewrite <-(app_nil_r (hint_bytes _)), hints_of_file_app by (by apply hints_of_ok).
  by rewrite app_nil_r.
Qed.

Lemma index_hints_of id pos l m : index_hints id (hints_of pos l) m = index_log id pos l m.
Proof.
  revert pos m. induction l as [|r l IH]; intros pos m; [done|].
  cbn [hints_of index_log]. rewrite <-IH. reflexivity.
Qed.

(** ** A record that was not written to its end *)

Lemma next_record_torn r j :
  log_record_ok r → (j < length (log_record_bytes r))%nat →
  next_record (take j (log_record_bytes r)) = None.
Proof.
  intros Hr Hj. pose proof (zlen_log_record _ Hr) as Hz. unfold next_record.
  rewrite bool_decide_eq_false_2; [done|]. intros (H16 & _ & Hlen).
  assert (take 16 (take j (log_record_bytes r)) = datafile_header_bytes (lr_header r)) as Hh.
  { rewrite take_take. pose proof (zlen_datafile_header (lr_header r)).
    unfold zlen in H16. rewrite length_take in H16.
    unfold log_record_bytes, datafile_record_bytes. apply take_app_length'. zlen_lia. }
  destruct Hr as [(Hhd & Hk & Hv) _]. rewrite Hh, datafile_header_of_bytes in Hlen by done.
  unfold log_record_size in Hz. unfold zlen in Hlen at 1. rewrite length_take in Hlen. zlen_lia.
Qed.

Lemma records_of_torn l r j :
  Forall log_record_ok l → log_record_ok r → (j < length (log_record_bytes r))%nat →
  records_of (log_bytes l ++ take j (log_record_bytes r)) = l.
Proof.
  intros Hl Hr Hj. rewrite records_of_app, records_of_eq, next_record_torn by done.
  apply app_nil_r.
Qed.
