(* ===== verification/Filenames.v ===== *)
(** * Filenames: [parse_filename] and [build_filepath] of [utils.c] *)
From S2P Require Import Prelude Status Posix.
From Stdlib Require Import Strings.Ascii.

Inductive file_ext_e : Type := FILE_UNKNOWN | FILE_DATA | FILE_HINT | FILE_TEMP_DATA.

#[export] Instance file_ext_e_eq_dec : EqDecision file_ext_e.
Proof. solve_decision. Defined.

(** ** What the functions use of the C library *)

Fixpoint strlen (s : string) : Z :=
  match s with EmptyString => 0 | String _ s' => 1 + strlen s' end.

Fixpoint string_app (s t : string) : string :=
  match s with EmptyString => t | String a s' => String a (string_app s' t) end.

(** [strrchr(s, c)]: the string before and from the last [c] on. *)
Fixpoint strrchr (c : ascii) (s : string) : option (string * string) :=
  match s with
  | EmptyString => None
  | String a s' =>
      match strrchr c s' with
      | Some (p, d) => Some (String a p, d)
      | None => if bool_decide (a = c) then Some (EmptyString, s) else None
      end
  end.

Definition ascii_val (a : ascii) : Z := Z.of_nat (nat_of_ascii a).
Definition isspace (a : ascii) : bool := bool_decide (ascii_val a = 32 ∨ 9 ≤ ascii_val a ≤ 13).
Definition isdigit (a : ascii) : bool := bool_decide (48 ≤ ascii_val a ≤ 57).
Definition digit_char (d : Z) : ascii := ascii_of_nat (Z.to_nat (48 + d)).

Fixpoint atoi_digits (acc : Z) (s : string) : Z :=
  match s with
  | String a s' => if isdigit a then atoi_digits (10 * acc + (ascii_val a - 48)) s' else acc
  | EmptyString => acc
  end.

Fixpoint skip_space (s : string) : string :=
  match s with
  | String a s' => if isspace a then skip_space s' else s
  | EmptyString => s
  end.

(** [atoi]: undefined when the value is not an [int]. *)
Definition atoi (s : string) : option Z :=
  let s := skip_space s in
  let z := match s with
    | String a s' =>
        if bool_decide (ascii_val a = 45) then - atoi_digits 0 s'
        else if bool_decide (ascii_val a = 43) then atoi_digits 0 s'
        else atoi_digits 0 s
    | EmptyString => 0
    end in
  if bool_decide (- 2 ^ 31 ≤ z < 2 ^ 31) then Some z else None.

(** [%PRIu64]: the decimal digits, put in front of [s]. *)
Fixpoint print_digits (fuel : nat) (n : Z) (s : string) : string :=
  match fuel with
  | O => s
  | S fuel' =>
      if bool_decide (n < 10) then String (digit_char n) s
      else print_digits fuel' (n / 10) (String (digit_char (n mod 10)) s)
  end.
(** A 64-bit number has at most 20 digits. *)
Definition print_u64 (n : Z) (s : string) : string := print_digits 20 n s.

(** ** The functions *)

(** The copy [fname] of the name up to the dot is never freed. *)
Definition parse_filename (name : string) : M env (file_ext_e * Z) :=
  '(fname, dot) ← deref (strrchr "."%char name);
  buf ← malloc (strlen fname + 1);
  match buf with
  | None => undef
  | Some _ =>
      id ← deref (atoi fname);
      let id := u64 id in
      if bool_decide (dot = ".data.tmp"%string) then mret (FILE_TEMP_DATA, id)
      else if bool_decide (dot = ".data"%string) then mret (FILE_DATA, id)
      else if bool_decide (dot = ".hint"%string) then mret (FILE_HINT, id)
      else mret (FILE_UNKNOWN, id)
  end.

Definition ext_string (ext : file_ext_e) : option string :=
  match ext with
  | FILE_DATA => Some ".data"%string
  | FILE_HINT => Some ".hint"%string
  | FILE_TEMP_DATA => Some ".data.tmp"%string
  | FILE_UNKNOWN => None
  end.

(** [dir[dir_len - 1] == '/']: there is no last character in an empty string. *)
Fixpoint last_char (s : string) : option ascii :=
  match s with
  | EmptyString => None
  | String a EmptyString => Some a
  | String _ s' => last_char s'
  end.

(** What the two [sprintf] write. *)
Definition filepath (dir : string) (file_id : Z) (ext : string) : string :=
  if bool_decide (last_char dir = Some "/"%char)
  then string_app dir (print_u64 file_id ext)
  else string_app dir (String "/"%char (print_u64 file_id ext)).

(** The path belongs to the caller; [NULL] without memory or for an unknown
    extension.  Writing past the buffer is undefined. *)
Definition build_filepath (dir : string) (file_id : Z) (ext : file_ext_e) :
    M env (option string) :=
  match ext_string ext with
  | None => mret None
  | Some ext_char =>
      last ← deref (last_char dir);
      let has_trailing_slash := bool_decide (last = "/"%char) in
      let total := strlen dir + (if has_trailing_slash then 0 else 1) + 20 + 1
                   + strlen ext_char + 1 in
      path ← malloc total;
      match path with
      | None => mret None
      | Some _ =>
          let s := filepath dir file_id ext_char in
          if bool_decide (strlen s + 1 ≤ total) then mret (Some s) else undef
      end
  end.

(** ** Lemmas *)

Lemma strlen_nonneg s : 0 ≤ strlen s.
Proof. induction s; simpl; lia. Qed.

Lemma strlen_app s t : strlen (string_app s t) = strlen s + strlen t.
Proof. induction s; simpl; lia. Qed.

Lemma digit_char_val d : 0 ≤ d < 10 → ascii_val (digit_char d) = 48 + d.
Proof.
  intros. unfold ascii_val, digit_char. rewrite nat_ascii_embedding by lia. lia.
Qed.

Lemma digit_char_isdigit d : 0 ≤ d < 10 → isdigit (digit_char d) = true.
Proof. intros. unfold isdigit. rewrite digit_char_val by done. apply bool_decide_eq_true. lia. Qed.

Lemma strlen_print_digits fuel n s : strlen (print_digits fuel n s) ≤ Z.of_nat fuel + strlen s.
Proof.
  revert n s. induction fuel as [|fuel IH]; intros n s; simpl print_digits; [lia|].
  case_bool_decide; simpl.
  - lia.
  - etrans; [apply IH|]. simpl. lia.
Qed.

(** Reading back the digits of a number that the fuel is enough for. *)
Lemma atoi_print_digits fuel n s :
  0 ≤ n < 10 ^ Z.of_nat fuel →
  ∃ k, 0 ≤ k ∧ ∀ acc, atoi_digits acc (print_digits fuel n s) = atoi_digits (acc * 10 ^ k + n) s.
Proof.
  revert n s. induction fuel as [|fuel IH]; intros n s Hn.
  { exists 0. split; [done|]. intros acc. simpl in *. f_equal. lia. }
  rewrite Nat2Z.inj_succ, Z.pow_succ_r in Hn by lia. simpl print_digits.
  case_bool_decide.
  - exists 1. split; [done|]. intros acc. simpl.
    rewrite digit_char_isdigit, digit_char_val by lia. f_equal. lia.
  - pose proof (Z.mod_pos_bound n 10 ltac:(lia)).
    destruct (IH (n / 10) (String (digit_char (n mod 10)) s)) as (k & Hk & Hrec).
    { split; [apply Z.div_pos; lia | apply Z.div_lt_upper_bound; lia]. }
    exists (k + 1). split; [lia|]. intros acc. rewrite Hrec. simpl.
    rewrite digit_char_isdigit, digit_char_val by lia. f_equal.
    rewrite Z.pow_add_r, Z.pow_1_r by lia. pose proof (Z.div_mod n 10 ltac:(lia)). lia.
Qed.

(** The first character of a printed number is a digit. *)
Lemma print_digits_head fuel n s :
  0 ≤ n → (0 < fuel)%nat →
  (∃ a s', s = String a s' ∧ isdigit a = true) ∨ n < 10 ^ Z.of_nat fuel →
  ∃ a s', print_digits fuel n s = String a s' ∧ isdigit a = true.
Proof.
  revert n s. induction fuel as [|fuel IH]; intros n s Hn Hf Hs; [lia|]. simpl.
  case_bool_decide; [eexists _, _; split; [done | by apply digit_char_isdigit]|].
  pose proof (Z.mod_pos_bound n 10 ltac:(lia)).
  assert (∃ a s', String (digit_char (n mod 10)) s = String a s' ∧ isdigit a = true) as Hd.
  { eexists _, _. split; [done | by apply digit_char_isdigit]. }
  destruct fuel as [|fuel]; [done|].
  apply IH; [apply Z.div_pos; lia | lia | by left].
Qed.

Lemma isdigit_plain a :
  isdigit a = true → isspace a = false ∧ ascii_val a ≠ 45 ∧ ascii_val a ≠ 43 ∧ a ≠ "."%char.
Proof.
  unfold isdigit, isspace. rewrite bool_decide_eq_true, bool_decide_eq_false.
  intros. assert (ascii_val "." = 46) by done. split_and!; try lia. intros ->. lia.
Qed.

Lemma atoi_print n : 0 ≤ n < 2 ^ 31 → atoi (print_u64 n "") = Some n.
Proof.
  intros Hn. unfold atoi, print_u64.
  destruct (atoi_print_digits 20 n "" ltac:(lia)) as (k & Hk & Hrec).
  destruct (print_digits_head 20 n "" ltac:(lia) ltac:(lia) ltac:(right; lia))
    as (a & s' & Heq & Ha).
  specialize (Hrec 0). rewrite Heq in *. simpl.
  destruct (isdigit_plain a Ha) as (-> & H45 & H43 & _).
  rewrite (bool_decide_eq_false_2 _ H45), (bool_decide_eq_false_2 _ H43), Hrec. simpl.
  by rewrite bool_decide_eq_true_2 by lia.
Qed.

(** The digits contain no dot, so the last dot of a file name is in its
    extension. *)
Lemma strrchr_no c s t :
  strrchr c s = None → strrchr c (string_app s t) = prod_map (string_app s) id <$> strrchr c t.
Proof.
  induction s as [|a s IH]; simpl; [by destruct (strrchr c t) as [[]|]|].
  destruct (strrchr c s) as [[]|]; [done|]. case_bool_decide; [done|]. intros _.
  rewrite IH by done. by destruct (strrchr c t) as [[]|].
Qed.

Lemma print_digits_app fuel n s :
  print_digits fuel n s = string_app (print_digits fuel n "") s.
Proof.
  assert (∀ t, print_digits fuel n (string_app t s) = string_app (print_digits fuel n t) s) as H.
  { revert n. induction fuel as [|fuel IH]; intros n t; simpl; [done|].
    case_bool_decide; [done|]. by rewrite <-IH. }
  apply (H ""%string).
Qed.

Lemma print_digits_no_dot fuel n s :
  0 ≤ n → strrchr "." s = None → strrchr "." (print_digits fuel n s) = None.
Proof.
  revert n s. induction fuel as [|fuel IH]; intros n s Hn Hs; simpl; [done|].
  assert (∀ d, 0 ≤ d < 10 → strrchr "." (String (digit_char d) s) = None) as Hd.
  { intros d Hd. simpl. rewrite Hs. rewrite bool_decide_eq_false_2; [done|].
    by destruct (isdigit_plain _ (digit_char_isdigit d Hd)) as (_ & _ & _ & ?). }
  case_bool_decide; [by apply Hd|].
  apply IH; [apply Z.div_pos; lia|]. apply Hd, Z.mod_pos_bound. lia.
Qed.

(** What follows the last dot has no dot. *)
Lemma strrchr_suffix c s p d :
  strrchr c s = Some (p, d) → ∃ d', d = String c d' ∧ strrchr c d' = None.
Proof.
  revert p. induction s as [|a s IH]; intros p; simpl; [done|].
  destruct (strrchr c s) as [[p' d']|] eqn:Hs.
  - intros [= <- <-]. by eapply IH.
  - case_bool_decide; [|done]. intros [= <- <-]. subst a. eauto.
Qed.

Lemma build_filepath_run dir id ext e s :
  ext_string ext = Some s → dir ≠ EmptyString → default true (head (e_malloc e)) = true →
  ∃ total, build_filepath dir id ext e =
    Ret (Some (filepath dir id s)) (put_block (zeros total) e).
Proof.
  intros Hext Hdir Hm. unfold build_filepath. rewrite Hext.
  assert (∃ a, last_char dir = Some a) as [a Ha].
  { clear -Hdir. induction dir as [|a dir IH]; [done|]. simpl.
    destruct dir; [eauto|]. by apply IH. }
  rewrite Ha. eexists. unfold mbind, M_bind; simpl.
  rewrite (malloc_ok _ _ Hm). rewrite bool_decide_eq_true_2; [done|].
  unfold filepath. rewrite Ha. pose proof (strlen_print_digits 20 id s).
  rewrite (bool_decide_ext (Some a = Some "/"%char) (a = "/"%char)) by (split; congruence).
  case_bool_decide; rewrite strlen_app; cbn [strlen]; unfold print_u64; lia.
Qed.

(** The name of a file of the store, as [readdir] gives it. *)
Definition file_name (id : Z) (s : string) : string := print_u64 id s.

Lemma string_app_nil s : string_app s EmptyString = s.
Proof. induction s as [|a s IH]; simpl; [done | by rewrite IH]. Qed.

Lemma strrchr_file_name id s :
  0 ≤ id → strrchr "." s = Some (EmptyString, s) →
  strrchr "." (file_name id s) = Some (print_u64 id "", s).
Proof.
  intros Hid Hs. unfold file_name, print_u64.
  rewrite print_digits_app, strrchr_no by (by apply print_digits_no_dot).
  rewrite Hs. cbn -[print_digits]. by rewrite string_app_nil.
Qed.

Lemma parse_filename_run e id s :
  0 ≤ id < 2 ^ 31 → strrchr "." s = Some (EmptyString, s) →
  default true (head (e_malloc e)) = true →
  parse_filename (file_name id s) e =
    Ret (if bool_decide (s = ".data")%string then FILE_DATA
         else if bool_decide (s = ".hint")%string then FILE_HINT else FILE_UNKNOWN, id)
      (put_block (zeros (strlen (print_u64 id "") + 1)) e).
Proof.
  intros Hid Hs Hm. unfold parse_filename. rewrite strrchr_file_name by (done || lia).
  unfold mbind, M_bind, deref. cbn -[print_u64 atoi].
  rewrite (malloc_ok _ _ Hm), atoi_print by done. cbn -[print_u64].
  rewrite u64_small by (unfold is_u64; lia).
  rewrite (bool_decide_eq_false_2 (s = ".data.tmp"%string)) by (intros ->; done).
  repeat case_bool_decide; done.
Qed.

(** ** Different identifiers give different paths *)

Lemma string_app_inj s t t' : string_app s t = string_app s t' → t = t'.
Proof. induction s as [|a s IH]; simpl; [done|]. intros [= ?]. by apply IH. Qed.

(** The number in front of an extension. *)
Lemma print_u64_val id s :
  is_u64 id → atoi_digits 0 (print_u64 id (String "."%char s)) = id.
Proof.
  intros [H0 H1]. destruct (atoi_print_digits 20 id (String "."%char s)) as (k & _ & Hrec).
  { split; [done|]. etrans; [exact H1|]. done. }
  unfold print_u64. by rewrite Hrec.
Qed.

Lemma filepath_inj dir id id' s s' :
  is_u64 id → is_u64 id' →
  filepath dir id (String "."%char s) = filepath dir id' (String "."%char s') → id = id'.
Proof.
  intros Hid Hid' Hf. rewrite <-(print_u64_val id s), <-(print_u64_val id' s') by done. f_equal.
  unfold filepath in Hf. case_bool_decide; apply string_app_inj in Hf; [done|].
  by injection Hf.
Qed.
