(* ===== verification/Logging.v ===== *)
(** * Logging: [log.cc]

    The six functions format their arguments into a buffer on the stack, and
    hand the string that is in it to a logger of spdlog that the first message
    creates.  What spdlog does with a message is not modelled: the state is
    the list of the messages it was given.  Without [CCASK_ENABLE_LOGGING] the
    functions are empty; the models of the other files leave their calls out,
    as that build does. *)
From Stdlib Require Import Strings.Ascii Strings.String.
From S2P Require Import Prelude Filenames.
Open Scope Z_scope.
Open Scope string_scope.

(** ** What the functions use of the C library *)

(** An array of characters. *)
Definition chars : Type := list ascii.

(** The string that starts an array: up to the first zero, which is there. *)
Fixpoint c_string (buf : chars) : option string :=
  match buf with
  | [] => None
  | c :: buf' => if bool_decide (c = zero) then Some "" else String c <$> c_string buf'
  end.

Fixpoint no_zero (s : string) : bool :=
  match s with "" => true | String c s' => negb (bool_decide (c = zero)) && no_zero s' end.

(** The arguments that are passed: an [int], a [uint32_t], a [uint64_t] or a
    string. *)
Inductive log_arg : Type :=
  | AInt (n : Z)
  | AU32 (n : Z)
  | AU64 (n : Z)
  | AString (s : string).

Definition print_int (n : Z) (s : string) : string :=
  if bool_decide (n < 0) then String "-" (print_digits 20 (- n) s) else print_digits 20 n s.

(** The text of a format with the conversions [%d], [%s], [%u] and [%lu],
    which are those of the program (["%" PRIu32] and ["%" PRIu64] are the last
    two); it is undefined when an argument is missing or has another type than
    its conversion says. *)
Fixpoint vformat (fmt : string) (ap : list log_arg) : option string :=
  match fmt with
  | "" => Some ""
  | String c fmt' =>
      if bool_decide (c = "%"%char) then
        match fmt', ap with
        | String "d" fmt'', AInt n :: ap' => print_int n <$> vformat fmt'' ap'
        | String "u" fmt'', AU32 n :: ap' => print_digits 10 n <$> vformat fmt'' ap'
        | String "s" fmt'', AString s :: ap' => string_app s <$> vformat fmt'' ap'
        | String "l" (String "u" fmt''), AU64 n :: ap' => print_u64 n <$> vformat fmt'' ap'
        | _, _ => None
        end
      else String c <$> vformat fmt' ap
  end.

(** [vsnprintf(buf, size, fmt, ap)] writes at most [size - 1] characters of the
    text and a zero, and nothing when [size] is zero.  Writing beyond the end
    of the array is undefined. *)
Definition vsnprintf (buf : chars) (size : nat) (fmt : string) (ap : list log_arg) : option chars :=
  text ← vformat fmt ap;
  let out := match size with O => [] | S n => (take n (list_ascii_of_string text) ++ [zero])%list end in
  if bool_decide (length out ≤ length buf)%nat then Some (out ++ drop (length out) buf)%list else None.

(** ** The functions *)

Definition LOG_BUF_SIZE : nat := 1024.

Inductive log_level : Type := trace | debug | info | warn | error | fatal.
(** The functions of spdlog's logger. *)
Inductive spd_level : Type := spd_trace | spd_debug | spd_info | spd_warn | spd_error | spd_critical.

(** [log_fatal] is spdlog's [critical]. *)
Definition spd_of (l : log_level) : spd_level :=
  match l with
  | trace => spd_trace | debug => spd_debug | info => spd_info
  | warn => spd_warn | error => spd_error | fatal => spd_critical
  end.

(** The static logger, when it exists, with the messages it was given. *)
Definition log_state : Type := option (list (spd_level * string)).

Definition get_logger : M log_state (list (spd_level * string)) :=
  s ← get;
  match s with
  | Some logged => mret logged
  | None => _ ← modify (λ _, Some []); mret []
  end.

Definition vlog_to_buffer (buf : chars) (buf_size : nat) (fmt : string) (ap : list log_arg) :
    M log_state chars :=
  match vsnprintf buf buf_size fmt ap with Some buf => mret buf | None => undef end.

(** [DEFINE_LOG_FN], and the empty functions of the build without logging.
    [stack] is where the array of [LOG_BUF_SIZE] characters is: it holds
    anything. *)
Definition log_fn (enabled : bool) (stack : chars) (level : log_level) (fmt : string)
    (ap : list log_arg) : M log_state unit :=
  if enabled then
    buf ← vlog_to_buffer stack LOG_BUF_SIZE fmt ap;
    logged ← get_logger;
    match c_string buf with
    | Some line => modify (λ _, Some (logged ++ [(spd_of level, line)])%list)
    | None => undef
    end
  else mret tt.

(** ** Five of the calls *)

(** [core.c], when the checksum of a record is wrong. *)
Definition log_crc_mismatch (enabled : bool) (stack : chars) (header_crc crc : Z) : M log_state unit :=
  log_fn enabled stack error
    "Stored CRC for key doesn't match its actual CRC, returning NULL (%u != %u)" [AU32 header_crc; AU32 crc].

(** [reader.c]: the conversion is ["%d"], and the letters of [PRIu64] follow. *)
Definition log_no_invalidator (enabled : bool) (stack : chars) (file_id : Z) : M log_state unit :=
  log_fn enabled stack error "Couldn't spawn FD invalidator thread for Datafile ID = %dlu" [AU64 file_id].

(** [files.c], when a data file was found. *)
Definition log_found_file (enabled : bool) (stack : chars) (file_id : Z) (has_hint : bool) : M log_state unit :=
  log_fn enabled stack info "Found Data File (ID=%d) %s"
    [AU64 file_id; AString (if has_hint then ":: Has Hints" else "")].

(** [files.c], when an active file was created. *)
Definition log_created_file (enabled : bool) (stack : chars) (id : Z) : M log_state unit :=
  log_fn enabled stack info "Created new Active DataFile ID = %lu" [AU64 id].

(** [compactor.c]: the descriptor, an [int], is passed for a [uint64_t]. *)
Definition log_temp_seek (enabled : bool) (stack : chars) (temp_file_fd : Z) : M log_state unit :=
  log_fn enabled stack error "lseek failed during write record to temp-datafile ID = %lu" [AInt temp_file_fd].

(** ** Properties *)

(** What the functions should call: the function of the logger that has the
    same name, and [critical] for [fatal]. *)
Definition level_name (l : log_level) : string :=
  match l with
  | trace => "trace" | debug => "debug" | info => "info"
  | warn => "warn" | error => "error" | fatal => "critical"
  end.
Definition spd_name (l : spd_level) : string :=
  match l with
  | spd_trace => "trace" | spd_debug => "debug" | spd_info => "info"
  | spd_warn => "warn" | spd_error => "error" | spd_critical => "critical"
  end.

(** The first characters of a string. *)
Fixpoint string_take (n : nat) (s : string) : string :=
  match n, s with
  | S n', String c s' => String c (string_take n' s')
  | _, _ => ""
  end.

Lemma string_take_prefix n s :
  (∃ rest, s = string_app (string_take n s) rest) ∧
  String.length (string_take n s) = Nat.min n (String.length s).
Proof.
  revert s. induction n as [|n IH]; intros [|c s]; cbn [string_take String.length]; [by split; eauto..|].
  destruct (IH s) as [[rest Hrest] ->]. split; [|done]. exists rest. simpl. by rewrite <-Hrest.
Qed.

Lemma c_string_take n text rest :
  no_zero text = true →
  c_string (take n (list_ascii_of_string text) ++ zero :: rest)%list = Some (string_take n text).
Proof.
  revert text. induction n as [|n IH]; intros [|c text]; try done. cbn [no_zero].
  intros [Hc Hz]%andb_prop. apply negb_true_iff in Hc.
  cbn [list_ascii_of_string take app c_string string_take]. rewrite Hc. by rewrite IH.
Qed.

Section theorems.
Context (st : log_state) (stack : chars).
Hypothesis Hstack : length stack = LOG_BUF_SIZE.

Lemma log_fn_run level fmt ap text :
  vformat fmt ap = Some text → no_zero text = true →
  log_fn true stack level fmt ap st =
    Ret tt (Some (default [] st ++ [(spd_of level, string_take 1023 text)])%list).
Proof.
  intros Htext Hz. unfold log_fn, vlog_to_buffer, vsnprintf. rewrite Htext. cbn [mbind option_bind].
  change LOG_BUF_SIZE with (S 1023) in *. cbn match. set (out := (take 1023 (list_ascii_of_string text) ++ [zero])%list).
  assert (length out ≤ length stack)%nat as Hfits.
  { unfold out. rewrite Hstack, length_app, length_take. simpl length. lia. }
  rewrite bool_decide_eq_true_2 by done. unfold mbind, M_bind, mret, M_ret. cbn beta iota.
  assert (c_string (out ++ drop (length out) stack)%list = Some (string_take 1023 text)) as ->.
  { unfold out at 1. rewrite <-app_assoc. by apply c_string_take. }
  by destruct st.
Qed.

(** C40. A message whose arguments have the types of its format reaches the
    logger once, behind the earlier ones and through the function of the
    logger with the name of its level ([critical] for [fatal]); the logger is
    created if there was none.  Whatever the array on the stack held, nothing
    is written or read beyond its end: the message is the beginning of the
    text, all of it up to 1023 characters and the first 1023 of a longer
    one. *)
Theorem log_line_bounded level fmt ap text :
  vformat fmt ap = Some text → no_zero text = true →
  wp (log_fn true stack level fmt ap) st (λ _ st', ∃ called line rest,
    st' = Some (default [] st ++ [(called, line)])%list ∧ spd_name called = level_name level ∧
    text = string_app line rest ∧ String.length line = Nat.min 1023 (String.length text)).
Proof.
  intros Htext Hz. eapply wp_run; [by apply log_fn_run|].
  destruct (string_take_prefix 1023 text) as [[rest Hrest] Hlen].
  exists (spd_of level), (string_take 1023 text), rest. split; [done|]. split; [by destruct level|]. by split.
Qed.

(** Two calls pass a [uint64_t] for [%d], and one an [int] for a [uint64_t]. *)
Theorem log_calls_mistyped file_id has_hint fd :
  log_no_invalidator true stack file_id st = Undef ∧ log_found_file true stack file_id has_hint st = Undef ∧
  log_temp_seek true stack fd st = Undef ∧
  log_no_invalidator false stack file_id st = Ret tt st ∧
  log_found_file false stack file_id has_hint st = Ret tt st ∧ log_temp_seek false stack fd st = Ret tt st.
Proof. split_and!; reflexivity. Qed.
End theorems.

Lemma log_line_bounded_witness :
  wp (log_crc_mismatch true (repeat zero 1024) 4294967295 7) None (λ _ st', ∃ called line rest,
    st' = Some ([] ++ [(called, line)])%list ∧ spd_name called = "error" ∧
    "Stored CRC for key doesn't match its actual CRC, returning NULL (4294967295 != 7)" = string_app line rest ∧
    String.length line = Nat.min 1023 81).
Proof.
  apply (log_line_bounded None (repeat zero 1024) eq_refl error _ [AU32 4294967295; AU32 7]
    "Stored CRC for key doesn't match its actual CRC, returning NULL (4294967295 != 7)");
    by vm_compute.
Defined.
