(* ===== verification/Files.v ===== *)
(** * Files: the data files of the store

    Models [files.c] and [files.h], except [ccask_files_rotate], which is in
    [Hint].  A [ccask_file_t] is a node of a doubly linked list, ordered
    by descending identifier, and an item of a hash table; nodes are kept by
    address, so the links are pointers as in the code.  The block a node
    occupies comes from [malloc] and goes to [free]. *)
From stdpp Require Import sorting.
From Stdlib Require Import Strings.Ascii.
From S2P Require Import Prelude Status Posix Uthash Filenames.
Open Scope Z_scope.

Record ccask_file := CFile {
  file_id : Z;
  file_fd : Z;
  file_last_accessed : Z;
  file_has_hint : bool;
  file_is_active : bool;
  file_is_fd_invalidator_running : bool;
  file_rwlock : rwlock;
  file_next : option Z;
  file_previous : option Z;
}.

Definition set_file_fd (x : Z) (f : ccask_file) : ccask_file :=
  CFile (file_id f) x (file_last_accessed f) (file_has_hint f) (file_is_active f)
    (file_is_fd_invalidator_running f) (file_rwlock f) (file_next f) (file_previous f).
Definition set_file_last_accessed (x : Z) (f : ccask_file) : ccask_file :=
  CFile (file_id f) (file_fd f) x (file_has_hint f) (file_is_active f)
    (file_is_fd_invalidator_running f) (file_rwlock f) (file_next f) (file_previous f).
Definition set_file_has_hint (x : bool) (f : ccask_file) : ccask_file :=
  CFile (file_id f) (file_fd f) (file_last_accessed f) x (file_is_active f)
    (file_is_fd_invalidator_running f) (file_rwlock f) (file_next f) (file_previous f).
Definition set_file_is_active (x : bool) (f : ccask_file) : ccask_file :=
  CFile (file_id f) (file_fd f) (file_last_accessed f) (file_has_hint f) x
    (file_is_fd_invalidator_running f) (file_rwlock f) (file_next f) (file_previous f).
Definition set_file_invalidator (x : bool) (f : ccask_file) : ccask_file :=
  CFile (file_id f) (file_fd f) (file_last_accessed f) (file_has_hint f) (file_is_active f)
    x (file_rwlock f) (file_next f) (file_previous f).
Definition set_file_rwlock (x : rwlock) (f : ccask_file) : ccask_file :=
  CFile (file_id f) (file_fd f) (file_last_accessed f) (file_has_hint f) (file_is_active f)
    (file_is_fd_invalidator_running f) x (file_next f) (file_previous f).
Definition set_file_next (x : option Z) (f : ccask_file) : ccask_file :=
  CFile (file_id f) (file_fd f) (file_last_accessed f) (file_has_hint f) (file_is_active f)
    (file_is_fd_invalidator_running f) (file_rwlock f) x (file_previous f).
Definition set_file_previous (x : option Z) (f : ccask_file) : ccask_file :=
  CFile (file_id f) (file_fd f) (file_last_accessed f) (file_has_hint f) (file_is_active f)
    (file_is_fd_invalidator_running f) (file_rwlock f) (file_next f) x.

(** The statics of [files.c], and the nodes. *)
Record files_state := FilesState {
  fs_data_dir : option (Z * string);   (* its block, and the string *)
  fs_table : list Z;                   (* the nodes in the hash table *)
  fs_head : option Z;
  fs_tail : option Z;
  fs_max_active : Z;                   (* MAX_ACTIVE_FILE_SIZE *)
  fs_nodes : gmap Z ccask_file;
}.

Definition files_state_init : files_state := FilesState None [] None None 50 ∅.

Definition set_fs_data_dir (x : option (Z * string)) (f : files_state) : files_state :=
  FilesState x (fs_table f) (fs_head f) (fs_tail f) (fs_max_active f) (fs_nodes f).
Definition set_fs_table (x : list Z) (f : files_state) : files_state :=
  FilesState (fs_data_dir f) x (fs_head f) (fs_tail f) (fs_max_active f) (fs_nodes f).
Definition set_fs_head (x : option Z) (f : files_state) : files_state :=
  FilesState (fs_data_dir f) (fs_table f) x (fs_tail f) (fs_max_active f) (fs_nodes f).
Definition set_fs_tail (x : option Z) (f : files_state) : files_state :=
  FilesState (fs_data_dir f) (fs_table f) (fs_head f) x (fs_max_active f) (fs_nodes f).
Definition set_fs_max_active (x : Z) (f : files_state) : files_state :=
  FilesState (fs_data_dir f) (fs_table f) (fs_head f) (fs_tail f) x (fs_nodes f).
Definition set_fs_nodes (x : gmap Z ccask_file) (f : files_state) : files_state :=
  FilesState (fs_data_dir f) (fs_table f) (fs_head f) (fs_tail f) (fs_max_active f) x.

Definition fstate : Type := env * files_state.

Definition files : M fstate files_state := gets snd.
Definition modify_files (g : files_state → files_state) : M fstate unit :=
  modify (λ s, (s.1, g s.2)).

(** [p->...], read and assigned. *)
Definition node (p : Z) : M fstate ccask_file :=
  f ← files; deref (fs_nodes f !! p).
Definition set_node (p : Z) (g : ccask_file → ccask_file) : M fstate unit :=
  n ← node p; modify_files (λ f, set_fs_nodes (<[p := g n]> (fs_nodes f)) f).
(** An operation on the lock of a node. *)
Definition node_lock (op : rwlock → M fstate rwlock) (p : Z) : M fstate unit :=
  n ← node p; l ← op (file_rwlock n); set_node p (set_file_rwlock l).

(** ** The linked list *)

(** [while (curr && curr->file_id > file->file_id) curr = curr->next]. *)
Fixpoint list_walk (fuel : nat) (curr : option Z) (id : Z) : M fstate (option Z) :=
  match fuel with
  | O => no_fuel
  | S fuel' =>
      match curr with
      | None => mret None
      | Some c =>
          n ← node c;
          if bool_decide (file_id n > id) then list_walk fuel' (file_next n) id
          else mret curr
      end
  end.

(** The walk visits no node twice, so one more step than nodes is enough. *)
Definition add_file_to_linked_list (file : Z) : M fstate unit :=
  f ← files;
  match fs_head f with
  | None =>
      _ ← modify_files (λ f, set_fs_head (Some file) (set_fs_tail (Some file) f));
      set_node file (λ n, set_file_next None (set_file_previous None n))
  | Some curr =>
      n ← node file;
      c ← node curr;
      if bool_decide (file_id n > file_id c) then
        _ ← set_node file (λ n, set_file_previous None (set_file_next (Some curr) n));
        _ ← set_node curr (set_file_previous (Some file));
        modify_files (set_fs_head (Some file))
      else
        curr ← list_walk (1 + size (fs_nodes f)) (Some curr) (file_id n);
        match curr with
        | None =>
            f ← files;
            tail ← deref (fs_tail f);
            _ ← set_node tail (set_file_next (Some file));
            _ ← set_node file (λ n, set_file_next None (set_file_previous (Some tail) n));
            modify_files (set_fs_tail (Some file))
        | Some curr =>
            c ← node curr;
            _ ← set_node file (λ n,
                  set_file_previous (file_previous c) (set_file_next (Some curr) n));
            c ← node curr;
            _ ← match file_previous c with
                | None => mret tt
                | Some p => set_node p (set_file_next (Some file))
                end;
            set_node curr (set_file_previous (Some file))
        end
  end.

Definition add_file (file : Z) : M fstate unit :=
  _ ← add_file_to_linked_list file;
  modify_files (λ f, set_fs_table (hash_add file (fs_table f)) f).

Definition ccask_files_get_active_file : M fstate (option Z) := gets (λ s, fs_head s.2).
Definition ccask_files_get_oldest_file : M fstate (option Z) := gets (λ s, fs_tail s.2).

(** The table is hashed on the [file_id] in the nodes. *)
Definition ccask_files_get_file (id : Z) : M fstate (option Z) :=
  f ← files;
  mret (hash_find (λ p, file_id <$> fs_nodes f !! p) (Some id) (fs_table f)).

(** ** Descriptors *)

Definition DATAFILE_OPEN_FLAGS : oflags := OFlags false false false.
Definition HINTFILE_OPEN_FLAGS : oflags := OFlags true true true.
Definition ACTIVE_DATAFILE_OPEN_FLAGS : oflags := OFlags true true true.
Definition TEMP_DATAFILE_OPEN_FLAGS : oflags := OFlags true true true.

(** [build_filepath(files_state.data_dir, ...)]; the path is never freed. *)
Definition data_path (id : Z) (ext : file_ext_e) : M fstate (option string) :=
  f ← files;
  dir ← deref (fs_data_dir f);
  zoom (build_filepath dir.2 id ext).

(** [open(NULL)], [unlink(NULL)] and [rename(NULL)] fail with [EFAULT]. *)
Definition open_path (path : option string) (fl : oflags) : M env (Z + errno) :=
  match path with None => mret (inr EFAULT) | Some path => sys_open path fl end.
Definition unlink_path (path : option string) : M env (option errno) :=
  match path with None => mret (Some EFAULT) | Some path => sys_unlink path end.
Definition rename_path (from to : option string) : M env (option errno) :=
  match from, to with
  | Some from, Some to => sys_rename from to
  | _, _ => mret (Some EFAULT)
  end.

Definition ccask_files_get_active_datafile_fd (id : Z) : M fstate Z :=
  fpath ← data_path id FILE_DATA;
  fd ← zoom (open_path fpath ACTIVE_DATAFILE_OPEN_FLAGS);
  match fd with
  | inl fd => mret fd
  | inr (EACCES | EPERM | EISDIR | ENAMETOOLONG) =>
      _ ← zoom (set_ccask_errno CCASK_ERR_GET_FD_FAILED); mret (status_code CCASK_FAIL)
  | inr _ => mret (status_code CCASK_RETRY)
  end.

Definition ccask_files_get_datafile_fd (id : Z) : M fstate Z :=
  fpath ← data_path id FILE_DATA;
  fd ← zoom (open_path fpath DATAFILE_OPEN_FLAGS);
  match fd with
  | inl fd => mret fd
  | inr (EACCES | EPERM | EISDIR | ENAMETOOLONG | ENOENT) =>
      _ ← zoom (set_ccask_errno CCASK_ERR_GET_FD_FAILED); mret (status_code CCASK_FAIL)
  | inr _ => mret (status_code CCASK_RETRY)
  end.

Definition ccask_files_get_hintfile_fd (id : Z) : M fstate Z :=
  fpath ← data_path id FILE_HINT;
  fd ← zoom (open_path fpath HINTFILE_OPEN_FLAGS);
  match fd with
  | inl fd => mret fd
  | inr (EACCES | EPERM | EISDIR | ENAMETOOLONG | ENOENT) =>
      _ ← zoom (set_ccask_errno CCASK_ERR_GET_FD_FAILED); mret (status_code CCASK_FAIL)
  | inr _ => mret (status_code CCASK_RETRY)
  end.

Definition ccask_files_get_temp_datafile_fd (id : Z) : M fstate Z :=
  fpath ← data_path id FILE_TEMP_DATA;
  fd ← zoom (open_path fpath TEMP_DATAFILE_OPEN_FLAGS);
  match fd with
  | inl fd => mret fd
  | inr (EACCES | EPERM | EISDIR | ENAMETOOLONG | ENOENT) =>
      _ ← zoom (set_ccask_errno CCASK_ERR_GET_FD_FAILED); mret (status_code CCASK_FAIL)
  | inr _ => mret (status_code CCASK_RETRY)
  end.

(** ** Creating nodes *)

Definition sizeof_file : Z := 160.

(** The node is the caller's block [file]; all its fields are assigned. *)
Definition create_new_active_datafile (id file : Z) : M fstate ccask_status_e :=
  fd ← CCASK_ATTEMPT 5 (ccask_files_get_active_datafile_fd id);
  if bool_decide (fd < 0) then mret CCASK_FAIL
  else
    t ← zoom time;
    _ ← modify_files (λ f, set_fs_nodes
          (<[file := CFile id fd t false true false rwlock_new None None]> (fs_nodes f)) f);
    mret CCASK_OK.

Definition allocate_datafile_node (id : Z) (has_hint : bool) : M fstate (option Z) :=
  file ← zoom (malloc sizeof_file);
  match file with
  | None => _ ← zoom (set_ccask_errno CCASK_ERR_NO_MEMORY); mret None
  | Some file =>
      t ← zoom time;
      _ ← modify_files (λ f, set_fs_nodes
            (<[file := CFile id (-1) t has_hint false false rwlock_new None None]> (fs_nodes f)) f);
      mret (Some file)
  end.

(** ** Start and end *)

(** What [readdir] and [stat] say about an entry of the data directory. *)
Record dirent := Dirent {
  d_name : string;
  d_isreg : option bool;   (* S_ISREG; [None] when [stat] fails *)
}.

(** [access(build_filepath(...), F_OK) == 0]. *)
Definition has_hintfile (id : Z) : M fstate bool :=
  fpath ← data_path id FILE_HINT;
  match fpath with None => mret false | Some p => zoom (path_exists p) end.

(** The [while] over [readdir].  [strcpy] has 257 bytes for the name; without
    memory for a node [add_file(NULL)] is undefined. *)
Fixpoint init_scan (entries : list dirent) : M fstate unit :=
  match entries with
  | [] => mret tt
  | entry :: entries' =>
      if bool_decide (d_name entry = "." ∨ d_name entry = "..")%string then init_scan entries'
      else if bool_decide (256 < strlen (d_name entry)) then undef
      else
        match d_isreg entry with
        | None | Some false => init_scan entries'
        | Some true =>
            '(ext, id) ← zoom (parse_filename (d_name entry));
            match ext with
            | FILE_DATA =>
                has_hint ← has_hintfile id;
                file ← allocate_datafile_node id has_hint;
                file ← deref file;
                _ ← add_file file;
                init_scan entries'
            | _ => init_scan entries'
            end
        end
  end.

(** [malloc], [create_new_active_datafile] and [add_file], of two branches of
    [ccask_files_init]. *)
Definition init_active (id : Z) : M fstate ccask_status_e :=
  active_file ← zoom (malloc sizeof_file);
  match active_file with
  | None => _ ← zoom (set_ccask_errno CCASK_ERR_NO_MEMORY); mret CCASK_FAIL
  | Some active_file =>
      res ← create_new_active_datafile id active_file;
      if bool_decide (res ≠ CCASK_OK) then mret CCASK_FAIL
      else _ ← add_file active_file; mret CCASK_OK
  end.

Definition opendir : M env (option errno) :=
  ev ← next_event; mret (match ev with EvErr x => Some x | _ => None end).

Definition ccask_files_init (dir : string) (active_file_max_size : Z) (entries : list dirent) :
    M fstate ccask_status_e :=
  _ ← modify_files (set_fs_max_active active_file_max_size);
  d ← zoom opendir;
  match d with
  | Some (EACCES | ENOTDIR) => mret CCASK_FAIL
  | Some _ => mret CCASK_RETRY
  | None =>
      last ← deref (last_char dir);
      entry_path ← zoom (malloc
        (strlen dir + (if bool_decide (last = "/"%char) then 0 else 1) + 256 + 1));
      match entry_path with
      | None => _ ← zoom (set_ccask_errno CCASK_ERR_NO_MEMORY); mret CCASK_RETRY
      | Some entry_path =>
          data_dir ← zoom (malloc (strlen dir + 1));
          _ ← modify_files (λ f, FilesState ((λ a, (a, dir)) <$> data_dir) [] None None
                (fs_max_active f) (fs_nodes f));
          _ ← init_scan entries;
          _ ← zoom (free (Some (entry_path, 0)));
          f ← files;
          match fs_head f with
          | None => init_active 0
          | Some head =>
              n ← node head;
              if file_has_hint n then init_active (u64 (file_id n + 1))
              else
                fd ← CCASK_ATTEMPT 5 (ccask_files_get_active_datafile_fd (file_id n));
                if bool_decide (fd < 0) then mret CCASK_FAIL
                else
                  _ ← set_node head (λ n, set_file_fd fd (set_file_is_active true n));
                  mret CCASK_OK
          end
      end
  end.

(** One round of the [HASH_ITER] of [ccask_files_shutdown]. *)
Definition files_shutdown_one (curr : Z) : M fstate unit :=
  _ ← node_lock wrlock curr;
  n ← node curr;
  _ ← (if bool_decide (file_fd n >= 0)
       then _ ← zoom (sys_close (file_fd n)); set_node curr (set_file_fd (-1))
       else mret tt);
  _ ← node_lock rwunlock curr;
  n ← node curr;
  _ ← match file_previous n with
      | Some p => set_node p (set_file_next (file_next n))
      | None => modify_files (set_fs_head (file_next n))
      end;
  n ← node curr;
  _ ← match file_next n with
      | Some p => set_node p (set_file_previous (file_previous n))
      | None => modify_files (set_fs_tail (file_previous n))
      end;
  _ ← modify_files (λ f, set_fs_table (hash_del id curr (fs_table f)) f);
  _ ← zoom (free (Some (curr, 0)));
  modify_files (λ f, set_fs_nodes (delete curr (fs_nodes f)) f).

Fixpoint files_shutdown_all (l : list Z) : M fstate unit :=
  match l with
  | [] => mret tt
  | curr :: l' => _ ← files_shutdown_one curr; files_shutdown_all l'
  end.

Definition ccask_files_shutdown : M fstate unit :=
  f ← files;
  _ ← zoom (free ((λ '(a, _), (a, 0)) <$> fs_data_dir f));
  files_shutdown_all (fs_table f).

Definition ccask_files_delete (id : Z) (ext : file_ext_e) : M fstate ccask_status_e :=
  fpath ← data_path id ext;
  r ← zoom (unlink_path fpath);
  mret (match r with
        | None => CCASK_OK
        | Some (EACCES | EISDIR | EFAULT | ENAMETOOLONG | ENOENT | EPERM | EROFS) => CCASK_FAIL
        | Some _ => CCASK_RETRY
        end).

Definition ccask_files_change_ext (id : Z) (from to : file_ext_e) : M fstate ccask_status_e :=
  from_fpath ← data_path id from;
  to_fpath ← data_path id to;
  r ← zoom (rename_path from_fpath to_fpath);
  mret (match r with
        | None => CCASK_OK
        | Some (EACCES | EISDIR | EFAULT | ENAMETOOLONG | ENOENT | EPERM | EROFS) => CCASK_FAIL
        | Some _ => CCASK_RETRY
        end).

(** ** The list a state represents

    [dseg m p l n]: the nodes [l], in this order, are linked in both
    directions; [p] comes before the first one and [n] after the last one. *)

Definition hd_or (l : list Z) (n : option Z) : option Z :=
  match l with [] => n | a :: _ => Some a end.
Definition last_or (l : list Z) (p : option Z) : option Z :=
  match last l with None => p | Some a => Some a end.

Fixpoint dseg (m : gmap Z ccask_file) (p : option Z) (l : list Z) (n : option Z) : Prop :=
  match l with
  | [] => True
  | a :: l' =>
      (∃ x, m !! a = Some x ∧ file_previous x = p ∧ file_next x = hd_or l' n) ∧
      dseg m (Some a) l' n
  end.

(** A node without its links. *)
Definition file_view (x : ccask_file) : ccask_file := set_file_next None (set_file_previous None x).
Definition node_id (m : gmap Z ccask_file) (a : Z) : Z := default 0 (file_id <$> m !! a).

(** The state represents the list [l]: newest file first, no identifier twice,
    every node once in the hash table. *)
Record files_rep (f : files_state) (l : list Z) : Prop := {
  rep_nodup : NoDup l;
  rep_head : fs_head f = head l;
  rep_tail : fs_tail f = last l;
  rep_seg : dseg (fs_nodes f) None l None;
  rep_sorted : StronglySorted Z.gt (node_id (fs_nodes f) <$> l);
  rep_table : fs_table f ≡ₚ l;
}.

Section dseg.
Implicit Types (m : gmap Z ccask_file) (p n : option Z) (l : list Z).

Lemma last_or_app l a p : last_or (l ++ [a]) p = Some a.
Proof. unfold last_or. by rewrite last_snoc. Qed.
Lemma last_or_cons a l p : last_or (a :: l) p = last_or l (Some a).
Proof. unfold last_or. rewrite last_cons. by destruct (last l). Qed.
Lemma hd_or_app l k n : hd_or (l ++ k) n = hd_or l (hd_or k n).
Proof. by destruct l. Qed.
Lemma hd_or_head l : hd_or l None = head l.
Proof. by destruct l. Qed.

Lemma dseg_app m p l k n :
  dseg m p (l ++ k) n ↔ dseg m p l (hd_or k n) ∧ dseg m (last_or l p) k n.
Proof.
  revert p. induction l as [|a l IH]; intros p; simpl; [tauto|].
  rewrite IH, hd_or_app, last_or_cons. tauto.
Qed.

Lemma dseg_frame m m' p l n :
  (∀ a, a ∈ l → m' !! a = m !! a) → dseg m p l n → dseg m' p l n.
Proof.
  revert p. induction l as [|a l IH]; intros p Hm; simpl; [done|].
  intros [(x & Hx & ?) Hl]. split.
  - exists x. by rewrite Hm by (by left).
  - apply IH; [|done]. intros b Hb. apply Hm. by right.
Qed.

Lemma dseg_alter m p l n a g : a ∉ l → dseg m p l n → dseg (alter g a m) p l n.
Proof.
  intros Ha. apply dseg_frame. intros b Hb. apply lookup_alter_ne. by intros ->.
Qed.

(** The predecessor of the first node is assigned, or the successor of the
    last one. *)
Lemma dseg_set_first m p p' c l n :
  c ∉ l → dseg m p (c :: l) n → dseg (alter (set_file_previous p') c m) p' (c :: l) n.
Proof.
  intros Hc [(x & Hx & _ & Hn) Hl]. simpl. split; [|by apply dseg_alter].
  exists (set_file_previous p' x). by rewrite lookup_alter_eq, Hx.
Qed.

Lemma dseg_set_last m p l b n n' :
  b ∉ l → dseg m p (l ++ [b]) n → dseg (alter (set_file_next n') b m) p (l ++ [b]) n'.
Proof.
  rewrite !dseg_app. simpl. intros Hb (Hl & (x & Hx & Hp & _) & _).
  split_and!; [by apply dseg_alter | | done].
  exists (set_file_next n' x). by rewrite lookup_alter_eq, Hx.
Qed.

Lemma dseg_lookup m p l n a : dseg m p l n → a ∈ l → is_Some (m !! a).
Proof.
  revert p. induction l as [|b l IH]; intros p; simpl.
  - intros _ []%not_elem_of_nil.
  - intros [(x & Hx & _) Hl] [->|?]%elem_of_cons; [by rewrite Hx | by eapply IH].
Qed.

Lemma dseg_length m p l n : dseg m p l n → NoDup l → (length l ≤ size m)%nat.
Proof.
  intros Hseg Hnd. rewrite <-(size_list_to_set (C := gset Z) l) by done.
  rewrite <-size_dom. apply subseteq_size. intros a Ha%elem_of_list_to_set.
  apply elem_of_dom. by eapply dseg_lookup.
Qed.
End dseg.

(** What an insertion leaves as it was. *)
Definition same_views (m m' : gmap Z ccask_file) : Prop := file_view <$> m' = file_view <$> m.

Lemma same_views_alter m m' g a :
  (∀ x, file_view (g x) = file_view x) → same_views m m' → same_views m (alter g a m').
Proof.
  unfold same_views. intros Hg <-. apply map_eq. intros b. rewrite !lookup_fmap.
  destruct (decide (a = b)) as [->|?]; [|by rewrite lookup_alter_ne].
  rewrite lookup_alter_eq. destruct (m' !! b) as [x|]; simpl; [by rewrite Hg | done].
Qed.

Lemma same_views_id m m' a : same_views m m' → node_id m' a = node_id m a.
Proof.
  unfold same_views, node_id. intros H%(f_equal (.!! a)). rewrite !lookup_fmap in H.
  apply (f_equal (fmap file_id)) in H. rewrite <-!option_fmap_compose in H.
  by rewrite (H : file_id <$> m' !! a = file_id <$> m !! a).
Qed.

Lemma node_run p e f x : fs_nodes f !! p = Some x → node p (e, f) = Ret x (e, f).
Proof. intros Hx. unfold node, files, mbind, M_bind, gets. simpl. by rewrite Hx. Qed.

Lemma set_node_run p g e f :
  is_Some (fs_nodes f !! p) →
  set_node p g (e, f) = Ret tt (e, set_fs_nodes (alter g p (fs_nodes f)) f).
Proof.
  intros [x Hx]. unfold set_node. rewrite (bind_run _ _ _ _ _ (node_run p e f x Hx)).
  unfold modify_files, modify. simpl. do 3 f_equal. symmetry.
  apply map_eq. intros a. destruct (decide (p = a)) as [<-|?].
  - by rewrite lookup_alter_eq, lookup_insert_eq, Hx.
  - by rewrite lookup_alter_ne, lookup_insert_ne.
Qed.

(** The walk stops at the first node whose identifier is not larger. *)
Lemma list_walk_run fuel p l id e f :
  (length l < fuel)%nat → dseg (fs_nodes f) p l None →
  ∃ l1 l2, l = l1 ++ l2 ∧
    list_walk fuel (hd_or l None) id (e, f) = Ret (hd_or l2 None) (e, f) ∧
    Forall (λ a, node_id (fs_nodes f) a > id) l1 ∧
    (∀ a l2', l2 = a :: l2' → node_id (fs_nodes f) a ≤ id).
Proof.
  revert p l. induction fuel as [|fuel IH]; intros p l Hf Hl; [lia|].
  destruct l as [|c l]; [by exists [], []|].
  simpl in Hf, Hl. destruct Hl as [(x & Hx & _ & Hn) Hl].
  assert (node_id (fs_nodes f) c = file_id x) as Hid by (unfold node_id; by rewrite Hx).
  cbn [list_walk hd_or]. rewrite (bind_run _ _ _ _ _ (node_run c e f x Hx)), Hn.
  case_bool_decide as Hgt.
  - destruct (IH (Some c) l ltac:(lia) Hl) as (l1 & l2 & -> & Hrun & Hl1 & Hl2).
    exists (c :: l1), l2. split_and!; [done | done | | done].
    constructor; [lia | done].
  - exists [], (c :: l). split_and!; [done | done | done |].
    intros a l2' [= <- _]. lia.
Qed.

(** In a descending list the rest of a walk is smaller. *)
Lemma sorted_insert (g : Z → Z) l1 l2 a :
  StronglySorted Z.gt (g <$> l1 ++ l2) →
  Forall (λ b, g b > g a) l1 → Forall (λ b, g a > g b) l2 →
  StronglySorted Z.gt (g <$> l1 ++ a :: l2).
Proof.
  rewrite fmap_app, StronglySorted_app. intros (H12 & H1 & H2) Ha1 Ha2.
  rewrite fmap_app, fmap_cons, StronglySorted_app. split_and!; [|done|].
  - intros x y Hx [->|Hy]%elem_of_cons; [|by apply H12].
    apply list_elem_of_fmap in Hx as (b & -> & Hb). rewrite Forall_forall in Ha1. by apply Ha1.
  - constructor; [done|]. rewrite Forall_fmap. exact Ha2.
Qed.

Lemma sorted_rest (g : Z → Z) l1 c l2 i :
  StronglySorted Z.gt (g <$> l1 ++ c :: l2) → g c < i → Forall (λ b, i > g b) (c :: l2).
Proof.
  rewrite fmap_app, StronglySorted_app. intros (_ & _ & H) Hc.
  simpl in H. inversion H as [|? ? _ Hall]; subst.
  constructor; [lia|]. rewrite Forall_fmap in Hall.
  eapply Forall_impl; [exact Hall|]. simpl. lia.
Qed.

Lemma rep_lookup f l a : files_rep f l → a ∈ l → is_Some (fs_nodes f !! a).
Proof. intros [] ?. by eapply dseg_lookup. Qed.

(** The part of the invariant an insertion has to re-establish. *)
Lemma rep_insert f f' l1 l2 a :
  files_rep f (l1 ++ l2) → a ∉ l1 ++ l2 →
  Forall (λ b, node_id (fs_nodes f) b > node_id (fs_nodes f) a) l1 →
  Forall (λ b, node_id (fs_nodes f) a > node_id (fs_nodes f) b) l2 →
  same_views (fs_nodes f) (fs_nodes f') →
  dseg (fs_nodes f') None (l1 ++ a :: l2) None →
  fs_head f' = head (l1 ++ a :: l2) → fs_tail f' = last (l1 ++ a :: l2) →
  fs_table f' = fs_table f ++ [a] →
  files_rep f' (l1 ++ a :: l2).
Proof.
  intros [Hnd Hh Ht _ Hs Htab] Ha H1 H2 Hv Hseg Hh' Ht' Htab'. constructor; try done.
  - apply NoDup_app in Hnd as (Hn1 & Hn12 & Hn2). rewrite elem_of_app in Ha.
    apply NoDup_app. split_and!; [done | | by constructor; tauto].
    intros b Hb [->|Hb2]%elem_of_cons; [tauto | by eapply Hn12].
  - assert (∀ l, node_id (fs_nodes f') <$> l = node_id (fs_nodes f) <$> l) as ->.
    { intros l. apply list_fmap_ext. intros i b _. by apply same_views_id. }
    by apply sorted_insert.
  - rewrite Htab', Htab, <-app_assoc. apply Permutation_app_head.
    by rewrite Permutation_app_comm.
Qed.

(** [a] linked in between: the two neighbours are assigned. *)
Lemma dseg_link_middle m l1 b a c l2 x :
  NoDup (l1 ++ b :: c :: l2) → a ∉ l1 ++ b :: c :: l2 → m !! a = Some x →
  dseg m None ((l1 ++ [b]) ++ c :: l2) None →
  dseg (alter (set_file_previous (Some a)) c (alter (set_file_next (Some a)) b
         (alter (λ n, set_file_previous (Some b) (set_file_next (Some c) n)) a m)))
    None ((l1 ++ [b]) ++ a :: c :: l2) None.
Proof.
  intros Hnd Ha Hx [Hl Hr]%dseg_app. rewrite last_or_app in Hr.
  rewrite elem_of_app, !elem_of_cons in Ha.
  apply NoDup_app in Hnd as (Hn1 & Hn12 & Hn2).
  apply NoDup_cons in Hn2 as [Hb Hn2]. rewrite elem_of_cons in Hb.
  apply NoDup_cons in Hn2 as [Hc Hn2].
  assert (a ∉ l1 ∧ a ≠ b ∧ a ≠ c ∧ a ∉ l2) as (Ha1 & Hab & Hac & Ha2) by tauto.
  assert (∀ d, d ∈ l1 → d ≠ b ∧ d ≠ c ∧ d ∉ l2) as Hd.
  { intros d Hd. specialize (Hn12 d Hd). rewrite !elem_of_cons in Hn12. tauto. }
  apply dseg_app. rewrite last_or_app. split; [|split].
  - apply dseg_alter.
    { rewrite elem_of_app, list_elem_of_singleton. intros [Hin| ->]; [destruct (Hd c Hin); naive_solver | tauto]. }
    apply (dseg_set_last _ _ _ _ (Some c)); [intros Hin; destruct (Hd b Hin); naive_solver|].
    apply dseg_alter; [|done].
    rewrite elem_of_app, list_elem_of_singleton. tauto.
  - exists (set_file_previous (Some b) (set_file_next (Some c) x)).
    rewrite lookup_alter_ne, lookup_alter_ne, lookup_alter_eq, Hx by congruence. done.
  - apply (dseg_set_first _ (Some b)); [done|]. apply dseg_alter.
    { rewrite elem_of_cons. tauto. }
    apply dseg_alter; [|done]. rewrite elem_of_cons. tauto.
Qed.

Lemma dseg_link_last m l1 b a x :
  NoDup (l1 ++ [b]) → a ∉ l1 ++ [b] → m !! a = Some x →
  dseg m None (l1 ++ [b]) None →
  dseg (alter (λ n, set_file_next None (set_file_previous (Some b) n)) a
         (alter (set_file_next (Some a)) b m)) None ((l1 ++ [b]) ++ [a]) None.
Proof.
  intros Hnd Ha Hx Hl. apply dseg_app. rewrite last_or_app.
  apply NoDup_app in Hnd as (_ & Hb & _).
  assert (b ∉ l1) as Hbl by (intros Hin; apply (Hb b Hin); by left).
  assert (a ≠ b) by (intros ->; apply Ha, elem_of_app; right; by left).
  split; [|split; [|done]].
  - apply dseg_alter; [done|]. by apply (dseg_set_last _ _ _ _ None).
  - exists (set_file_next None (set_file_previous (Some b) x)).
    by rewrite lookup_alter_eq, lookup_alter_ne, Hx by done.
Qed.

Lemma dseg_link_first m c a l x :
  NoDup (c :: l) → a ∉ c :: l → m !! a = Some x →
  dseg m None (c :: l) None →
  dseg (alter (set_file_previous (Some a)) c
         (alter (λ n, set_file_previous None (set_file_next (Some c) n)) a m))
    None (a :: c :: l) None.
Proof.
  intros [Hc _]%NoDup_cons Ha Hx Hl. rewrite elem_of_cons in Ha.
  assert (a ≠ c ∧ a ∉ l) as [Hac Hal] by tauto.
  split.
  - exists (set_file_previous None (set_file_next (Some c) x)).
    by rewrite lookup_alter_ne, lookup_alter_eq, Hx by done.
  - apply (dseg_set_first _ None); [done|]. apply dseg_alter; [|done].
    rewrite elem_of_cons. tauto.
Qed.

Definition relinked (f f' : files_state) : Prop :=
  same_views (fs_nodes f) (fs_nodes f') ∧
  fs_data_dir f' = fs_data_dir f ∧ fs_max_active f' = fs_max_active f.

Lemma is_Some_alter {A} (g : A → A) (m : gmap Z A) a b :
  is_Some (m !! b) → is_Some (alter g a m !! b).
Proof.
  intros [x Hx]. destruct (decide (a = b)) as [<-|].
  - rewrite lookup_alter_eq, Hx. eauto.
  - rewrite lookup_alter_ne, Hx by done. eauto.
Qed.
#[export] Hint Resolve is_Some_alter : ccask.

Ltac solve_views := repeat first [reflexivity | apply same_views_alter; [done|]].

#[local] Arguments node : simpl never.
#[local] Arguments set_node : simpl never.
#[local] Arguments list_walk : simpl never.

(** The three places of a new node. *)
Section link.
Context (e : env) (f : files_state) (a : Z) (x : ccask_file).
Hypothesis (Hx : fs_nodes f !! a = Some x).

Lemma link_empty :
  fs_head f = None →
  add_file_to_linked_list a (e, f) = Ret tt (e, set_fs_nodes
    (alter (λ n, set_file_next None (set_file_previous None n)) a (fs_nodes f))
    (set_fs_head (Some a) (set_fs_tail (Some a) f))).
Proof.
  intros Hh. unfold add_file_to_linked_list, files, modify_files, mbind, M_bind, gets, modify.
  simpl. rewrite Hh. by rewrite set_node_run by (simpl; eauto).
Qed.

Lemma link_first c y :
  fs_head f = Some c → fs_nodes f !! c = Some y → file_id x > file_id y →
  add_file_to_linked_list a (e, f) = Ret tt (e, set_fs_head (Some a) (set_fs_nodes
    (alter (set_file_previous (Some a)) c
      (alter (λ n, set_file_previous None (set_file_next (Some c) n)) a (fs_nodes f))) f)).
Proof.
  intros Hh Hy Hgt.
  unfold add_file_to_linked_list, files, modify_files, mbind, M_bind, gets, modify.
  simpl. rewrite Hh, (node_run a _ _ _ Hx), (node_run c _ _ _ Hy).
  rewrite bool_decide_eq_true_2 by done.
  rewrite set_node_run by eauto. by rewrite set_node_run by (simpl; eauto with ccask).
Qed.

Lemma link_last c y b :
  fs_head f = Some c → fs_nodes f !! c = Some y → ¬ file_id x > file_id y →
  list_walk (1 + size (fs_nodes f)) (Some c) (file_id x) (e, f) = Ret None (e, f) →
  fs_tail f = Some b → is_Some (fs_nodes f !! b) →
  add_file_to_linked_list a (e, f) = Ret tt (e, set_fs_tail (Some a) (set_fs_nodes
    (alter (λ n, set_file_next None (set_file_previous (Some b) n)) a
      (alter (set_file_next (Some a)) b (fs_nodes f))) f)).
Proof.
  intros Hh Hy Hgt Hw Ht Hb.
  unfold add_file_to_linked_list, files, modify_files, mbind, M_bind, gets, modify.
  simpl. rewrite Hh, (node_run a _ _ _ Hx), (node_run c _ _ _ Hy).
  rewrite bool_decide_eq_false_2 by done. simpl in Hw. rewrite Hw. simpl. rewrite Ht. simpl.
  rewrite set_node_run by done. by rewrite set_node_run by (simpl; eauto with ccask).
Qed.

Lemma link_middle c y d z b :
  fs_head f = Some c → fs_nodes f !! c = Some y → ¬ file_id x > file_id y →
  list_walk (1 + size (fs_nodes f)) (Some c) (file_id x) (e, f) = Ret (Some d) (e, f) →
  fs_nodes f !! d = Some z → d ≠ a → file_previous z = Some b → is_Some (fs_nodes f !! b) →
  add_file_to_linked_list a (e, f) = Ret tt (e, set_fs_nodes
    (alter (set_file_previous (Some a)) d (alter (set_file_next (Some a)) b
      (alter (λ n, set_file_previous (Some b) (set_file_next (Some d) n)) a (fs_nodes f)))) f).
Proof.
  intros Hh Hy Hgt Hw Hz Hda Hzb Hb.
  unfold add_file_to_linked_list, files, modify_files, mbind, M_bind, gets, modify.
  simpl. rewrite Hh, (node_run a _ _ _ Hx), (node_run c _ _ _ Hy).
  rewrite bool_decide_eq_false_2 by done. simpl in Hw.
  rewrite Hw, (node_run d _ _ _ Hz), set_node_run, Hzb by eauto.
  rewrite (node_run d _ _ z) by (simpl; by rewrite lookup_alter_ne).
  rewrite Hzb, set_node_run by (simpl; eauto with ccask).
  by rewrite set_node_run by (simpl; eauto with ccask).
Qed.
End link.

(** The new node goes where the descending order wants it. *)
Lemma add_file_run e f l a x :
  files_rep f l → a ∉ l → fs_nodes f !! a = Some x → file_id x ∉ node_id (fs_nodes f) <$> l →
  ∃ l1 l2 f', l = l1 ++ l2 ∧ add_file a (e, f) = Ret tt (e, f') ∧
    files_rep f' (l1 ++ a :: l2) ∧ relinked f f'.
Proof.
  intros Hrep Ha Hx Hid. pose proof Hrep as [Hnd Hh Ht Hseg Hs _].
  assert (node_id (fs_nodes f) a = file_id x) as Hida by (unfold node_id; by rewrite Hx).
  assert (∀ l1 l2 f1, l = l1 ++ l2 → add_file_to_linked_list a (e, f) = Ret tt (e, f1) →
    Forall (λ b, node_id (fs_nodes f) b > node_id (fs_nodes f) a) l1 →
    Forall (λ b, node_id (fs_nodes f) a > node_id (fs_nodes f) b) l2 →
    dseg (fs_nodes f1) None (l1 ++ a :: l2) None →
    fs_head f1 = head (l1 ++ a :: l2) → fs_tail f1 = last (l1 ++ a :: l2) →
    fs_table f1 = fs_table f → relinked f f1 →
    ∃ l1 l2 f', l = l1 ++ l2 ∧ add_file a (e, f) = Ret tt (e, f') ∧
      files_rep f' (l1 ++ a :: l2) ∧ relinked f f') as Hdone.
  { intros l1 l2 f1 -> Hrun H1 H2 Hseg1 Hh1 Htl1 Ht1 Hv.
    exists l1, l2, (set_fs_table (fs_table f1 ++ [a]) f1). split_and!; [done | | | done].
    - unfold add_file. by rewrite (bind_run _ _ _ _ _ Hrun).
    - eapply rep_insert; try done; [apply Hv | by rewrite <-Ht1]. }
  destruct l as [|c l].
  { eapply (Hdone [] []); [done | by eapply link_empty | ..]; simpl; try done.
    - split; [|done]. rewrite lookup_alter_eq, Hx. simpl. eauto.
    - split_and!; [solve_views | done | done]. }
  destruct (rep_lookup f (c :: l) c Hrep ltac:(by left)) as [y Hy].
  assert (node_id (fs_nodes f) c = file_id y) as Hidc by (unfold node_id; by rewrite Hy).
  destruct (decide (file_id x > file_id y)) as [Hgt|Hgt].
  { eapply (Hdone [] (c :: l)); [done | by eapply link_first | ..]; simpl; try done.
    - apply (sorted_rest _ []); [done | lia].
    - by eapply (dseg_link_first _ _ _ _ _ Hnd Ha Hx).
    - split_and!; [solve_views | done | done]. }
  destruct (list_walk_run (1 + size (fs_nodes f)) None (c :: l) (file_id x) e f)
    as (l1 & l2 & Hl & Hw & Hl1 & Hl2); [|done|].
  { pose proof (dseg_length _ _ _ _ Hseg Hnd). lia. }
  cbn [hd_or] in Hw. rewrite <-Hida in Hl1, Hl2.
  assert (∃ l0 b, l1 = l0 ++ [b]) as (l0 & b & ->).
  { destruct l1 as [|? l1 _] using rev_ind; [|eauto].
    exfalso. simpl in Hl. subst l2. specialize (Hl2 c l eq_refl).
    apply Hid. rewrite fmap_cons, elem_of_cons. left. lia. }
  clear Hidc. rewrite Hl in *.
  assert (fs_head f = Some c) as Hhc by (rewrite Hh, <-Hl; done).
  assert (is_Some (fs_nodes f !! b)) as Hb.
  { eapply rep_lookup; [done|]. rewrite !elem_of_app. left. right. by left. }
  destruct l2 as [|d l2].
  - rewrite app_nil_r in *. cbn [hd_or] in Hw.
    eapply (Hdone (l0 ++ [b]) []); [by rewrite app_nil_r | | done | done | ..]; simpl.
    + eapply (link_last e f a x Hx c y b); try done. by rewrite Ht, last_snoc.
    + by eapply (dseg_link_last _ _ _ _ _ Hnd Ha Hx).
    + simpl. rewrite Hh. by destruct l0.
    + simpl. by rewrite last_snoc.
    + done.
    + split_and!; [solve_views | done | done].
  - destruct (proj1 (dseg_app _ _ _ _ _) Hseg) as [_ [(z & Hz & Hzp & _) _]].
    rewrite last_or_app in Hzp.
    assert (d ≠ a) by (intros ->; apply Ha; rewrite elem_of_app; right; by left).
    assert (node_id (fs_nodes f) d < node_id (fs_nodes f) a) as Hlt.
    { specialize (Hl2 d l2 eq_refl). apply Z.le_lteq in Hl2 as [?|Heq]; [lia|].
      exfalso. apply Hid. rewrite <-Hida, <-Heq. apply list_elem_of_fmap_2.
      rewrite elem_of_app. right. by left. }
    eapply (Hdone (l0 ++ [b]) (d :: l2)); [done | by eapply link_middle | done | ..]; simpl.
    + by apply (sorted_rest _ (l0 ++ [b])).
    + rewrite <-app_assoc in Hnd, Ha. by eapply (dseg_link_middle _ _ _ _ _ _ _ Hnd Ha Hx).
    + simpl. rewrite Hh. by destruct l0.
    + simpl. rewrite Ht, !last_app. simpl. by destruct (last l2).
    + done.
    + split_and!; [solve_views | done | done].
Qed.

(** A node with the largest identifier becomes the head; only its link and the
    one of the former head change. *)
Definition linked_newest (a p : Z) (x y : ccask_file) (f : files_state) : files_state :=
  FilesState (fs_data_dir f) (fs_table f ++ [a]) (Some a) (fs_tail f) (fs_max_active f)
    (<[p := set_file_previous (Some a) x]>
      (<[a := set_file_previous None (set_file_next (Some p) y)]> (fs_nodes f))).

Lemma add_file_newest e f l a p x y :
  files_rep f (p :: l) → a ∉ p :: l → fs_nodes f !! p = Some x → fs_nodes f !! a = Some y →
  file_id x < file_id y →
  add_file a (e, f) = Ret tt (e, linked_newest a p x y f) ∧
  files_rep (linked_newest a p x y f) (a :: p :: l).
Proof.
  intros Hrep Ha Hx Hy Hlt. pose proof Hrep as [Hnd Hh Ht Hseg Hs _].
  assert (a ≠ p) as Hap by (intros ->; apply Ha; by left).
  set (f1 := set_fs_head (Some a) (set_fs_nodes (alter (set_file_previous (Some a)) p
    (alter (λ n, set_file_previous None (set_file_next (Some p) n)) a (fs_nodes f))) f)).
  assert (linked_newest a p x y f = set_fs_table (fs_table f1 ++ [a]) f1) as ->.
  { unfold linked_newest, f1, set_fs_table, set_fs_head, set_fs_nodes. simpl. f_equal. apply map_eq. intros b.
    destruct (decide (b = p)) as [->|]; [|destruct (decide (b = a)) as [->|]].
    - by rewrite lookup_insert_eq, lookup_alter_eq, lookup_alter_ne, Hx by done.
    - by rewrite lookup_insert_ne, lookup_insert_eq, lookup_alter_ne, lookup_alter_eq, Hy by done.
    - by rewrite !lookup_insert_ne, !lookup_alter_ne by done. }
  split.
  - unfold add_file. by rewrite (bind_run _ _ _ _ _ (link_first e f a y Hy p x Hh Hx ltac:(lia))).
  - apply (rep_insert f _ [] (p :: l)); try done; simpl.
    + apply (sorted_rest _ [] p l _ Hs). unfold node_id. rewrite Hx, Hy. done.
    + solve_views.
    + by eapply (dseg_link_first _ _ _ _ _ Hnd Ha Hy).
Qed.

(** ** Looking nodes up, and changing fields that are not links *)

Lemma get_file_run e f l p x :
  files_rep f l → p ∈ l → fs_nodes f !! p = Some x →
  ccask_files_get_file (file_id x) (e, f) = Ret (Some p) (e, f).
Proof.
  intros [_ _ _ Hseg Hs Ht] Hp Hx.
  unfold ccask_files_get_file, files, mbind, M_bind, gets, mret, M_ret. simpl. f_equal.
  destruct (hash_find _ (Some (file_id x)) (fs_table f)) as [q|] eqn:Hf.
  - apply hash_find_Some in Hf as [Hq Hid]. rewrite Ht in Hq. f_equal.
    destruct (fs_nodes f !! q) as [y|] eqn:Hy; simpl in Hid; [|done].
    apply list_elem_of_lookup in Hp as [i Hi]. apply list_elem_of_lookup in Hq as [j Hj].
    destruct (decide (i = j)) as [->|Hij]; [congruence|]. exfalso.
    assert (∀ i j p q, (i < j)%nat → l !! i = Some p → l !! j = Some q →
      node_id (fs_nodes f) p > node_id (fs_nodes f) q) as Hlt.
    { clear -Hs. intros i j p q Hij Hi Hj.
      rewrite <-(take_drop j l), fmap_app, StronglySorted_app in Hs.
      destruct Hs as (H & _ & _). apply H.
      - apply list_elem_of_fmap_2, list_elem_of_lookup. exists i. by rewrite lookup_take_lt.
      - apply list_elem_of_fmap_2, list_elem_of_lookup. exists 0%nat.
        by rewrite lookup_drop, Nat.add_0_r. }
    assert (node_id (fs_nodes f) p = node_id (fs_nodes f) q) as Heq.
    { unfold node_id. rewrite Hx, Hy. simpl. congruence. }
    destruct (decide (i < j)%nat).
    + specialize (Hlt i j p q ltac:(lia) Hi Hj). lia.
    + specialize (Hlt j i q p ltac:(lia) Hj Hi). lia.
  - rewrite hash_find_None in Hf. exfalso. apply (Hf p); [by rewrite Ht|]. by rewrite Hx.
Qed.

Definition keeps_links (g : ccask_file → ccask_file) : Prop := ∀ x,
  file_id (g x) = file_id x ∧ file_next (g x) = file_next x ∧
  file_previous (g x) = file_previous x.

Lemma node_id_alter m g p a :
  (∀ x, file_id (g x) = file_id x) → node_id (alter g p m) a = node_id m a.
Proof.
  intros Hg. unfold node_id. destruct (decide (p = a)) as [->|].
  - rewrite lookup_alter_eq. destruct (m !! a); simpl; [by rewrite Hg | done].
  - by rewrite lookup_alter_ne.
Qed.

Lemma dseg_keep m p l n q g :
  keeps_links g → dseg m p l n → dseg (alter g q m) p l n.
Proof.
  intros Hg. revert p. induction l as [|a l IH]; intros p; simpl; [done|].
  intros [(x & Hx & Hp & Hn) Hl]. split; [|by apply IH].
  destruct (decide (q = a)) as [->|].
  - exists (g x). rewrite lookup_alter_eq, Hx. destruct (Hg x) as (_ & -> & ->). done.
  - exists x. by rewrite lookup_alter_ne.
Qed.

Lemma rep_alter f l p g :
  keeps_links g → files_rep f l → files_rep (set_fs_nodes (alter g p (fs_nodes f)) f) l.
Proof.
  intros Hg [? ? ? ? Hs ?]. constructor; try done; simpl.
  - by apply dseg_keep.
  - erewrite list_fmap_ext; [exact Hs|]. intros i a _. apply node_id_alter. apply Hg.
Qed.

(** An operation on a free lock and the release after it. *)
Lemma node_lock_run op p e f x k :
  fs_nodes f !! p = Some x → op (file_rwlock x) (e, f) = Ret k (e, f) →
  node_lock op p (e, f) =
  Ret tt (e, set_fs_nodes (alter (set_file_rwlock k) p (fs_nodes f)) f).
Proof.
  intros Hx Hop. unfold node_lock. rewrite (bind_run _ _ _ _ _ (node_run p e f x Hx)).
  rewrite (bind_run _ _ _ _ _ Hop). apply set_node_run. eauto.
Qed.

(** The state with one node replaced. *)
Definition put_node (p : Z) (x : ccask_file) (f : files_state) : files_state :=
  set_fs_nodes (<[p := x]> (fs_nodes f)) f.

Lemma put_node_twice p x y f : put_node p x (put_node p y f) = put_node p x f.
Proof. unfold put_node, set_fs_nodes. simpl. by rewrite insert_insert_eq. Qed.
Lemma put_node_lookup p x f : fs_nodes (put_node p x f) !! p = Some x.
Proof. apply lookup_insert_eq. Qed.
Lemma put_node_id p x f : fs_nodes f !! p = Some x → put_node p x f = f.
Proof. intros. unfold put_node, set_fs_nodes. rewrite insert_id by done. by destruct f. Qed.

Lemma set_node_put p g e f x :
  fs_nodes f !! p = Some x → set_node p g (e, f) = Ret tt (e, put_node p (g x) f).
Proof.
  intros Hx. unfold set_node. by rewrite (bind_run _ _ _ _ _ (node_run p e f x Hx)).
Qed.

Lemma node_lock_put op p e f x k :
  fs_nodes f !! p = Some x → op (file_rwlock x) (e, f) = Ret k (e, f) →
  node_lock op p (e, f) = Ret tt (e, put_node p (set_file_rwlock k x) f).
Proof.
  intros Hx Hop. unfold node_lock. rewrite (bind_run _ _ _ _ _ (node_run p e f x Hx)).
  rewrite (bind_run _ _ _ _ _ Hop). by apply set_node_put.
Qed.

Lemma rep_put f l p x y :
  files_rep f l → fs_nodes f !! p = Some x → file_id y = file_id x →
  file_next y = file_next x → file_previous y = file_previous x → files_rep (put_node p y f) l.
Proof.
  intros Hrep Hx H1 H2 H3.
  assert (put_node p y f = set_fs_nodes (alter (λ z, CFile (file_id z) (file_fd y)
    (file_last_accessed y) (file_has_hint y) (file_is_active y)
    (file_is_fd_invalidator_running y) (file_rwlock y) (file_next z) (file_previous z)) p
      (fs_nodes f)) f) as ->.
  { unfold put_node. f_equal. apply map_eq. intros a. destruct (decide (p = a)) as [<-|].
    - rewrite lookup_insert_eq, lookup_alter_eq, Hx. simpl.
      rewrite <-H1, <-H2, <-H3. by destruct y.
    - by rewrite lookup_insert_ne, lookup_alter_ne. }
  by apply rep_alter.
Qed.
