(* ===== verification/Disk.v ===== *)
(** * Disk: the data files of a running store

    What holds between two calls of the list of files, the descriptors and the
    directory together, and the facts about [files.c] that follow from it. *)
From stdpp Require Import sorting.
From S2P Require Import Prelude Status Posix SafeIO Codec Records Uthash Filenames Files.
Open Scope Z_scope.

(** Descriptors and files have numbers below the next ones. *)
Record kernel_wf (k : kernel) : Prop := {
  kw_fds : ∀ fd, is_Some (k_fds k !! fd) → 0 ≤ fd < k_next_fd k;
  kw_next : 0 ≤ k_next_fd k;
  kw_inodes : ∀ p ino, k_dir k !! p = Some ino → ino < k_next_ino k ∧ is_Some (k_inodes k !! ino);
}.

(** The file that holds the data of [id], and what is in it. *)
Definition data_ino (s : fstate) (id : Z) : option Z :=
  d ← fs_data_dir s.2; k_dir (e_kernel s.1) !! filepath d.2 id ".data".
Definition data_content (s : fstate) (id : Z) : option bytes :=
  ino ← data_ino s id; inodes s.1 !! ino.

Definition node_ok (s : fstate) (x : ccask_file) : Prop :=
  file_rwlock x = rwlock_new ∧ is_u64 (file_id x) ∧
  ∃ ino, data_ino s (file_id x) = Some ino ∧
    (0 ≤ file_fd x → ∃ app wr, fd_opened s.1 (file_fd x) ino app wr).

(** The active file is open for appending. *)
Definition active_ok (s : fstate) (x : ccask_file) : Prop :=
  file_is_active x = true ∧ 0 ≤ file_fd x ∧
  ∃ ino, data_ino s (file_id x) = Some ino ∧ fd_opened s.1 (file_fd x) ino true true.

Record disk_ok (s : fstate) (l : list Z) : Prop := {
  do_rep : files_rep s.2 l;
  do_dir : ∃ a dir, fs_data_dir s.2 = Some (a, dir) ∧ dir ≠ EmptyString;
  do_kernel : kernel_wf (e_kernel s.1);
  do_nodes : ∀ p x, p ∈ l → fs_nodes s.2 !! p = Some x → node_ok s x;
  do_active : ∃ p x, head l = Some p ∧ fs_nodes s.2 !! p = Some x ∧ active_ok s x;
}.

(** ** Changes of the environment that keep all this *)

(** The directory is the same, no descriptor and no file is gone. *)
Definition kernel_ext (k k' : kernel) : Prop :=
  k_dir k' = k_dir k ∧ fd_view (k_fds k) ⊆ fd_view (k_fds k') ∧
  dom (k_inodes k) ⊆ dom (k_inodes k') ∧ k_next_ino k ≤ k_next_ino k'.

Lemma kernel_ext_refl k : kernel_ext k k.
Proof. split_and!; done || lia. Qed.

Lemma kernel_ext_trans k1 k2 k3 : kernel_ext k1 k2 → kernel_ext k2 k3 → kernel_ext k1 k3.
Proof.
  intros (H1 & H2 & H3 & H4) (H5 & H6 & H7 & H8).
  split_and!; [congruence | by etrans | set_solver | lia].
Qed.

Lemma kernel_ext_fds k k' fd :
  kernel_ext k k' → is_Some (k_fds k !! fd) → is_Some (k_fds k' !! fd).
Proof.
  intros (_ & Hfd & _) [x Hx].
  assert (fd_view (k_fds k') !! fd = Some (fd_inode x, fd_append x, fd_write x)) as H.
  { eapply lookup_weaken; [|exact Hfd]. unfold fd_view. by rewrite lookup_fmap, Hx. }
  unfold fd_view in H. rewrite lookup_fmap in H. destruct (k_fds k' !! fd); [by eexists|done].
Qed.

Lemma data_ino_ext e e' f id :
  kernel_ext (e_kernel e) (e_kernel e') → data_ino (e', f) id = data_ino (e, f) id.
Proof. intros (H & _). unfold data_ino. simpl. by rewrite H. Qed.

Lemma fd_opened_ext e e' fd ino app wr :
  kernel_ext (e_kernel e) (e_kernel e') → fd_opened e fd ino app wr → fd_opened e' fd ino app wr.
Proof. intros (_ & H & _) Hfd. unfold fd_opened in *. by eapply lookup_weaken. Qed.

Lemma node_ok_ext e e' f x :
  kernel_ext (e_kernel e) (e_kernel e') → node_ok (e, f) x → node_ok (e', f) x.
Proof.
  intros He (H1 & H2 & ino & H3 & H4). split_and!; [done..|]. exists ino.
  rewrite (data_ino_ext _ _ _ _ He). split; [done|]. intros (app & wr & H)%H4.
  exists app, wr. by eapply fd_opened_ext.
Qed.

Lemma active_ok_ext e e' f x :
  kernel_ext (e_kernel e) (e_kernel e') → active_ok (e, f) x → active_ok (e', f) x.
Proof.
  intros He (H1 & H2 & ino & H3 & H4). split_and!; [done..|]. exists ino.
  rewrite (data_ino_ext _ _ _ _ He). split; [done|]. by eapply fd_opened_ext.
Qed.

Lemma disk_ok_env e e' f l :
  kernel_ext (e_kernel e) (e_kernel e') → kernel_wf (e_kernel e') →
  disk_ok (e, f) l → disk_ok (e', f) l.
Proof.
  intros He Hk [H1 H2 _ H4 (p & x & H5 & H6 & H7)]. constructor; [done | done | done | |].
  - intros q y Hq Hy. eapply node_ok_ext; [done|]. by eapply H4.
  - exists p, x. split_and!; [done..|]. by eapply active_ok_ext.
Qed.

(** An input or output call is such a change. *)
Lemma io_frame_ext e e' h m :
  io_frame e e' h m → dom m = dom (inodes e) →
  kernel_ext (e_kernel e) (e_kernel e') ∧
  (kernel_wf (e_kernel e) → kernel_wf (e_kernel e')).
Proof.
  intros (fds & evs & x & Hfd & _ & ->) Hm. split.
  { split_and!; simpl; [done | by rewrite Hfd | by rewrite Hm | lia]. }
  assert (dom fds = dom (k_fds (e_kernel e))) as Hdom.
  { apply (f_equal dom) in Hfd. unfold fd_view in Hfd. by rewrite !dom_fmap_L in Hfd. }
  intros [H1 H2 H3]. constructor; simpl; [|done|].
  - intros fd Hfd'. apply H1. rewrite <-elem_of_dom, <-Hdom. by apply elem_of_dom.
  - intros p ino Hp. destruct (H3 p ino Hp) as [? Hi]. split; [done|].
    rewrite <-elem_of_dom, Hm. by apply elem_of_dom.
Qed.

(** ** Replacing a node *)

Lemma node_ok_files e f f' x :
  fs_data_dir f' = fs_data_dir f → node_ok (e, f) x → node_ok (e, f') x.
Proof.
  intros Hd (H1 & H2 & ino & H3 & H4). split_and!; [done..|]. exists ino.
  split; [|done]. unfold data_ino in *. simpl in *. by rewrite Hd.
Qed.

Lemma active_ok_files e f f' x :
  fs_data_dir f' = fs_data_dir f → active_ok (e, f) x → active_ok (e, f') x.
Proof.
  intros Hd (H1 & H2 & ino & H3 & H4). split_and!; [done..|]. exists ino.
  split; [|done]. unfold data_ino in *. simpl in *. by rewrite Hd.
Qed.

Lemma disk_ok_put e f l p x y :
  disk_ok (e, f) l → fs_nodes f !! p = Some x →
  file_id y = file_id x → file_next y = file_next x → file_previous y = file_previous x →
  node_ok (e, f) y → (active_ok (e, f) x → active_ok (e, f) y) →
  disk_ok (e, put_node p y f) l.
Proof.
  intros [H1 H2 H3 H4 (q & z & H5 & H6 & H7)] Hx Hi Hn Hp Hy Ha. constructor; try done.
  - by eapply rep_put.
  - intros q' z' Hq'. simpl. rewrite lookup_insert. case_decide as Hpq.
    + intros [= <-]. by eapply node_ok_files.
    + intros Hz'. eapply node_ok_files; [done|]. by eapply H4.
  - simpl. simpl in H6. destruct (decide (p = q)) as [<-|Hpq].
    + assert (z = x) as -> by congruence. exists p, y. rewrite lookup_insert_eq.
      split_and!; [done | done |]. eapply active_ok_files; [done | by apply Ha].
    + exists q, z. rewrite lookup_insert_ne by done. split_and!; [done | done |].
      by eapply active_ok_files.
Qed.

(** What changes when a call to the system is made: heap, contents of files,
    positions and events; the rest of the environment stays. *)
Record env_step (e e' : env) (h m : gmap Z bytes) : Prop := {
  es_heap : e_heap e' = h;
  es_inodes : inodes e' = m;
  es_brk : e_brk e' = e_brk e;
  es_malloc : e_malloc e' = e_malloc e;
  es_ext : kernel_ext (e_kernel e) (e_kernel e');
  es_wf : kernel_wf (e_kernel e) → kernel_wf (e_kernel e');
  es_events : events e' `suffix_of` events e;
}.

Lemma io_frame_step e e' h m :
  io_frame e e' h m → dom m = dom (inodes e) → env_step e e' h m.
Proof.
  intros Hf Hm. destruct (io_frame_ext _ _ _ _ Hf Hm) as [Hext Hwf].
  pose proof (io_frame_events _ _ _ _ Hf).
  destruct Hf as (fds & evs & x & _ & _ & ->). by constructor.
Qed.

Lemma env_step_trans e e1 e2 h1 m1 h2 m2 :
  env_step e e1 h1 m1 → env_step e1 e2 h2 m2 → env_step e e2 h2 m2.
Proof.
  intros [] []. constructor; try done; [congruence | congruence | by eapply kernel_ext_trans
    | auto | by etrans].
Qed.

Lemma disk_ok_step e e' f l h m : env_step e e' h m → disk_ok (e, f) l → disk_ok (e', f) l.
Proof. intros [] Hd. eapply disk_ok_env; [done | | done]. pose proof (do_kernel _ _ Hd). auto. Qed.

Lemma time_step e :
  ∃ t e', time e = Ret t e' ∧ env_step e e' (e_heap e) (inodes e).
Proof.
  eexists _, _. split; [reflexivity|]. constructor; try done.
  intros [H1 H2 H3]. by constructor.
Qed.

Lemma lseek_end_ok e fd ino app wr content :
  fd_opened e fd ino app wr → inodes e !! ino = Some content →
  (∀ x, head (events e) ≠ Some (EvErr x)) →
  ∃ e', lseek_end fd e = Ret (zlen content) e' ∧ io_frame e e' (e_heap e) (inodes e).
Proof.
  intros [pos Hfd]%fd_opened_lookup Hino Hev. unfold lseek_end, mbind, M_bind, next_event. simpl.
  assert (∃ ev, default EvOk (head (events e)) = ev ∧ ∀ x, ev ≠ EvErr x) as (ev & Hh & Hne).
  { eexists. split; [done|]. intros x Hx. destruct (head (events e)) eqn:Hl; [|done].
    simpl in Hx. subst. by apply (Hev x). }
  unfold events in Hh. rewrite Hh. simpl. rewrite Hfd. simpl.
  assert (default [] (k_inodes (e_kernel e) !! ino) = content) as Hc.
  { unfold inodes in Hino. by rewrite Hino. }
  destruct ev as [|n|x]; [| |by destruct (Hne x)].
  all: eexists; split; [unfold file_content; simpl; rewrite Hc; reflexivity|].
  all: eexists _, (tail (events e)), (e_errno e); split_and!;
    [by eapply fd_view_insert | apply tail_suffix | reflexivity].
Qed.

(** ** Calls that succeed

    [calm e]: no system call fails, not even with [EINTR], and no allocation;
    transfers may still be cut short. *)

Definition no_error (ev : event) : bool := match ev with EvErr _ => false | _ => true end.

Record calm (e : env) : Prop := {
  calm_events : Forall no_error (events e);
  calm_malloc : Forall (λ b, b = true) (e_malloc e);
}.

Lemma calm_benign e : calm e → Forall benign (events e).
Proof. intros [H _]. eapply Forall_impl; [exact H|]. by intros []. Qed.

Lemma calm_mallocs n e : calm e → mallocs_ok n e.
Proof. intros [_ H]. by apply Forall_take. Qed.

Lemma calm_head e : calm e → ∀ x, head (events e) ≠ Some (EvErr x).
Proof. intros [H _] x Hx. destruct (events e); inversion H; simplify_eq/=. done. Qed.

Lemma calm_malloc_head e : calm e → default true (head (e_malloc e)) = true.
Proof. intros [_ H]. destruct (e_malloc e); inversion H; by simplify_eq/=. Qed.

Lemma Forall_suffix {A} (P : A → Prop) l k : l `suffix_of` k → Forall P k → Forall P l.
Proof. intros [p ->]. rewrite Forall_app. naive_solver. Qed.

(** Blocks may have been added, nothing else of the memory has changed. *)
Record env_grow (e e' : env) : Prop := {
  eg_heap : e_heap e ⊆ e_heap e';
  eg_fresh : ∀ a, is_Some (e_heap e' !! a) → is_Some (e_heap e !! a) ∨ e_brk e ≤ a < e_brk e';
  eg_inodes : inodes e' = inodes e;
  eg_brk : e_brk e ≤ e_brk e';
  eg_malloc : e_malloc e' `suffix_of` e_malloc e;
  eg_ext : kernel_ext (e_kernel e) (e_kernel e');
  eg_wf : kernel_wf (e_kernel e) → kernel_wf (e_kernel e');
  eg_events : events e' `suffix_of` events e;
}.

Lemma env_grow_refl e : env_grow e e.
Proof. constructor; try done. by left. Qed.

Lemma env_grow_trans e1 e2 e3 : env_grow e1 e2 → env_grow e2 e3 → env_grow e1 e3.
Proof.
  intros [] []. constructor; try (by etrans); [ | by eapply kernel_ext_trans | auto].
  intros a [Ha|?]%eg_fresh1; [apply eg_fresh0 in Ha as [?|?]; [by left|]|]; right; lia.
Qed.

Lemma env_grow_calm e e' : env_grow e e' → calm e → calm e'.
Proof. intros [] []. constructor; by eapply Forall_suffix. Qed.

Lemma env_grow_heap_wf e e' : env_grow e e' → heap_wf e → heap_wf e'.
Proof. intros [] H a [Ha|?]%eg_fresh0; [apply H in Ha|]; lia. Qed.

Lemma disk_ok_grow e e' f l : env_grow e e' → disk_ok (e, f) l → disk_ok (e', f) l.
Proof. intros [] Hd. eapply disk_ok_env; [done | | done]. pose proof (do_kernel _ _ Hd). auto. Qed.

Lemma put_block_grow e d : heap_wf e → env_grow e (put_block d e).
Proof.
  intros Hwf. constructor; simpl; try done; [ | | lia | apply tail_suffix].
  - apply insert_subseteq. by apply heap_wf_fresh.
  - intros a. rewrite lookup_insert. case_decide; [intros _; right; lia | by left].
Qed.

Lemma three_blocks_grow d0 d1 d2 e : heap_wf e → env_grow e (three_blocks d0 d1 d2 e).
Proof.
  intros Hwf. unfold three_blocks.
  repeat (eapply env_grow_trans; [|apply put_block_grow; eauto with ccask]).
  apply env_grow_refl.
Qed.

Lemma env_step_grow e e' : env_step e e' (e_heap e) (inodes e) → env_grow e e'.
Proof. intros [Hh ? Hb Hm]. constructor; rewrite ?Hh, ?Hb, ?Hm; try done. by left. Qed.

(** A step that only fills blocks that are new. *)
Lemma env_grow_step e e1 e2 h :
  env_grow e e1 → env_step e1 e2 h (inodes e1) → dom h = dom (e_heap e1) →
  (∀ a, is_Some (e_heap e !! a) → h !! a = e_heap e1 !! a) → env_grow e e2.
Proof.
  intros [] [] Hdom Hh. constructor.
  - rewrite es_heap0. apply map_subseteq_spec. intros a blk Ha. rewrite Hh by eauto.
    by eapply lookup_weaken.
  - intros a. rewrite es_heap0, <-elem_of_dom, Hdom, elem_of_dom, es_brk0. apply eg_fresh0.
  - congruence.
  - lia.
  - by rewrite es_malloc0.
  - by eapply kernel_ext_trans.
  - auto.
  - by etrans.
Qed.

(** Closing a descriptor that was opened meanwhile. *)
Lemma close_grow e e1 fd :
  env_grow e e1 → k_fds (e_kernel e) !! fd = None →
  ∃ e2, sys_close fd e1 = Ret tt e2 ∧ env_grow e e2 ∧ e_heap e2 = e_heap e1 ∧
    e_brk e2 = e_brk e1.
Proof.
  intros [] Hfd. eexists. split; [reflexivity|]. split; [|done]. constructor; simpl; try done.
  - destruct eg_ext0 as (H1 & H2 & H3 & H4). split_and!; simpl; [done | | done | done].
    unfold fd_view in *. rewrite fmap_delete. apply map_subseteq_spec. intros fd' x Hx.
    rewrite lookup_delete_ne; [by eapply lookup_weaken|]. intros <-.
    by rewrite lookup_fmap, Hfd in Hx.
  - intros Hwf. destruct (eg_wf0 Hwf) as [H1 H2 H3]. constructor; simpl; [|done|done].
    intros fd'. rewrite lookup_delete. case_decide; [by intros []|]. apply H1.
Qed.

(** Opening a file that exists. *)
Lemma sys_open_grow e path fl ino :
  k_dir (e_kernel e) !! path = Some ino → kernel_wf (e_kernel e) → calm e →
  ∃ e', sys_open path fl e = Ret (inl (k_next_fd (e_kernel e))) e' ∧ env_grow e e' ∧
    fd_opened e' (k_next_fd (e_kernel e)) ino (o_append fl) (o_rdwr fl).
Proof.
  intros Hp [Hfds Hn Hi] Hcalm. pose proof (calm_head e Hcalm) as Hh.
  assert (∃ ev, default EvOk (head (events e)) = ev ∧ ∀ x, ev ≠ EvErr x) as (ev & Hev & Hne).
  { eexists. split; [done|]. intros x Hx. destruct (head (events e)) eqn:Hl; [|done].
    simpl in Hx. subst. by apply (Hh x). }
  unfold sys_open, mbind, M_bind, next_event. simpl. unfold events in Hev. rewrite Hev. simpl.
  destruct ev as [|n|x]; [| |by destruct (Hne x)]; rewrite Hp; simpl.
  all: eexists; split; [reflexivity|]; split; [|by unfold fd_opened, fd_view; simpl;
    rewrite lookup_fmap, lookup_insert_eq].
  all: constructor; simpl; try done; [by left | | | apply tail_suffix].
  1, 3: split_and!; simpl; try done; unfold fd_view; rewrite fmap_insert;
    apply insert_subseteq; rewrite lookup_fmap, fmap_None;
    apply eq_None_not_Some; intros Hin%Hfds; lia.
  all: intros _; constructor; simpl; try done; [|lia].
  all: intros fd; rewrite lookup_insert; case_decide; [lia|]; intros Hin%Hfds; lia.
Qed.

Lemma data_path_ok e f id ext s a dir :
  fs_data_dir f = Some (a, dir) → dir ≠ EmptyString → ext_string ext = Some s →
  calm e → heap_wf e →
  ∃ e', data_path id ext (e, f) = Ret (Some (filepath dir id s)) (e', f) ∧ env_grow e e' ∧
    e_kernel e' = e_kernel e.
Proof.
  intros Hd Hdir Hs Hc Hwf.
  destruct (build_filepath_run dir id ext e s Hs Hdir (calm_malloc_head e Hc)) as [total Hrun].
  exists (put_block (zeros total) e). split; [|by split; [apply put_block_grow|]].
  unfold data_path, files, mbind, M_bind, gets. simpl. rewrite Hd. simpl.
  by apply (zoom_fst (build_filepath dir id ext)).
Qed.

(** Opening a file of the directory that is there: the new descriptor. *)
Lemma open_existing_ok e f a dir id ext s fl ino :
  fs_data_dir f = Some (a, dir) → dir ≠ EmptyString → ext_string ext = Some s →
  kernel_wf (e_kernel e) → k_dir (e_kernel e) !! filepath dir id s = Some ino →
  calm e → heap_wf e →
  ∃ e1 e', data_path id ext (e, f) = Ret (Some (filepath dir id s)) (e1, f) ∧
    sys_open (filepath dir id s) fl e1 = Ret (inl (k_next_fd (e_kernel e))) e' ∧
    env_grow e e' ∧ fd_opened e' (k_next_fd (e_kernel e)) ino (o_append fl) (o_rdwr fl).
Proof.
  intros Hd Hdir Hs Hk Hino Hc Hwf.
  destruct (data_path_ok e f id ext s a dir) as (e1 & Hp & Hg1 & Hk1); [done..|].
  destruct (sys_open_grow e1 (filepath dir id s) fl ino)
    as (e2 & Ho & Hg2 & Hfd); [by rewrite Hk1 | by rewrite Hk1 | by eapply env_grow_calm |].
  rewrite Hk1 in *. exists e1, e2. split_and!; try done. by eapply env_grow_trans.
Qed.

Lemma get_datafile_fd_ok e f a dir id ino :
  fs_data_dir f = Some (a, dir) → dir ≠ EmptyString → kernel_wf (e_kernel e) →
  data_ino (e, f) id = Some ino → calm e → heap_wf e →
  ∃ e', let fd := k_next_fd (e_kernel e) in
    CCASK_ATTEMPT 5 (ccask_files_get_datafile_fd id) (e, f) = Ret fd (e', f) ∧
    0 ≤ fd ∧ env_grow e e' ∧ fd_opened e' fd ino false false.
Proof.
  intros Hd Hdir Hk Hino Hc Hwf. pose proof (kw_next _ Hk).
  unfold data_ino in Hino. simpl in Hino. rewrite Hd in Hino. simpl in Hino.
  destruct (open_existing_ok e f a dir id FILE_DATA ".data" DATAFILE_OPEN_FLAGS ino)
    as (e1 & e2 & Hp & Ho & Hg & Hfd); [done..|].
  exists e2. split_and!; [|done..]. eapply attempt_once.
  - unfold ccask_files_get_datafile_fd. erewrite bind_run by exact Hp.
    by erewrite bind_run by exact (zoom_fst (open_path (Some _) _) _ _ _ _ Ho).
  - apply bool_decide_eq_false. simpl. lia.
Qed.

(** The hint file of [id], and what is in it. *)
Definition hint_ino (s : fstate) (id : Z) : option Z :=
  d ← fs_data_dir s.2; k_dir (e_kernel s.1) !! filepath d.2 id ".hint".
Definition hint_content (s : fstate) (id : Z) : option bytes :=
  ino ← hint_ino s id; inodes s.1 !! ino.

Lemma get_hintfile_fd_ok e f a dir id ino :
  fs_data_dir f = Some (a, dir) → dir ≠ EmptyString → kernel_wf (e_kernel e) →
  hint_ino (e, f) id = Some ino → calm e → heap_wf e →
  ∃ e', let fd := k_next_fd (e_kernel e) in
    CCASK_ATTEMPT 5 (ccask_files_get_hintfile_fd id) (e, f) = Ret fd (e', f) ∧
    0 ≤ fd ∧ env_grow e e' ∧ fd_opened e' fd ino true true.
Proof.
  intros Hd Hdir Hk Hino Hc Hwf. pose proof (kw_next _ Hk).
  unfold hint_ino in Hino. simpl in Hino. rewrite Hd in Hino. simpl in Hino.
  destruct (open_existing_ok e f a dir id FILE_HINT ".hint" HINTFILE_OPEN_FLAGS ino)
    as (e1 & e2 & Hp & Ho & Hg & Hfd); [done..|].
  exists e2. split_and!; [|done..]. eapply attempt_once.
  - unfold ccask_files_get_hintfile_fd. erewrite bind_run by exact Hp.
    by erewrite bind_run by exact (zoom_fst (open_path (Some _) _) _ _ _ _ Ho).
  - apply bool_decide_eq_false. simpl. lia.
Qed.

Lemma next_event_calm e :
  calm e → ∃ ev e', next_event e = Ret ev e' ∧ no_error ev = true ∧ env_grow e e'.
Proof.
  intros [Hev Hm]. eexists _, _. split; [reflexivity|]. split.
  - unfold events in Hev. destruct (k_events (e_kernel e)); [done|].
    apply Is_true_eq_true. by inversion Hev.
  - constructor; simpl; try done; [by left | | apply tail_suffix].
    intros [? ? ?]. by constructor.
Qed.

Lemma calm_step e e' h m : env_step e e' h m → calm e → calm e'.
Proof. intros [] []. constructor; [by eapply Forall_suffix | congruence]. Qed.

(** ** Reads of a calm machine *)

Lemma calm_pread fuel fd a off e ino app wr content blk :
  calm e → fd_opened e fd ino app wr → inodes e !! ino = Some content →
  e_heap e !! a = Some blk → 0 < zlen blk → 0 ≤ off →
  (length (events e) + length blk < fuel)%nat →
  ∃ blk' e', zlen blk' = zlen blk ∧ env_step e e' (<[a := blk']> (e_heap e)) (inodes e) ∧
    safe_pread fuel fd (Some (a, 0)) (zlen blk) off e =
      Ret (if bool_decide (off + zlen blk ≤ zlen content) then CCASK_OK else CCASK_FAIL) e' ∧
    (off + zlen blk ≤ zlen content → blk' = slice off (zlen blk) content).
Proof.
  intros Hc Hfd Hino Ha Hb Hoff Hfuel.
  destruct (wp_inv _ _ _ (safe_pread_spec fuel fd a off e ino app wr content blk Hfd Hino Ha Hb
    Hoff Hfuel)) as (r & e' & Hrun & blk' & Hlen & Hfr & Hr).
  exists blk', e'. split; [done|]. split; [by apply io_frame_step|]. rewrite Hrun.
  destruct Hr as [(-> & Hle & ->)|(-> & [[_ Hlt]|[_ Hnb]])].
  - by rewrite bool_decide_eq_true_2.
  - rewrite bool_decide_eq_false_2 by lia. split; [done | lia].
  - by destruct Hnb; apply calm_benign.
Qed.

Lemma calm_preadv fuel fd iov off e ino app wr content :
  calm e → 0 ≤ fd → fd_opened e fd ino app wr → inodes e !! ino = Some content →
  is_Some (gather (e_heap e) iov) → iov ≠ [] → 0 ≤ off →
  (length (events e) + length (slice off (iov_total iov) content) < fuel)%nat →
  let ok := off + iov_total iov ≤ zlen content ∧ ends_nonempty iov = true in
  ∃ h e', env_step e e' h (inodes e) ∧ dom h = dom (e_heap e) ∧
    (∀ a, Forall (λ v, ∀ p, iov_base v = Some p → p.1 ≠ a) iov → h !! a = e_heap e !! a) ∧
    safe_preadv fuel fd iov off e = Ret (if bool_decide ok then CCASK_OK else CCASK_FAIL) e' ∧
    (ok → scatter (e_heap e) iov (slice off (iov_total iov) content) = Some h).
Proof.
  intros Hc Hfd0 Hfd Hino Hg Hne Hoff Hfuel ok.
  destruct (wp_inv _ _ _ (safe_preadv_spec fuel fd iov off e ino app wr content Hfd0 Hfd Hino Hg
    Hne Hoff Hfuel)) as (r & e' & Hrun & n & h & Hn & Hsc & Hfr & Hr).
  exists h, e'. split; [by apply io_frame_step|]. split.
  { pose proof (f_equal dom (scatter_sizes _ _ _ _ Hsc)) as Hd.
    unfold sizes in Hd. by rewrite !dom_fmap_L in Hd. }
  split; [by intros a; apply (scatter_other _ _ _ _ _ Hsc)|]. rewrite Hrun. unfold ok.
  destruct Hr as [(-> & -> & He & Hle)|(-> & [[_ Hno]|[_ Hnb]])].
  - rewrite bool_decide_eq_true_2 by done. split; [done|]. by rewrite firstn_all in Hsc.
  - rewrite bool_decide_eq_false_2; [split; [done|]|];
      intros [? ?]; destruct Hno; [lia | congruence | lia | congruence].
  - by destruct Hnb; apply calm_benign.
Qed.

(** Two blocks filled with what follows each other. *)
Lemma scatter_two h a b d1 d2 e1 e2 :
  h !! a = Some d1 → h !! b = Some d2 → a ≠ b → zlen e1 = zlen d1 → zlen e2 = zlen d2 →
  scatter h [IOV (Some (a, 0)) (zlen d1); IOV (Some (b, 0)) (zlen d2)] (e1 ++ e2) =
  Some (<[b := e2]> (<[a := e1]> h)).
Proof.
  intros Ha Hb Hab H1 H2. cbn [scatter iov_base iov_len].
  rewrite take_app_length', drop_app_length' by zlen_lia.
  rewrite (mem_write_block _ _ d1) by (done || lia). simpl.
  rewrite take_ge by zlen_lia.
  by rewrite (mem_write_block _ _ d2) by (rewrite ?lookup_insert_ne by lia; done || lia).
Qed.

(** ** What is in the files *)

Lemma data_content_env e e' f f' id :
  kernel_ext (e_kernel e) (e_kernel e') → inodes e' = inodes e →
  fs_data_dir f' = fs_data_dir f → data_content (e', f') id = data_content (e, f) id.
Proof.
  intros (Hd & _) Hi Hf. unfold data_content, data_ino. simpl. by rewrite Hd, Hi, Hf.
Qed.

Lemma hint_content_env e e' f f' id :
  kernel_ext (e_kernel e) (e_kernel e') → inodes e' = inodes e →
  fs_data_dir f' = fs_data_dir f → hint_content (e', f') id = hint_content (e, f) id.
Proof.
  intros (Hd & _) Hi Hf. unfold hint_content, hint_ino. simpl. by rewrite Hd, Hi, Hf.
Qed.

Lemma data_content_grow e e' f id :
  env_grow e e' → data_content (e', f) id = data_content (e, f) id.
Proof. intros Hg. apply data_content_env; [apply (eg_ext _ _ Hg) | apply (eg_inodes _ _ Hg) | done]. Qed.

Lemma hint_content_grow e e' f id :
  env_grow e e' → hint_content (e', f) id = hint_content (e, f) id.
Proof. intros Hg. apply hint_content_env; [apply (eg_ext _ _ Hg) | apply (eg_inodes _ _ Hg) | done]. Qed.
