(* ===== verification/DiskWrite.v ===== *)
(** * DiskWrite: creating files, and appending to them

    [put_inodes m e] is the environment [e] with the file contents [m], and
    [put_file path e] the one with a new, empty file: what the functions that
    write do to the disk, apart from the growth of the memory. *)
From stdpp Require Import sorting.
From S2P Require Import Prelude Status Posix SafeIO Codec Records Uthash Filenames Files Disk.
Open Scope Z_scope.

Definition put_inodes (m : gmap Z bytes) (e : env) : env :=
  set_kernel (set_inodes m (e_kernel e)) e.

Definition put_file (path : string) (e : env) : env :=
  let k := e_kernel e in
  set_kernel (Kernel (<[path := k_next_ino k]> (k_dir k)) (<[k_next_ino k := []]> (k_inodes k))
                (k_fds k) (k_next_fd k) (k_next_ino k + 1) (k_events k) (k_clock k)) e.

Lemma put_inodes_same e : put_inodes (inodes e) e = e.
Proof. by destruct e as [??? [] ?]. Qed.

Lemma put_inodes_twice m m' e : put_inodes m' (put_inodes m e) = put_inodes m' e.
Proof. done. Qed.

Lemma put_inodes_wf m e :
  dom m = dom (inodes e) → kernel_wf (e_kernel (put_inodes m e)) ↔ kernel_wf (e_kernel e).
Proof.
  intros Hm. assert (∀ i, is_Some (m !! i) ↔ is_Some (inodes e !! i)) as Hi.
  { intros i. by rewrite <-!elem_of_dom, Hm. }
  split; intros [H1 H2 H3]; (constructor; [done | done |]);
    intros p ino Hp; destruct (H3 p ino Hp) as [? ?%Hi]; done.
Qed.

(** Growth does not depend on what is in the files. *)
Lemma put_inodes_grow m e e' :
  dom m = dom (inodes e) → env_grow e e' → env_grow (put_inodes m e) (put_inodes m e').
Proof.
  intros Hm Hg. pose proof Hg as [H1 H2 H3 H4 H5 (H6 & H7 & H8 & H9) H10 H11].
  constructor; try done. intros Hwf%put_inodes_wf; [|done].
  apply put_inodes_wf; [by rewrite H3|auto].
Qed.

Lemma env_step_put e e' m :
  env_step e e' (e_heap e) m → dom m = dom (inodes e) → env_grow (put_inodes m e) e'.
Proof.
  intros [H1 H2 H3 H4 H5 H6 H7] Hm. constructor; simpl; try done.
  - by rewrite H1.
  - intros a. rewrite H1. by left.
  - lia.
  - by rewrite H4.
  - destruct H5 as (H8 & H9 & H10 & H11). split_and!; simpl; try done. by rewrite Hm.
  - intros Hwf%put_inodes_wf; [auto|done].
Qed.

(** Freeing blocks that are newer than [e]. *)
Lemma env_grow_free e e' h :
  env_grow e e' → (∀ a blk, e_heap e !! a = Some blk → h !! a = Some blk) →
  (∀ a, is_Some (h !! a) → is_Some (e_heap e' !! a)) → env_grow e (set_heap h e').
Proof.
  intros [] Hold Hnew. constructor; simpl; try done.
  - by apply map_subseteq_spec.
  - intros a Ha%Hnew. by apply eg_fresh.
Qed.

(** The key directory's blocks, or any others, stay. *)
Lemma data_content_put e f m id :
  data_content (put_inodes m e, f) id = data_ino (e, f) id ≫= λ ino, m !! ino.
Proof. reflexivity. Qed.

(** ** Distinct names *)

Lemma last_char_Some s : s ≠ EmptyString → is_Some (last_char s).
Proof.
  induction s as [|a s IH]; [done|]. intros _. destruct s as [|b s]; [by eexists|]. by apply IH.
Qed.

Lemma string_app_last s t : t ≠ EmptyString → last_char (string_app s t) = last_char t.
Proof.
  intros Ht. induction s as [|a s IH]; [done|]. simpl. rewrite IH.
  destruct (string_app s t) eqn:Hst; [|done]. by destruct s; simpl in Hst.
Qed.

Lemma print_digits_last fuel n s : s ≠ EmptyString → last_char (print_digits fuel n s) = last_char s.
Proof.
  revert n s. induction fuel as [|fuel IH]; intros n s Hs; [done|]. simpl.
  case_bool_decide; [by destruct s|]. rewrite IH by done. by destruct s.
Qed.

(** The last letter of a path is that of the extension. *)
Lemma filepath_last dir id s : s ≠ EmptyString → last_char (filepath dir id s) = last_char s.
Proof.
  intros Hs. pose proof (print_digits_last 20 id s Hs) as Hp. fold (print_u64 id s) in Hp.
  assert (print_u64 id s ≠ EmptyString) as Hne.
  { intros Hnil. rewrite Hnil in Hp. destruct (last_char_Some s Hs) as [b Hb]. by rewrite Hb in Hp. }
  unfold filepath. case_bool_decide; rewrite string_app_last by done; [done|].
  destruct (print_u64 id s) eqn:Hu; [done|]. by rewrite <-Hp.
Qed.

Lemma hint_path_not_data dir id id' : filepath dir id ".hint" ≠ filepath dir id' ".data".
Proof. intros H%(f_equal last_char). by rewrite !filepath_last in H. Qed.

(** ** Creating a file *)

Lemma put_file_wf path e :
  kernel_wf (e_kernel e) → kernel_wf (e_kernel (put_file path e)).
Proof.
  intros [H1 H2 H3]. constructor; simpl; [done | done |].
  intros p ino. rewrite !lookup_insert. case_decide as Hp.
  - intros [= <-]. rewrite decide_True by done. split; [lia | by eexists].
  - intros Hino%H3. destruct Hino as [Hlt Hi]. split; [lia|]. rewrite decide_False by lia. done.
Qed.

Lemma sys_open_create e path fl :
  k_dir (e_kernel e) !! path = None → o_creat fl = true → kernel_wf (e_kernel e) → calm e →
  ∃ e', sys_open path fl e = Ret (inl (k_next_fd (e_kernel e))) e' ∧
    env_grow (put_file path e) e' ∧
    fd_opened e' (k_next_fd (e_kernel e)) (k_next_ino (e_kernel e)) (o_append fl) (o_rdwr fl).
Proof.
  intros Hp Hfl Hk Hcalm. pose proof (put_file_wf path e Hk) as Hk'. pose proof Hk as [Hfds Hn Hi].
  destruct (next_event_calm e Hcalm) as (ev & e1 & Hev & Hno & _).
  assert (e1 = pop_event e) as ->.
  { pose proof (wp_next_event e (λ _ t, t = pop_event e)) as Hw. unfold wp in Hw.
    rewrite Hev in Hw. by rewrite Hw. }
  unfold sys_open. rewrite (bind_run _ _ _ _ _ Hev), bind_get. simpl. rewrite Hp, Hfl.
  assert (∀ fd, is_Some (k_fds (e_kernel e) !! fd) → fd ≠ k_next_fd (e_kernel e)) as Hne.
  { intros fd Hfd%Hfds. lia. }
  destruct ev as [|n|x]; [| |done].
  all: eexists; split; [reflexivity|]; split; [|by unfold fd_opened, fd_view; simpl;
    rewrite lookup_fmap, lookup_insert_eq].
  all: constructor; simpl; try done; [by left | | | apply tail_suffix].
  1, 3: split_and!; simpl; try done; unfold fd_view; rewrite fmap_insert;
    apply insert_subseteq; rewrite lookup_fmap, fmap_None;
    apply eq_None_not_Some; intros Hin%Hne; done.
  all: intros _; destruct Hk' as [W1 W2 W3]; constructor; simpl in *; [|lia|done].
  all: intros fd; rewrite lookup_insert; case_decide; [lia|]; intros Hin%Hfds; lia.
Qed.

(** The files that were there are as they were. *)
Lemma data_ino_put_file e f a dir path id :
  fs_data_dir f = Some (a, dir) → path ≠ filepath dir id ".data" →
  data_ino (put_file path e, f) id = data_ino (e, f) id.
Proof.
  intros Hd Hp. unfold data_ino. simpl. rewrite Hd. simpl. by rewrite lookup_insert_ne.
Qed.

Lemma data_content_put_file e f a dir path id :
  fs_data_dir f = Some (a, dir) → path ≠ filepath dir id ".data" → kernel_wf (e_kernel e) →
  data_content (put_file path e, f) id = data_content (e, f) id.
Proof.
  intros Hd Hp Hk. unfold data_content. rewrite (data_ino_put_file e f a dir path id) by done.
  destruct (data_ino (e, f) id) as [ino|] eqn:Hi; [|done]. simpl.
  unfold data_ino in Hi. simpl in Hi. rewrite Hd in Hi. simpl in Hi.
  apply (kw_inodes _ Hk) in Hi as [Hlt _]. unfold inodes. simpl.
  by rewrite lookup_insert_ne by lia.
Qed.

Lemma disk_ok_put_file e f l a dir path :
  fs_data_dir f = Some (a, dir) →
  (∀ p, p ∈ l → path ≠ filepath dir (node_id (fs_nodes f) p) ".data") →
  disk_ok (e, f) l → disk_ok (put_file path e, f) l.
Proof.
  intros Hd Hp [H1 H2 H3 H4 H5].
  assert (∀ p x, p ∈ l → fs_nodes f !! p = Some x →
    data_ino (put_file path e, f) (file_id x) = data_ino (e, f) (file_id x)) as Hi.
  { intros p x Hpl Hx. apply (data_ino_put_file e f a dir); [done|].
    specialize (Hp p Hpl). unfold node_id in Hp. by rewrite Hx in Hp. }
  constructor; [done | done | by apply put_file_wf | |].
  - intros p x Hpl Hx. destruct (H4 p x Hpl Hx) as (? & ? & ino & Hino & Hopen).
    split_and!; [done..|]. exists ino. by rewrite (Hi p x).
  - destruct H5 as (p & x & Hh & Hx & Ha1 & Ha2 & ino & Hino & Ho).
    exists p, x. split_and!; [done..|]. split_and!; [done..|]. exists ino.
    rewrite (Hi p x); [done | by destruct l; [|injection Hh as ->; left] | done].
Qed.

(** ** Appending to a file *)

Lemma calm_writev fuel fd iov e ino old data :
  calm e → 0 ≤ fd → fd_opened e fd ino true true → inodes e !! ino = Some old →
  gather (e_heap e) iov = Some data → iov ≠ [] → ends_nonempty iov = true →
  (length (events e) + length data < fuel)%nat →
  ∃ e', safe_writev fuel fd iov e = Ret CCASK_OK e' ∧
    env_step e e' (e_heap e) (<[ino := old ++ data]> (inodes e)).
Proof.
  intros Hc Hfd0 Hfd Hino Hg Hne Hends Hfuel.
  destruct (wp_inv _ _ _ (safe_writev_spec fuel fd iov e ino old data Hfd0 Hfd Hino Hg Hne Hends
    Hfuel)) as (r & e' & Hrun & n & _ & Hfr & [[-> ->]|(_ & _ & _ & Hnb)]).
  - exists e'. split; [done|]. rewrite firstn_all in Hfr. apply io_frame_step; [done|].
    rewrite dom_insert_lookup_L; [done|]. by rewrite Hino.
  - by destruct Hnb; apply calm_benign.
Qed.

(** [e'] is [e] after the file [ino] got the contents [d]; perhaps there are
    more blocks in the memory. *)
Definition file_written (e : env) (ino : Z) (d : bytes) (e' : env) : Prop :=
  env_grow (put_inodes (<[ino := d]> (inodes e)) e) e'.

Lemma dom_insert_inode e ino (d old : bytes) :
  inodes e !! ino = Some old → dom (<[ino := d]> (inodes e)) = dom (inodes e).
Proof. intros H. rewrite dom_insert_lookup_L; [done|]. by rewrite H. Qed.

Lemma file_written_inodes e ino d e' :
  file_written e ino d e' → inodes e' = <[ino := d]> (inodes e).
Proof. intros H. by rewrite (eg_inodes _ _ H). Qed.

Lemma file_written_calm e ino d e' : file_written e ino d e' → calm e → calm e'.
Proof. intros H [H1 H2]. eapply env_grow_calm; [exact H|]. by constructor. Qed.

Lemma file_written_heap_wf e ino d e' : file_written e ino d e' → heap_wf e → heap_wf e'.
Proof. intros H Hwf. by eapply env_grow_heap_wf. Qed.

Lemma file_written_fd e ino d e' fd i app wr :
  file_written e ino d e' → fd_opened e fd i app wr → fd_opened e' fd i app wr.
Proof. intros H Hfd. eapply fd_opened_ext; [apply (eg_ext _ _ H) | exact Hfd]. Qed.

Lemma file_written_events e ino d e' : file_written e ino d e' → events e' `suffix_of` events e.
Proof. apply eg_events. Qed.

Lemma file_written_refl e ino d : inodes e !! ino = Some d → file_written e ino d e.
Proof.
  intros H. unfold file_written. rewrite insert_id by done. rewrite put_inodes_same.
  apply env_grow_refl.
Qed.

Lemma file_written_trans e ino old d1 e1 d2 e2 :
  inodes e !! ino = Some old → file_written e ino d1 e1 → file_written e1 ino d2 e2 →
  file_written e ino d2 e2.
Proof.
  intros Hino H1 H2. unfold file_written in *. rewrite (file_written_inodes e ino d1 e1 H1) in H2.
  rewrite insert_insert_eq in H2. eapply env_grow_trans; [|exact H2].
  rewrite <-(put_inodes_twice (<[ino := d1]> (inodes e))). apply put_inodes_grow; [|done].
  change (inodes (put_inodes ?m _)) with m.
  by rewrite !(dom_insert_inode e ino _ old).
Qed.

(** The file is appended to after some growth; the blocks that are new since
    [e] may then be freed. *)
Lemma file_written_step e e1 e2 h ino old d :
  inodes e !! ino = Some old → env_grow e e1 →
  env_step e1 e2 (e_heap e1) (<[ino := d]> (inodes e1)) →
  (∀ a blk, e_heap e !! a = Some blk → h !! a = Some blk) →
  (∀ a, is_Some (h !! a) → is_Some (e_heap e2 !! a)) → file_written e ino d (set_heap h e2).
Proof.
  intros Hino Hg Hst Hold Hnew. apply env_grow_free; [|done|done].
  eapply env_grow_trans; [apply put_inodes_grow; [by eapply dom_insert_inode | exact Hg]|].
  rewrite <-(eg_inodes _ _ Hg). apply env_step_put; [done|].
  apply (dom_insert_inode _ _ _ old). by rewrite (eg_inodes _ _ Hg).
Qed.

(** ** A file that is not there yet *)

Lemma put_file_grow path e e' :
  env_grow e e' → e_kernel e' = e_kernel e → env_grow (put_file path e) (put_file path e').
Proof.
  intros [H1 H2 H3 H4 H5 H6 H7 H8] Hk. unfold put_file. rewrite Hk.
  constructor; simpl; try done.
Qed.

Lemma open_new_ok e f a dir id ext s fl :
  fs_data_dir f = Some (a, dir) → dir ≠ EmptyString → ext_string ext = Some s →
  kernel_wf (e_kernel e) → k_dir (e_kernel e) !! filepath dir id s = None → o_creat fl = true →
  calm e → heap_wf e →
  ∃ e1 e', data_path id ext (e, f) = Ret (Some (filepath dir id s)) (e1, f) ∧
    sys_open (filepath dir id s) fl e1 = Ret (inl (k_next_fd (e_kernel e))) e' ∧
    env_grow (put_file (filepath dir id s) e) e' ∧
    fd_opened e' (k_next_fd (e_kernel e)) (k_next_ino (e_kernel e)) (o_append fl) (o_rdwr fl).
Proof.
  intros Hd Hdir Hs Hk Hnone Hfl Hc Hwf.
  destruct (data_path_ok e f id ext s a dir) as (e1 & Hp & Hg1 & Hk1); [done..|].
  destruct (sys_open_create e1 (filepath dir id s) fl)
    as (e2 & Ho & Hg2 & Hfd); [by rewrite Hk1 | done | by rewrite Hk1 | by eapply env_grow_calm|].
  rewrite Hk1 in *. exists e1, e2. split_and!; try done.
  eapply env_grow_trans; [by apply (put_file_grow _ _ _ Hg1) | exact Hg2].
Qed.

Lemma hint_ino_none e f a dir id :
  fs_data_dir f = Some (a, dir) → hint_ino (e, f) id = None →
  k_dir (e_kernel e) !! filepath dir id ".hint" = None.
Proof. intros Hd. unfold hint_ino. simpl. by rewrite Hd. Qed.

Lemma data_ino_none e f a dir id :
  fs_data_dir f = Some (a, dir) → data_ino (e, f) id = None →
  k_dir (e_kernel e) !! filepath dir id ".data" = None.
Proof. intros Hd. unfold data_ino. simpl. by rewrite Hd. Qed.

Lemma get_hintfile_fd_create e f a dir id :
  fs_data_dir f = Some (a, dir) → dir ≠ EmptyString → kernel_wf (e_kernel e) →
  hint_ino (e, f) id = None → calm e → heap_wf e →
  ∃ e', let fd := k_next_fd (e_kernel e) in
    CCASK_ATTEMPT 5 (ccask_files_get_hintfile_fd id) (e, f) = Ret fd (e', f) ∧ 0 ≤ fd ∧
    env_grow (put_file (filepath dir id ".hint") e) e' ∧
    fd_opened e' fd (k_next_ino (e_kernel e)) true true.
Proof.
  intros Hd Hdir Hk Hino Hc Hwf. pose proof (kw_next _ Hk).
  destruct (open_new_ok e f a dir id FILE_HINT ".hint" HINTFILE_OPEN_FLAGS)
    as (e1 & e2 & Hp & Ho & Hg & Hfd); [by try eapply hint_ino_none..|].
  exists e2. split_and!; [|done..]. eapply attempt_once.
  - unfold ccask_files_get_hintfile_fd. erewrite bind_run by exact Hp.
    by erewrite bind_run by exact (zoom_fst (open_path (Some _) _) _ _ _ _ Ho).
  - apply bool_decide_eq_false. simpl. lia.
Qed.

Lemma get_active_datafile_fd_create e f a dir id :
  fs_data_dir f = Some (a, dir) → dir ≠ EmptyString → kernel_wf (e_kernel e) →
  data_ino (e, f) id = None → calm e → heap_wf e →
  ∃ e', let fd := k_next_fd (e_kernel e) in
    CCASK_ATTEMPT 5 (ccask_files_get_active_datafile_fd id) (e, f) = Ret fd (e', f) ∧ 0 ≤ fd ∧
    env_grow (put_file (filepath dir id ".data") e) e' ∧
    fd_opened e' fd (k_next_ino (e_kernel e)) true true.
Proof.
  intros Hd Hdir Hk Hino Hc Hwf. pose proof (kw_next _ Hk).
  destruct (open_new_ok e f a dir id FILE_DATA ".data" ACTIVE_DATAFILE_OPEN_FLAGS)
    as (e1 & e2 & Hp & Ho & Hg & Hfd); [by try eapply data_ino_none..|].
  exists e2. split_and!; [|done..]. eapply attempt_once.
  - unfold ccask_files_get_active_datafile_fd. erewrite bind_run by exact Hp.
    by erewrite bind_run by exact (zoom_fst (open_path (Some _) _) _ _ _ _ Ho).
  - apply bool_decide_eq_false. simpl. lia.
Qed.

Lemma get_active_datafile_fd_ok e f a dir id ino :
  fs_data_dir f = Some (a, dir) → dir ≠ EmptyString → kernel_wf (e_kernel e) →
  data_ino (e, f) id = Some ino → calm e → heap_wf e →
  ∃ e', let fd := k_next_fd (e_kernel e) in
    CCASK_ATTEMPT 5 (ccask_files_get_active_datafile_fd id) (e, f) = Ret fd (e', f) ∧
    0 ≤ fd ∧ env_grow e e' ∧ fd_opened e' fd ino true true.
Proof.
  intros Hd Hdir Hk Hino Hc Hwf. pose proof (kw_next _ Hk).
  unfold data_ino in Hino. simpl in Hino. rewrite Hd in Hino. simpl in Hino.
  destruct (open_existing_ok e f a dir id FILE_DATA ".data" ACTIVE_DATAFILE_OPEN_FLAGS ino)
    as (e1 & e2 & Hp & Ho & Hg & Hfd); [done..|].
  exists e2. split_and!; [|done..]. eapply attempt_once.
  - unfold ccask_files_get_active_datafile_fd. erewrite bind_run by exact Hp.
    by erewrite bind_run by exact (zoom_fst (open_path (Some _) _) _ _ _ _ Ho).
  - apply bool_decide_eq_false. simpl. lia.
Qed.

(** ** Closing a descriptor *)

Definition close_fd (fd : Z) (e : env) : env :=
  let k := e_kernel e in
  set_kernel (Kernel (k_dir k) (k_inodes k) (delete fd (k_fds k)) (k_next_fd k) (k_next_ino k)
                (k_events k) (k_clock k)) e.

Lemma sys_close_run fd e : sys_close fd e = Ret tt (close_fd fd e).
Proof. reflexivity. Qed.

Lemma close_fd_wf fd e : kernel_wf (e_kernel e) → kernel_wf (e_kernel (close_fd fd e)).
Proof.
  intros [H1 H2 H3]. constructor; simpl; [|done|done]. intros fd'. rewrite lookup_delete.
  case_decide; [by intros []|]. apply H1.
Qed.

Lemma close_fd_opened fd e fd' ino app wr :
  fd' ≠ fd → fd_opened e fd' ino app wr → fd_opened (close_fd fd e) fd' ino app wr.
Proof.
  intros Hne H. unfold fd_opened, fd_view in *. simpl. by rewrite fmap_delete, lookup_delete_ne.
Qed.

Lemma close_fd_grow fd e e' :
  kernel_wf (e_kernel e) → env_grow e e' → env_grow (close_fd fd e) (close_fd fd e').
Proof.
  intros Hk [H1 H2 H3 H4 H5 (H6 & H7 & H8 & H9) H10 H11]. constructor; simpl; try done.
  - split_and!; simpl; try done. unfold fd_view in *. rewrite !fmap_delete.
    by apply delete_mono.
  - intros _. by apply close_fd_wf, H10.
Qed.
