(* ===== verification/Iterator.v ===== *)
(** * Iterator: walking over the records of a file

    Models [iterator.c] and [iterator.h].  [next] takes the caller's array and
    [record_pos] and returns what they hold afterwards; the buffers of the
    record are fresh blocks, which the caller frees. *)
From S2P Require Import Prelude Status Posix SafeIO Codec Records Uthash Keydir Log.
From S2P Require Import Filenames Files Disk.

(** [ccask_datafile_iter_t] and [ccask_hintfile_iter_t], which have the same
    fields. *)
Record ccask_iter := Iter {
  it_file_id : Z;
  it_fd : Z;
  it_offset : Z;
  it_total_size : Z;
}.
Abbreviation ccask_datafile_iter_t := ccask_iter (only parsing).
Abbreviation ccask_hintfile_iter_t := ccask_iter (only parsing).

Definition set_it_offset (x : Z) (i : ccask_iter) : ccask_iter :=
  Iter (it_file_id i) (it_fd i) x (it_total_size i).

(** [-1] of a failed [lseek] becomes the largest [uint64_t]. *)
Definition ccask_datafile_iter_open (id : Z) (iter : ccask_datafile_iter_t) :
    M fstate (ccask_status_e * ccask_datafile_iter_t) :=
  fd ← CCASK_ATTEMPT 5 (ccask_files_get_datafile_fd id);
  if bool_decide (fd < 0) then mret (CCASK_FAIL, iter)
  else n ← zoom (lseek_end fd); mret (CCASK_OK, Iter id fd 0 (u64 n)).

Definition ccask_hintfile_iter_open (id : Z) (iter : ccask_hintfile_iter_t) :
    M fstate (ccask_status_e * ccask_hintfile_iter_t) :=
  fd ← CCASK_ATTEMPT 5 (ccask_files_get_hintfile_fd id);
  if bool_decide (fd < 0) then mret (CCASK_FAIL, iter)
  else n ← zoom (lseek_end fd); mret (CCASK_OK, Iter id fd 0 (u64 n)).

Definition ccask_datafile_iter_close (iter : ccask_datafile_iter_t) : M env unit :=
  sys_close (it_fd iter).
Definition ccask_hintfile_iter_close (iter : ccask_hintfile_iter_t) : M env unit :=
  sys_close (it_fd iter).

(** What [next] returns: the status, the iterator, the array, [record_pos]. *)
Abbreviation next_result := (ccask_status_e * ccask_iter * list iovec * Z)%type.

(** [if (ccask_errno == CCASK_ERR_UNEXPECTED_EOF) ccask_errno = CCASK_ERR_ITER_END]. *)
Definition eof_is_end : M env unit :=
  modify (λ e, if bool_decide (e_errno e = CCASK_ERR_UNEXPECTED_EOF)
               then set_err CCASK_ERR_ITER_END e else e).

Section next.
Context {host : Host}.
Variable fuel : nat.

Definition ccask_datafile_iter_next (iter : ccask_datafile_iter_t)
    (record : ccask_datafile_record_t) (record_pos : Z) : M env next_result :=
  if bool_decide (it_offset iter >= it_total_size iter) then
    _ ← set_ccask_errno CCASK_ERR_ITER_END; mret (CCASK_FAIL, iter, record, record_pos)
  else
    let record_pos := it_offset iter in
    a0 ← malloc DATAFILE_RECORD_HEADER_SIZE;
    let record := set_iov_base 0 (base_ptr a0) record in
    match a0 with
    | None => _ ← set_ccask_errno CCASK_ERR_NO_MEMORY;
              mret (CCASK_FAIL, iter, record, record_pos)
    | Some a0 =>
      res ← safe_pread fuel (it_fd iter) (Some (a0, 0)) DATAFILE_RECORD_HEADER_SIZE
              (i64 (it_offset iter));
      match res with
      | CCASK_OK =>
        header ← ccask_get_datafile_record_header record;
        let record := set_iov_len 1 (df_key_size header) record in
        let record := set_iov_len 2 (df_value_size header) record in
        a1 ← malloc (df_key_size header);
        let record := set_iov_base 1 (base_ptr a1) record in
        match a1 with
        | None => _ ← free (Some (a0, 0)); _ ← set_ccask_errno CCASK_ERR_NO_MEMORY;
                  mret (CCASK_FAIL, iter, record, record_pos)
        | Some a1 =>
          a2 ← malloc (df_value_size header);
          let record := set_iov_base 2 (base_ptr a2) record in
          match a2 with
          | None => _ ← free (Some (a0, 0)); _ ← free (Some (a1, 0));
                    _ ← set_ccask_errno CCASK_ERR_NO_MEMORY;
                    mret (CCASK_FAIL, iter, record, record_pos)
          | Some a2 =>
            res ← safe_preadv fuel (it_fd iter) (drop 1 record)
                    (i64 (it_offset iter + DATAFILE_RECORD_HEADER_SIZE));
            match res with
            | CCASK_OK =>
              (* the sum of the sizes is a [uint32_t] *)
              let size := u32 (DATAFILE_RECORD_HEADER_SIZE + df_key_size header
                               + df_value_size header) in
              mret (CCASK_OK, set_it_offset (u64 (it_offset iter + size)) iter,
                    record, record_pos)
            | _ => mret (CCASK_FAIL, iter, record, record_pos)
            end
          end
        end
      | _ => _ ← eof_is_end; mret (CCASK_FAIL, iter, record, record_pos)
      end
    end.

(** [res < 0]: any status but [CCASK_OK]. *)
Definition ccask_hintfile_iter_next (iter : ccask_hintfile_iter_t)
    (record : ccask_hintfile_record_t) (record_pos : Z) : M env next_result :=
  if bool_decide (it_offset iter >= it_total_size iter) then
    _ ← set_ccask_errno CCASK_ERR_ITER_END; mret (CCASK_FAIL, iter, record, record_pos)
  else
    let record_pos := it_offset iter in
    a0 ← malloc HINTFILE_RECORD_HEADER_SIZE;
    let record := set_iov_base 0 (base_ptr a0) record in
    match a0 with
    | None => _ ← set_ccask_errno CCASK_ERR_NO_MEMORY;
              mret (CCASK_FAIL, iter, record, record_pos)
    | Some a0 =>
      res ← safe_pread fuel (it_fd iter) (Some (a0, 0)) HINTFILE_RECORD_HEADER_SIZE
              (i64 (it_offset iter));
      if bool_decide (status_code res < 0) then
        _ ← eof_is_end; mret (CCASK_FAIL, iter, record, record_pos)
      else
        header ← ccask_get_hintfile_record_header record;
        let record := set_iov_len 1 (hf_key_size header) record in
        a1 ← malloc (hf_key_size header);
        let record := set_iov_base 1 (base_ptr a1) record in
        match a1 with
        | None => _ ← free (Some (a0, 0)); _ ← set_ccask_errno CCASK_ERR_NO_MEMORY;
                  mret (CCASK_FAIL, iter, record, record_pos)
        | Some a1 =>
          res ← safe_preadv fuel (it_fd iter) (drop 1 record)
                  (i64 (it_offset iter + HINTFILE_RECORD_HEADER_SIZE));
          match res with
          | CCASK_OK =>
            let size := u32 (HINTFILE_RECORD_HEADER_SIZE + hf_key_size header) in
            mret (CCASK_OK, set_it_offset (u64 (it_offset iter + size)) iter,
                  record, record_pos)
          | _ => mret (CCASK_FAIL, iter, record, record_pos)
          end
        end
    end.
End next.

(** ** The iterators on a calm machine *)

(** An iterator in a file with this content. *)
Record iter_at (e : env) (iter : ccask_iter) (ino : Z) (content : bytes) : Prop := {
  ia_fd : 0 ≤ it_fd iter;
  ia_open : ∃ app wr, fd_opened e (it_fd iter) ino app wr;
  ia_content : inodes e !! ino = Some content;
  ia_total : it_total_size iter = zlen content;
  ia_offset : 0 ≤ it_offset iter ≤ zlen content;
  ia_small : zlen content < 2 ^ 32;
}.

Lemma iter_at_grow e e' iter ino content :
  env_grow e e' → iter_at e iter ino content → iter_at e' iter ino content.
Proof.
  intros Hg [H1 (app & wr & H2) H3 H4 H5 H6]. constructor; try done.
  - exists app, wr. eapply fd_opened_ext; [by apply eg_ext | done].
  - by rewrite (eg_inodes _ _ Hg).
Qed.

(** What is left to read. *)
Definition it_rest (iter : ccask_iter) (content : bytes) : bytes :=
  drop (Z.to_nat (it_offset iter)) content.

Lemma zlen_it_rest e iter ino content :
  iter_at e iter ino content → zlen (it_rest iter content) = zlen content - it_offset iter.
Proof.
  intros H. pose proof (ia_offset _ _ _ _ H). unfold it_rest, zlen in *.
  rewrite length_drop. lia.
Qed.

(** The record a successful [next] leaves in the array: three new blocks. *)
Definition iter_record (b : Z) (v0 : iovec) (ks vs : Z) : ccask_datafile_record_t :=
  [IOV (Some (b, 0)) (iov_len v0); IOV (Some (b + 1, 0)) ks; IOV (Some (b + 2, 0)) vs].

Section iterate.
Context {host : Host} (fuel : nat).

#[local] Arguments malloc : simpl never.
#[local] Arguments safe_pread : simpl never.
#[local] Arguments safe_preadv : simpl never.

(** Reading the header into a new block. *)
Lemma iter_header_read e iter ino content n :
  iter_at e iter ino content → calm e → heap_wf e → it_offset iter < zlen content → 0 < n →
  (length (events e) + Z.to_nat n < fuel)%nat →
  ∃ blk e', zlen blk = n ∧ env_step (put_block (zeros n) e) e' (e_heap (put_block blk e)) (inodes e) ∧
    safe_pread fuel (it_fd iter) (Some (e_brk e, 0)) n (i64 (it_offset iter)) (put_block (zeros n) e) =
      Ret (if bool_decide (n ≤ zlen (it_rest iter content)) then CCASK_OK else CCASK_FAIL) e' ∧
    (n ≤ zlen (it_rest iter content) → blk = take (Z.to_nat n) (it_rest iter content)).
Proof.
  intros Hi Hc Hwf Hlt Hn Hfuel. pose proof Hi as [Hfd (app & wr & Ho) Hino Ht Hoff Hsm].
  set (e1 := put_block (zeros n) e).
  pose proof (put_block_grow e (zeros n) Hwf) as Hg1. fold e1 in Hg1.
  assert (zlen (zeros n) = n) as Hz by (apply zlen_zeros; lia).
  destruct (calm_pread fuel (it_fd iter) (e_brk e) (it_offset iter) e1 ino app wr content (zeros n))
    as (blk & e2 & Hblk & Hst & Hrun & Hdata); rewrite ?Hz.
  - by eapply env_grow_calm.
  - eapply fd_opened_ext; [by apply eg_ext | done].
  - done.
  - apply lookup_insert_eq.
  - done.
  - lia.
  - change (events e1) with (events e). unfold zeros. rewrite length_replicate. lia.
  - exists blk, e2. rewrite Hz in *. split; [done|]. split; [|split].
    + subst e1. simpl in *. by rewrite insert_insert_eq in Hst.
    + rewrite i64_small by lia. rewrite Hrun, (zlen_it_rest _ _ _ _ Hi).
      f_equal. erewrite bool_decide_ext; [done | lia].
    + rewrite (zlen_it_rest _ _ _ _ Hi). intros Hle. rewrite Hdata by lia. done.
Qed.

(** The rest of a record, after its header [hb] has been read into the block
    [b]. *)
Lemma iter_body_read e0 e iter ino content hb ks vs :
  heap_wf e0 → env_step (put_block (zeros 16) e0) e (e_heap (put_block hb e0)) (inodes e0) →
  iter_at e iter ino content → calm e → 16 ≤ zlen (it_rest iter content) → 0 ≤ ks → 0 ≤ vs →
  (length (events e) + length content < fuel)%nat →
  let b := e_brk e0 in
  let e2 := put_block (zeros vs) (put_block (zeros ks) e) in
  let ok := 16 + ks + vs ≤ zlen (it_rest iter content) ∧ vs ≠ 0 in
  ∃ e', safe_preadv fuel (it_fd iter) [IOV (Some (b + 1, 0)) ks; IOV (Some (b + 2, 0)) vs]
      (i64 (it_offset iter + 16)) e2 = Ret (if bool_decide ok then CCASK_OK else CCASK_FAIL) e' ∧
    env_grow e0 e' ∧
    (ok → let k := slice 16 ks (it_rest iter content) in
          let v := slice (16 + ks) vs (it_rest iter content) in
          env_step (three_blocks hb k v e0) e' (e_heap (three_blocks hb k v e0)) (inodes e0)).
Proof.
  intros Hwf Hst Hi Hc H16 Hks Hvs Hfuel b e2 ok.
  pose proof Hi as [Hfd (app & wr & Ho) Hino Ht Hoff Hsm].
  pose proof (zlen_it_rest _ _ _ _ Hi) as Hrest.
  assert (e_brk e = b + 1) as Hb by apply (es_brk _ _ _ _ Hst).
  assert (env_grow e0 e) as Hg0.
  { eapply env_grow_step; [by apply (put_block_grow e0 (zeros 16)) | exact Hst | |].
    - simpl. by rewrite !dom_insert_L.
    - intros a Ha%Hwf. simpl. by rewrite !lookup_insert_ne by lia. }
  pose proof (env_grow_heap_wf _ _ Hg0 Hwf) as Hwfe.
  assert (env_grow e e2) as Hg2.
  { eapply env_grow_trans; apply put_block_grow; eauto with ccask. }
  assert (e_heap e2 !! (b + 1) = Some (zeros ks)) as Hb1.
  { simpl. rewrite Hb, lookup_insert_ne, lookup_insert_eq by lia. done. }
  assert (e_heap e2 !! (b + 2) = Some (zeros vs)) as Hb2.
  { simpl. rewrite Hb. replace (b + 1 + 1) with (b + 2) by lia. apply lookup_insert_eq. }
  set (iov := [IOV (Some (b + 1, 0)) ks; IOV (Some (b + 2, 0)) vs]).
  assert (iov_total iov = ks + vs) as Htot by (unfold iov_total; simpl; lia).
  destruct (calm_preadv fuel (it_fd iter) iov (it_offset iter + 16) e2 ino app wr content)
    as (h & e3 & Hst3 & Hdom & Hoth & Hrun & Hdata).
  - by eapply env_grow_calm.
  - done.
  - eapply fd_opened_ext; [by apply eg_ext | done].
  - by rewrite (eg_inodes _ _ Hg2).
  - pose proof (mem_read_block _ _ _ Hb1) as Hr1. pose proof (mem_read_block _ _ _ Hb2) as Hr2.
    rewrite zlen_zeros in Hr1, Hr2 by done. unfold iov. cbn [gather iov_base iov_len].
    rewrite Hr1, Hr2. by eexists.
  - done.
  - lia.
  - change (events e2) with (events e).
    pose proof (length_slice_drop (it_offset iter + 16) (iov_total iov) content). lia.
  - rewrite Htot in *. exists e3. split; [|split].
    + rewrite i64_small by lia. rewrite Hrun. f_equal. erewrite bool_decide_ext; [done|].
      unfold ok, ends_nonempty. simpl. rewrite bool_decide_eq_true. lia.
    + eapply env_grow_step; [by eapply env_grow_trans | exact Hst3 | done |].
      intros a Ha%Hwf. apply Hoth. repeat constructor; intros p [= <-]; simpl; lia.
    + intros [Hlen Hvs0] k v.
      assert (zlen k = ks) as Hk by (apply zlen_slice; lia).
      assert (zlen v = vs) as Hv by (apply zlen_slice; lia).
      assert (slice (it_offset iter + 16) (ks + vs) content = k ++ v) as Hsl.
      { unfold k, v, it_rest, slice. rewrite !drop_drop.
        rewrite <-(take_drop (Z.to_nat ks) (take (Z.to_nat (ks + vs)) _)), take_take, skipn_firstn_comm.
        rewrite drop_drop. f_equal; [f_equal; [lia | f_equal; lia] | f_equal; [lia | f_equal; lia]]. }
      rewrite Hsl in Hdata. unfold iov in Hdata.
      assert (scatter (e_heap e2) [IOV (Some (b + 1, 0)) (zlen (zeros ks));
        IOV (Some (b + 2, 0)) (zlen (zeros vs))] (k ++ v) = Some (<[b + 2 := v]> (<[b + 1 := k]> (e_heap e2))))
        as Hsc by (apply scatter_two; rewrite ?zlen_zeros by done; done || lia).
      rewrite !zlen_zeros, Hdata in Hsc by
        (done || (split; [lia | unfold ends_nonempty; simpl; by apply bool_decide_eq_true])).
      injection Hsc as ->. destruct Hst as [Hh Hi0 _ Hm0 Hx0 Hw0 Hv0].
      destruct Hst3 as [Hh3 Hi3 Hb3 Hm3 Hx3 Hw3 Hv3]. constructor.
      * rewrite Hh3. simpl. rewrite Hb, Hh. simpl. fold b. replace (b + 1 + 1) with (b + 2) by lia.
        apply map_eq. intros a. rewrite !lookup_insert. repeat case_decide; done || lia.
      * by rewrite Hi3.
      * rewrite Hb3. simpl. by rewrite Hb.
      * rewrite Hm3. simpl. by rewrite Hm0.
      * by eapply kernel_ext_trans.
      * intros Hw. auto.
      * by etrans.
Qed.

(** A turn of the iterator: the next record in three new blocks, or the end
    (and perhaps some blocks that nobody frees). *)
Lemma datafile_iter_next_ok e iter ino content v0 v1 v2 rp :
  iter_at e iter ino content → calm e → heap_wf e →
  (length (events e) + length content + 16 < fuel)%nat →
  match next_record (it_rest iter content) with
  | Some r => ∃ e',
      ccask_datafile_iter_next fuel iter [v0; v1; v2] rp e =
        Ret (CCASK_OK, set_it_offset (it_offset iter + log_record_size r) iter,
             iter_record (e_brk e) v0 (zlen (lr_key r)) (zlen (lr_value r)), it_offset iter) e' ∧
      let e3 := three_blocks (datafile_header_bytes (lr_header r)) (lr_key r) (lr_value r) e in
      env_step e3 e' (e_heap e3) (inodes e)
  | None => ∃ iter' record rp' e',
      ccask_datafile_iter_next fuel iter [v0; v1; v2] rp e =
        Ret (CCASK_FAIL, iter', record, rp') e' ∧ it_fd iter' = it_fd iter ∧ env_grow e e'
  end.
Proof.
  intros Hi Hc Hwf Hfuel. pose proof (zlen_it_rest _ _ _ _ Hi) as Hrest.
  pose proof (ia_offset _ _ _ _ Hi) as Hoff. pose proof (ia_total _ _ _ _ Hi) as Htot.
  pose proof (ia_small _ _ _ _ Hi) as Hsm.
  unfold ccask_datafile_iter_next. rewrite Htot.
  case_bool_decide as Hend.
  { assert (it_rest iter content = []) as ->.
    { apply nil_length_inv. zlen_lia. }
    eexists _, _, _, _. split; [reflexivity|]. split; [done|]. constructor; try done. by left. }
  destruct (iter_header_read e iter ino content 16 Hi Hc Hwf ltac:(lia) ltac:(lia) ltac:(simpl; lia))
    as (hb & e1 & Hhb & Hst1 & Hrun1 & Hdata1).
  erewrite bind_run by exact (malloc_ok _ e (calm_malloc_head e Hc)). cbv beta zeta iota.
  erewrite bind_run by exact Hrun1.
  assert (env_grow e e1) as Hg1.
  { eapply env_grow_step; [by apply (put_block_grow e (zeros 16)) | exact Hst1 | |].
    - simpl. by rewrite !dom_insert_L.
    - intros a Ha%Hwf. simpl. by rewrite !lookup_insert_ne by lia. }
  unfold next_record. case_bool_decide as H16.
  2: { rewrite (bool_decide_eq_false_2 (_ ∧ _)) by tauto.
       unfold eof_is_end. rewrite bind_modify. eexists _, _, _, _. split; [reflexivity|].
       split; [done|]. case_bool_decide; [|done]. destruct Hg1. by constructor. }
  specialize (Hdata1 H16). change (Z.to_nat 16) with 16%nat in Hdata1.
  rewrite <-Hdata1. pose proof (datafile_header_of_ok hb) as (_ & _ & [Hks _] & [Hvs _]).
  assert (e_heap e1 !! e_brk e = Some hb) as Hb0.
  { rewrite (es_heap _ _ _ _ Hst1). apply lookup_insert_eq. }
  rewrite (bind_run _ _ _ _ _ (get_datafile_record_header_run e1
    (set_iov_base 0 (base_ptr (Some (e_brk e))) [v0; v1; v2]) _ _ _ eq_refl Hb0 Hhb)).
  set (h := datafile_header_of hb) in *.
  assert (calm e1) as Hc1 by by eapply env_grow_calm.
  destruct (iter_body_read e e1 iter ino content hb (df_key_size h) (df_value_size h))
    as (e4 & Hrun4 & Hg4 & Hst4); try done.
  { by eapply iter_at_grow. }
  { pose proof (suffix_length _ _ (eg_events _ _ Hg1)). lia. }
  cbv zeta. erewrite bind_run by exact (malloc_ok _ e1 (calm_malloc_head e1 Hc1)). cbv iota.
  set (e2 := put_block (zeros (df_key_size h)) e1) in *.
  assert (calm e2) as Hc2.
  { eapply env_grow_calm; [|exact Hc1]. apply put_block_grow. by eapply env_grow_heap_wf. }
  erewrite bind_run by exact (malloc_ok _ e2 (calm_malloc_head e2 Hc2)). cbv iota.
  assert (e_brk e1 = e_brk e + 1) as Hbrk by apply (es_brk _ _ _ _ Hst1).
  change (e_brk e2) with (e_brk e1 + 1). rewrite Hbrk.
  replace (e_brk e + 1 + 1) with (e_brk e + 2) in * by lia.
  erewrite bind_run by exact Hrun4.
  case_bool_decide as Hok.
  - rewrite bool_decide_eq_true_2 by tauto. exists e4.
    destruct Hok as [Hlen Hvs0].
    assert (zlen (slice 16 (df_key_size h) (it_rest iter content)) = df_key_size h) as Hk
      by (apply zlen_slice; lia).
    assert (zlen (slice (16 + df_key_size h) (df_value_size h) (it_rest iter content)) =
      df_value_size h) as Hv by (apply zlen_slice; lia).
    cbn [lr_header lr_key lr_value]. unfold log_record_size. cbn [lr_key lr_value]. rewrite Hk, Hv.
    split; [|subst h; rewrite datafile_header_bytes_of by done; apply Hst4; done].
    unfold mret, M_ret. f_equal. f_equal. f_equal. f_equal. f_equal.
    change DATAFILE_RECORD_HEADER_SIZE with 16.
    rewrite u32_small, u64_small by (unfold is_u32, is_u64; lia). done.
  - rewrite (bool_decide_eq_false_2 (_ ∧ _)) by tauto.
    eexists _, _, _, _. split; [reflexivity|]. done.
Qed.

(** The key of a hint, after its header [hb] has been read. *)
Lemma iter_key_read e0 e iter ino content hb ks :
  heap_wf e0 → env_step (put_block (zeros 20) e0) e (e_heap (put_block hb e0)) (inodes e0) →
  iter_at e iter ino content → calm e → 20 ≤ zlen (it_rest iter content) → 0 ≤ ks →
  (length (events e) + length content < fuel)%nat →
  let b := e_brk e0 in
  let e1 := put_block (zeros ks) e in
  let ok := 20 + ks ≤ zlen (it_rest iter content) ∧ ks ≠ 0 in
  ∃ e', safe_preadv fuel (it_fd iter) [IOV (Some (b + 1, 0)) ks] (i64 (it_offset iter + 20)) e1 =
      Ret (if bool_decide ok then CCASK_OK else CCASK_FAIL) e' ∧
    env_grow e0 e' ∧
    (ok → let e2 := put_block (slice 20 ks (it_rest iter content)) (put_block hb e0) in
          env_step e2 e' (e_heap e2) (inodes e0)).
Proof.
  intros Hwf Hst Hi Hc H20 Hks Hfuel b e1 ok.
  pose proof Hi as [Hfd (app & wr & Ho) Hino Ht Hoff Hsm].
  pose proof (zlen_it_rest _ _ _ _ Hi) as Hrest.
  assert (e_brk e = b + 1) as Hb by apply (es_brk _ _ _ _ Hst).
  assert (env_grow e0 e) as Hg0.
  { eapply env_grow_step; [by apply (put_block_grow e0 (zeros 20)) | exact Hst | |].
    - simpl. by rewrite !dom_insert_L.
    - intros a Ha%Hwf. simpl. by rewrite !lookup_insert_ne by lia. }
  assert (env_grow e e1) as Hg1 by (apply put_block_grow; by eapply env_grow_heap_wf).
  assert (e_heap e1 !! (b + 1) = Some (zeros ks)) as Hb1.
  { simpl. rewrite Hb. apply lookup_insert_eq. }
  pose proof (mem_read_block _ _ _ Hb1) as Hr1. rewrite zlen_zeros in Hr1 by done.
  set (iov := [IOV (Some (b + 1, 0)) ks]).
  assert (iov_total iov = ks) as Htot by (unfold iov_total; simpl; lia).
  destruct (calm_preadv fuel (it_fd iter) iov (it_offset iter + 20) e1 ino app wr content)
    as (h & e3 & Hst3 & Hdom & Hoth & Hrun & Hdata); try done.
  - by eapply env_grow_calm.
  - unfold iov. cbn [gather iov_base iov_len]. rewrite Hr1. by eexists.
  - lia.
  - change (events e1) with (events e).
    pose proof (length_slice_drop (it_offset iter + 20) (iov_total iov) content). lia.
  - rewrite Htot in *. exists e3. split; [|split].
    + rewrite i64_small by lia. rewrite Hrun. f_equal. erewrite bool_decide_ext; [done|].
      unfold ok, ends_nonempty. simpl. rewrite bool_decide_eq_true. lia.
    + eapply env_grow_step; [by eapply env_grow_trans | exact Hst3 | done |].
      intros a Ha%Hwf. apply Hoth. repeat constructor; intros p [= <-]; simpl; lia.
    + intros [Hlen Hks0] e2.
      assert (slice (it_offset iter + 20) ks content = slice 20 ks (it_rest iter content)) as Hsl.
      { unfold it_rest, slice. rewrite drop_drop. f_equal. f_equal. lia. }
      assert (zlen (slice 20 ks (it_rest iter content)) = ks) as Hk by (apply zlen_slice; lia).
      rewrite Hsl in Hdata. unfold iov in Hdata. cbn [scatter iov_base iov_len] in Hdata.
      rewrite take_ge, (mem_write_block _ _ (zeros ks)) in Hdata
        by (rewrite ?zlen_zeros by done; done || zlen_lia). simpl in Hdata.
      pose proof (inj Some _ _ (Hdata ltac:(split; [lia | by apply bool_decide_eq_true]))) as <-.
      destruct Hst as [Hh Hi0 _ Hm0 Hx0 Hw0 Hv0].
      destruct Hst3 as [Hh3 Hi3 Hb3 Hm3 Hx3 Hw3 Hv3]. constructor.
      * rewrite Hh3. simpl. rewrite Hb, Hh. simpl. fold b. by rewrite insert_insert_eq.
      * by rewrite Hi3.
      * rewrite Hb3. simpl. by rewrite Hb.
      * rewrite Hm3. simpl. by rewrite Hm0.
      * by eapply kernel_ext_trans.
      * intros Hw. auto.
      * by etrans.
Qed.

Lemma hintfile_iter_next_ok e iter ino content v0 v1 rp :
  iter_at e iter ino content → calm e → heap_wf e →
  (length (events e) + length content + 20 < fuel)%nat →
  match next_hint (it_rest iter content) with
  | Some r => ∃ e',
      ccask_hintfile_iter_next fuel iter [v0; v1] rp e =
        Ret (CCASK_OK, set_it_offset (it_offset iter + hint_record_size r) iter,
             [IOV (Some (e_brk e, 0)) (iov_len v0); IOV (Some (e_brk e + 1, 0)) (zlen (hr_key r))],
             it_offset iter) e' ∧
      let e2 := put_block (hr_key r) (put_block (hintfile_header_bytes (hr_header r)) e) in
      env_step e2 e' (e_heap e2) (inodes e)
  | None => ∃ iter' record rp' e',
      ccask_hintfile_iter_next fuel iter [v0; v1] rp e =
        Ret (CCASK_FAIL, iter', record, rp') e' ∧ it_fd iter' = it_fd iter ∧ env_grow e e'
  end.
Proof.
  intros Hi Hc Hwf Hfuel. pose proof (zlen_it_rest _ _ _ _ Hi) as Hrest.
  pose proof (ia_offset _ _ _ _ Hi) as Hoff. pose proof (ia_total _ _ _ _ Hi) as Htot.
  pose proof (ia_small _ _ _ _ Hi) as Hsm.
  unfold ccask_hintfile_iter_next. rewrite Htot.
  case_bool_decide as Hend.
  { assert (it_rest iter content = []) as ->.
    { apply nil_length_inv. zlen_lia. }
    eexists _, _, _, _. split; [reflexivity|]. split; [done|]. constructor; try done. by left. }
  destruct (iter_header_read e iter ino content 20 Hi Hc Hwf ltac:(lia) ltac:(lia) ltac:(simpl; lia))
    as (hb & e1 & Hhb & Hst1 & Hrun1 & Hdata1).
  erewrite bind_run by exact (malloc_ok _ e (calm_malloc_head e Hc)). cbv beta zeta iota.
  erewrite bind_run by exact Hrun1.
  assert (env_grow e e1) as Hg1.
  { eapply env_grow_step; [by apply (put_block_grow e (zeros 20)) | exact Hst1 | |].
    - simpl. by rewrite !dom_insert_L.
    - intros a Ha%Hwf. simpl. by rewrite !lookup_insert_ne by lia. }
  unfold next_hint. case_bool_decide as H20.
  2: { rewrite (bool_decide_eq_false_2 (20 ≤ _ ∧ _)) by tauto.
       rewrite bool_decide_eq_true_2 by (simpl; lia).
       unfold eof_is_end. rewrite bind_modify. eexists _, _, _, _. split; [reflexivity|].
       split; [done|]. case_bool_decide; [|done]. destruct Hg1. by constructor. }
  rewrite (bool_decide_eq_false_2 (_ < 0)) by (simpl; lia).
  specialize (Hdata1 H20). change (Z.to_nat 20) with 20%nat in Hdata1.
  rewrite <-Hdata1. pose proof (hintfile_header_of_ok hb) as (_ & [Hks Hks'] & _ & _).
  assert (e_heap e1 !! e_brk e = Some hb) as Hb0.
  { rewrite (es_heap _ _ _ _ Hst1). apply lookup_insert_eq. }
  rewrite (bind_run _ _ _ _ _ (get_hintfile_record_header_run e1
    (set_iov_base 0 (base_ptr (Some (e_brk e))) [v0; v1]) _ _ _ eq_refl Hb0 Hhb)).
  set (h := hintfile_header_of hb) in *.
  assert (calm e1) as Hc1 by by eapply env_grow_calm.
  destruct (iter_key_read e e1 iter ino content hb (hf_key_size h))
    as (e4 & Hrun4 & Hg4 & Hst4); try done.
  { by eapply iter_at_grow. }
  { pose proof (suffix_length _ _ (eg_events _ _ Hg1)). lia. }
  cbv zeta. erewrite bind_run by exact (malloc_ok _ e1 (calm_malloc_head e1 Hc1)). cbv iota.
  assert (e_brk e1 = e_brk e + 1) as -> by apply (es_brk _ _ _ _ Hst1).
  erewrite bind_run by exact Hrun4.
  case_bool_decide as Hok.
  - rewrite bool_decide_eq_true_2 by tauto. exists e4. destruct Hok as [Hlen Hks0].
    assert (zlen (slice 20 (hf_key_size h) (it_rest iter content)) = hf_key_size h) as Hk
      by (apply zlen_slice; lia).
    cbn [hr_header hr_key]. unfold hint_record_size. cbn [hr_key]. rewrite Hk.
    split; [|subst h; rewrite hintfile_header_bytes_of by done; apply Hst4; done].
    unfold mret, M_ret. f_equal. f_equal. f_equal. f_equal. f_equal.
    change HINTFILE_RECORD_HEADER_SIZE with 20.
    rewrite u32_small, u64_small by (unfold is_u32, is_u64; lia). done.
  - rewrite (bool_decide_eq_false_2 (_ ∧ _)) by tauto.
    eexists _, _, _, _. split; [reflexivity|]. done.
Qed.
End iterate.

(** Opening an iterator on a file that is there. *)
Lemma iter_opened e e1 f id fd ino app wr content (m : M fstate Z) (iter : ccask_iter) :
  CCASK_ATTEMPT 5 m (e, f) = Ret fd (e1, f) → 0 ≤ fd → env_grow e e1 →
  fd_opened e1 fd ino app wr → inodes e !! ino = Some content → zlen content < 2 ^ 32 → calm e →
  ∃ e', (fd ← CCASK_ATTEMPT 5 m;
         if bool_decide (fd < 0) then mret (CCASK_FAIL, iter)
         else n ← zoom (lseek_end fd); mret (CCASK_OK, Iter id fd 0 (u64 n))) (e, f) =
      Ret (CCASK_OK, Iter id fd 0 (zlen content)) (e', f) ∧
    env_grow e e' ∧ iter_at e' (Iter id fd 0 (zlen content)) ino content.
Proof.
  intros Hrun Hfd Hg Ho Hino Hsm Hc. pose proof (zlen_nonneg content).
  destruct (lseek_end_ok e1 fd ino app wr content Ho) as (e2 & Hseek & Hfr).
  { by rewrite (eg_inodes _ _ Hg). }
  { by apply calm_head, (env_grow_calm _ _ Hg). }
  exists e2. split; [|split].
  - erewrite bind_run by exact Hrun. rewrite bool_decide_eq_false_2 by lia.
    erewrite bind_run by exact (zoom_fst _ _ _ _ _ Hseek).
    by rewrite u64_small by (unfold is_u64; lia).
  - eapply env_grow_trans; [exact Hg|]. by apply env_step_grow, io_frame_step.
  - constructor; simpl; try done.
    + exists app, wr. by eapply io_frame_fd.
    + rewrite (io_frame_inodes _ _ _ _ Hfr), (eg_inodes _ _ Hg). done.
Qed.

Lemma datafile_iter_open_ok e f a dir id ino content iter :
  fs_data_dir f = Some (a, dir) → dir ≠ EmptyString → kernel_wf (e_kernel e) →
  data_ino (e, f) id = Some ino → inodes e !! ino = Some content → zlen content < 2 ^ 32 →
  calm e → heap_wf e →
  ∃ e', let it := Iter id (k_next_fd (e_kernel e)) 0 (zlen content) in
    CCASK_ATTEMPT 5 (ccask_datafile_iter_open id iter) (e, f) = Ret (CCASK_OK, it) (e', f) ∧
    env_grow e e' ∧ iter_at e' it ino content.
Proof.
  intros. destruct (get_datafile_fd_ok e f a dir id ino) as (e1 & Hrun & ? & ? & ?); [done..|].
  destruct (iter_opened e e1 f id _ ino false false content _ iter Hrun) as (e' & Ho & ? & ?);
    [done..|]. exists e'. by split; [eapply attempt_once; [exact Ho|]|].
Qed.

Lemma hintfile_iter_open_ok e f a dir id ino content iter :
  fs_data_dir f = Some (a, dir) → dir ≠ EmptyString → kernel_wf (e_kernel e) →
  hint_ino (e, f) id = Some ino → inodes e !! ino = Some content → zlen content < 2 ^ 32 →
  calm e → heap_wf e →
  ∃ e', let it := Iter id (k_next_fd (e_kernel e)) 0 (zlen content) in
    CCASK_ATTEMPT 5 (ccask_hintfile_iter_open id iter) (e, f) = Ret (CCASK_OK, it) (e', f) ∧
    env_grow e e' ∧ iter_at e' it ino content.
Proof.
  intros. destruct (get_hintfile_fd_ok e f a dir id ino) as (e1 & Hrun & ? & ? & ?); [done..|].
  destruct (iter_opened e e1 f id _ ino true true content _ iter Hrun) as (e' & Ho & ? & ?);
    [done..|]. exists e'. by split; [eapply attempt_once; [exact Ho|]|].
Qed.
