(* ===== verification/World.v ===== *)
(** * World: the whole state of the program

    The components keep their statics; [world] puts them together with the
    environment, so that a function that calls into several of them can run
    the operations of each with [zoom].  It also holds the threads that were
    started and have not been joined. *)
From S2P Require Import Prelude Status Posix Records Ringbuf Keydir Filenames Files Disk.

(** The three thread functions, with their arguments; a hint thread is told
    apart by its handle. *)
Inductive thread : Type :=
  | TWriter                          (* writer_thread_main *)
  | THint (handle file : Z)          (* hintfile_generator_thread *)
  | TInvalidator (file : Z).         (* datafile_fd_invalidator_thread *)

#[export] Instance thread_eq_dec : EqDecision thread.
Proof. solve_decision. Defined.

(** [thread_handle_t] of [hint.c]; the list [threads] is newest first. *)
Record thread_handle_t := ThreadHandle { th_at : Z; th_thread : thread }.

Record world := World {
  w_env : env;
  w_files : files_state;
  w_keydir : keydir;
  w_ring : option ccask_writer_ringbuf;
  w_threads : list thread_handle_t;     (* [threads] of hint.c *)
  w_running : list thread;
  w_shutting_down : bool;               (* [is_shutting_down] of core.c *)
}.

Definition set_w_ring (x : option ccask_writer_ringbuf) (w : world) : world :=
  World (w_env w) (w_files w) (w_keydir w) x (w_threads w) (w_running w) (w_shutting_down w).
Definition set_w_threads (x : list thread_handle_t) (w : world) : world :=
  World (w_env w) (w_files w) (w_keydir w) (w_ring w) x (w_running w) (w_shutting_down w).
Definition set_w_running (x : list thread) (w : world) : world :=
  World (w_env w) (w_files w) (w_keydir w) (w_ring w) (w_threads w) x (w_shutting_down w).
Definition set_w_shutting_down (x : bool) (w : world) : world :=
  World (w_env w) (w_files w) (w_keydir w) (w_ring w) (w_threads w) (w_running w) x.

#[export, refine] Instance part_env : Part env world :=
  {| part := w_env;
     set_part e w := World e (w_files w) (w_keydir w) (w_ring w) (w_threads w)
                       (w_running w) (w_shutting_down w) |}.
Proof. all: intros; try destruct w; reflexivity. Defined.

#[export, refine] Instance part_files : Part fstate world :=
  {| part w := (w_env w, w_files w);
     set_part s w := World s.1 s.2 (w_keydir w) (w_ring w) (w_threads w)
                       (w_running w) (w_shutting_down w) |}.
Proof. all: intros; try destruct w; try destruct e; reflexivity. Defined.

#[export, refine] Instance part_keydir : Part kdstate world :=
  {| part w := (w_env w, w_keydir w);
     set_part s w := World s.1 (w_files w) s.2 (w_ring w) (w_threads w)
                       (w_running w) (w_shutting_down w) |}.
Proof. all: intros; try destruct w; try destruct e; reflexivity. Defined.

#[export, refine] Instance part_ring : Part rstate world :=
  {| part w := (w_env w, w_ring w);
     set_part s w := World s.1 (w_files w) (w_keydir w) s.2 (w_threads w)
                       (w_running w) (w_shutting_down w) |}.
Proof. all: intros; try destruct w; try destruct e; reflexivity. Defined.

(** [pthread_create]: [0], or an error number, which is positive. *)
Definition pthread_create (t : thread) : M world Z :=
  ok ← zoom thread_started;
  if ok : bool then _ ← modify (λ w, set_w_running (t :: w_running w) w); mret 0
  else mret 11.

(** [pthread_join]: the rest of the thread's body runs, if it is not over. *)
Definition pthread_join (body : thread → M world unit) (t : thread) : M world unit :=
  w ← get;
  if bool_decide (t ∈ w_running w) then
    _ ← body t; modify (λ w, set_w_running (filter (λ u, u ≠ t) (w_running w)) w)
  else mret tt.

(** Running an operation of a component in a world. *)
Section zoom.
Context {A : Type} (e e' : env) (f f' : files_state) (kd kd' : keydir)
  (rg rg' : option ccask_writer_ringbuf) (th : list thread_handle_t) (ru : list thread)
  (sd : bool) (a : A).

Lemma zoom_env (m : M env A) :
  m e = Ret a e' → zoom m (World e f kd rg th ru sd) = Ret a (World e' f kd rg th ru sd).
Proof. intros H. unfold zoom. simpl. by rewrite H. Qed.
Lemma zoom_files (m : M fstate A) :
  m (e, f) = Ret a (e', f') → zoom m (World e f kd rg th ru sd) = Ret a (World e' f' kd rg th ru sd).
Proof. intros H. unfold zoom. simpl. by rewrite H. Qed.
Lemma zoom_keydir (m : M kdstate A) :
  m (e, kd) = Ret a (e', kd') → zoom m (World e f kd rg th ru sd) = Ret a (World e' f kd' rg th ru sd).
Proof. intros H. unfold zoom. simpl. by rewrite H. Qed.
Lemma zoom_ring (m : M rstate A) :
  m (e, rg) = Ret a (e', rg') → zoom m (World e f kd rg th ru sd) = Ret a (World e' f kd rg' th ru sd).
Proof. intros H. unfold zoom. simpl. by rewrite H. Qed.
End zoom.

(** Attempts of an operation of a component. *)
Lemma zoom_attempt {E W A} `{!Part E W} `{!Attempt A} n (m : M E A) (w : W) :
  CCASK_ATTEMPT n (zoom m) w = zoom (CCASK_ATTEMPT n m) w.
Proof.
  revert w. induction n as [|n IH]; intros w; [done|].
  rewrite !attempt_S.
  unfold mbind, M_bind. cbn beta. unfold zoom at 1 3. cbn beta.
  destruct (m (part w)) as [a e| | |]; [|done..].
  destruct (is_retry a); [|done]. destruct n as [|n]; [done|].
  rewrite IH. unfold zoom. rewrite part_set.
  destruct (CCASK_ATTEMPT (S n) m e); [by rewrite set_part_twice | done..].
Qed.

Lemma zoom_attempt_files {A} `{!Attempt A} n (m : M fstate A) e e' f f' kd rg th ru sd a :
  CCASK_ATTEMPT n m (e, f) = Ret a (e', f') →
  CCASK_ATTEMPT n (zoom m) (World e f kd rg th ru sd) = Ret a (World e' f' kd rg th ru sd).
Proof. intros H. rewrite zoom_attempt. by apply zoom_files. Qed.

Lemma zoom_attempt_keydir {A} `{!Attempt A} n (m : M kdstate A) e e' f kd kd' rg th ru sd a :
  CCASK_ATTEMPT n m (e, kd) = Ret a (e', kd') →
  CCASK_ATTEMPT n (zoom m) (World e f kd rg th ru sd) = Ret a (World e' f kd' rg th ru sd).
Proof. intros H. rewrite zoom_attempt. by apply zoom_keydir. Qed.

Lemma pthread_create_calm t e f kd rg th ru sd :
  calm e → ∃ e', env_grow e e' ∧
    CCASK_ATTEMPT 5 (pthread_create t) (World e f kd rg th ru sd) =
    Ret 0 (World e' f kd rg th (t :: ru) sd).
Proof.
  intros (ev & e' & Hev & Hno & Hg)%next_event_calm. exists e'. split; [done|].
  eapply attempt_once; [|done]. unfold pthread_create.
  erewrite bind_run; [|apply zoom_env; unfold thread_started; erewrite bind_run by exact Hev;
    by destruct ev]. done.
Qed.
