(* ===== verification/Hint.v ===== *)
(** * Hint: generating the hint file of a data file

    Models [hint.c]: the thread that copies the keys of a data file that is
    no longer active into its hint file, and the list of those threads. *)
From S2P Require Import Prelude Status Posix SafeIO Codec Records Ringbuf Uthash Keydir.
From S2P Require Import Filenames Files Iterator World.

Definition sizeof_thread_handle : Z := 16.

Definition ccask_hintfile_generator_init : M world unit := modify (set_w_threads []).

Section hint.
Context {host : Host}.
Variable fuel : nat.

(** The code at the label [generation_failed], up to the [return]. *)
Definition generation_failed (id fd : Z) (iter : ccask_datafile_iter_t)
    (record : ccask_datafile_record_t) (hint_record : ccask_hintfile_record_t) : M world unit :=
  _ ← zoom (free_datafile_record record);
  _ ← zoom (free_hintfile_record hint_record);
  _ ← zoom (ccask_datafile_iter_close iter);
  _ ← zoom (sys_close fd);
  _ ← CCASK_ATTEMPT 5 (zoom (ccask_files_delete id FILE_HINT));
  mret tt.

(** One turn of the [while]: the arrays keep what earlier turns left.  [true]
    when the loop goes on to its next turn, [false] when the thread gave up. *)
Definition hint_turn (id fd : Z) (iter : ccask_datafile_iter_t)
    (record : ccask_datafile_record_t) (hint_record : ccask_hintfile_record_t)
    (record_pos : Z) : M world (bool * ccask_hintfile_record_t) :=
  header ← zoom (ccask_get_datafile_record_header record);
  key ← zoom (heap_buf (ccask_get_datafile_record_key record));
  '(res, hint_record) ← zoom (ccask_create_hintfile_record hint_record
      (df_timestamp header) (df_key_size header) (df_value_size header) record_pos key);
  match res with
  | CCASK_OK =>
      res ← zoom (safe_writev fuel fd hint_record);
      match res with
      | CCASK_OK =>
          _ ← zoom (free_datafile_record record);
          _ ← zoom (free_hintfile_record hint_record);
          mret (true, hint_record)
      | _ => _ ← generation_failed id fd iter record hint_record; mret (false, hint_record)
      end
  | _ => _ ← generation_failed id fd iter record hint_record; mret (false, hint_record)
  end.

(** The [while], and whether it ended without giving up. *)
Fixpoint hint_loop (n : nat) (id fd : Z) (iter : ccask_datafile_iter_t)
    (record : ccask_datafile_record_t) (hint_record : ccask_hintfile_record_t)
    (record_pos : Z) : M world (bool * ccask_datafile_iter_t) :=
  match n with
  | O => no_fuel
  | S n' =>
      '(res, iter, record, record_pos) ←
        zoom (ccask_datafile_iter_next fuel iter record record_pos);
      match res with
      | CCASK_OK =>
          '(go_on, hint_record) ← hint_turn id fd iter record hint_record record_pos;
          if go_on : bool then hint_loop n' id fd iter record hint_record record_pos
          else mret (false, iter)
      | _ => mret (true, iter)
      end
  end.

Definition hintfile_generator_thread (file : Z) : M world unit :=
  n ← zoom (node file);
  let id := file_id n in
  hintfile_fd ← CCASK_ATTEMPT 5 (zoom (ccask_files_get_hintfile_fd id));
  if bool_decide (hintfile_fd < 0) then mret tt
  else
    '(res, iter) ← CCASK_ATTEMPT 5 (zoom (ccask_datafile_iter_open id (Iter 0 0 0 0)));
    match res with
    | CCASK_OK =>
        '(completed, iter) ← hint_loop fuel id hintfile_fd iter
            datafile_record_garbage hintfile_record_garbage 0;
        if completed : bool then
          _ ← zoom (ccask_datafile_iter_close iter);
          _ ← zoom (sys_close hintfile_fd);
          zoom (set_node file (set_file_has_hint true))
        else mret tt
    | _ => mret tt
    end.

Definition hint_body (t : thread) : M world unit :=
  match t with THint _ file => hintfile_generator_thread file | _ => mret tt end.

Fixpoint join_all (curr : list thread_handle_t) : M world unit :=
  match curr with
  | [] => mret tt
  | h :: curr' =>
      _ ← pthread_join hint_body (th_thread h);
      _ ← zoom (free (Some (th_at h, 0)));
      join_all curr'
  end.

Definition ccask_hintfile_generator_shutdown : M world unit :=
  w ← get; join_all (w_threads w).
End hint.

Definition ccask_hintfile_generate (file : Z) : M world ccask_status_e :=
  handle ← zoom (malloc sizeof_thread_handle);
  match handle with
  | None => _ ← zoom (set_ccask_errno CCASK_ERR_NO_MEMORY); mret CCASK_RETRY
  | Some handle =>
      res ← CCASK_ATTEMPT 5 (pthread_create (THint handle file));
      if bool_decide (res ≠ 0) then
        _ ← zoom (free (Some (handle, 0)));
        _ ← zoom (set_ccask_errno CCASK_ERR_COULDNT_START_THREAD);
        mret CCASK_FAIL
      else
        _ ← modify (λ w, set_w_threads (ThreadHandle handle (THint handle file) :: w_threads w) w);
        mret CCASK_OK
  end.

(** [ccask_files_rotate] of [files.c].  The result of the last call is
    assigned and not looked at. *)
Definition ccask_files_rotate : M world ccask_status_e :=
  file ← zoom (malloc sizeof_file);
  match file with
  | None => _ ← zoom (set_ccask_errno CCASK_ERR_NO_MEMORY); mret CCASK_FAIL
  | Some file =>
      f ← zoom files;
      head ← deref (fs_head f);
      n ← zoom (node head);
      res ← zoom (create_new_active_datafile (u64 (file_id n + 1)) file);
      if bool_decide (res ≠ CCASK_OK) then mret CCASK_FAIL
      else
        n ← zoom (node head);
        _ ← zoom (sys_close (file_fd n));
        _ ← zoom (set_node head (λ n, set_file_is_active false (set_file_fd (-1) n)));
        _ ← zoom (add_file file);
        f ← zoom files;
        head ← deref (fs_head f);
        n ← zoom (node head);
        file ← deref (file_next n);
        _ ← CCASK_ATTEMPT 5 (ccask_hintfile_generate file);
        mret CCASK_OK
  end.
