(* ===== verification/Recovery.v ===== *)
(** * Recovery: rebuilding the key directory from the files

    Models [recover_hintfile], [recover_datafile], [keydir_recover] and
    [ccask_keydir_init] of [keydir.c]. *)
From S2P Require Import Prelude Status Posix SafeIO Codec Records Ringbuf Uthash Keydir Log.
From S2P Require Import Filenames Files Disk Iterator World.

Section recovery.
Context {host : Host}.
Variable fuel : nat.

(** The [while] over a hint file: [false] when an entry was not accepted. *)
Fixpoint recover_hintfile_loop (n : nat) (id : Z) (iter : ccask_hintfile_iter_t)
    (record : ccask_hintfile_record_t) (record_pos : Z) :
    M world (bool * ccask_hintfile_iter_t) :=
  match n with
  | O => no_fuel
  | S n' =>
      '(res, iter, record, record_pos) ←
        zoom (ccask_hintfile_iter_next fuel iter record record_pos);
      match res with
      | CCASK_OK =>
          header ← zoom (ccask_get_hintfile_record_header record);
          key ← zoom (heap_buf (ccask_get_hintfile_record_key record));
          res ← CCASK_ATTEMPT 5 (zoom (ccask_keydir_upsert key (hf_key_size header) id
                   (hf_record_pos header) (hf_value_size header) (hf_timestamp header)));
          _ ← zoom (free_hintfile_record record);
          match res with
          | CCASK_OK => recover_hintfile_loop n' id iter record record_pos
          | _ => mret (false, iter)
          end
      | _ => mret (true, iter)
      end
  end.

Definition recover_hintfile (file : Z) : M world ccask_status_e :=
  n ← zoom (node file);
  '(res, iter) ← CCASK_ATTEMPT 5 (zoom (ccask_hintfile_iter_open (file_id n) (Iter 0 0 0 0)));
  match res with
  | CCASK_OK =>
      '(ok, iter) ← recover_hintfile_loop fuel (file_id n) iter hintfile_record_garbage 0;
      _ ← zoom (ccask_hintfile_iter_close iter);
      mret (if ok : bool then CCASK_OK else CCASK_FAIL)
  | _ => mret CCASK_FAIL
  end.

Fixpoint recover_datafile_loop (n : nat) (id : Z) (iter : ccask_datafile_iter_t)
    (record : ccask_datafile_record_t) (record_pos : Z) :
    M world (bool * ccask_datafile_iter_t) :=
  match n with
  | O => no_fuel
  | S n' =>
      '(res, iter, record, record_pos) ←
        zoom (ccask_datafile_iter_next fuel iter record record_pos);
      match res with
      | CCASK_OK =>
          header ← zoom (ccask_get_datafile_record_header record);
          key ← zoom (heap_buf (ccask_get_datafile_record_key record));
          res ← CCASK_ATTEMPT 5 (zoom (ccask_keydir_upsert key (df_key_size header) id
                   record_pos (df_value_size header) (df_timestamp header)));
          _ ← zoom (free_datafile_record record);
          match res with
          | CCASK_OK => recover_datafile_loop n' id iter record record_pos
          | _ => mret (false, iter)
          end
      | _ => mret (true, iter)
      end
  end.

Definition recover_datafile (file : Z) : M world ccask_status_e :=
  n ← zoom (node file);
  '(res, iter) ← CCASK_ATTEMPT 5 (zoom (ccask_datafile_iter_open (file_id n) (Iter 0 0 0 0)));
  match res with
  | CCASK_OK =>
      '(ok, iter) ← recover_datafile_loop fuel (file_id n) iter datafile_record_garbage 0;
      _ ← zoom (ccask_datafile_iter_close iter);
      mret (if ok : bool then CCASK_OK else CCASK_FAIL)
  | _ => mret CCASK_FAIL
  end.

(** From the oldest file to the newest one. *)
Fixpoint keydir_recover_loop (n : nat) (file : option Z) : M world ccask_status_e :=
  match n with
  | O => no_fuel
  | S n' =>
      match file with
      | None => mret CCASK_OK
      | Some p =>
          x ← zoom (node p);
          status ← (if file_has_hint x then recover_hintfile p else recover_datafile p);
          match status with
          | CCASK_OK => x ← zoom (node p); keydir_recover_loop n' (file_previous x)
          | _ => mret CCASK_FAIL
          end
      end
  end.

Definition keydir_recover : M world ccask_status_e :=
  file ← zoom ccask_files_get_oldest_file;
  f ← zoom files;
  keydir_recover_loop (1 + size (fs_nodes f)) file.

Definition ccask_keydir_init : M world ccask_status_e :=
  _ ← zoom (modify (λ s : kdstate, (s.1, Keydir [] rwlock_new)));
  keydir_recover.
End recovery.

(** ** The directory that the files stand for *)

(** The records of the data file [id]. *)
Definition log_of (s : fstate) (id : Z) : list log_record :=
  match data_content s id with Some c => records_of c | None => [] end.

(** From the oldest file, at the end of the list, to the newest one. *)
Definition recovered_index (s : fstate) (l : list Z) (m : gmap bytes kd_info) :
    gmap bytes kd_info :=
  foldr (λ p m, let id := node_id (fs_nodes s.2) p in index_log id 0 (log_of s id) m) m l.

(** Every data file is there, a hint file that exists says the same as its
    data file; no data file has more than [n] bytes, and no hint file more
    than twice as many. *)
Record recoverable (s : fstate) (l : list Z) (n : nat) : Prop := {
  rc_small : 2 * Z.of_nat n < 2 ^ 32;
  rc_data : ∀ p x, p ∈ l → fs_nodes s.2 !! p = Some x →
    ∃ c, data_content s (file_id x) = Some c ∧ (length c ≤ n)%nat;
  rc_hint : ∀ p x, p ∈ l → fs_nodes s.2 !! p = Some x → file_has_hint x = true →
    ∃ c, hint_content s (file_id x) = Some c ∧ (length c ≤ 2 * n)%nat ∧
      hints_of_file c = hints_of 0 (log_of s (file_id x));
}.

Lemma log_of_grow e e' f id : env_grow e e' → log_of (e', f) id = log_of (e, f) id.
Proof.
  intros Hg. unfold log_of. by rewrite (data_content_grow e e') by done.
Qed.

Lemma recoverable_grow e e' f l n :
  env_grow e e' → recoverable (e, f) l n → recoverable (e', f) l n.
Proof.
  intros Hg [H1 H2 H3]. constructor; [done | |]; intros p x Hp Hx; simpl in *.
  - rewrite (data_content_grow e e') by done. by eapply H2.
  - intros Hh. rewrite (hint_content_grow e e'), (log_of_grow e e') by done. by eapply H3.
Qed.

Lemma recovered_index_cons e f p l m :
  recovered_index (e, f) (p :: l) m =
  index_log (node_id (fs_nodes f) p) 0 (log_of (e, f) (node_id (fs_nodes f) p))
    (recovered_index (e, f) l m).
Proof. reflexivity. Qed.

Lemma recovered_index_grow e e' f l m :
  env_grow e e' → recovered_index (e', f) l m = recovered_index (e, f) l m.
Proof.
  intros Hg. induction l as [|p l IH]; [done|].
  rewrite !recovered_index_cons, IH. by rewrite (log_of_grow e e').
Qed.

Lemma recovered_index_app s l k m :
  recovered_index s (l ++ k) m = recovered_index s l (recovered_index s k m).
Proof. apply foldr_app. Qed.

(** ** Recovery on a calm machine *)

Lemma keydir_ok_grow e e' kd : env_grow e e' → keydir_ok (e, kd) → keydir_ok (e', kd).
Proof.
  intros Hg Hkd. apply (keydir_ok_frame e); [done | |].
  - eapply env_grow_heap_wf; [done | apply (keydir_heap _ Hkd)].
  - intros a [blk Ha]. rewrite Ha. eapply lookup_weaken; [done | by apply eg_heap].
Qed.

(** An entry made from blocks that were allocated since [e0] and are then
    freed: the directory has it, and of the blocks nothing is left. *)
Lemma upsert_then_free e0 e kd key ks k fid pos vs ts :
  keydir_ok (e0, kd) → env_grow e0 e → calm e → cbuf_read key ks = Some k →
  ∃ e1 kd',
    ccask_keydir_upsert key ks fid pos vs ts (e, kd) = Ret CCASK_OK (e1, kd') ∧
    e_heap e ⊆ e_heap e1 ∧
    keydir_map kd' = <[k := KdInfo fid pos vs ts]> (keydir_map kd) ∧
    kd_new (e_brk e0) kd kd' ∧
    ∀ h, (∀ a, h !! a = if decide (e_brk e0 ≤ a < e_brk e) then None else e_heap e1 !! a) →
      env_grow e0 (set_heap h e1) ∧ keydir_ok (set_heap h e1, kd').
Proof.
  intros Hok Hg Hc Hk. pose proof (keydir_heap _ Hok) as Hwf0. simpl in Hwf0.
  pose proof (env_grow_heap_wf _ _ Hg Hwf0) as Hwf.
  assert (keydir_ok (e, kd)) as Hok' by by eapply keydir_ok_grow.
  destruct (wp_inv _ _ _ (keydir_upsert_ok (e, kd) key ks k fid pos vs ts Hok' Hk
    (calm_mallocs 2 e Hc))) as (r & [e1 kd'] & Hrun & -> & Hok1 & Hmap & He & Hbl).
  simpl in Hmap, He, Hbl.
  assert (env_grow e e1) as Hg1.
  { destruct He as [-> | ->]; [apply env_grow_refl|].
    eapply env_grow_trans; apply put_block_grow; eauto with ccask. }
  pose proof (env_grow_trans _ _ _ Hg Hg1) as Hg01.
  exists e1, kd'. split; [done|]. split; [by apply eg_heap|]. split; [done|].
  split; [intros c [?|?]%Hbl; [by left | right; pose proof (eg_brk _ _ Hg); lia]|].
  intros h Hh. split.
  - destruct Hg01. constructor; try done; simpl.
    + apply map_subseteq_spec. intros a blk Ha. rewrite Hh.
      rewrite decide_False by (pose proof (Hwf0 a ltac:(eauto)); lia). by eapply lookup_weaken.
    + intros a. rewrite Hh. case_decide; [by intros []|]. apply eg_fresh.
  - apply (keydir_ok_blocks e1); [done | |].
    + intros a. simpl. rewrite Hh. case_decide; [by intros []|]. apply (keydir_heap _ Hok1).
    + intros a Ha. simpl. rewrite Hh. rewrite decide_False; [done|].
      apply Hbl in Ha as [Ha|Ha]; [|lia].
      pose proof (kd_blocks_live _ _ _ (keydir_table _ Hok) Ha) as Hlive%Hwf0. lia.
Qed.

Section recover.
Context {host : Host} (fuel : nat) (f : files_state) (rg : option ccask_writer_ringbuf)
  (th : list thread_handle_t) (ru : list thread) (sd : bool).

#[local] Arguments ccask_datafile_iter_next : simpl never.
#[local] Arguments ccask_hintfile_iter_next : simpl never.
#[local] Arguments ccask_keydir_upsert : simpl never.
#[local] Arguments free : simpl never.

Lemma iter_at_next e e' iter ino content n :
  iter_at e iter ino content → env_grow e e' → 0 ≤ n ≤ zlen (it_rest iter content) →
  iter_at e' (set_it_offset (it_offset iter + n) iter) ino content ∧
  it_rest (set_it_offset (it_offset iter + n) iter) content =
    drop (Z.to_nat n) (it_rest iter content).
Proof.
  intros Hi Hg Hn. rewrite (zlen_it_rest _ _ _ _ Hi) in Hn.
  pose proof (ia_offset _ _ _ _ Hi). split.
  - eapply iter_at_grow; [done|]. destruct Hi. constructor; simpl; try done. lia.
  - unfold it_rest. simpl. rewrite drop_drop. f_equal. lia.
Qed.

(** The loop over a data file enters its records, one after the other. *)
Lemma recover_datafile_loop_ok id n e kd iter v0 v1 v2 rp ino content :
  iter_at e iter ino content → calm e → keydir_ok (e, kd) →
  (length (events e) + length content + 16 < fuel)%nat →
  (length (it_rest iter content) < n)%nat →
  ∃ iter' e' kd',
    recover_datafile_loop fuel n id iter [v0; v1; v2] rp (World e f kd rg th ru sd) =
      Ret (true, iter') (World e' f kd' rg th ru sd) ∧
    it_fd iter' = it_fd iter ∧ env_grow e e' ∧ keydir_ok (e', kd') ∧
    keydir_map kd' = index_log id (it_offset iter) (records_of (it_rest iter content)) (keydir_map kd) ∧
    kd_new (e_brk e) kd kd'.
Proof.
  revert e kd iter v0 v1 v2 rp. induction n as [|n IH]; intros e kd iter v0 v1 v2 rp Hi Hc Hkd Hfuel Hn;
    [lia|].
  pose proof (keydir_heap _ Hkd) as Hwf. simpl in Hwf. cbn [recover_datafile_loop].
  pose proof (datafile_iter_next_ok fuel e iter ino content v0 v1 v2 rp Hi Hc Hwf Hfuel) as Hnext.
  rewrite records_of_eq. destruct (next_record (it_rest iter content)) as [r|] eqn:Hr.
  2: { destruct Hnext as (iter' & record & rp' & e' & Hrun & Hfd & Hg).
       erewrite bind_run by apply zoom_env, Hrun. exists iter', e', kd. split; [reflexivity|].
       split; [done|]. split; [done|]. split; [by eapply keydir_ok_grow|]. split; [done|].
       apply kd_new_refl. }
  destruct Hnext as (e1 & Hrun & Hst). cbv zeta in Hst.
  pose proof (next_record_Some _ _ Hr) as (Hrok & Hsz & _).
  pose proof (log_record_size_pos _ Hrok). pose proof Hrok as [(Hh & Hks & Hvs) _].
  destruct r as [h k v]. cbn [lr_header lr_key lr_value] in *.
  destruct (three_blocks_lookup (datafile_header_bytes h) k v e) as (Hb0 & Hb1 & Hb2 & _).
  set (e3 := three_blocks _ _ _ e) in *.
  pose proof (es_heap _ _ _ _ Hst) as Hh1. rewrite <-Hh1 in Hb0, Hb1, Hb2.
  pose proof (three_blocks_grow (datafile_header_bytes h) k v e Hwf) as Hg3. fold e3 in Hg3.
  assert (env_grow e e1) as Hg1 by (eapply env_grow_trans; [exact Hg3 | by apply env_step_grow]).
  assert (calm e1) as Hc1 by by eapply env_grow_calm.
  destruct (upsert_then_free e e1 kd (Some k) (df_key_size h) k id (it_offset iter)
    (df_value_size h) (df_timestamp h)) as (e4 & kd4 & Hup & Hsub & Hmap & Hnew4 & Hfree);
    [done | done | done | rewrite <-Hks; apply cbuf_read_all |].
  assert (∀ a blk, e_heap e1 !! a = Some blk → e_heap e4 !! a = Some blk) as Hkeep.
  { intros a blk Ha. by eapply lookup_weaken. }
  set (b := e_brk e) in *.
  destruct (Hfree (delete (b + 2) (delete (b + 1) (delete b (e_heap e4))))) as [Hg5 Hkd5].
  { intros a. assert (e_brk e1 = b + 1 + 1 + 1) as -> by apply (es_brk _ _ _ _ Hst).
    rewrite !lookup_delete. repeat case_decide; done || lia. }
  set (e5 := set_heap _ e4) in *.
  destruct (iter_at_next e e5 iter ino content (log_record_size (LogRecord h k v)) Hi Hg5 ltac:(lia))
    as [Hi5 Hrest5].
  destruct (IH e5 kd4 _ (IOV (Some (b, 0)) (iov_len v0)) (IOV (Some (b + 1, 0)) (zlen k))
    (IOV (Some (b + 2, 0)) (zlen v)) (it_offset iter) Hi5) as (iter' & e' & kd' & Hloop & Hfd & Hg & Hok & Hm & Hnew').
  { by eapply env_grow_calm. }
  { done. }
  { pose proof (suffix_length _ _ (eg_events _ _ Hg5)). lia. }
  { rewrite Hrest5, length_drop. zlen_lia. }
  exists iter', e', kd'. split.
  2: { split; [done|]. split; [by eapply env_grow_trans|]. split; [done|].
       split; [rewrite Hm, Hrest5, Hmap; reflexivity|].
       eapply kd_new_trans; [exact Hnew4 | exact Hnew' | apply (eg_brk _ _ Hg5)]. }
  erewrite bind_run by apply zoom_env, Hrun. cbv beta iota.
  erewrite bind_run by apply zoom_env, (get_datafile_record_header_run e1
    (iter_record b v0 (zlen k) (zlen v)) b (iov_len v0) _ eq_refl Hb0
    (zlen_datafile_header h)).
  rewrite datafile_header_of_bytes by done.
  erewrite bind_run by apply zoom_env, (heap_buf_run e1 (b + 1) k Hb1).
  erewrite bind_run by (eapply zoom_attempt_keydir, attempt_once; [exact Hup | done]).
  erewrite bind_run; [exact Hloop|].
  apply zoom_env, (free_datafile_iov e4 b (zlen k) (zlen v)); eauto.
Qed.

(** The loop over a hint file. *)
Lemma recover_hintfile_loop_ok id n e kd iter v0 v1 rp ino content :
  iter_at e iter ino content → calm e → keydir_ok (e, kd) →
  (length (events e) + length content + 20 < fuel)%nat →
  (length (it_rest iter content) < n)%nat →
  ∃ iter' e' kd',
    recover_hintfile_loop fuel n id iter [v0; v1] rp (World e f kd rg th ru sd) =
      Ret (true, iter') (World e' f kd' rg th ru sd) ∧
    it_fd iter' = it_fd iter ∧ env_grow e e' ∧ keydir_ok (e', kd') ∧
    keydir_map kd' = index_hints id (hints_of_file (it_rest iter content)) (keydir_map kd) ∧
    kd_new (e_brk e) kd kd'.
Proof.
  revert e kd iter v0 v1 rp. induction n as [|n IH]; intros e kd iter v0 v1 rp Hi Hc Hkd Hfuel Hn;
    [lia|].
  pose proof (keydir_heap _ Hkd) as Hwf. simpl in Hwf. cbn [recover_hintfile_loop].
  pose proof (hintfile_iter_next_ok fuel e iter ino content v0 v1 rp Hi Hc Hwf Hfuel) as Hnext.
  rewrite hints_of_file_eq. destruct (next_hint (it_rest iter content)) as [r|] eqn:Hr.
  2: { destruct Hnext as (iter' & record & rp' & e' & Hrun & Hfd & Hg).
       erewrite bind_run by apply zoom_env, Hrun. exists iter', e', kd. split; [reflexivity|].
       split; [done|]. split; [done|]. split; [by eapply keydir_ok_grow|]. split; [done|].
       apply kd_new_refl. }
  destruct Hnext as (e1 & Hrun & Hst). cbv zeta in Hst.
  pose proof (next_hint_Some _ _ Hr) as (Hrok & Hsz & _).
  pose proof (hint_record_size_pos r). pose proof Hrok as [[Hh Hks] _].
  destruct r as [h k]. cbn [hr_header hr_key] in *.
  set (b := e_brk e) in *. set (e2 := put_block k _) in *.
  pose proof (es_heap _ _ _ _ Hst) as Hh1.
  assert (e_heap e1 !! b = Some (hintfile_header_bytes h)) as Hb0.
  { rewrite Hh1. simpl. by rewrite lookup_insert_ne, lookup_insert_eq by lia. }
  assert (e_heap e1 !! (b + 1) = Some k) as Hb1 by (rewrite Hh1; apply lookup_insert_eq).
  assert (env_grow e e1) as Hg1.
  { eapply (env_grow_trans _ e2); [|by apply env_step_grow].
    eapply env_grow_trans; apply put_block_grow; eauto with ccask. }
  assert (calm e1) as Hc1 by by eapply env_grow_calm.
  destruct (upsert_then_free e e1 kd (Some k) (hf_key_size h) k id (hf_record_pos h)
    (hf_value_size h) (hf_timestamp h)) as (e4 & kd4 & Hup & Hsub & Hmap & Hnew4 & Hfree);
    [done | done | done | rewrite <-Hks; apply cbuf_read_all |].
  assert (∀ a blk, e_heap e1 !! a = Some blk → e_heap e4 !! a = Some blk) as Hkeep.
  { intros a blk Ha. by eapply lookup_weaken. }
  destruct (Hfree (delete (b + 1) (delete b (e_heap e4)))) as [Hg5 Hkd5].
  { intros a. assert (e_brk e1 = b + 1 + 1) as -> by apply (es_brk _ _ _ _ Hst).
    rewrite !lookup_delete. repeat case_decide; done || lia. }
  set (e5 := set_heap _ e4) in *.
  destruct (iter_at_next e e5 iter ino content (hint_record_size (HintRecord h k)) Hi Hg5 ltac:(lia))
    as [Hi5 Hrest5].
  destruct (IH e5 kd4 _ (IOV (Some (b, 0)) (iov_len v0)) (IOV (Some (b + 1, 0)) (zlen k))
    (it_offset iter) Hi5) as (iter' & e' & kd' & Hloop & Hfd & Hg & Hok & Hm & Hnew').
  { by eapply env_grow_calm. }
  { done. }
  { pose proof (suffix_length _ _ (eg_events _ _ Hg5)). lia. }
  { rewrite Hrest5, length_drop. zlen_lia. }
  exists iter', e', kd'. split.
  2: { split; [done|]. split; [by eapply env_grow_trans|]. split; [done|].
       split; [rewrite Hm, Hrest5, Hmap; reflexivity|].
       eapply kd_new_trans; [exact Hnew4 | exact Hnew' | apply (eg_brk _ _ Hg5)]. }
  erewrite bind_run by apply zoom_env, Hrun. cbv beta iota.
  erewrite bind_run by apply zoom_env, (get_hintfile_record_header_run e1
    [IOV (Some (b, 0)) (iov_len v0); IOV (Some (b + 1, 0)) (zlen k)] b (iov_len v0) _ eq_refl Hb0
    (zlen_hintfile_header h)).
  rewrite hintfile_header_of_bytes by done.
  erewrite bind_run by apply zoom_env, (heap_buf_run e1 (b + 1) k Hb1).
  erewrite bind_run by (eapply zoom_attempt_keydir, attempt_once; [exact Hup | done]).
  erewrite bind_run; [exact Hloop|].
  apply zoom_env, (free_hintfile_iov e4 b (zlen k)); eauto.
Qed.

#[local] Arguments ccask_datafile_iter_open : simpl never.
#[local] Arguments ccask_hintfile_iter_open : simpl never.
#[local] Arguments sys_close : simpl never.

(** One file: what the directory has afterwards, [log] being the records of
    its data file. *)
Lemma recover_datafile_ok e kd l p x content :
  disk_ok (e, f) l → p ∈ l → fs_nodes f !! p = Some x →
  data_content (e, f) (file_id x) = Some content → zlen content < 2 ^ 32 →
  calm e → keydir_ok (e, kd) → (length (events e) + length content + 20 < fuel)%nat →
  ∃ e' kd',
    recover_datafile fuel p (World e f kd rg th ru sd) =
      Ret CCASK_OK (World e' f kd' rg th ru sd) ∧
    env_grow e e' ∧ keydir_ok (e', kd') ∧
    keydir_map kd' = index_log (file_id x) 0 (records_of content) (keydir_map kd) ∧ kd_new (e_brk e) kd kd'.
Proof.
  intros Hd Hp Hx Hdc Hsm Hc Hkd Hfuel.
  destruct (do_dir _ _ Hd) as (a & dir & Hdir & Hne). pose proof (do_kernel _ _ Hd) as Hk.
  unfold data_content in Hdc. destruct (data_ino (e, f) (file_id x)) as [ino|] eqn:Hino; [|done].
  simpl in Hdc, Hdir, Hk. destruct (datafile_iter_open_ok e f a dir (file_id x) ino content
    (Iter 0 0 0 0)) as (e1 & Hopen & Hg1 & Hi); try done; [apply (keydir_heap _ Hkd)|].
  set (it := Iter (file_id x) _ 0 _) in *.
  destruct (recover_datafile_loop_ok (file_id x) fuel e1 kd it iov_garbage iov_garbage iov_garbage 0
    ino content) as (it' & e2 & kd2 & Hloop & Hfd & Hg2 & Hkd2 & Hmap & Hnew); try done.
  { by eapply env_grow_calm. }
  { by eapply keydir_ok_grow. }
  { pose proof (suffix_length _ _ (eg_events _ _ Hg1)). lia. }
  { change (it_rest it content) with content. lia. }
  destruct (close_grow e e2 (it_fd it')) as (e3 & Hclose & Hg3 & Hh3 & Hb3).
  { by eapply env_grow_trans. }
  { rewrite Hfd. simpl. apply eq_None_not_Some. intros Hin%(kw_fds _ Hk). lia. }
  exists e3, kd2.
  split; [|split; [done|split; [by eapply keydir_ok_same_heap|split; [done|]]]].
  2: { eapply kd_new_trans; [apply kd_new_refl | exact Hnew | apply (eg_brk _ _ Hg1)]. }
  unfold recover_datafile. erewrite bind_run by (by apply zoom_files, node_run).
  erewrite bind_run by apply zoom_attempt_files, Hopen. cbv beta iota.
  erewrite bind_run by exact Hloop. cbv beta iota.
  by erewrite bind_run by apply zoom_env, Hclose.
Qed.

Lemma recover_hintfile_ok e kd l p x content :
  disk_ok (e, f) l → p ∈ l → fs_nodes f !! p = Some x →
  hint_content (e, f) (file_id x) = Some content → zlen content < 2 ^ 32 →
  calm e → keydir_ok (e, kd) → (length (events e) + length content + 20 < fuel)%nat →
  ∃ e' kd',
    recover_hintfile fuel p (World e f kd rg th ru sd) =
      Ret CCASK_OK (World e' f kd' rg th ru sd) ∧
    env_grow e e' ∧ keydir_ok (e', kd') ∧
    keydir_map kd' = index_hints (file_id x) (hints_of_file content) (keydir_map kd) ∧ kd_new (e_brk e) kd kd'.
Proof.
  intros Hd Hp Hx Hdc Hsm Hc Hkd Hfuel.
  destruct (do_dir _ _ Hd) as (a & dir & Hdir & Hne). pose proof (do_kernel _ _ Hd) as Hk.
  unfold hint_content in Hdc. destruct (hint_ino (e, f) (file_id x)) as [ino|] eqn:Hino; [|done].
  simpl in Hdc, Hdir, Hk. destruct (hintfile_iter_open_ok e f a dir (file_id x) ino content
    (Iter 0 0 0 0)) as (e1 & Hopen & Hg1 & Hi); try done; [apply (keydir_heap _ Hkd)|].
  set (it := Iter (file_id x) _ 0 _) in *.
  destruct (recover_hintfile_loop_ok (file_id x) fuel e1 kd it iov_garbage iov_garbage 0
    ino content) as (it' & e2 & kd2 & Hloop & Hfd & Hg2 & Hkd2 & Hmap & Hnew); try done.
  { by eapply env_grow_calm. }
  { by eapply keydir_ok_grow. }
  { pose proof (suffix_length _ _ (eg_events _ _ Hg1)). lia. }
  { change (it_rest it content) with content. lia. }
  destruct (close_grow e e2 (it_fd it')) as (e3 & Hclose & Hg3 & Hh3 & Hb3).
  { by eapply env_grow_trans. }
  { rewrite Hfd. simpl. apply eq_None_not_Some. intros Hin%(kw_fds _ Hk). lia. }
  exists e3, kd2.
  split; [|split; [done|split; [by eapply keydir_ok_same_heap|split; [done|]]]].
  2: { eapply kd_new_trans; [apply kd_new_refl | exact Hnew | apply (eg_brk _ _ Hg1)]. }
  unfold recover_hintfile. erewrite bind_run by (by apply zoom_files, node_run).
  erewrite bind_run by apply zoom_attempt_files, Hopen. cbv beta iota.
  erewrite bind_run by exact Hloop. cbv beta iota.
  by erewrite bind_run by apply zoom_env, Hclose.
Qed.

#[local] Arguments recover_datafile : simpl never.
#[local] Arguments recover_hintfile : simpl never.

(** A file, from its hints or from its records. *)
Lemma recover_file_ok e kd l p x n :
  disk_ok (e, f) l → recoverable (e, f) l n → p ∈ l → fs_nodes f !! p = Some x →
  calm e → keydir_ok (e, kd) → (length (events e) + 2 * n + 20 < fuel)%nat →
  ∃ e' kd',
    (if file_has_hint x then recover_hintfile fuel p else recover_datafile fuel p)
      (World e f kd rg th ru sd) = Ret CCASK_OK (World e' f kd' rg th ru sd) ∧
    env_grow e e' ∧ keydir_ok (e', kd') ∧
    keydir_map kd' = recovered_index (e, f) [p] (keydir_map kd) ∧ kd_new (e_brk e) kd kd'.
Proof.
  intros Hd [Hsm Hdata Hhint] Hp Hx Hc Hkd Hfuel.
  assert (node_id (fs_nodes f) p = file_id x) as Hid by (unfold node_id; by rewrite Hx).
  unfold recovered_index. cbn [foldr fst snd]. rewrite Hid.
  destruct (file_has_hint x) eqn:Hh.
  - destruct (Hhint p x Hp Hx Hh) as (c & Hcont & Hlen & Hrec).
    destruct (recover_hintfile_ok e kd l p x c) as (e' & kd' & Hrun & Hg & Hok & Hm & Hnew);
      try done; [zlen_lia | lia |].
    exists e', kd'. split; [done|]. split; [done|]. split; [done|].
    split; [by rewrite Hm, Hrec, index_hints_of | exact Hnew].
  - destruct (Hdata p x Hp Hx) as (c & Hcont & Hlen).
    destruct (recover_datafile_ok e kd l p x c) as (e' & kd' & Hrun & Hg & Hok & Hm & Hnew);
      try done; [zlen_lia | lia |].
    exists e', kd'. split; [done|]. split; [done|]. split; [done|].
    split; [unfold log_of; by rewrite Hcont | exact Hnew].
Qed.

Lemma keydir_recover_loop_ok i e kd l k n :
  disk_ok (e, f) (l ++ k) → recoverable (e, f) (l ++ k) n → calm e → keydir_ok (e, kd) →
  (length (events e) + 2 * n + 20 < fuel)%nat → (length l < i)%nat →
  ∃ e' kd',
    keydir_recover_loop fuel i (last l) (World e f kd rg th ru sd) =
      Ret CCASK_OK (World e' f kd' rg th ru sd) ∧
    env_grow e e' ∧ keydir_ok (e', kd') ∧
    keydir_map kd' = recovered_index (e, f) l (keydir_map kd) ∧ kd_new (e_brk e) kd kd'.
Proof.
  revert e kd l k. induction i as [|i IH]; intros e kd l k Hd Hrc Hc Hkd Hfuel Hi; [lia|].
  destruct l as [|p l _] using rev_ind.
  { exists e, kd. split; [done|]. split; [apply env_grow_refl|]. do 2 (split; [done|]). apply kd_new_refl. }
  rewrite last_snoc. cbn [keydir_recover_loop].
  assert (p ∈ (l ++ [p]) ++ k) as Hp by set_solver.
  pose proof (rep_seg _ _ (do_rep _ _ Hd)) as Hseg. simpl in Hseg. rewrite <-app_assoc in Hseg.
  apply dseg_app in Hseg as [_ [(x & Hx & Hprev & _) _]].
  destruct (recover_file_ok e kd _ p x n Hd Hrc Hp Hx Hc Hkd Hfuel)
    as (e1 & kd1 & Hrun & Hg1 & Hkd1 & Hm1 & Hnew1).
  destruct (IH e1 kd1 l (p :: k)) as (e2 & kd2 & Hloop & Hg2 & Hkd2 & Hm2 & Hnew2).
  { rewrite <-app_assoc in Hd. by eapply disk_ok_grow. }
  { rewrite <-app_assoc in Hrc. by eapply recoverable_grow. }
  { by eapply env_grow_calm. }
  { done. }
  { pose proof (suffix_length _ _ (eg_events _ _ Hg1)). lia. }
  { rewrite length_app in Hi. simpl in Hi. lia. }
  exists e2, kd2. split.
  - erewrite bind_run by (by apply zoom_files, node_run).
    erewrite bind_run by exact Hrun. cbv iota.
    erewrite bind_run by (by apply zoom_files, node_run).
    rewrite Hprev. unfold last_or. by destruct (last l).
  - split; [by eapply env_grow_trans|]. split; [done|].
    split; [by rewrite Hm2, Hm1, recovered_index_app, (recovered_index_grow e e1)|].
    eapply kd_new_trans; [exact Hnew1 | exact Hnew2 | apply (eg_brk _ _ Hg1)].
Qed.

(** [ccask_keydir_init] builds the directory of the files. *)
Lemma keydir_init_ok e kd l n :
  disk_ok (e, f) l → recoverable (e, f) l n → calm e → heap_wf e →
  (length (events e) + 2 * n + 20 < fuel)%nat →
  ∃ e' kd',
    ccask_keydir_init fuel (World e f kd rg th ru sd) = Ret CCASK_OK (World e' f kd' rg th ru sd) ∧
    env_grow e e' ∧ keydir_ok (e', kd') ∧ keydir_map kd' = recovered_index (e, f) l ∅ ∧
    ∀ c, c ∈ kd_blocks (hash_table kd') → e_brk e ≤ c.
Proof.
  intros Hd Hrc Hc Hwf Hfuel. pose proof (do_rep _ _ Hd) as Hrep. simpl in Hrep.
  destruct (keydir_recover_loop_ok (1 + size (fs_nodes f)) e (Keydir [] rwlock_new) l [] n)
    as (e' & kd' & Hrun & Hg & Hok & Hm & Hnew); rewrite ?app_nil_r; try done.
  - constructor; simpl; [|done|done]. by repeat constructor.
  - pose proof (dseg_length _ _ _ _ (rep_seg _ _ Hrep) (rep_nodup _ _ Hrep)). lia.
  - exists e', kd'. split; [|do 3 (split; [done|]); by intros c [?%elem_of_nil|?]%Hnew].
    unfold ccask_keydir_init.
    erewrite bind_run by (apply zoom_keydir; reflexivity).
    unfold keydir_recover, ccask_files_get_oldest_file, files.
    erewrite bind_run by (apply zoom_files; reflexivity).
    erewrite bind_run by (apply zoom_files; reflexivity).
    cbn [fst snd]. by rewrite (rep_tail _ _ Hrep).
Qed.
End recover.
