(* ===== verification/HintGen.v ===== *)
(** * HintGen: what the hint thread writes

    On a calm machine [hintfile_generator_thread] of [hint.c] copies the log of
    a data file into a new hint file: the hints of its records, in their
    order. *)
From stdpp Require Import sorting.
From S2P Require Import Prelude Status Posix SafeIO Codec Records Ringbuf Uthash Keydir Log.
From S2P Require Import Filenames Files Disk DiskWrite Iterator World Hint Recovery.
Open Scope Z_scope.

#[local] Arguments ccask_datafile_iter_next : simpl never.
#[local] Arguments ccask_datafile_iter_open : simpl never.
#[local] Arguments ccask_create_hintfile_record : simpl never.
#[local] Arguments ccask_files_get_hintfile_fd : simpl never.
#[local] Arguments safe_writev : simpl never.
#[local] Arguments free : simpl never.
#[local] Arguments sys_close : simpl never.

Section generate.
Context {host : Host} (fuel : nat) (f : files_state) (kd : keydir)
  (rg : option ccask_writer_ringbuf) (th : list thread_handle_t) (ru : list thread) (sd : bool).

(** One record, which is in three blocks, has its hint appended; all five
    blocks are freed. *)
Lemma hint_turn_ok e e1 id fd iter b v0 h0 h1 pos r hino old :
  env_grow e e1 → calm e → heap_wf e → 0 ≤ fd → fd_opened e fd hino true true →
  inodes e !! hino = Some old → log_record_ok r → lr_key r ≠ [] → e_brk e ≤ b →
  e_heap e1 !! b = Some (datafile_header_bytes (lr_header r)) →
  e_heap e1 !! (b + 1) = Some (lr_key r) → e_heap e1 !! (b + 2) = Some (lr_value r) →
  (length (events e) + 20 + length (lr_key r) < fuel)%nat →
  ∃ e', hint_turn fuel id fd iter (iter_record b v0 (zlen (lr_key r)) (zlen (lr_value r)))
      [h0; h1] pos (World e1 f kd rg th ru sd) =
    Ret (true, hintfile_iov (e_brk e1) (zlen (lr_key r))) (World e' f kd rg th ru sd) ∧
    file_written e hino (old ++ hint_record_bytes (hint_of pos r)) e'.
Proof.
  intros Hg Hc Hwf Hfd0 Hfd Hino Hr Hkn Hb Hb0 Hb1 Hb2 Hfuel.
  pose proof Hr as [(Hh & Hks & Hvs) _]. destruct r as [h k v]. cbn [lr_header lr_key lr_value] in *.
  pose proof (env_grow_heap_wf _ _ Hg Hwf) as Hwf1. pose proof (env_grow_calm _ _ Hg Hc) as Hc1.
  set (hh := HintfileHeader (df_timestamp h) (df_key_size h) (df_value_size h) pos).
  set (c := e_brk e1). set (e2 := put_block k (put_block (hintfile_header_bytes hh) e1)).
  assert (env_grow e1 e2) as Hg2.
  { eapply env_grow_trans; apply put_block_grow; eauto with ccask. }
  assert (∀ a, is_Some (e_heap e1 !! a) → a < c) as Hlt by exact Hwf1.
  pose proof (Hlt b ltac:(eauto)). pose proof (Hlt (b + 1) ltac:(eauto)).
  pose proof (Hlt (b + 2) ltac:(eauto)).
  assert (gather (e_heap e2) (hintfile_iov c (zlen k)) =
    Some (hint_record_bytes (hint_of pos (LogRecord h k v)))) as Hga.
  { apply (gather_hintfile_iov (e_heap e2) c (hintfile_header_bytes hh) k);
      [|apply zlen_hintfile_header | simpl; apply lookup_insert_eq].
    simpl. fold c. by rewrite lookup_insert_ne, lookup_insert_eq by lia. }
  assert (zlen (hint_record_bytes (hint_of pos (LogRecord h k v))) = 20 + zlen k) as Hlen.
  { unfold hint_record_bytes, hintfile_record_bytes. by rewrite zlen_app, zlen_hintfile_header. }
  pose proof (env_grow_trans _ _ _ Hg Hg2) as Hg02.
  assert (cbuf_read (Some k) (df_key_size h) = Some k) as Hread by (rewrite <-Hks; apply cbuf_read_all).
  pose proof (create_hintfile_record_ok e1 h0 h1 (df_timestamp h) (df_key_size h) (df_value_size h)
    pos (Some k) k Hwf1 (calm_mallocs 2 e1 Hc1) Hread) as Hcr.
  rewrite <-Hks in Hcr at 2. fold hh c e2 in Hcr.
  destruct (calm_writev fuel fd (hintfile_iov c (zlen k)) e2 hino old _
    (env_grow_calm _ _ Hg2 Hc1) Hfd0 ltac:(eapply fd_opened_ext; [apply (eg_ext _ _ Hg02) | done])
    ltac:(by rewrite (eg_inodes _ _ Hg02)) Hga ltac:(done)) as (e3 & Hwr & Hst).
  { unfold ends_nonempty. simpl. apply bool_decide_eq_true. destruct k; [done | zlen_lia]. }
  { pose proof (suffix_length _ _ (eg_events _ _ Hg02)). zlen_lia. }
  assert (∀ a, is_Some (e_heap e1 !! a) → e_heap e3 !! a = e_heap e1 !! a) as Hh3.
  { intros a [blk Ha]. rewrite (es_heap _ _ _ _ Hst), Ha. eapply lookup_weaken; [done | by apply eg_heap]. }
  set (hp := delete (c + 1) (delete c (delete (b + 2) (delete (b + 1) (delete b (e_heap e3)))))).
  exists (set_heap hp e3). split.
  - unfold hint_turn. erewrite bind_run by apply zoom_env, (get_datafile_record_header_run e1
      (iter_record b v0 (zlen k) (zlen v)) b (iov_len v0) _ eq_refl Hb0 (zlen_datafile_header h)).
    rewrite datafile_header_of_bytes by done.
    erewrite bind_run by apply zoom_env, (heap_buf_run e1 (b + 1) k Hb1).
    erewrite bind_run by (apply zoom_env; exact Hcr). cbv beta zeta iota.
    erewrite bind_run by (apply zoom_env; exact Hwr). cbv beta zeta iota.
    erewrite bind_run by (apply zoom_env, (free_datafile_iov e3 b (zlen k) (zlen v));
      rewrite Hh3; eauto).
    erewrite bind_run by (apply zoom_env, (free_hintfile_iov (set_heap _ e3) c (zlen k)); simpl;
      rewrite !lookup_delete_ne by lia; rewrite (es_heap _ _ _ _ Hst); simpl; fold c;
      rewrite ?lookup_insert_ne by lia; rewrite lookup_insert_eq; eauto).
    reflexivity.
  - eapply (file_written_step e e2 e3); try done.
    + intros a blk Ha. pose proof (Hwf a ltac:(eauto)).
      pose proof (lookup_weaken _ _ _ _ Ha (eg_heap _ _ Hg)) as Ha1.
      assert (a < c) by (apply Hwf1; eauto). unfold hp.
      by rewrite !lookup_delete_ne, Hh3 by (lia || eauto).
    + intros a. unfold hp. rewrite !lookup_delete. repeat case_decide; done || by intros [].
Qed.

Lemma iter_at_written e hino d e' iter ino content :
  file_written e hino d e' → ino ≠ hino → iter_at e iter ino content → iter_at e' iter ino content.
Proof.
  intros Hw Hne [H1 H2 H3 H4 H5 H6]. eapply iter_at_grow; [exact Hw|]. constructor; try done.
  unfold inodes. simpl. by rewrite lookup_insert_ne.
Qed.

(** The rest of the data file goes to the hint file, record by record. *)
Lemma hint_loop_ok id fd n e iter v0 v1 v2 h0 h1 rp ino content hino old :
  iter_at e iter ino content → calm e → heap_wf e → 0 ≤ fd → fd_opened e fd hino true true →
  inodes e !! hino = Some old → ino ≠ hino →
  Forall (λ r, lr_key r ≠ []) (records_of (it_rest iter content)) →
  (length (events e) + length content + 20 < fuel)%nat →
  (length (it_rest iter content) < n)%nat →
  ∃ iter' e',
    hint_loop fuel n id fd iter [v0; v1; v2] [h0; h1] rp (World e f kd rg th ru sd) =
      Ret (true, iter') (World e' f kd rg th ru sd) ∧ it_fd iter' = it_fd iter ∧
    file_written e hino
      (old ++ hint_bytes (hints_of (it_offset iter) (records_of (it_rest iter content)))) e'.
Proof.
  revert e iter v0 v1 v2 h0 h1 rp old.
  induction n as [|n IH]; intros e iter v0 v1 v2 h0 h1 rp old Hi Hc Hwf Hfd0 Hfd Hino Hne Hkeys Hfuel Hn;
    [lia|].
  cbn [hint_loop].
  pose proof (datafile_iter_next_ok fuel e iter ino content v0 v1 v2 rp Hi Hc Hwf ltac:(lia)) as Hnext.
  rewrite records_of_eq in Hkeys |- *.
  destruct (next_record (it_rest iter content)) as [r|] eqn:Hr.
  2: { destruct Hnext as (iter' & record & rp' & e' & Hrun & Hit & Hg).
       erewrite bind_run by apply zoom_env, Hrun. exists iter', e'. split; [reflexivity|].
       split; [done|]. cbn [hints_of]. unfold hint_bytes. simpl. rewrite app_nil_r.
       unfold file_written. by rewrite insert_id, put_inodes_same. }
  destruct Hnext as (e1 & Hrun & Hst). cbv zeta in Hst.
  apply Forall_cons in Hkeys as [Hkey Hkeys].
  pose proof (next_record_Some _ _ Hr) as (Hrok & Hsz & _).
  pose proof (log_record_size_pos _ Hrok) as Hsz0. pose proof (zlen_it_rest _ _ _ _ Hi) as Hrest.
  pose proof (ia_offset _ _ _ _ Hi) as Hoff.
  set (e3 := three_blocks _ _ _ e) in *.
  destruct (three_blocks_lookup (datafile_header_bytes (lr_header r)) (lr_key r) (lr_value r) e)
    as (Hb0 & Hb1 & Hb2 & _). fold e3 in Hb0, Hb1, Hb2.
  rewrite <-(es_heap _ _ _ _ Hst) in Hb0, Hb1, Hb2.
  assert (env_grow e e1) as Hg1.
  { eapply env_grow_trans; [by apply three_blocks_grow | by apply env_step_grow]. }
  destruct (hint_turn_ok e e1 id fd (set_it_offset (it_offset iter + log_record_size r) iter)
    (e_brk e) v0 h0 h1 (it_offset iter) r hino old) as (e2 & Hturn & Hw); try done.
  { unfold log_record_size in *. pose proof (zlen_nonneg (lr_value r)). zlen_lia. }
  destruct (iter_at_next e e iter ino content (log_record_size r) Hi (env_grow_refl e) ltac:(lia))
    as [Hi2 Hrest2].
  destruct (IH e2 _ (IOV (Some (e_brk e, 0)) (iov_len v0)) (IOV (Some (e_brk e + 1, 0)) (zlen (lr_key r)))
    (IOV (Some (e_brk e + 2, 0)) (zlen (lr_value r))) (IOV (Some (e_brk e1, 0)) 20)
    (IOV (Some (e_brk e1 + 1, 0)) (zlen (lr_key r))) (it_offset iter)
    (old ++ hint_record_bytes (hint_of (it_offset iter) r))
    (iter_at_written _ _ _ _ _ _ _ Hw Hne Hi2)) as (iter' & e' & Hloop & Hit & Hw').
  { by eapply file_written_calm. }
  { by eapply file_written_heap_wf. }
  { done. }
  { by eapply file_written_fd. }
  { rewrite (file_written_inodes _ _ _ _ Hw). apply lookup_insert_eq. }
  { done. }
  { by rewrite Hrest2. }
  { pose proof (suffix_length _ _ (file_written_events _ _ _ _ Hw)). lia. }
  { rewrite Hrest2, length_drop. zlen_lia. }
  exists iter', e'. split; [|split; [done|]].
  - erewrite bind_run by apply zoom_env, Hrun. cbv beta iota.
    erewrite bind_run by exact Hturn. exact Hloop.
  - rewrite Hrest2 in Hw'. cbn [hints_of]. rewrite hint_bytes_cons, app_assoc.
    eapply file_written_trans; [exact Hino | exact Hw | exact Hw'].
Qed.

#[local] Arguments hint_loop : simpl never.

(** The descriptors the thread opened are closed. *)
Lemma close_written e e1 fd hino d :
  file_written e hino d e1 → k_fds (e_kernel e) !! fd = None →
  ∃ e2, sys_close fd e1 = Ret tt e2 ∧ file_written e hino d e2.
Proof.
  intros Hw Hfd. destruct (close_grow _ _ fd Hw) as (e2 & Hrun & Hg & _); [done|].
  by exists e2.
Qed.

(** The whole thread: the hint file is new, and has the hints of the log. *)
Lemma hintfile_generator_ok e l p x a dir content :
  disk_ok (e, f) l → p ∈ l → fs_nodes f !! p = Some x → fs_data_dir f = Some (a, dir) →
  data_content (e, f) (file_id x) = Some content → hint_ino (e, f) (file_id x) = None →
  zlen content < 2 ^ 32 → Forall (λ r, lr_key r ≠ []) (records_of content) →
  calm e → heap_wf e → (length (events e) + length content + 20 < fuel)%nat →
  ∃ e',
    hintfile_generator_thread fuel p (World e f kd rg th ru sd) =
      Ret tt (World e' (put_node p (set_file_has_hint true x) f) kd rg th ru sd) ∧
    file_written (put_file (filepath dir (file_id x) ".hint") e) (k_next_ino (e_kernel e))
      (hint_bytes (hints_of 0 (records_of content))) e'.
Proof.
  intros Hd Hp Hx Hdir Hdc Hnone Hsm Hkeys Hc Hwf Hfuel. pose proof (do_kernel _ _ Hd) as Hk.
  simpl in Hk. destruct (do_dir _ _ Hd) as (a' & dir' & Hdir' & Hne). simpl in Hdir'.
  rewrite Hdir in Hdir'. injection Hdir' as <- <-.
  unfold data_content in Hdc. destruct (data_ino (e, f) (file_id x)) as [ino|] eqn:Hino; [|done].
  simpl in Hdc. set (path := filepath dir (file_id x) ".hint"). set (hino := k_next_ino (e_kernel e)).
  destruct (get_hintfile_fd_create e f a dir (file_id x)) as (e1 & Hfdrun & Hfd0 & Hg1 & Hfd1);
    [done..|]. fold path hino in Hg1, Hfd1. set (fd := k_next_fd (e_kernel e)) in *.
  set (e0 := put_file path e) in *.
  assert (data_ino (e0, f) (file_id x) = Some ino) as Hino0.
  { rewrite <-Hino. apply (data_ino_put_file e f a dir); [done|]. apply hint_path_not_data. }
  assert (ino < hino) as Hlt.
  { unfold data_ino in Hino. simpl in Hino. rewrite Hdir in Hino. simpl in Hino.
    by apply (kw_inodes _ Hk) in Hino as [? _]. }
  assert (calm e0) as Hc0 by (destruct Hc; by constructor).
  assert (kernel_wf (e_kernel e0)) as Hk0 by by apply put_file_wf.
  assert (inodes e0 !! hino = Some []) as Hh0 by (unfold inodes; simpl; apply lookup_insert_eq).
  destruct (datafile_iter_open_ok e1 f a dir (file_id x) ino content (Iter 0 0 0 0))
    as (e2 & Hopen & Hg2 & Hi); try done.
  { by apply (eg_wf _ _ Hg1). }
  { by rewrite (data_ino_ext e0 e1) by apply (eg_ext _ _ Hg1). }
  { rewrite (eg_inodes _ _ Hg1). unfold inodes. simpl. by rewrite lookup_insert_ne by lia. }
  { by eapply env_grow_calm. }
  { by eapply env_grow_heap_wf. }
  set (it := Iter (file_id x) _ 0 _) in *. pose proof (env_grow_trans _ _ _ Hg1 Hg2) as Hg.
  destruct (hint_loop_ok (file_id x) fd fuel e2 it iov_garbage iov_garbage iov_garbage iov_garbage
    iov_garbage 0 ino content hino [] Hi) as (it' & e3 & Hloop & Hit & Hw); try done.
  { by eapply env_grow_calm. }
  { by eapply env_grow_heap_wf. }
  { eapply fd_opened_ext; [apply (eg_ext _ _ Hg2) | done]. }
  { by rewrite (eg_inodes _ _ Hg). }
  { lia. }
  { pose proof (suffix_length _ _ (eg_events _ _ Hg)) as Hs. unfold events in Hs at 2. simpl in Hs.
    unfold events in Hfuel. lia. }
  { change (it_rest it content) with content. lia. }
  change (it_rest it content) with content in Hw. change (it_offset it) with 0 in Hw.
  cbn [app] in Hw.
  assert (file_written e0 hino (hint_bytes (hints_of 0 (records_of content))) e3) as Hw0.
  { eapply (file_written_trans e0 hino [] []); [done | | exact Hw].
    unfold file_written. rewrite insert_id by done. by rewrite put_inodes_same. }
  destruct (close_written e0 e3 (it_fd it') hino _ Hw0) as (e4 & Hclose4 & Hw4).
  { rewrite Hit. simpl. apply eq_None_not_Some. intros Hin.
    apply (kernel_ext_fds _ _ _ (eg_ext _ _ Hg1)) in Hin.
    apply (kw_fds _ (eg_wf _ _ Hg1 Hk0)) in Hin. lia. }
  destruct (close_written e0 e4 fd hino _ Hw4) as (e5 & Hclose5 & Hw5).
  { apply eq_None_not_Some. intros Hin%(kw_fds _ Hk). unfold fd in Hin. lia. }
  exists e5. split; [|done].
  unfold hintfile_generator_thread. erewrite bind_run by (by apply zoom_files, node_run).
  erewrite bind_run by apply zoom_attempt_files, Hfdrun.
  rewrite bool_decide_eq_false_2 by lia.
  erewrite bind_run by apply zoom_attempt_files, Hopen. cbv beta iota.
  erewrite bind_run by exact Hloop. cbv beta iota.
  erewrite bind_run by apply zoom_env, Hclose4.
  erewrite bind_run by apply zoom_env, Hclose5.
  by apply zoom_files, set_node_put.
Qed.
End generate.
