(* ===== verification/Rotate.v ===== *)
(** * Rotate: a new active file

    On a calm machine [ccask_files_rotate] of [files.c] creates the next data
    file, makes its node the head of the list, closes the descriptor of the
    old file and starts the thread that is to write its hints. *)
From stdpp Require Import sorting.
From S2P Require Import Prelude Status Posix SafeIO Codec Records Ringbuf Uthash Keydir.
From S2P Require Import Filenames Files Disk DiskWrite World Hint.
Open Scope Z_scope.

#[local] Arguments malloc : simpl never.
#[local] Arguments free : simpl never.
#[local] Arguments node : simpl never.
#[local] Arguments set_node : simpl never.
#[local] Arguments add_file : simpl never.
#[local] Arguments create_new_active_datafile : simpl never.
#[local] Arguments ccask_files_get_active_datafile_fd : simpl never.

Lemma create_new_active_datafile_ok e f a dir id p :
  fs_data_dir f = Some (a, dir) → dir ≠ EmptyString → kernel_wf (e_kernel e) →
  data_ino (e, f) id = None → calm e → heap_wf e →
  ∃ e' t, let fd := k_next_fd (e_kernel e) in
    create_new_active_datafile id p (e, f) =
      Ret CCASK_OK (e', put_node p (CFile id fd t false true false rwlock_new None None) f) ∧
    0 ≤ fd ∧ env_grow (put_file (filepath dir id ".data") e) e' ∧
    fd_opened e' fd (k_next_ino (e_kernel e)) true true.
Proof.
  intros Hd Hdir Hk Hino Hc Hwf.
  destruct (get_active_datafile_fd_create e f a dir id) as (e1 & Hrun & Hfd0 & Hg & Hfd); [done..|].
  destruct (time_step e1) as (t & e2 & Ht & Hst).
  assert (env_grow e1 e2) as Hg2 by by apply env_step_grow.
  exists e2, t. split_and!; [|done| by eapply env_grow_trans |].
  - unfold create_new_active_datafile. rewrite (bind_run _ _ _ _ _ Hrun).
    rewrite bool_decide_eq_false_2 by lia.
    by erewrite bind_run by exact (zoom_fst time _ _ _ _ Ht).
  - eapply fd_opened_ext; [apply (eg_ext _ _ Hg2) | done].
Qed.

Section rotate.
Context (kd : keydir) (rg : option ccask_writer_ringbuf)
  (th : list thread_handle_t) (ru : list thread) (sd : bool).

(** The thread is started, and remembered in the list of threads. *)
Lemma hintfile_generate_ok p e f :
  calm e → heap_wf e →
  ∃ e', let t := THint (e_brk e) p in
    CCASK_ATTEMPT 5 (ccask_hintfile_generate p) (World e f kd rg th ru sd) =
      Ret CCASK_OK (World e' f kd rg (ThreadHandle (e_brk e) t :: th) (t :: ru) sd) ∧
    env_grow (put_block (zeros sizeof_thread_handle) e) e'.
Proof.
  intros Hc Hwf. pose proof (put_block_grow e (zeros sizeof_thread_handle) Hwf) as Hg.
  destruct (pthread_create_calm (THint (e_brk e) p) (put_block (zeros sizeof_thread_handle) e)
    f kd rg th ru sd) as (e' & Hg' & Hrun); [by eapply env_grow_calm|].
  exists e'. split; [|exact Hg']. eapply attempt_once; [|done].
  unfold ccask_hintfile_generate.
  erewrite bind_run by apply zoom_env, (malloc_ok _ e (calm_malloc_head e Hc)).
  cbv beta iota. by erewrite bind_run by exact Hrun.
Qed.

(** The node of the file that is no longer active, and of the new one. *)
Definition retired (x : ccask_file) : ccask_file := set_file_is_active false (set_file_fd (-1) x).
Definition fresh_node (id fd t : Z) : ccask_file :=
  CFile id fd t false true false rwlock_new None None.

(** A node that is not in the list yet does not matter. *)
Lemma dseg_new a y m q l n : a ∉ l → dseg m q l n → dseg (<[a := y]> m) q l n.
Proof.
  revert q. induction l as [|b l IH]; intros q Ha; [done|].
  apply not_elem_of_cons in Ha as [Hab Ha]. intros [(x & Hx & H1 & H2) Hl].
  split; [|by apply IH]. exists x. by rewrite lookup_insert_ne.
Qed.

Lemma rep_new a y f0 l : files_rep f0 l → a ∉ l → files_rep (put_node a y f0) l.
Proof.
  intros [H1 H2 H3 H4 H5 H6] Ha. constructor; try done; simpl.
  - by apply dseg_new.
  - erewrite list_fmap_ext; [exact H5|]. intros i b Hb. unfold node_id. simpl.
    rewrite lookup_insert_ne; [done|]. intros ->. apply Ha. by eapply list_elem_of_lookup_2.
Qed.

Lemma linked_newest_put a p x y z w f0 :
  linked_newest a p x y (put_node p z (put_node a w f0)) = linked_newest a p x y f0.
Proof.
  unfold linked_newest, put_node, set_fs_nodes. simpl. f_equal. apply map_eq. intros b.
  rewrite !lookup_insert. repeat case_decide; done.
Qed.

Lemma files_rotate_ok e f l p x b dir :
  files_rep f (p :: l) → fs_data_dir f = Some (b, dir) → dir ≠ EmptyString →
  fs_nodes f !! p = Some x → 0 ≤ file_id x → is_u64 (file_id x + 1) →
  data_ino (e, f) (file_id x + 1) = None → is_Some (k_fds (e_kernel e) !! file_fd x) →
  kernel_wf (e_kernel e) → calm e → heap_wf e → e_brk e ∉ p :: l →
  ∃ e' h t, let a := e_brk e in let fd := k_next_fd (e_kernel e) in
    let f' := linked_newest a p (retired x) (fresh_node (file_id x + 1) fd t) f in
    ccask_files_rotate (World e f kd rg th ru sd) =
      Ret CCASK_OK (World e' f' kd rg (ThreadHandle h (THint h p) :: th) (THint h p :: ru) sd) ∧
    files_rep f' (a :: p :: l) ∧ 0 ≤ fd ∧
    env_grow (close_fd (file_fd x) (put_file (filepath dir (file_id x + 1) ".data") e)) e' ∧
    fd_opened e' fd (k_next_ino (e_kernel e)) true true ∧ a < h < e_brk e' ∧
    is_Some (e_heap e' !! a) ∧ is_Some (e_heap e' !! h).
Proof.
  intros Hrep Hdir Hne Hx Hid0 Hid1 Hnone Hopen Hk Hc Hwf Ha.
  set (a := e_brk e) in *. set (fd := k_next_fd (e_kernel e)).
  set (path := filepath dir (file_id x + 1) ".data").
  set (e1 := put_block (zeros sizeof_file) e).
  pose proof (put_block_grow e (zeros sizeof_file) Hwf) as Hg1. fold e1 in Hg1.
  destruct (create_new_active_datafile_ok e1 f b dir (file_id x + 1) a)
    as (e2 & t & Hcreate & Hfd0 & Hg2 & Hfd2); try done;
    [by eapply env_grow_calm | by eapply env_grow_heap_wf |].
  change (e_kernel e1) with (e_kernel e) in Hcreate, Hfd0, Hg2, Hfd2. fold fd path in Hcreate, Hfd0, Hg2, Hfd2.
  set (y := fresh_node (file_id x + 1) fd t) in *.
  change (CFile _ fd t _ _ _ _ _ _) with y in Hcreate.
  assert (env_grow (put_file path e) e2) as Hg02.
  { eapply env_grow_trans; [by apply (put_file_grow path e e1)|exact Hg2]. }
  pose proof (put_file_wf path e Hk) as Hk0.
  pose proof (close_fd_grow (file_fd x) _ _ Hk0 Hg02) as Hg3.
  set (e3 := close_fd (file_fd x) e2) in *.
  assert (a ≠ p) as Hap by (intros Heq; apply Ha; rewrite Heq; by left).
  assert (fs_nodes (put_node a y f) !! p = Some x) as Hx1.
  { simpl. by rewrite lookup_insert_ne. }
  set (f2 := put_node p (retired x) (put_node a y f)).
  assert (files_rep f2 (p :: l)) as Hrep2.
  { apply (rep_put _ _ _ x); [|done..]. by apply rep_new. }
  destruct (add_file_newest e3 f2 l a p (retired x) y) as [Hadd Hrep3]; try done.
  { apply put_node_lookup. }
  { simpl. by rewrite lookup_insert_ne, lookup_insert_eq. }
  { simpl. lia. }
  unfold f2 in Hadd, Hrep3. rewrite linked_newest_put in Hadd, Hrep3.
  set (f' := linked_newest a p (retired x) y f) in *.
  destruct (hintfile_generate_ok p e3 f') as (e4 & Hgen & Hg4).
  { eapply env_grow_calm; [exact Hg3|]. destruct Hc. by constructor. }
  { eapply env_grow_heap_wf; [exact Hg3|]. done. }
  pose proof (env_grow_heap_wf _ _ Hg3 Hwf) as Hwf3.
  pose proof (env_grow_trans _ _ _ (put_block_grow e3 (zeros sizeof_thread_handle) Hwf3) Hg4) as Hg34.
  pose proof (eg_brk _ _ Hg2) as Hb2. pose proof (eg_brk _ _ Hg4) as Hb4. simpl in Hb2, Hb4.
  exists e4, (e_brk e3), t. split_and!; try done.
  - unfold ccask_files_rotate.
    erewrite bind_run by apply zoom_env, (malloc_ok _ e (calm_malloc_head e Hc)). cbv beta iota.
    unfold files. erewrite bind_run by (apply zoom_files; reflexivity).
    cbn [snd]. rewrite (rep_head _ _ Hrep). cbn [head].
    rewrite (bind_deref p) by done.
    erewrite bind_run by (by apply zoom_files, node_run).
    rewrite u64_small by done.
    erewrite bind_run by apply zoom_files, Hcreate. cbv beta iota. rewrite bool_decide_neq_refl.
    erewrite bind_run by (by apply zoom_files, node_run).
    erewrite bind_run by (apply zoom_env; reflexivity).
    erewrite bind_run by (by apply zoom_files, set_node_put).
    change (close_fd (file_fd x) e2) with e3.
    change (set_file_is_active false (set_file_fd (-1) x)) with (retired x).
    erewrite bind_run by apply zoom_files, Hadd.
    erewrite bind_run by (apply zoom_files; reflexivity).
    cbn [snd]. rewrite (bind_deref a) by done.
    erewrite bind_run by (apply zoom_files, node_run; unfold f'; simpl;
      by rewrite lookup_insert_ne, lookup_insert_eq).
    rewrite (bind_deref p) by done.
    by erewrite bind_run by exact Hgen.
  - by eapply env_grow_trans.
  - eapply fd_opened_ext; [apply (eg_ext _ _ Hg34)|]. apply close_fd_opened; [|done].
    apply (kw_fds _ Hk) in Hopen. unfold fd. lia.
  - unfold a. simpl. lia.
  - simpl. lia.
  - exists (zeros sizeof_file). eapply lookup_weaken; [|apply (eg_heap _ _ Hg34)].
    eapply (lookup_weaken (e_heap e1)); [apply lookup_insert_eq | apply (eg_heap _ _ Hg2)].
  - exists (zeros sizeof_thread_handle).
    eapply lookup_weaken; [apply lookup_insert_eq | apply (eg_heap _ _ Hg4)].
Qed.
End rotate.
