(* ===== verification/Reader.v ===== *)
(** * Reader: reading a record of a data file

    Models [reader.c]: the descriptor of a file that is not active is opened
    on demand, and closed again by a thread after a while without reads. *)
From S2P Require Import Prelude Status Posix SafeIO Codec Records Ringbuf Uthash Keydir.
From S2P Require Import Filenames Files Disk World.

Definition FD_INVALIDATE_DURATION : Z := 5.

(** One turn of [datafile_fd_invalidator_thread] after its [sleep]: [true]
    when the thread ends. *)
Definition datafile_fd_invalidator_turn (file : Z) : M fstate bool :=
  now ← zoom time;
  n ← node file;
  if negb (file_is_active n)
     && bool_decide (file_fd n >= 0 ∧ now - file_last_accessed n >= FD_INVALIDATE_DURATION)
  then
    _ ← node_lock wrlock file;
    n ← node file;
    _ ← zoom (sys_close (file_fd n));
    _ ← set_node file (λ n, set_file_invalidator false (set_file_fd (-1) n));
    _ ← node_lock rwunlock file;
    mret true
  else mret false.

Section reader.
Variable fuel : nat.

(** The part under the write lock: a descriptor is opened, and a thread
    started to close it.  [pthread_detach] has no effect on the state. *)
Definition reader_open (file : Z) : M world ccask_status_e :=
  n ← zoom (node file);
  if bool_decide (file_fd n < 0) then
    fd ← CCASK_ATTEMPT 5 (zoom (ccask_files_get_datafile_fd (file_id n)));
    if bool_decide (fd < 0) then mret CCASK_FAIL
    else
      _ ← zoom (set_node file (set_file_fd fd));
      if file_is_fd_invalidator_running n then mret CCASK_OK
      else
        res ← CCASK_ATTEMPT 5 (pthread_create (TInvalidator file));
        if bool_decide (res ≠ 0) then mret CCASK_OK
        else _ ← zoom (set_node file (set_file_invalidator true)); mret CCASK_OK
  else mret CCASK_OK.

(** The part under the last read lock. *)
Definition reader_read (file : Z) (record : ccask_datafile_record_t) (record_pos : Z) :
    M world ccask_status_e :=
  _ ← zoom (node_lock rdlock file);
  n ← zoom (node file);
  res ← zoom (safe_preadv fuel (file_fd n) record (i64 record_pos));
  ret ← (if bool_decide (status_code res < 0)
         then _ ← zoom (set_ccask_errno CCASK_ERR_READ_FAILED); mret CCASK_FAIL
         else mret CCASK_OK);
  t ← zoom time;
  _ ← zoom (set_node file (set_file_last_accessed t));
  _ ← zoom (node_lock rwunlock file);
  mret ret.

Definition ccask_read_datafile_record (id : Z) (record : ccask_datafile_record_t)
    (record_pos : Z) : M world ccask_status_e :=
  file ← zoom (ccask_files_get_file id);
  match file with
  | None => _ ← zoom (set_ccask_errno CCASK_ERR_NO_SUCH_DATAFILE); mret CCASK_FAIL
  | Some file =>
      _ ← zoom (node_lock rdlock file);
      n ← zoom (node file);
      let needs_open := bool_decide (file_fd n < 0) in
      _ ← zoom (node_lock rwunlock file);
      ret ← (if needs_open then
               _ ← zoom (node_lock wrlock file);
               ret ← reader_open file;
               _ ← zoom (node_lock rwunlock file);
               mret ret
             else mret CCASK_OK);
      if bool_decide (ret ≠ CCASK_OK) then mret ret
      else reader_read file record record_pos
  end.
End reader.

(** ** A read that succeeds *)

#[local] Arguments node : simpl never.
#[local] Arguments set_node : simpl never.
#[local] Arguments node_lock : simpl never.
#[local] Arguments ccask_files_get_file : simpl never.
#[local] Arguments safe_preadv : simpl never.

Section read.
Context (fuel : nat) (kd : keydir) (rg : option ccask_writer_ringbuf)
  (th : list thread_handle_t) (sd : bool).

(** The node after a read at time [t]. *)
Lemma reader_read_run e f ru p x iov pos ino app wr content :
  fs_nodes f !! p = Some x → file_rwlock x = rwlock_new → 0 ≤ file_fd x →
  fd_opened e (file_fd x) ino app wr → inodes e !! ino = Some content →
  is_Some (gather (e_heap e) iov) → iov ≠ [] → ends_nonempty iov = true →
  0 ≤ pos < 2 ^ 63 → pos + iov_total iov ≤ zlen content →
  Forall benign (events e) → (length (events e) + Z.to_nat (iov_total iov) < fuel)%nat →
  ∃ h e' t,
    scatter (e_heap e) iov (slice pos (iov_total iov) content) = Some h ∧
    env_step e e' h (inodes e) ∧
    reader_read fuel p iov pos (World e f kd rg th ru sd) =
      Ret CCASK_OK (World e' (put_node p (set_file_last_accessed t x) f) kd rg th ru sd).
Proof.
  intros Hx Hlock Hfd Hopen Hino Hg Hne Hend Hpos Htot Hben Hfuel.
  pose proof (length_slice_le pos (iov_total iov) content).
  destruct (wp_inv _ _ _ (safe_preadv_spec fuel (file_fd x) iov pos e ino app wr content
    Hfd Hopen Hino Hg Hne ltac:(lia) ltac:(lia))) as (r & e1 & Hread & n & h & Hn & Hsc & Hfr & Hr).
  destruct Hr as [(-> & -> & _)|(_ & [(_ & [?|?])|[_ ?]])]; [|lia|congruence|done].
  rewrite take_ge in Hsc by lia.
  destruct (time_step e1) as (t & e2 & Ht & Hstep).
  exists h, e2, t. split; [done|]. split.
  { rewrite (io_frame_heap _ _ _ _ Hfr), (io_frame_inodes _ _ _ _ Hfr) in Hstep.
    eapply env_step_trans; [by apply io_frame_step | done]. }
  pose (x1 := set_file_rwlock (RWLock 1 false) x). unfold reader_read.
  erewrite bind_run by (apply zoom_files, (node_lock_put _ p e f x (RWLock 1 false));
    [done | by rewrite Hlock]).
  erewrite bind_run by apply zoom_files, (node_run p e _ x1), put_node_lookup.
  replace (file_fd x1) with (file_fd x) by done. rewrite i64_small by lia.
  erewrite bind_run by apply zoom_env, Hread. simpl status_code.
  rewrite (bool_decide_eq_false_2 (0 < 0)), bind_mret by lia.
  erewrite bind_run by apply zoom_env, Ht.
  erewrite bind_run by apply zoom_files, (set_node_put p _ _ _ x1), put_node_lookup.
  erewrite bind_run by (apply zoom_files,
    (node_lock_put _ p _ _ (set_file_last_accessed t x1) rwlock_new);
    [apply put_node_lookup | done]).
  unfold mret, M_ret. rewrite !put_node_twice. unfold x1. by destruct x; simpl in *; subst.
Qed.

(** Opening a file that was closed: a thread will close it again. *)
Lemma reader_open_run e f ru p x a dir ino :
  fs_data_dir f = Some (a, dir) → dir ≠ EmptyString → kernel_wf (e_kernel e) →
  fs_nodes f !! p = Some x → file_fd x < 0 →
  data_ino (e, f) (file_id x) = Some ino → calm e → heap_wf e →
  ∃ fd e' ru', 0 ≤ fd ∧ env_grow e e' ∧ fd_opened e' fd ino false false ∧
    (ru' = ru ∨ ru' = TInvalidator p :: ru) ∧
    reader_open p (World e f kd rg th ru sd) =
    Ret CCASK_OK
      (World e' (put_node p (set_file_invalidator true (set_file_fd fd x)) f) kd rg th ru' sd).
Proof.
  intros Hd Hdir Hk Hx Hfd Hino Hc Hwf.
  destruct (get_datafile_fd_ok e f a dir (file_id x) ino) as (e1 & Hrun & Hfd0 & Hg1 & Ho);
    [done..|]. set (fd := k_next_fd (e_kernel e)) in *.
  destruct (pthread_create_calm (TInvalidator p) e1 (put_node p (set_file_fd fd x) f) kd rg th ru sd)
    as (e2 & Hg2 & Hthr); [by eapply env_grow_calm|].
  exists fd, (if file_is_fd_invalidator_running x then e1 else e2),
    (if file_is_fd_invalidator_running x then ru else TInvalidator p :: ru).
  split; [done|]. split; [destruct (file_is_fd_invalidator_running x);
    [done | by eapply env_grow_trans]|].
  split; [destruct (file_is_fd_invalidator_running x); [done|];
    eapply fd_opened_ext; [by apply eg_ext | done]|].
  split; [destruct (file_is_fd_invalidator_running x); by auto|].
  unfold reader_open. erewrite bind_run by (by apply zoom_files, node_run).
  rewrite bool_decide_eq_true_2 by done.
  erewrite bind_run by apply zoom_attempt_files, Hrun.
  rewrite bool_decide_eq_false_2 by lia.
  erewrite bind_run by (by apply zoom_files, set_node_put).
  destruct (file_is_fd_invalidator_running x) eqn:Hinv.
  - unfold mret, M_ret. do 3 f_equal. destruct x; simpl in *; subst. done.
  - erewrite bind_run by exact Hthr. rewrite bool_decide_neq_refl.
    erewrite bind_run by (apply zoom_files, set_node_put, put_node_lookup).
    by rewrite put_node_twice.
Qed.

(** Taking the read lock to see whether the file is open. *)
Lemma reader_start_run e f ru l p x iov pos :
  files_rep f l → p ∈ l → fs_nodes f !! p = Some x → file_rwlock x = rwlock_new →
  ccask_read_datafile_record fuel (file_id x) iov pos (World e f kd rg th ru sd) =
  (ret ← (if bool_decide (file_fd x < 0) then
            _ ← zoom (node_lock wrlock p);
            ret ← reader_open p;
            _ ← zoom (node_lock rwunlock p);
            mret ret
          else mret CCASK_OK);
   if bool_decide (ret ≠ CCASK_OK) then mret ret else reader_read fuel p iov pos)
    (World e f kd rg th ru sd).
Proof.
  intros Hrep Hp Hx Hlock. pose (x1 := set_file_rwlock (RWLock 1 false) x).
  unfold ccask_read_datafile_record.
  erewrite bind_run by (by eapply zoom_files, get_file_run). cbn beta iota.
  erewrite bind_run by (apply zoom_files, (node_lock_put _ p e f x (RWLock 1 false));
    [done | by rewrite Hlock]).
  erewrite bind_run by apply zoom_files, (node_run p e _ x1), put_node_lookup.
  erewrite bind_run by (apply zoom_files, (node_lock_put _ p e _ x1 rwlock_new);
    [apply put_node_lookup | done]).
  rewrite put_node_twice.
  assert (set_file_rwlock rwlock_new x1 = x) as -> by (unfold x1; by destruct x; simpl in *; subst).
  by rewrite put_node_id.
Qed.

(** A record read from a file of the store into three fresh blocks: the
    file is opened when it is closed. *)
Lemma read_datafile_record_ok e f ru l p x a b0 b1 b2 d0 d1 d2 pos content :
  disk_ok (e, f) l → p ∈ l → fs_nodes f !! p = Some x →
  data_content (e, f) (file_id x) = Some content →
  e_heap e !! a = Some b0 → e_heap e !! (a + 1) = Some b1 → e_heap e !! (a + 2) = Some b2 →
  zlen b0 = 16 → zlen d0 = 16 → zlen d1 = zlen b1 → zlen d2 = zlen b2 → d2 ≠ [] →
  slice pos (16 + zlen b1 + zlen b2) content = d0 ++ d1 ++ d2 →
  0 ≤ pos < 2 ^ 63 → pos + (16 + zlen b1 + zlen b2) ≤ zlen content →
  calm e → heap_wf e →
  (length (events e) + Z.to_nat (16 + zlen b1 + zlen b2) < fuel)%nat →
  ∃ e1 e' y ru',
    ccask_read_datafile_record fuel (file_id x) (datafile_iov a (zlen b1) (zlen b2)) pos
      (World e f kd rg th ru sd) = Ret CCASK_OK (World e' (put_node p y f) kd rg th ru' sd) ∧
    file_id y = file_id x ∧ file_has_hint y = file_has_hint x ∧
    (ru' = ru ∨ ru' = TInvalidator p :: ru) ∧
    disk_ok (e', put_node p y f) l ∧ env_grow e e1 ∧
    env_step e1 e' (<[a + 2 := d2]> (<[a + 1 := d1]> (<[a := d0]> (e_heap e1)))) (inodes e1).
Proof.
  intros Hok Hp Hx Hdc Ha0 Ha1 Ha2 Hb0 Hd0 Hd1 Hd2 Hd2n Hsl Hpos Htot Hc Hwf Hfuel.
  destruct (do_nodes _ _ Hok p x Hp Hx) as (Hlock & Hid & ino & Hino & Hopen).
  destruct (do_dir _ _ Hok) as (ad & dir & Hd & Hdir). simpl in Hd.
  pose proof (do_kernel _ _ Hok) as Hk. pose proof (do_rep _ _ Hok) as Hrep. simpl in Hrep.
  assert (inodes e !! ino = Some content) as Hcont.
  { unfold data_content in Hdc. by rewrite Hino in Hdc. }
  set (iov := datafile_iov a (zlen b1) (zlen b2)).
  assert (iov_total iov = 16 + zlen b1 + zlen b2) as Htotal.
  { unfold iov_total. simpl. lia. }
  (* both ways lead to an open file *)
  assert (∃ e1 y1 ru1, env_grow e e1 ∧ file_rwlock y1 = rwlock_new ∧ file_id y1 = file_id x ∧
    file_next y1 = file_next x ∧ file_previous y1 = file_previous x ∧
    file_has_hint y1 = file_has_hint x ∧ (ru1 = ru ∨ ru1 = TInvalidator p :: ru) ∧
    0 ≤ file_fd y1 ∧ (∃ app wr, fd_opened e1 (file_fd y1) ino app wr) ∧
    (active_ok (e1, f) x → active_ok (e1, f) y1) ∧
    ccask_read_datafile_record fuel (file_id x) iov pos (World e f kd rg th ru sd) =
      reader_read fuel p iov pos (World e1 (put_node p y1 f) kd rg th ru1 sd))
    as (e1 & y1 & ru1 & Hg1 & Hl1 & Hid1 & Hn1 & Hp1 & Hhh1 & Hru1 & Hfd1 & (app & wr & Ho1) & Hact & Hrun).
  { rewrite (reader_start_run _ _ _ l p x) by done.
    destruct (decide (file_fd x < 0)) as [Hneg|Hpos'].
    - pose (x1 := set_file_rwlock (RWLock 0 true) x).
      destruct (reader_open_run e (put_node p x1 f) ru p x1 ad dir ino)
        as (fd & e1 & ru1 & Hfd0 & Hg & Ho & Hru & Hrun); [done|done|done|apply put_node_lookup|done|done|done|done|].
      exists e1, (set_file_invalidator true (set_file_fd fd x)), ru1.
      split_and!; try done; [by eauto | by intros (_ & ? & _); lia |].
      rewrite bool_decide_eq_true_2 by done.
      erewrite bind_run; [|
        erewrite bind_run by (apply zoom_files, (node_lock_put _ p e f x (RWLock 0 true));
          [done | by rewrite Hlock]);
        erewrite bind_run by exact Hrun;
        erewrite bind_run by (apply zoom_files, (node_lock_put _ p _ _
          (set_file_invalidator true (set_file_fd fd x1)) rwlock_new);
          [apply put_node_lookup | done]); reflexivity].
      rewrite bool_decide_neq_refl.
      rewrite !put_node_twice. unfold x1. by destruct x; simpl in *; subst.
    - exists e, x, ru. split_and!; try done; [apply env_grow_refl | by left | lia | apply Hopen; lia |].
      rewrite bool_decide_eq_false_2, bind_mret, bool_decide_neq_refl, put_node_id
        by done. done. }
  assert (∀ b blk, e_heap e !! b = Some blk → e_heap e1 !! b = Some blk) as Hkeep.
  { intros b blk Hb. eapply lookup_weaken; [done | by apply eg_heap]. }
  assert (events e1 `suffix_of` events e) as [evs Hev] by by apply eg_events.
  destruct (reader_read_run e1 (put_node p y1 f) ru1 p y1 iov pos ino app wr content)
    as (h & e2 & t & Hsc & Hstep & Hread); try done.
  - apply put_node_lookup.
  - by rewrite (eg_inodes _ _ Hg1).
  - eexists. eapply (gather_datafile_iov _ _ b0 b1 b2); eauto.
  - unfold ends_nonempty. simpl. apply bool_decide_eq_true.
    rewrite <-Hd2. destruct d2; [done | zlen_lia].
  - lia.
  - eapply calm_benign, env_grow_calm; done.
  - rewrite Hev, length_app in Hfuel. lia.
  - rewrite Htotal, Hsl, (scatter_datafile_iov (e_heap e1) a b0 b1 b2) in Hsc by eauto.
    injection Hsc as <-. exists e1, e2, (set_file_last_accessed t y1), ru1.
    split; [by rewrite Hrun, Hread, put_node_twice|]. split; [done|]. split; [done|].
    split; [done|]. split; [|by split].
    eapply disk_ok_step; [done|].
    pose proof (eg_ext _ _ Hg1) as Hext.
    apply (disk_ok_put _ _ _ p x); simpl; try done; [by eapply disk_ok_grow |].
    split_and!; [done | by unfold set_file_last_accessed; simpl; rewrite Hid1 |].
    exists ino. rewrite (data_ino_ext _ _ _ _ Hext).
    unfold set_file_last_accessed. simpl. rewrite Hid1. split; [done|]. eauto.
Qed.
End read.
