(* ===== verification/Writer.v ===== *)
(** * Writer: appending records to the active data file

    Models [writer.c]: a record is appended under the write lock of the active
    file, which is rotated first when it would become too large, and then
    entered into the key directory. *)
From S2P Require Import Prelude Status Posix SafeIO Codec Records Ringbuf Uthash Keydir.
From S2P Require Import Filenames Files Disk World Hint.

Section writer.
Context {host : Host}.
Variable fuel : nat.

(** The end of the function: the record is entered into the key directory. *)
Definition index_record (file pos : Z) (record : ccask_datafile_record_t) :
    M world ccask_status_e :=
  header ← zoom (ccask_get_datafile_record_header record);
  key ← zoom (heap_buf (ccask_get_datafile_record_key record));
  x ← zoom (node file);
  res ← CCASK_ATTEMPT 5 (zoom (ccask_keydir_upsert key (df_key_size header)
           (file_id x) pos (df_value_size header) (df_timestamp header)));
  mret (match res with CCASK_OK => CCASK_OK | _ => CCASK_FAIL end).

(** The function calls itself after a rotation; [n] bounds the calls. *)
Fixpoint write_record (n : nat) (record : ccask_datafile_record_t) : M world ccask_status_e :=
  match n with
  | O => no_fuel
  | S n' =>
      active ← zoom ccask_files_get_active_file;
      file ← deref active;
      _ ← zoom (node_lock wrlock file);
      x ← zoom (node file);
      pos ← zoom (lseek_end (file_fd x));
      if bool_decide (pos < 0) then _ ← zoom (node_lock rwunlock file); mret CCASK_FAIL
      else
        let record_size := ccask_get_datafile_record_total_size record in
        f ← zoom files;
        if bool_decide (u64 (pos + record_size) > fs_max_active f) then
          _ ← ccask_files_rotate;
          _ ← zoom (node_lock rwunlock file);
          write_record n' record
        else
          x ← zoom (node file);
          res ← zoom (safe_writev fuel (file_fd x) record);
          match res with
          | CCASK_OK => _ ← zoom (node_lock rwunlock file); index_record file pos record
          | _ => _ ← zoom (node_lock rwunlock file); mret CCASK_FAIL
          end
  end.

Definition ccask_write_record_blocking (record : ccask_datafile_record_t) :
  M world ccask_status_e := write_record fuel record.

(** One turn of [writer_thread_main]: [false] when the thread ends.  It
    blocks while the ring is empty. *)
Definition writer_turn (record : ccask_datafile_record_t) :
    M world (bool * ccask_datafile_record_t) :=
  '(res, record) ← zoom (ccask_writer_ringbuf_pop record);
  if bool_decide (res ≠ CCASK_OK) then mret (false, record)
  else
    _ ← ccask_write_record_blocking record;
    _ ← zoom (free_datafile_record record);
    mret (true, record).

Fixpoint writer_loop (n : nat) (record : ccask_datafile_record_t) : M world unit :=
  match n with
  | O => no_fuel
  | S n' =>
      '(go_on, record) ← writer_turn record;
      if go_on : bool then writer_loop n' record else mret tt
  end.

Definition writer_thread_main : M world unit := writer_loop fuel datafile_record_garbage.

Definition writer_body (t : thread) : M world unit :=
  match t with TWriter => writer_thread_main | _ => mret tt end.

Definition ccask_writer_stop : M world unit :=
  _ ← zoom ccask_writer_ringbuf_start_shutdown;
  _ ← pthread_join writer_body TWriter;
  zoom ccask_writer_ringbuf_destroy.
End writer.

Definition ccask_writer_start (capacity : Z) : M world ccask_status_e :=
  res ← zoom (ccask_writer_ringbuf_init capacity);
  if bool_decide (res ≠ CCASK_OK) then mret CCASK_FAIL
  else
    res ← CCASK_ATTEMPT 5 (pthread_create TWriter);
    if bool_decide (res ≠ 0) then
      _ ← zoom ccask_writer_ringbuf_destroy;
      _ ← zoom (set_ccask_errno CCASK_ERR_COULDNT_START_THREAD);
      mret CCASK_FAIL
    else mret CCASK_OK.

(** ** A write that succeeds without a rotation *)

#[local] Arguments node : simpl never.
#[local] Arguments node_lock : simpl never.
#[local] Arguments safe_writev : simpl never.
#[local] Arguments lseek_end : simpl never.

Section write.
Context {host : Host} (fuel : nat) (rg : option ccask_writer_ringbuf)
  (th : list thread_handle_t) (ru : list thread) (sd : bool).

Lemma index_record_ok e f kd p x a h k vs pos :
  fs_nodes f !! p = Some x → e_heap e !! a = Some (datafile_header_bytes h) →
  e_heap e !! (a + 1) = Some k → datafile_header_ok h → zlen k = df_key_size h →
  keydir_ok (e, kd) → calm e →
  ∃ e' kd',
    index_record p pos (datafile_iov a (zlen k) vs) (World e f kd rg th ru sd) =
      Ret CCASK_OK (World e' f kd' rg th ru sd) ∧
    keydir_ok (e', kd') ∧ env_grow e e' ∧ e_kernel e' = e_kernel e ∧
    keydir_map kd' =
      <[k := KdInfo (file_id x) pos (df_value_size h) (df_timestamp h)]> (keydir_map kd) ∧
    (∀ b, b ∈ kd_blocks (hash_table kd') → b ∈ kd_blocks (hash_table kd) ∨ e_brk e ≤ b).
Proof.
  intros Hx Ha Hk Hh Hks Hkd Hc.
  assert (cbuf_read (Some k) (df_key_size h) = Some k) as Hread
    by (rewrite <-Hks; apply cbuf_read_all).
  destruct (wp_inv _ _ _ (keydir_upsert_ok (e, kd) (Some k) (df_key_size h) k (file_id x) pos
    (df_value_size h) (df_timestamp h) Hkd Hread (calm_mallocs 2 e Hc)))
    as (r & [e' kd'] & Hrun & -> & Hok' & Hmap & He & Hbl). simpl in *.
  exists e', kd'. split; [|split; [done|]].
  - unfold index_record.
    erewrite bind_run by (apply zoom_env, (get_datafile_record_header_run e
      (datafile_iov a (zlen k) vs) a 16 _ eq_refl Ha), zlen_datafile_header).
    rewrite datafile_header_of_bytes by done.
    erewrite bind_run by (by apply zoom_env, (heap_buf_run e (a + 1) k)).
    erewrite bind_run by (by apply zoom_files, node_run).
    by erewrite bind_run by (eapply zoom_attempt_keydir, attempt_once; [exact Hrun | done]).
  - pose proof (keydir_heap _ Hkd) as Hwf. simpl in Hwf.
    split; [|split; [|by split]]; destruct He as [-> | ->]; try done; [apply env_grow_refl|].
    eapply env_grow_trans; apply put_block_grow; eauto with ccask.
Qed.

(** Appending to the active file [p], which holds [old]. *)
Lemma write_record_ok n e f kd l p x a h k v ino old :
  disk_ok (e, f) l → keydir_ok (e, kd) → fs_head f = Some p → fs_nodes f !! p = Some x →
  file_rwlock x = rwlock_new → 0 ≤ file_fd x → fd_opened e (file_fd x) ino true true →
  inodes e !! ino = Some old →
  e_heap e !! a = Some (datafile_header_bytes h) → e_heap e !! (a + 1) = Some k →
  e_heap e !! (a + 2) = Some v → datafile_record_ok h k v → v ≠ [] →
  zlen old + (16 + zlen k + zlen v) ≤ fs_max_active f →
  zlen old + (16 + zlen k + zlen v) < 2 ^ 63 → calm e →
  (length (events e) + Z.to_nat (16 + zlen k + zlen v) < fuel)%nat →
  ∃ e1 e' kd',
    write_record fuel (S n) (datafile_iov a (zlen k) (zlen v)) (World e f kd rg th ru sd) =
      Ret CCASK_OK (World e' f kd' rg th ru sd) ∧
    env_step e e1 (e_heap e) (<[ino := old ++ datafile_record_bytes h k v]> (inodes e)) ∧
    env_grow e1 e' ∧ keydir_ok (e', kd') ∧
    keydir_map kd' = <[k := KdInfo (file_id x) (zlen old) (zlen v) (df_timestamp h)]>
      (keydir_map kd) ∧
    (∀ b, b ∈ kd_blocks (hash_table kd') → b ∈ kd_blocks (hash_table kd) ∨ e_brk e ≤ b).
Proof.
  intros Hd Hkd Hp Hx Hlock Hfd Hopen Hino Ha Hk Hv (Hh & Hks & Hvs) Hvn Hmax H63 Hc Hfuel.
  pose proof (zlen_nonneg old). pose proof (zlen_nonneg k). pose proof (zlen_nonneg v).
  pose (x1 := set_file_rwlock (RWLock 0 true) x).
  destruct (lseek_end_ok e (file_fd x) ino true true old Hopen Hino (calm_head e Hc))
    as (e1 & Hseek & Hfr1).
  pose proof (io_frame_heap _ _ _ _ Hfr1) as Hh1.
  set (iov := datafile_iov a (zlen k) (zlen v)).
  set (data := datafile_header_bytes h ++ k ++ v).
  assert (gather (e_heap e1) iov = Some data) as Hg.
  { rewrite Hh1. apply gather_datafile_iov; [done | apply zlen_datafile_header | done..]. }
  assert (zlen data = 16 + zlen k + zlen v) as Hdlen.
  { unfold data. rewrite !zlen_app, zlen_datafile_header. lia. }
  assert (length (events e1) + length data < fuel)%nat as Hfuel1.
  { destruct (io_frame_events _ _ _ _ Hfr1) as [evs Hev]. rewrite Hev, length_app in Hfuel.
    unfold zlen in *. lia. }
  destruct (wp_inv _ _ _ (safe_writev_spec fuel (file_fd x) iov e1 ino old data Hfd
    (io_frame_fd _ _ _ _ _ _ _ _ Hfr1 Hopen) ltac:(by rewrite (io_frame_inodes _ _ _ _ Hfr1))
    Hg ltac:(done) (datafile_iov_ends a (zlen k) v Hvn) Hfuel1))
    as (r & e2 & Hwr & m & Hm & Hfr2 & Hr).
  destruct Hr as [(-> & ->)|(_ & _ & _ & Hnb)].
  2: { exfalso. apply Hnb. eapply io_frame_benign; [done|]. by apply calm_benign. }
  rewrite firstn_all in Hfr2.
  pose proof (io_frame_trans _ _ _ _ _ _ _ Hfr1 Hfr2) as Hfr.
  rewrite Hh1, (io_frame_inodes _ _ _ _ Hfr1) in Hfr.
  assert (env_step e e2 (e_heap e) (<[ino := old ++ data]> (inodes e))) as Hst.
  { apply io_frame_step; [done|]. rewrite dom_insert_lookup_L; [done|]. by rewrite Hino. }
  pose proof (es_heap _ _ _ _ Hst) as Hh2.
  assert (calm e2) as Hc2.
  { destruct Hc, Hst. constructor; [by eapply Forall_suffix | congruence]. }
  destruct (index_record_ok e2 f kd p x a h k (zlen v) (zlen old))
    as (e3 & kd3 & Hidx & Hkd3 & Hg3 & _ & Hmap & Hbl); rewrite ?Hh2; try done.
  { eapply keydir_ok_same_heap; [done | done |]. by destruct Hst. }
  rewrite (es_brk _ _ _ _ Hst) in Hbl.
  exists e2, e3, kd3. split; [|by rewrite Hmap, Hvs].
  cbn [write_record]. unfold ccask_files_get_active_file.
  erewrite bind_run by (apply zoom_files; reflexivity). simpl fs_head.
  rewrite (bind_deref p) by done.
  erewrite bind_run by (apply zoom_files, (node_lock_put _ p e f x (RWLock 0 true));
    [done | by rewrite Hlock]).
  erewrite bind_run by apply zoom_files, (node_run p e _ x1), put_node_lookup.
  erewrite bind_run by apply zoom_env, Hseek.
  rewrite bool_decide_eq_false_2 by lia. unfold iov. rewrite datafile_iov_size by lia.
  unfold files. erewrite bind_run by (apply zoom_files; reflexivity).
  rewrite u64_small, bool_decide_eq_false_2 by (unfold is_u64; simpl; lia).
  erewrite bind_run by apply zoom_files, (node_run p e1 _ x1), put_node_lookup.
  erewrite bind_run by apply zoom_env, Hwr. cbn match.
  erewrite bind_run by (apply zoom_files, (node_lock_put _ p _ _ x1 rwlock_new);
    [apply put_node_lookup | done]).
  rewrite put_node_twice.
  assert (set_file_rwlock rwlock_new x1 = x) as -> by (unfold x1; by destruct x; simpl in *; subst).
  by rewrite put_node_id.
Qed.

(** The writing loop never comes to an end of an empty last buffer, and the
    function with it, whatever the fuel. *)
Lemma write_record_hangs n e f kd p x a ks data ino old :
  fs_head f = Some p → fs_nodes f !! p = Some x →
  file_rwlock x = rwlock_new → 0 ≤ file_fd x → fd_opened e (file_fd x) ino true true →
  inodes e !! ino = Some old → gather (e_heap e) (datafile_iov a ks 0) = Some data →
  0 ≤ ks → zlen old + (16 + ks) ≤ fs_max_active f → zlen old + (16 + ks) < 2 ^ 63 → calm e →
  write_record fuel n (datafile_iov a ks 0) (World e f kd rg th ru sd) = NoFuel.
Proof.
  intros Hp Hx Hlock Hfd Hopen Hino Hg Hks Hmax H63 Hc.
  destruct n as [|n]; [done|]. pose (x1 := set_file_rwlock (RWLock 0 true) x).
  destruct (lseek_end_ok e (file_fd x) ino true true old Hopen Hino (calm_head e Hc))
    as (e1 & Hseek & Hfr1).
  pose proof (zlen_nonneg old).
  cbn [write_record]. unfold ccask_files_get_active_file.
  erewrite bind_run by (apply zoom_files; reflexivity). simpl fs_head.
  rewrite (bind_deref p) by done.
  erewrite bind_run by (apply zoom_files, (node_lock_put _ p e f x (RWLock 0 true));
    [done | by rewrite Hlock]).
  erewrite bind_run by apply zoom_files, (node_run p e _ x1), put_node_lookup.
  erewrite bind_run by apply zoom_env, Hseek.
  rewrite bool_decide_eq_false_2 by lia. rewrite datafile_iov_size by lia.
  unfold files. erewrite bind_run by (apply zoom_files; reflexivity).
  rewrite u64_small, bool_decide_eq_false_2 by (unfold is_u64; simpl; lia).
  erewrite bind_run by apply zoom_files, (node_run p e1 _ x1), put_node_lookup.
  apply bind_nofuel. unfold zoom. simpl.
  rewrite (safe_writev_diverges fuel (file_fd x) (datafile_iov a ks 0) e1 ino old); try done.
  - by eapply io_frame_fd.
  - by rewrite (io_frame_inodes _ _ _ _ Hfr1).
  - rewrite (io_frame_heap _ _ _ _ Hfr1). eauto.
  - eapply io_frame_benign; [done|]. by apply calm_benign.
Qed.
End write.
