(* ===== verification/Core.v ===== *)
(** * Core: the interface of the library

    Models [core.c] and [core.h]: start and shutdown, [get], [put], [delete]
    and the iteration over the keys. *)
From S2P Require Import Prelude Status Posix SafeIO Codec Records Ringbuf Uthash Keydir.
From S2P Require Import Filenames Files World Hint Recovery Reader Writer.

Record ccask_options_t := Options {
  opt_data_dir : string;
  opt_writer_ringbuf_capacity : Z;
  opt_datafile_rotate_threshold : Z;
}.

Record ccask_record_t := CRecord {
  rec_timestamp : Z;
  rec_key_size : Z;
  rec_value_size : Z;
  rec_value : option ptr;
}.

Definition set_rec_value (p : option ptr) (r : ccask_record_t) : ccask_record_t :=
  CRecord (rec_timestamp r) (rec_key_size r) (rec_value_size r) p.

Definition sizeof_keys_iter : Z := 8.

(** [ccask_keys_iter_t *]: its block, and the iterator in it. *)
Record ccask_keys_iter_t := KeysIter { ki_at : Z; ki_keydir_iter : ccask_keydir_record_iter_t }.

Section core.
Context {host : Host} {zlib : Zlib}.
Variable fuel : nat.

(** [entries] is what [readdir] and [stat] say about the data directory. *)
Definition ccask_init (opts : ccask_options_t) (entries : list dirent) :
    M world ccask_status_e :=
  _ ← modify (set_w_shutting_down false);
  res ← CCASK_ATTEMPT 5 (zoom (ccask_files_init (opt_data_dir opts)
           (opt_datafile_rotate_threshold opts) entries));
  if bool_decide (res ≠ CCASK_OK) then mret CCASK_FAIL
  else
    res ← CCASK_ATTEMPT 5 (ccask_keydir_init fuel);
    if bool_decide (res ≠ CCASK_OK) then _ ← zoom ccask_files_shutdown; mret CCASK_FAIL
    else
      res ← CCASK_ATTEMPT 5 (ccask_writer_start (opt_writer_ringbuf_capacity opts));
      if bool_decide (res ≠ CCASK_OK) then
        _ ← zoom ccask_keydir_shutdown; _ ← zoom ccask_files_shutdown; mret CCASK_FAIL
      else _ ← ccask_hintfile_generator_init; mret CCASK_OK.

Definition ccask_shutdown : M world unit :=
  _ ← modify (set_w_shutting_down true);
  _ ← ccask_hintfile_generator_shutdown fuel;
  _ ← ccask_writer_stop fuel;
  _ ← zoom ccask_keydir_shutdown;
  zoom ccask_files_shutdown.

Definition ccask_free_record (record : ccask_record_t) : M env unit := free (rec_value record).

(** [ccask_get] gives up the lock on the table when it has found the entry, and
    follows the pointer [p] to the entry again in each of the following steps.

    The buffers of the record are allocated. *)
Definition get_allocate (p : Z) : M world (ccask_status_e * ccask_datafile_record_t) :=
  kd ← zoom (kd_entry p);
  zoom (ccask_allocate_datafile_record datafile_record_garbage (kd_key_size kd) (kd_value_size kd)).

(** Where the record is: the first and the last argument of the call that
    reads it. *)
Definition get_place (p : Z) : M world (Z * Z) :=
  kd ← zoom (kd_entry p); mret (kd_file_id kd, kd_record_pos kd).

(** The checksum of the record that was read; [None] when it is wrong. *)
Definition get_check (df_record : ccask_datafile_record_t) :
    M env (option ccask_datafile_record_header) :=
  header ← ccask_get_datafile_record_header df_record;
  read_key ← heap_buf (ccask_get_datafile_record_key df_record);
  read_value ← heap_buf (ccask_get_datafile_record_value df_record);
  crc ← deref (calculate_crc32 (df_timestamp header) (df_key_size header)
           (df_value_size header) read_key read_value);
  if bool_decide (crc ≠ df_crc header) then
    _ ← free_datafile_record df_record;
    _ ← set_ccask_errno CCASK_ERR_CRC_INVALID;
    mret None
  else mret (Some header).

(** The block for the caller, [malloc(kd_record->value_size)]. *)
Definition get_space (p : Z) : M world (option Z) :=
  kd ← zoom (kd_entry p); zoom (malloc (kd_value_size kd)).

(** [memcpy(record->value, read_value, kd_record->value_size)]. *)
Definition get_copy (p : Z) (value : Z) (df_record : ccask_datafile_record_t) : M world unit :=
  kd ← zoom (kd_entry p);
  read_value ← zoom (heap_buf (ccask_get_datafile_record_value df_record));
  zoom (memcpy (Some (value, 0)) read_value (kd_value_size kd)).

(** The other fields of the caller's record, and the end. *)
Definition get_result (p : Z) (header : ccask_datafile_record_header) (value : Z)
    (df_record : ccask_datafile_record_t) : M world (ccask_status_e * ccask_record_t) :=
  kd ← zoom (kd_entry p);
  _ ← zoom (free_datafile_record df_record);
  mret (CCASK_OK, CRecord (df_timestamp header) (df_key_size header) (kd_value_size kd)
          (Some (value, 0))).

(** What [ccask_get] does with its buffers. *)
Definition get_fetch (p : Z) (df_record : ccask_datafile_record_t) (record : ccask_record_t) :
    M world (ccask_status_e * ccask_record_t) :=
  res ← CCASK_ATTEMPT 5 (
    '(file_id, record_pos) ← get_place p;
    ccask_read_datafile_record fuel file_id df_record record_pos);
  if bool_decide (res ≠ CCASK_OK) then mret (CCASK_FAIL, record)
  else
    header ← zoom (get_check df_record);
    match header with
    | None => mret (CCASK_FAIL, record)
    | Some header =>
        value ← get_space p;
        match value with
        | None =>
            _ ← zoom (set_ccask_errno CCASK_ERR_NO_MEMORY);
            mret (CCASK_FAIL, set_rec_value None record)
        | Some value =>
            _ ← get_copy p value df_record;
            get_result p header value df_record
        end
    end.

Definition ccask_get (key : cbuf) (key_size : Z) (record : ccask_record_t) :
    M world (ccask_status_e * ccask_record_t) :=
  kd_record ← zoom (ccask_keydir_find key key_size);
  match kd_record with
  | None => mret (CCASK_OK, set_rec_value None record)
  | Some kd =>
      '(res, df_record) ← get_allocate (kd_at kd);
      if bool_decide (res ≠ CCASK_OK) then mret (CCASK_FAIL, record)
      else get_fetch (kd_at kd) df_record record
  end.

Definition ccask_put (key : cbuf) (key_size : Z) (value : cbuf) (value_size : Z) :
    M world ccask_status_e :=
  w ← get;
  if w_shutting_down w then mret CCASK_FAIL
  else
    res ← CCASK_ATTEMPT 5 (
      t ← zoom time;
      zoom (ccask_writer_ringbuf_push (u32 t) key key_size value value_size));
    mret (if bool_decide (res ≠ CCASK_OK) then CCASK_FAIL else CCASK_OK).

Definition ccask_put_blocking (key : cbuf) (key_size : Z) (value : cbuf) (value_size : Z) :
    M world ccask_status_e :=
  w ← get;
  if w_shutting_down w then mret CCASK_FAIL
  else
    t ← zoom time;
    '(res, record) ← zoom (ccask_create_datafile_record datafile_record_garbage (u32 t)
         key key_size value value_size);
    if bool_decide (res ≠ CCASK_OK) then mret CCASK_FAIL
    else
      res ← ccask_write_record_blocking fuel record;
      if bool_decide (res ≠ CCASK_OK) then mret CCASK_FAIL
      else _ ← zoom (free_datafile_record record); mret CCASK_OK.

Definition ccask_delete (key : cbuf) (key_size : Z) : M world ccask_status_e :=
  ccask_put key key_size None 0.
Definition ccask_delete_blocking (key : cbuf) (key_size : Z) : M world ccask_status_e :=
  ccask_put_blocking key key_size None 0.
End core.

Definition ccask_list_keys : M world (option ccask_keys_iter_t) :=
  iter ← zoom (malloc sizeof_keys_iter);
  match iter with
  | None => _ ← zoom (set_ccask_errno CCASK_ERR_NO_MEMORY); mret None
  | Some iter => it ← zoom ccask_keydir_record_iter; mret (Some (KeysIter iter it))
  end.

(** The key's pointer and size are what the entry holds. *)
Definition ccask_keys_iter_next (iter : ccask_keys_iter_t) :
    M world (ccask_status_e * ccask_keys_iter_t * option (Z * Z)) :=
  '(record, it) ← zoom (ccask_keydir_record_iter_next (ki_keydir_iter iter));
  let iter := KeysIter (ki_at iter) it in
  match record with
  | None => _ ← zoom (set_ccask_errno CCASK_ERR_ITER_END); mret (CCASK_FAIL, iter, None)
  | Some x => mret (CCASK_OK, iter, Some (kd_key_at x, kd_key_size x))
  end.

Definition ccask_keys_iter_close (iter : ccask_keys_iter_t) : M world unit :=
  _ ← zoom ccask_keydir_record_iter_close;
  zoom (free (Some (ki_at iter, 0))).
