(* ===== verification/Frames.v ===== *)
(** * Frames: what a call does not take away

    [Frames R m]: whenever [m] returns, [R] holds between the states before
    and after it.  For a preorder [R] this goes through sequencing, branches
    and loops, so that it is proved of a function from what it calls.  Here [R] says
    that the entries of the key directory stay where they are: a pointer to
    an entry stays good, since no call but a deletion frees one. *)
From S2P Require Import Prelude Status Posix SafeIO Codec Records Ringbuf Uthash Keydir.
From S2P Require Import Filenames Files Iterator World Hint Reader Writer Core.
Open Scope Z_scope.

Class Frames {S A : Type} (R : relation S) (m : M S A) : Prop :=
  frames_run : ∀ s a s', m s = Ret a s' → R s s'.
#[export] Hint Mode Frames + + + ! : typeclass_instances.

Section frames.
Context {S : Type} (R : relation S) `{!PreOrder R}.

#[export] Instance frames_ret {A} (a : A) : Frames R (mret a).
Proof. intros s b s' [= _ <-]. reflexivity. Qed.

#[export] Instance frames_get : Frames R get.
Proof. intros s b s' [= _ <-]. reflexivity. Qed.

#[export] Instance frames_gets {A} (f : S → A) : Frames R (gets f).
Proof. intros s b s' [= _ <-]. reflexivity. Qed.

#[export] Instance frames_undef {A} : Frames R (undef (A := A)).
Proof. by intros s b s'. Qed.

#[export] Instance frames_no_fuel {A} : Frames R (no_fuel (A := A)).
Proof. by intros s b s'. Qed.

#[export] Instance frames_blocked {A} : Frames R (blocked (A := A)).
Proof. by intros s b s'. Qed.

#[export] Instance frames_deref {A} (o : option A) : Frames R (deref o).
Proof. destruct o; apply _. Qed.

#[export] Instance frames_rdlock l : Frames R (rdlock l).
Proof. unfold rdlock. destruct (rw_writer l); apply _. Qed.

#[export] Instance frames_wrlock l : Frames R (wrlock l).
Proof. unfold wrlock. destruct (rw_writer l), (rw_readers l); apply _. Qed.

#[export] Instance frames_rwunlock l : Frames R (rwunlock l).
Proof. unfold rwunlock. destruct (rw_writer l), (rw_readers l); apply _. Qed.

Lemma frames_modify (f : S → S) : (∀ s, R s (f s)) → Frames R (modify f).
Proof. intros Hf s b s' [= _ <-]. apply Hf. Qed.

Lemma frames_bind {A B} (m : M S A) (k : A → M S B) :
  Frames R m → (∀ a, Frames R (k a)) → Frames R (m ≫= k).
Proof.
  intros Hm Hk s b s' (a & s1 & Hrun & Hrest)%bind_Ret.
  etrans; [exact (Hm _ _ _ Hrun) | exact (Hk _ _ _ _ Hrest)].
Qed.

Lemma frames_attempt {A} `{!Attempt A} n (m : M S A) : Frames R m → Frames R (CCASK_ATTEMPT n m).
Proof.
  intros Hm. induction n as [|n IH]; simpl; [apply _|]. apply frames_bind; [done|]. intros a.
  destruct (is_retry a); [destruct n; [apply _ | exact IH] | apply _].
Qed.
End frames.

(** Sequencing and branches are gone through; what is left are the calls. *)
Ltac frame_step :=
  lazymatch goal with
  | |- Frames _ (_ ≫= _) => apply (frames_bind _); [|intros ?]
  | |- Frames _ (CCASK_ATTEMPT _ _) => apply (frames_attempt _)
  | |- Frames _ (match ?x with _ => _ end) => destruct x
  | |- Frames _ _ => first [apply _ | done]
  end.
Ltac frames := repeat frame_step.

(** ** The entries of the key directory *)

(** Where the entries are, and their keys. *)
Definition kd_names (t : list ccask_keydir_record) : list (Z * bytes) :=
  (λ x, (kd_at x, kd_key x)) <$> t.

Definition kd_stay (s s' : kdstate) : Prop := kd_names (hash_table s.2) ⊆ kd_names (hash_table s'.2).
Definition entries_stay (w w' : world) : Prop :=
  kd_names (hash_table (w_keydir w)) ⊆ kd_names (hash_table (w_keydir w')).

#[export] Instance kd_stay_preorder : PreOrder kd_stay.
Proof. unfold kd_stay. split; [by intros s | intros s1 s2 s3; by etrans]. Qed.
#[export] Instance entries_stay_preorder : PreOrder entries_stay.
Proof. unfold entries_stay. split; [by intros w | intros w1 w2 w3; by etrans]. Qed.

Lemma entries_stay_same w w' : w_keydir w' = w_keydir w → entries_stay w w'.
Proof. unfold entries_stay. by intros ->. Qed.

(** The other components have no entries. *)
Lemma zoom_frames {E W A : Type} `{!Part E W} (R : relation W) (m : M E A) :
  (∀ e w, R w (set_part e w)) → Frames R (zoom m).
Proof. intros HR w a w'. unfold zoom. destruct (m _); [|done..]. by intros [= _ <-]. Qed.

#[export] Instance stay_env {A} (m : M env A) : Frames entries_stay (zoom m).
Proof. apply zoom_frames. intros. by apply entries_stay_same. Qed.
#[export] Instance stay_files {A} (m : M fstate A) : Frames entries_stay (zoom m).
Proof. apply zoom_frames. intros. by apply entries_stay_same. Qed.
#[export] Instance stay_ring {A} (m : M rstate A) : Frames entries_stay (zoom m).
Proof. apply zoom_frames. intros. by apply entries_stay_same. Qed.
#[export] Instance stay_kd_env {A} (m : M env A) : Frames kd_stay (zoom m).
Proof. apply zoom_frames. unfold kd_stay. by intros e [? ?]. Qed.

#[export] Instance stay_keydir {A} (m : M kdstate A) : Frames kd_stay m → Frames entries_stay (zoom m).
Proof.
  intros Hm w a w'. unfold zoom. destruct (m _) as [b s| | |] eqn:Hrun; try done.
  intros [= _ <-]. exact (Hm _ _ _ Hrun).
Qed.

#[export] Instance stay_modify f : TCEq (λ w, w_keydir (f w)) w_keydir → Frames entries_stay (modify f).
Proof.
  intros Hf%TCEq_eq. apply frames_modify. intros w. apply entries_stay_same.
  by apply (f_equal (λ g, g w)) in Hf.
Qed.

(** ** The functions on the table *)

#[export] Instance kd_lock_stays op : (∀ l, Frames kd_stay (op l)) → Frames kd_stay (kd_lock op).
Proof. intros Hop. unfold kd_lock. frames. apply frames_modify. unfold kd_stay. by intros [? ?]. Qed.

#[export] Instance kd_table_stays : Frames kd_stay kd_table.
Proof. apply _. Qed.

#[export] Instance find_stays key ks : Frames kd_stay (ccask_keydir_find key ks).
Proof. unfold ccask_keydir_find. frames. Qed.

#[export] Instance entry_stays p : Frames kd_stay (kd_entry p).
Proof. unfold kd_entry. frames. Qed.

(** The table is replaced by one that has the entries. *)
Lemma kd_change_stays {A} (g : list ccask_keydir_record → list ccask_keydir_record) (k : M kdstate A) :
  (∀ t, kd_names t ⊆ kd_names (g t)) → Frames kd_stay k →
  Frames kd_stay (t ← kd_table; _ ← set_kd_table (g t); k).
Proof.
  intros Hg Hk s a s' (t & s1 & [= <- <-] & (u & s2 & [= <- <-] & Hrun)%bind_Ret)%bind_Ret.
  etrans; [|exact (Hk _ _ _ Hrun)]. unfold kd_stay. simpl. apply Hg.
Qed.

#[export] Instance upsert_stays key ks id pos vs ts :
  Frames kd_stay (ccask_keydir_upsert key ks id pos vs ts).
Proof.
  unfold ccask_keydir_upsert. repeat first [apply kd_change_stays; [intros t|] | frame_step].
  - match goal with |- _ ⊆ ?l => assert (l = kd_names t) as ->; [|done] end.
    unfold kd_names, hash_update. rewrite <-list_fmap_compose. apply list_fmap_ext.
    intros i x _. simpl. by case_bool_decide.
  - unfold kd_names, hash_add. rewrite fmap_app. set_solver.
Qed.

(** ** The functions of the store *)

#[export] Instance create_thread_stays t : Frames entries_stay (pthread_create t).
Proof. unfold pthread_create. frames. Qed.

#[export] Instance join_stays body t :
  (∀ t, Frames entries_stay (body t)) → Frames entries_stay (pthread_join body t).
Proof. intros Hb. unfold pthread_join. frames. Qed.

Section store.
Context {host : Host} {zlib : Zlib} (fuel : nat).

#[export] Instance generate_stays file : Frames entries_stay (ccask_hintfile_generate file).
Proof. unfold ccask_hintfile_generate. frames. Qed.

#[export] Instance rotate_stays : Frames entries_stay ccask_files_rotate.
Proof. unfold ccask_files_rotate. frames. Qed.

#[export] Instance failed_stays id fd iter record hint :
  Frames entries_stay (generation_failed id fd iter record hint).
Proof. unfold generation_failed. frames. Qed.

#[export] Instance hint_turn_stays id fd iter record hint pos :
  Frames entries_stay (hint_turn fuel id fd iter record hint pos).
Proof. unfold hint_turn. frames. Qed.

#[export] Instance hint_loop_stays n id fd iter record hint pos :
  Frames entries_stay (hint_loop fuel n id fd iter record hint pos).
Proof.
  revert iter record hint pos. induction n as [|n IH]; intros; simpl; frames.
Qed.

#[export] Instance hint_thread_stays t : Frames entries_stay (hint_body fuel t).
Proof. unfold hint_body, hintfile_generator_thread. frames. Qed.

#[export] Instance index_stays file pos record : Frames entries_stay (index_record file pos record).
Proof. unfold index_record. frames. Qed.

#[export] Instance write_stays n record : Frames entries_stay (write_record fuel n record).
Proof. revert record. induction n as [|n IH]; intros; simpl; frames. Qed.

#[export] Instance writer_turn_stays record : Frames entries_stay (writer_turn fuel record).
Proof. unfold writer_turn, ccask_write_record_blocking. frames. Qed.

#[export] Instance read_stays id record pos :
  Frames entries_stay (ccask_read_datafile_record fuel id record pos).
Proof. unfold ccask_read_datafile_record, reader_open, reader_read. frames. Qed.

#[export] Instance get_allocate_stays p : Frames entries_stay (get_allocate p).
Proof. unfold get_allocate. frames. Qed.

#[export] Instance get_fetch_stays p df r : Frames entries_stay (get_fetch fuel p df r).
Proof. unfold get_fetch, get_place, get_space, get_copy, get_result. frames. Qed.

#[export] Instance get_stays key ks r : Frames entries_stay (ccask_get fuel key ks r).
Proof. unfold ccask_get. frames. Qed.

#[export] Instance put_stays key ks value vs : Frames entries_stay (ccask_put key ks value vs).
Proof. unfold ccask_put. frames. Qed.

#[export] Instance put_blocking_stays key ks value vs :
  Frames entries_stay (ccask_put_blocking fuel key ks value vs).
Proof. unfold ccask_put_blocking, ccask_write_record_blocking. frames. Qed.
End store.
