(* ===== verification/Compactor.v ===== *)
(** * Compactor: writing the live records to new files

    Models [compactor.c].  The [goto cancel_compaction] of the loop is the
    [Cancel] it ends with; a [return] from inside it is [Return]. *)
From S2P Require Import Prelude Status Posix SafeIO Codec Records Ringbuf Uthash Keydir.
From S2P Require Import Filenames Files World Reader.

Inductive dump_end : Type :=
  | Done (fd curr_temp_id : Z)       (* the loop is over *)
  | Cancel (curr_temp_id : Z)
  | Return.

Section compactor.
Variable fuel : nat.

(** One turn of the [while], for the entry [kd]: the next turn's descriptor
    and file number, or how the loop ends. *)
Definition dump_turn (kd : ccask_keydir_record) (temp_file_fd curr_temp_id : Z) :
    M world (Z * Z + dump_end) :=
  '(res, df_record) ← zoom (ccask_allocate_datafile_record datafile_record_garbage
       (kd_key_size kd) (kd_value_size kd));
  if bool_decide (res ≠ CCASK_OK) then mret (inr Return)
  else
    res ← CCASK_ATTEMPT 5 (ccask_read_datafile_record fuel (kd_file_id kd) df_record
             (kd_record_pos kd));
    if bool_decide (res ≠ CCASK_OK) then
      _ ← zoom (sys_close temp_file_fd); mret (inr (Cancel curr_temp_id))
    else
      pos ← zoom (lseek_end temp_file_fd);
      if bool_decide (pos < 0) then
        _ ← zoom (sys_close temp_file_fd); mret (inr (Cancel curr_temp_id))
      else
        let record_size := ccask_get_datafile_record_total_size df_record in
        f ← zoom files;
        '(temp_file_fd, curr_temp_id) ←
          (if bool_decide (u64 (pos + record_size) > fs_max_active f) then
             _ ← zoom (sys_close temp_file_fd);
             let curr_temp_id := u64 (curr_temp_id + 1) in
             fd ← CCASK_ATTEMPT 5 (zoom (ccask_files_get_temp_datafile_fd curr_temp_id));
             mret (fd, curr_temp_id)
           else mret (temp_file_fd, curr_temp_id));
        if bool_decide (temp_file_fd < 0) then mret (inr (Cancel curr_temp_id))
        else
          res ← zoom (safe_writev fuel temp_file_fd df_record);
          if bool_decide (res ≠ CCASK_OK) then
            _ ← zoom (sys_close temp_file_fd); mret (inr (Cancel curr_temp_id))
          else
            _ ← zoom (free_datafile_record df_record);
            mret (inl (temp_file_fd, curr_temp_id)).

Fixpoint dump_loop (n : nat) (iter : ccask_keydir_record_iter_t)
    (temp_file_fd curr_temp_id : Z) : M world dump_end :=
  match n with
  | O => no_fuel
  | S n' =>
      '(kd_record, iter) ← zoom (ccask_keydir_record_iter_next iter);
      match kd_record with
      | None => mret (Done temp_file_fd curr_temp_id)
      | Some kd =>
          r ← dump_turn kd temp_file_fd curr_temp_id;
          match r with
          | inl (fd, id) => dump_loop n' iter fd id
          | inr e => mret e
          end
      end
  end.

(** The old files are deleted, from the oldest on; the result is
    [delete_res]. *)
Fixpoint delete_old_files (n : nat) (curr_file : option Z) (delete_res : ccask_status_e) :
    M world ccask_status_e :=
  match n with
  | O => no_fuel
  | S n' =>
      match curr_file with
      | None => mret delete_res
      | Some p =>
          x ← zoom (node p);
          res ← CCASK_ATTEMPT 5 (zoom (ccask_files_delete (file_id x) FILE_DATA));
          let delete_res := if bool_decide (res ≠ CCASK_OK) then CCASK_FAIL else delete_res in
          delete_res ←
            (if file_has_hint x then
               res ← CCASK_ATTEMPT 5 (zoom (ccask_files_delete (file_id x) FILE_HINT));
               mret (if bool_decide (res ≠ CCASK_OK) then CCASK_FAIL else delete_res)
             else mret delete_res);
          delete_old_files n' (file_previous x) delete_res
      end
  end.

(** [for (i = 0; i <= curr_temp_id; i++)], with [todo] turns left. *)
Fixpoint rename_temp_files (todo : nat) (i : Z) : M world unit :=
  match todo with
  | O => mret tt
  | S todo' =>
      _ ← CCASK_ATTEMPT 5 (zoom (ccask_files_change_ext i FILE_TEMP_DATA FILE_DATA));
      rename_temp_files todo' (i + 1)
  end.

(** [for (int i = curr_temp_id; i >= 0; i--)]. *)
Fixpoint delete_temp_files (todo : nat) : M world unit :=
  match todo with
  | O => mret tt
  | S todo' =>
      _ ← CCASK_ATTEMPT 5 (zoom (ccask_files_delete (Z.of_nat todo') FILE_TEMP_DATA));
      delete_temp_files todo'
  end.

Definition ccask_compactor_dump_keydir : M world ccask_status_e :=
  temp_file_fd ← CCASK_ATTEMPT 5 (zoom (ccask_files_get_temp_datafile_fd 0));
  if bool_decide (temp_file_fd < 0) then mret CCASK_FAIL
  else
    iter ← zoom ccask_keydir_record_iter;
    r ← dump_loop fuel iter temp_file_fd 0;
    match r with
    | Return => mret CCASK_FAIL
    | Cancel curr_temp_id =>
        _ ← delete_temp_files (Z.to_nat (i32 curr_temp_id + 1)); mret CCASK_FAIL
    | Done fd curr_temp_id =>
        _ ← zoom (sys_close fd);
        _ ← zoom ccask_keydir_record_iter_close;
        curr_file ← zoom ccask_files_get_oldest_file;
        f ← zoom files;
        delete_res ← delete_old_files (1 + size (fs_nodes f)) curr_file CCASK_OK;
        if bool_decide (delete_res ≠ CCASK_OK) then mret delete_res
        else
          _ ← rename_temp_files (Z.to_nat (curr_temp_id + 1)) 0;
          mret CCASK_OK
    end.
End compactor.
