(* ===== verification/Main.v ===== *)
(** * Main: the command line program

    Models [main.c]: it opens the store in a fixed directory, compacts it and
    closes it again; the rest of its body is commented out. *)
From S2P Require Import Prelude Status Posix Codec Records Filenames Files World Core Compactor.

Section main.
Context {host : Host} {zlib : Zlib}.
Variable fuel : nat.

Definition main_options : ccask_options_t := Options "../test_data" 10 60.

(** [entries] is what the directory holds; the result is the exit status. *)
Definition main (entries : list dirent) : M world Z :=
  res ← ccask_init fuel main_options entries;
  if bool_decide (status_code res ≠ 0) then mret (-1)
  else
    _ ← ccask_compactor_dump_keydir fuel;
    _ ← ccask_shutdown fuel;
    mret 0.
End main.
