(* ===== verification/Teardown.v ===== *)
(** * Teardown: giving the memory back

    [ccask_files_shutdown], [ccask_keydir_shutdown] and
    [ccask_writer_ringbuf_destroy] free each block they hold once, and leave
    the files on the disk as they are. *)
From stdpp Require Import sorting.
From S2P Require Import Prelude Status Posix SafeIO Codec Records Ringbuf Uthash Keydir.
From S2P Require Import Filenames Files Disk DiskWrite World.
Open Scope Z_scope.

(** The blocks [bs], and only they, were freed; the directory and its files
    are the same. *)
Record released (bs : list Z) (e e' : env) : Prop := {
  rl_heap : ∀ c, e_heap e' !! c = if decide (c ∈ bs) then None else e_heap e !! c;
  rl_dir : k_dir (e_kernel e') = k_dir (e_kernel e);
  rl_inodes : inodes e' = inodes e;
  rl_brk : e_brk e' = e_brk e;
}.

Lemma released_nil e e' :
  e_heap e' = e_heap e → k_dir (e_kernel e') = k_dir (e_kernel e) → inodes e' = inodes e →
  e_brk e' = e_brk e → released [] e e'.
Proof. intros Hh. constructor; [|done..]. intros c. by rewrite Hh. Qed.

Lemma released_trans bs1 bs2 e e1 e2 :
  released bs1 e e1 → released bs2 e1 e2 → released (bs1 ++ bs2) e e2.
Proof.
  intros [H1 H2 H3 H4] [K1 K2 K3 K4]. constructor; [|congruence..]. intros c. rewrite K1, H1.
  destruct (decide (c ∈ bs2)) as [Hc2|Hc2].
  { rewrite decide_True; [done|]. apply elem_of_app. by right. }
  destruct (decide (c ∈ bs1)) as [Hc1|Hc1].
  { rewrite decide_True; [done|]. apply elem_of_app. by left. }
  rewrite decide_False; [done|]. intros [?|?]%elem_of_app; done.
Qed.

Lemma released_free e c : released [c] e (set_heap (delete c (e_heap e)) e).
Proof.
  constructor; [|done..]. intros d. simpl. rewrite lookup_delete.
  destruct (decide (c = d)) as [<-|Hne].
  - rewrite decide_True; [done | by left].
  - rewrite decide_False; [done|]. by intros ->%list_elem_of_singleton.
Qed.

Lemma released_live bs e e' c :
  released bs e e' → is_Some (e_heap e !! c) → c ∉ bs → is_Some (e_heap e' !! c).
Proof. intros H Hc Hn. rewrite (rl_heap _ _ _ H). by rewrite decide_False. Qed.

Lemma released_heap_wf bs e e' : released bs e e' → heap_wf e → heap_wf e'.
Proof.
  intros H Hwf c. rewrite (rl_heap _ _ _ H), (rl_brk _ _ _ H).
  case_decide; [by intros []|]. apply Hwf.
Qed.

(** ** The ring *)

Lemma ring_destroy_ok e r :
  is_Some (e_heap e !! rb_buf_at r) → is_Some (e_heap e !! rb_self_at r) →
  rb_buf_at r ≠ rb_self_at r →
  ∃ e', ccask_writer_ringbuf_destroy (e, Some r) = Ret tt (e', None) ∧
    released [rb_buf_at r; rb_self_at r] e e'.
Proof.
  intros Hb Hs Hne. set (e1 := set_heap (delete (rb_buf_at r) (e_heap e)) e).
  pose proof (released_free e (rb_buf_at r)) as H1. fold e1 in H1.
  assert (is_Some (e_heap e1 !! rb_self_at r)) as Hs1.
  { apply (released_live _ _ _ _ H1 Hs). by intros Heq%list_elem_of_singleton. }
  eexists. split; [|exact (released_trans [_] [_] _ _ _ H1 (released_free e1 (rb_self_at r)))].
  unfold ccask_writer_ringbuf_destroy. erewrite bind_run by reflexivity.
  erewrite bind_run by exact (zoom_fst (free _) _ _ _ _ (free_run e _ Hb)).
  by erewrite bind_run by exact (zoom_fst (free _) _ _ _ _ (free_run e1 _ Hs1)).
Qed.

Lemma start_shutdown_run e r :
  rb_mutex r = false →
  ccask_writer_ringbuf_start_shutdown (e, Some r) = Ret tt (e, Some (set_rb_shutdown true r)).
Proof.
  intros Hm. unfold ccask_writer_ringbuf_start_shutdown.
  erewrite bind_run by exact (mutex_lock_run e r Hm).
  unfold ringbuf, mutex_unlock, set_ringbuf, mbind, M_bind, get, modify. simpl.
  destruct r. simpl in *. by subst.
Qed.

(** ** The list of files *)

(** Taking a node out of the list. *)
Definition unlink_before (x : ccask_file) (m : gmap Z ccask_file) : gmap Z ccask_file :=
  match file_previous x with Some q => alter (set_file_next (file_next x)) q m | None => m end.
Definition unlink_after (x : ccask_file) (m : gmap Z ccask_file) : gmap Z ccask_file :=
  match file_next x with Some q => alter (set_file_previous (file_previous x)) q m | None => m end.

Lemma unlink_views x m : same_views m (unlink_after x (unlink_before x m)).
Proof.
  assert (same_views m (unlink_before x m)) as H.
  { unfold unlink_before. destruct (file_previous x); [|done]. by apply same_views_alter. }
  unfold unlink_after. destruct (file_next x); [|done]. by apply same_views_alter.
Qed.

Lemma dseg_unlink m l1 p l2 x :
  NoDup (l1 ++ p :: l2) → dseg m None (l1 ++ p :: l2) None → m !! p = Some x →
  dseg (delete p (unlink_after x (unlink_before x m))) None (l1 ++ l2) None.
Proof.
  intros (Hnd1 & Hdis & [Hp2 Hnd2]%NoDup_cons)%NoDup_app Hseg Hx.
  apply dseg_app in Hseg as [H1 [(x' & Hx' & Hprev & Hnext) H2]].
  assert (x' = x) as -> by congruence. cbn [hd_or] in H1.
  assert (p ∉ l1) as Hp1 by (intros Hin; apply (Hdis p Hin); by left).
  apply (dseg_frame (unlink_after x (unlink_before x m))).
  { intros a Ha. rewrite lookup_delete_ne; [done|]. intros ->.
    by apply elem_of_app in Ha as [?|?]. }
  apply dseg_app. unfold unlink_after, unlink_before. rewrite Hprev, Hnext. split.
  - assert (dseg (match last_or l1 None with
        | Some q => alter (set_file_next (hd_or l2 None)) q m | None => m end) None l1 (hd_or l2 None)) as Hl.
    { destruct l1 as [|b l1 _] using rev_ind; [done|]. rewrite last_or_app.
      apply (dseg_set_last _ _ _ _ (Some p)); [|done].
      apply NoDup_app in Hnd1 as (_ & Hb & _). intros Hin. apply (Hb b Hin). by left. }
    destruct l2 as [|c l2]; [exact Hl|]. apply dseg_alter; [|exact Hl]. intros Hc.
    apply (Hdis c Hc). by right; left.
  - assert (dseg (match last_or l1 None with
        | Some q => alter (set_file_next (hd_or l2 None)) q m | None => m end) (Some p) l2 None) as Hl.
    { destruct l1 as [|b l1 _] using rev_ind; [done|]. rewrite last_or_app.
      apply dseg_alter; [|done]. intros Hb. apply (Hdis b); [|by right].
      apply elem_of_app. right. by left. }
    destruct l2 as [|c l2]; [done|]. apply (dseg_set_first _ (Some p)); [|exact Hl].
    by apply NoDup_cons in Hnd2 as [? _].
Qed.

(** The nodes are linked, and none of them is locked. *)
Record closable (f : files_state) (l : list Z) : Prop := {
  cb_nodup : NoDup l;
  cb_seg : dseg (fs_nodes f) None l None;
  cb_locks : ∀ p x, p ∈ l → fs_nodes f !! p = Some x → file_rwlock x = rwlock_new;
}.

Lemma disk_closable e f l : disk_ok (e, f) l → closable f l.
Proof.
  intros Hd. pose proof (do_rep _ _ Hd) as Hrep.
  constructor; [apply (rep_nodup _ _ Hrep) | apply (rep_seg _ _ Hrep) |].
  intros p x Hp Hx. by destruct (do_nodes _ _ Hd p x Hp Hx) as (Hl & _).
Qed.

(** The descriptor is closed under the lock of the node. *)
Lemma close_node_ok e f p x :
  fs_nodes f !! p = Some x → file_rwlock x = rwlock_new →
  ∃ e' y, (∀ A (k : M fstate A),
      (_ ← node_lock wrlock p; n ← node p;
       _ ← (if bool_decide (file_fd n >= 0)
            then _ ← zoom (sys_close (file_fd n)); set_node p (set_file_fd (-1)) else mret tt);
       _ ← node_lock rwunlock p; k) (e, f) = k (e', put_node p y f)) ∧
    released [] e e' ∧ file_previous y = file_previous x ∧ file_next y = file_next x ∧
    file_rwlock y = rwlock_new.
Proof.
  intros Hx Hlock. set (x1 := set_file_rwlock (RWLock 0 true) x).
  set (x2 := if bool_decide (file_fd x >= 0) then set_file_fd (-1) x1 else x1).
  set (e' := if bool_decide (file_fd x >= 0) then close_fd (file_fd x) e else e).
  exists e', (set_file_rwlock rwlock_new x2). split; [|split].
  - intros A k. erewrite bind_run by
      (apply (node_lock_put _ p e f x (RWLock 0 true)); [done | by rewrite Hlock]). fold x1.
    erewrite bind_run by exact (node_run p e _ x1 (put_node_lookup _ _ _)).
    change (file_fd x1) with (file_fd x).
    assert ((if bool_decide (file_fd x >= 0) then _ ← zoom (sys_close (file_fd x));
        set_node p (set_file_fd (-1)) else mret tt) (e, put_node p x1 f) =
      Ret tt (e', put_node p x2 f)) as Hclose.
    { unfold e', x2. case_bool_decide; [|done].
      erewrite bind_run by exact (zoom_fst _ e _ tt _ (sys_close_run _ _)).
      rewrite (set_node_put p _ _ _ x1) by apply put_node_lookup. by rewrite put_node_twice. }
    erewrite bind_run by exact Hclose.
    erewrite bind_run by (apply (node_lock_put _ p e' _ x2 rwlock_new);
      [apply put_node_lookup | unfold x2; by case_bool_decide]).
    by rewrite put_node_twice.
  - unfold e'. case_bool_decide; by apply released_nil.
  - unfold x2. by case_bool_decide.
Qed.

(** The neighbours are linked past the node. *)
Lemma unlink_run e f l1 p l2 y :
  NoDup (l1 ++ p :: l2) → dseg (fs_nodes f) None (l1 ++ p :: l2) None → fs_nodes f !! p = Some y →
  ∃ f', (∀ A (k : M fstate A),
      (n ← node p;
       _ ← match file_previous n with
           | Some q => set_node q (set_file_next (file_next n))
           | None => modify_files (set_fs_head (file_next n)) end;
       n ← node p;
       _ ← match file_next n with
           | Some q => set_node q (set_file_previous (file_previous n))
           | None => modify_files (set_fs_tail (file_previous n)) end; k) (e, f) = k (e, f')) ∧
    fs_nodes f' = unlink_after y (unlink_before y (fs_nodes f)).
Proof.
  intros Hnd Hseg Hy. pose proof Hseg as [H1 [(y' & Hy' & Hprev & Hnext) H2]]%dseg_app.
  assert (y' = y) as -> by congruence.
  assert (∀ q, q ∈ l1 ++ l2 → q ≠ p ∧ is_Some (fs_nodes f !! q)) as Hother.
  { intros q Hq. split.
    - intros ->. rewrite <-Permutation_middle in Hnd. by apply NoDup_cons in Hnd as [? _].
    - eapply dseg_lookup; [exact Hseg|]. set_solver. }
  set (f1 := match file_previous y with
    | Some q => set_fs_nodes (alter (set_file_next (file_next y)) q (fs_nodes f)) f
    | None => set_fs_head (file_next y) f end).
  assert (fs_nodes f1 = unlink_before y (fs_nodes f)) as Hn1.
  { unfold f1, unlink_before. by destruct (file_previous y). }
  assert (match file_previous y with
      | Some q => set_node q (set_file_next (file_next y))
      | None => modify_files (set_fs_head (file_next y)) end (e, f) = Ret tt (e, f1)) as Hrun1.
  { unfold f1. rewrite Hprev. destruct l1 as [|b l1 _] using rev_ind; [done|]. rewrite last_or_app.
    apply set_node_run, Hother. set_solver. }
  assert (fs_nodes f1 !! p = Some y) as Hy1.
  { rewrite Hn1. unfold unlink_before. rewrite Hprev.
    destruct l1 as [|b l1 _] using rev_ind; [done|]. rewrite last_or_app, lookup_alter_ne; [done|].
    apply Hother. set_solver. }
  set (f2 := match file_next y with
    | Some q => set_fs_nodes (alter (set_file_previous (file_previous y)) q (fs_nodes f1)) f1
    | None => set_fs_tail (file_previous y) f1 end).
  assert (match file_next y with
      | Some q => set_node q (set_file_previous (file_previous y))
      | None => modify_files (set_fs_tail (file_previous y)) end (e, f1) = Ret tt (e, f2)) as Hrun2.
  { unfold f2. rewrite Hnext. destruct l2 as [|c l2]; [done|]. apply set_node_run. rewrite Hn1.
    destruct (Hother c ltac:(set_solver)) as [_ Hc]. unfold unlink_before.
    destruct (file_previous y) as [q|]; [|done]. by rewrite lookup_alter_is_Some. }
  exists f2. split.
  - intros A k. erewrite bind_run by exact (node_run p e f y Hy).
    erewrite bind_run by exact Hrun1. erewrite bind_run by exact (node_run p e f1 y Hy1).
    by erewrite bind_run by exact Hrun2.
  - unfold f2, unlink_after. destruct (file_next y); simpl; by rewrite Hn1.
Qed.

Lemma files_shutdown_one_ok e f l1 p l2 :
  closable f (l1 ++ p :: l2) → is_Some (e_heap e !! p) →
  ∃ e' f', files_shutdown_one p (e, f) = Ret tt (e', f') ∧ released [p] e e' ∧
    closable f' (l1 ++ l2).
Proof.
  intros [Hnd Hseg Hlocks] Hlive.
  assert (p ∈ l1 ++ p :: l2) as Hp by set_solver.
  destruct (dseg_lookup _ _ _ _ _ Hseg Hp) as [x Hx].
  destruct (close_node_ok e f p x Hx (Hlocks p x Hp Hx)) as (e1 & y & Hclose & Hr1 & Hpr & Hne & Hly).
  set (f1 := put_node p y f) in *.
  assert (fs_nodes f1 !! p = Some y) as Hy by apply put_node_lookup.
  assert (dseg (fs_nodes f1) None (l1 ++ p :: l2) None) as Hseg1.
  { pose proof Hseg as [H1 [(x' & Hx' & Hx1 & Hx2) H2]]%dseg_app. assert (x' = x) as -> by congruence.
    apply NoDup_app in Hnd as (_ & Hdis & [Hp2 _]%NoDup_cons). apply dseg_app. split; [|split].
    - eapply dseg_frame; [|exact H1]. intros a Ha. apply lookup_insert_ne. intros ->.
      apply (Hdis a Ha). by left.
    - exists y. split; [done|]. by rewrite Hpr, Hne.
    - eapply dseg_frame; [|exact H2]. intros a Ha. apply lookup_insert_ne. by intros ->. }
  destruct (unlink_run e1 f1 l1 p l2 y Hnd Hseg1 Hy) as (f2 & Hunlink & Hn2).
  set (e2 := set_heap (delete p (e_heap e1)) e1).
  set (f3 := set_fs_table (hash_del id p (fs_table f2)) f2).
  exists e2, (set_fs_nodes (delete p (fs_nodes f3)) f3). split; [|split].
  - unfold files_shutdown_one. etrans; [exact (Hclose _ _)|]. etrans; [exact (Hunlink _ _)|].
    unfold modify_files. rewrite bind_modify. cbn [fst snd]. fold f3.
    erewrite bind_run by exact (zoom_fst (free _) _ _ _ _ (free_run e1 p
      (released_live _ _ _ _ Hr1 Hlive (not_elem_of_nil p)))).
    reflexivity.
  - exact (released_trans [] [p] _ _ _ Hr1 (released_free e1 p)).
  - change (fs_nodes (set_fs_nodes (delete p (fs_nodes f3)) f3)) with (delete p (fs_nodes f2)).
    constructor; cbn [fs_nodes set_fs_nodes].
    + rewrite <-Permutation_middle in Hnd. by apply NoDup_cons in Hnd as [_ ?].
    + change (fs_nodes f3) with (fs_nodes f2). rewrite Hn2. by apply dseg_unlink.
    + intros q z Hq. change (fs_nodes f3) with (fs_nodes f2).
      assert (q ≠ p) as Hqp.
      { intros ->. rewrite <-Permutation_middle in Hnd. by apply NoDup_cons in Hnd as [? _]. }
      rewrite lookup_delete_ne by done. rewrite Hn2. intros Hz.
      pose proof (unlink_views y (fs_nodes f1)) as Hv.
      apply (f_equal (.!! q)) in Hv. rewrite !lookup_fmap, Hz in Hv. simpl in Hv.
      rewrite lookup_insert_ne in Hv by done.
      destruct (fs_nodes f !! q) as [z0|] eqn:Hz0; [|done]. injection Hv as _ _ _ _ _ _ Hl.
      rewrite Hl. apply (Hlocks q z0); [set_solver | done].
Qed.

(** The nodes are freed in the order of the table. *)
Lemma files_shutdown_all_ok t e f l :
  closable f l → t ≡ₚ l → (∀ p, p ∈ l → is_Some (e_heap e !! p)) →
  ∃ e' f', files_shutdown_all t (e, f) = Ret tt (e', f') ∧ released t e e' ∧ closable f' [].
Proof.
  revert e f l. induction t as [|p t IH]; intros e f l Hcb Ht Hlive.
  { apply Permutation_nil_l in Ht; subst l. exists e, f. split; [reflexivity|]. split; [by apply released_nil | exact Hcb]. }
  assert (p ∈ l) as (l1 & l2 & ->)%list_elem_of_split by (rewrite <-Ht; by left).
  destruct (files_shutdown_one_ok e f l1 p l2 Hcb) as (e1 & f1 & Hone & Hr1 & Hcb1); [apply Hlive; set_solver|].
  rewrite <-Permutation_middle in Ht. apply Permutation_cons_inv in Ht.
  destruct (IH e1 f1 (l1 ++ l2) Hcb1 Ht) as (e2 & f2 & Hall & Hr2 & Hcb2).
  { intros q Hq. apply (released_live _ _ _ _ Hr1); [apply Hlive; set_solver|].
    intros ->%list_elem_of_singleton. pose proof (cb_nodup _ _ Hcb) as Hnd.
    rewrite <-Permutation_middle in Hnd. by apply NoDup_cons in Hnd as [? _]. }
  exists e2, f2. split; [|split; [exact (released_trans [p] t _ _ _ Hr1 Hr2) | done]].
  cbn [files_shutdown_all]. by erewrite bind_run by exact Hone.
Qed.

Lemma files_shutdown_ok e f l a dir :
  fs_data_dir f = Some (a, dir) → closable f l → fs_table f ≡ₚ l → NoDup (a :: l) →
  (∀ p, p ∈ a :: l → is_Some (e_heap e !! p)) →
  ∃ e' f', ccask_files_shutdown (e, f) = Ret tt (e', f') ∧ released (a :: fs_table f) e e'.
Proof.
  intros Hd Hcb Ht [Ha Hnd]%NoDup_cons Hlive.
  pose proof (released_free e a) as Hr1. set (e1 := set_heap (delete a (e_heap e)) e) in *.
  destruct (files_shutdown_all_ok (fs_table f) e1 f l Hcb Ht) as (e2 & f2 & Hall & Hr2 & _).
  { intros p Hp. apply (released_live _ _ _ _ Hr1); [apply Hlive; by right|].
    by intros ->%list_elem_of_singleton. }
  exists e2, f2. split; [|exact (released_trans [a] _ _ _ _ Hr1 Hr2)].
  unfold ccask_files_shutdown. erewrite bind_run by reflexivity. cbn [snd]. rewrite Hd.
  cbn [fmap option_fmap option_map].
  by erewrite bind_run by exact (zoom_fst (free _) _ _ _ _ (free_run e a (Hlive a ltac:(by left)))).
Qed.
