(* ===== verification/Store.v ===== *)
(** * Store: the library as a map from keys to values

    The abstract specification: a running store represents a finite map.  This
    file states the representation and proves that [ccask_get] is a lookup;
    [ccask_put_blocking] is an insertion. *)
From stdpp Require Import sorting.
From S2P Require Import Prelude Status Posix SafeIO Codec Records Ringbuf Uthash Keydir.
From S2P Require Import Filenames Files Disk World Hint Recovery Reader Writer Core.
Open Scope Z_scope.

Section store.
Context {host : Host} {zlib : Zlib}.

(** The entry [i] of the key [k] leads to a record with the value [v]. *)
Definition entry_ok (s : fstate) (l : list Z) (k : bytes) (i : kd_info) (v : bytes) : Prop :=
  ∃ content h,
    ki_file_id i ∈ node_id (fs_nodes s.2) <$> l ∧
    data_content s (ki_file_id i) = Some content ∧ zlen content < 2 ^ 63 ∧
    datafile_record_ok h k v ∧ df_value_size h = ki_value_size i ∧
    df_crc h = record_crc (df_timestamp h) k v ∧ v ≠ [] ∧
    0 ≤ ki_record_pos i ∧
    ki_record_pos i + zlen (datafile_record_bytes h k v) ≤ zlen content ∧
    slice (ki_record_pos i) (zlen (datafile_record_bytes h k v)) content =
      datafile_record_bytes h k v.

(** The key directory [kd] and the files represent the map [m]. *)
Definition map_ok (s : fstate) (kd : keydir) (l : list Z) (m : gmap bytes bytes) : Prop :=
  ∀ k, match keydir_map kd !! k with
       | Some i => ∃ v, m !! k = Some v ∧ entry_ok s l k i v
       | None => m !! k = None
       end.

Record store_ok (w : world) (l : list Z) (m : gmap bytes bytes) : Prop := {
  st_disk : disk_ok (w_env w, w_files w) l;
  st_keydir : keydir_ok (w_env w, w_keydir w);
  st_data : map_ok (w_env w, w_files w) (w_keydir w) l m;
}.

(** *** What does not disturb the representation *)

Lemma entry_ok_same s s' l k i v :
  (∀ p, node_id (fs_nodes s'.2) p = node_id (fs_nodes s.2) p) →
  (∀ id, data_content s' id = data_content s id) →
  entry_ok s l k i v → entry_ok s' l k i v.
Proof.
  intros Hid Hdc (content & h & Hin & Hc & ?). exists content, h.
  rewrite Hdc. split; [|done].
  erewrite list_fmap_ext; [exact Hin|]. intros j p _. apply Hid.
Qed.

(** The contents of the files are the same. *)
Lemma entry_ok_env e e' f l k i v :
  kernel_ext (e_kernel e) (e_kernel e') → inodes e' = inodes e →
  entry_ok (e, f) l k i v → entry_ok (e', f) l k i v.
Proof. intros Hk Hi. apply entry_ok_same; [done|]. intros id. by apply data_content_env. Qed.

Lemma entry_value s l k i v : entry_ok s l k i v → 0 < zlen v ∧ ki_value_size i = zlen v.
Proof.
  intros (content & h & _ & _ & _ & (_ & _ & Hz) & Hvs & _ & Hne & _). split; [|congruence].
  unfold zlen. destruct v; [done | simpl; lia].
Qed.

(** There may be more files. *)
Lemma entry_ok_mono s s' l l' k i v :
  (∀ p, p ∈ l → p ∈ l' ∧ node_id (fs_nodes s'.2) p = node_id (fs_nodes s.2) p) →
  (∀ id c, data_content s id = Some c → data_content s' id = Some c) →
  entry_ok s l k i v → entry_ok s' l' k i v.
Proof.
  intros Hl Hdc (content & h & Hin & Hc & ?). exists content, h. split; [|split; [by apply Hdc|done]].
  apply list_elem_of_fmap in Hin as (p & -> & Hp). destruct (Hl p Hp) as [Hp' <-].
  by apply list_elem_of_fmap_2.
Qed.

Lemma store_ok_same w w' l m :
  store_ok w l m → disk_ok (w_env w', w_files w') l → w_keydir w' = w_keydir w →
  heap_wf (w_env w') →
  (∀ a, is_Some (e_heap (w_env w) !! a) → e_heap (w_env w') !! a = e_heap (w_env w) !! a) →
  (∀ p, node_id (fs_nodes (w_files w')) p = node_id (fs_nodes (w_files w)) p) →
  (∀ id, data_content (w_env w', w_files w') id = data_content (w_env w, w_files w) id) →
  store_ok w' l m.
Proof.
  intros [Hd Hk Hm] Hd' Hkd Hwf Hh Hid Hdc. constructor; [done | |].
  - rewrite Hkd. by eapply keydir_ok_frame.
  - intros k. specialize (Hm k). rewrite Hkd.
    destruct (keydir_map (w_keydir w) !! k) as [i|]; [|done].
    destruct Hm as (v & Hv & He). exists v. split; [done|]. by apply (entry_ok_same (w_env w, w_files w)).
Qed.

(** The threads are not a part of it. *)
Lemma store_ok_threads w l m th ru sd :
  store_ok w l m →
  store_ok (World (w_env w) (w_files w) (w_keydir w) (w_ring w) th ru sd) l m.
Proof. intros []. by constructor. Qed.

Lemma node_id_put f p x y a :
  fs_nodes f !! p = Some x → file_id y = file_id x →
  node_id (fs_nodes (put_node p y f)) a = node_id (fs_nodes f) a.
Proof.
  intros Hx Hy. unfold node_id. simpl. rewrite lookup_insert. case_decide as Hpa; [|done].
  subst. by rewrite Hx.
Qed.

(** A call that leaves the files, the key directory, the ring and the list of
    threads alone, and all blocks that were allocated. *)
Record quiet (w w' : world) : Prop := {
  q_dir : k_dir (e_kernel (w_env w')) = k_dir (e_kernel (w_env w));
  q_inodes : inodes (w_env w') = inodes (w_env w);
  q_data_dir : fs_data_dir (w_files w') = fs_data_dir (w_files w);
  q_max : fs_max_active (w_files w') = fs_max_active (w_files w);
  q_nodes : ∀ p x', fs_nodes (w_files w') !! p = Some x' →
    ∃ x, fs_nodes (w_files w) !! p = Some x ∧ file_id x' = file_id x ∧
      file_has_hint x' = file_has_hint x;
  q_ids : ∀ p, node_id (fs_nodes (w_files w')) p = node_id (fs_nodes (w_files w)) p;
  q_heap : e_heap (w_env w) ⊆ e_heap (w_env w');
  q_brk : e_brk (w_env w) ≤ e_brk (w_env w');
  q_events : events (w_env w') `suffix_of` events (w_env w);
  q_keydir : w_keydir w' = w_keydir w;
  q_ring : w_ring w' = w_ring w;
  q_down : w_shutting_down w' = w_shutting_down w;
  q_running : ∀ h p, THint h p ∈ w_running w' ↔ THint h p ∈ w_running w;
  q_closing : ∀ p, TInvalidator p ∈ w_running w' →
    TInvalidator p ∈ w_running w ∨ p ∈ fs_table (w_files w);
  q_writer : TWriter ∈ w_running w → TWriter ∈ w_running w';
  q_table : fs_table (w_files w') = fs_table (w_files w);
  q_threads : w_threads w' = w_threads w;
}.

Lemma quiet_refl w : quiet w w.
Proof. constructor; try done; eauto. Qed.

(** *** Reading *)

Lemma header_fits h k v :
  datafile_record_ok h k v → is_u32 (df_timestamp h) ∧ is_u32 (zlen k) ∧ is_u32 (zlen v).
Proof. intros ((?&?&?&?) & -> & ->). done. Qed.

Lemma keydir_find_entry e d k ks key i :
  keydir_ok (e, d) → keydir_map d !! k = Some i → cbuf_read key ks = Some k →
  ∃ x, ccask_keydir_find key ks (e, d) = Ret (Some x) (e, d) ∧
    kd_info_of x = i ∧ kd_key_size x = zlen k ∧ x ∈ hash_table d ∧ kd_key x = k.
Proof.
  intros Hok Hi Hk. rewrite (keydir_map_lookup (e, d)) in Hi by done. simpl in Hi.
  rewrite (keydir_find_run _ _ _ k 0) by (done || apply (keydir_free _ Hok)). simpl.
  destruct (hash_find kd_key k (hash_table d)) as [x|] eqn:Hf; [|done].
  exists x. split; [done|]. split; [by injection Hi|].
  apply hash_find_Some in Hf as [Hx <-].
  pose proof (table_sizes _ _ (keydir_table _ Hok)) as Hs. rewrite Forall_forall in Hs.
  split; [|done]. symmetry. by apply Hs.
Qed.

Context `{!ZlibLaws}.

#[local] Arguments malloc : simpl never.
#[local] Arguments free : simpl never.

(** A record that is in memory has the right checksum. *)
Lemma get_check_ok e a h k v n :
  e_heap e !! a = Some (datafile_header_bytes h) → e_heap e !! (a + 1) = Some k →
  e_heap e !! (a + 2) = Some v → datafile_record_ok h k v → df_crc h = record_crc (df_timestamp h) k v →
  get_check (datafile_iov a (zlen k) n) e = Ret (Some h) e.
Proof.
  intros Ha Hk Hv (Hh & Hks & Hvs) Hcrc. unfold get_check.
  rewrite (bind_run _ _ _ _ _ (get_datafile_record_header_run e
    (datafile_iov a (zlen k) n) a 16 _ eq_refl Ha (zlen_datafile_header h))),
    datafile_header_of_bytes by done.
  erewrite bind_run by exact (heap_buf_run e (a + 1) k Hk).
  erewrite bind_run by exact (heap_buf_run e (a + 2) v Hv).
  rewrite <-Hks, <-Hvs, (calculate_crc32_record _ k _ k v _ v) by apply cbuf_read_all.
  rewrite (bind_deref (record_crc (df_timestamp h) k v)) by done.
  by rewrite bool_decide_eq_false_2 by congruence.
Qed.

(** *** Following the pointer to the entry *)

Lemma entry_run e f kd rg th ru sd x :
  keydir_ok (e, kd) → x ∈ hash_table kd →
  zoom (kd_entry (kd_at x)) (World e f kd rg th ru sd) = Ret x (World e f kd rg th ru sd).
Proof. intros Hkd Hx. by apply zoom_keydir, (kd_entry_run e). Qed.

Section pointer.
Context (w : world) (x : ccask_keydir_record).
Hypothesis Hentry : zoom (kd_entry (kd_at x)) w = Ret x w.

Lemma get_place_run : get_place (kd_at x) w = Ret (kd_file_id x, kd_record_pos x) w.
Proof. unfold get_place. by erewrite bind_run by exact Hentry. Qed.

Lemma get_space_run e' c :
  malloc (kd_value_size x) (w_env w) = Ret c e' → get_space (kd_at x) w = Ret c (set_part e' w).
Proof.
  intros Hm. unfold get_space. erewrite bind_run by exact Hentry. unfold zoom. simpl. by rewrite Hm.
Qed.

(** Some of the value is copied into a block that may be longer. *)
Lemma get_copy_run c blk b ks n v :
  e_heap (w_env w) !! c = Some blk → e_heap (w_env w) !! (b + 2) = Some v →
  0 ≤ kd_value_size x ≤ zlen v → kd_value_size x ≤ zlen blk →
  let d := take (Z.to_nat (kd_value_size x)) v ++ drop (Z.to_nat (kd_value_size x)) blk in
  get_copy (kd_at x) c (datafile_iov b ks n) w =
    Ret tt (set_part (set_heap (<[c := d]> (e_heap (w_env w))) (w_env w)) w).
Proof.
  intros Hc Hv Hn Hb d. unfold get_copy. erewrite bind_run by exact Hentry.
  assert (zoom (heap_buf (ccask_get_datafile_record_value (datafile_iov b ks n))) w = Ret (Some v) w) as Hbuf.
  { destruct w as [e f kd rg th ru sd]. apply zoom_env, (heap_buf_run e (b + 2) v Hv). }
  erewrite bind_run by exact Hbuf. unfold zoom, memcpy. change (part w) with (w_env w).
  assert (cbuf_read (Some v) (kd_value_size x) = Some (take (Z.to_nat (kd_value_size x)) v)) as ->.
  { unfold cbuf_read. case_bool_decide as H0; [by rewrite H0|]. simpl. by rewrite bool_decide_eq_true_2. }
  assert (length (take (Z.to_nat (kd_value_size x)) v) = Z.to_nat (kd_value_size x)) as Hlen.
  { rewrite length_take. unfold zlen in *. lia. }
  rewrite (bind_deref (take (Z.to_nat (kd_value_size x)) v)) by done.
  rewrite (store_run (w_env w) c 0 _ blk Hc) by (unfold zlen in *; lia).
  unfold splice. rewrite Hlen. done.
Qed.

Lemma get_result_run e' h c b ks n :
  free_datafile_record (datafile_iov b ks n) (w_env w) = Ret tt e' →
  get_result (kd_at x) h c (datafile_iov b ks n) w =
    Ret (CCASK_OK, CRecord (df_timestamp h) (df_key_size h) (kd_value_size x) (Some (c, 0)))
      (set_part e' w).
Proof.
  intros Hf. unfold get_result. erewrite bind_run by exact Hentry.
  erewrite bind_run; [reflexivity|]. unfold zoom. simpl. by rewrite Hf.
Qed.
End pointer.

(** Since [e] the contents of the files and the blocks of [e] have not
    changed; there may be new blocks and new descriptors. *)
Record env_kept (e e' : env) : Prop := {
  ek_ext : kernel_ext (e_kernel e) (e_kernel e');
  ek_inodes : inodes e' = inodes e;
  ek_heap : ∀ a, a < e_brk e → e_heap e' !! a = e_heap e !! a;
  ek_wf : heap_wf e';
  ek_brk : e_brk e ≤ e_brk e';
  ek_calm : calm e';
  ek_events : events e' `suffix_of` events e;
}.

Lemma env_grow_kept e e' : env_grow e e' → calm e → heap_wf e → env_kept e e'.
Proof.
  intros Hg Hc Hwf. constructor; try apply Hg; [|by eapply env_grow_heap_wf|by eapply env_grow_calm].
  intros a Ha. destruct (e_heap e !! a) as [blk|] eqn:Hea.
  - eapply lookup_weaken; [exact Hea | apply (eg_heap _ _ Hg)].
  - apply eq_None_not_Some. intros [[? ?]|?]%(eg_fresh _ _ Hg); [congruence|lia].
Qed.

Lemma env_kept_trans e1 e2 e3 : env_kept e1 e2 → env_kept e2 e3 → env_kept e1 e3.
Proof.
  intros [A1 A2 A3 A4 A5 A6 A7] [B1 B2 B3 B4 B5 B6 B7].
  constructor; [by eapply kernel_ext_trans | congruence | | done | lia | done | by etrans].
  intros a Ha. rewrite B3 by lia. by apply A3.
Qed.

(** Blocks that are newer than [e] come and go. *)
Lemma env_kept_heap e e1 e2 :
  env_kept e e1 → e_kernel e2 = e_kernel e1 → e_brk e1 ≤ e_brk e2 →
  e_malloc e2 `suffix_of` e_malloc e1 → heap_wf e2 →
  (∀ a, a < e_brk e → e_heap e2 !! a = e_heap e1 !! a) → env_kept e e2.
Proof.
  intros [A1 A2 A3 A4 A5 A6 A7] Hk Hb Hm Hwf Hh. constructor.
  - by rewrite Hk.
  - unfold inodes. by rewrite Hk.
  - intros a Ha. rewrite Hh by done. by apply A3.
  - done.
  - lia.
  - destruct A6. constructor; [unfold events in *; by rewrite Hk | by eapply Forall_suffix].
  - unfold events in *. by rewrite Hk.
Qed.

(** A call to the system that leaves the files and the blocks of [e]. *)
Lemma env_kept_step e e1 e2 h :
  env_kept e e1 → env_step e1 e2 h (inodes e1) → heap_wf e2 →
  (∀ a, a < e_brk e → e_heap e2 !! a = e_heap e1 !! a) → env_kept e e2.
Proof.
  intros [A1 A2 A3 A4 A5 A6 A7] Hst Hwf Hh. pose proof (calm_step _ _ _ _ Hst A6).
  destruct Hst as [B1 B2 B3 B4 B5 B6 B7].
  constructor; [by eapply kernel_ext_trans | congruence | | done | lia | done | by etrans].
  intros a Ha. rewrite Hh by done. by apply A3.
Qed.

(** The representation after a read that has used blocks of its own. *)
Lemma store_ok_after_read e e' f p y z kd rg th ru ru' sd l m :
  store_ok (World e f kd rg th ru sd) l m → env_kept e e' →
  fs_nodes f !! p = Some y → file_id z = file_id y → disk_ok (e', put_node p z f) l →
  store_ok (World e' (put_node p z f) kd rg th ru' sd) l m.
Proof.
  intros Hok Hke Hy Hz Hd. pose proof (keydir_heap _ (st_keydir _ _ _ Hok)) as Hwf0.
  eapply store_ok_same; [exact Hok | exact Hd | done | apply (ek_wf _ _ Hke) | | |]; simpl.
  - intros a Ha. apply (ek_heap _ _ Hke). by apply Hwf0.
  - intros a. by eapply node_id_put.
  - intros i. apply data_content_env; [apply (ek_ext _ _ Hke) | apply (ek_inodes _ _ Hke) | done].
Qed.

Lemma quiet_after_read e e' f p y z kd rg th ru ru' sd :
  heap_wf e → env_kept e e' →
  fs_nodes f !! p = Some y → file_id z = file_id y → file_has_hint z = file_has_hint y →
  ru' = ru ∨ ru' = TInvalidator p :: ru → p ∈ fs_table f →
  quiet (World e f kd rg th ru sd) (World e' (put_node p z f) kd rg th ru' sd).
Proof.
  intros Hwf [A1 A2 A3 A4 A5 A6 A7] Hy Hz Hzh Hru Htab. constructor; simpl; try done.
  - by destruct A1 as [-> _].
  - intros q x'. rewrite lookup_insert. case_decide as Hq; [|by eauto]. intros [= <-].
    subst q. eauto.
  - intros a. by apply (node_id_put f p y).
  - apply map_subseteq_spec. intros a blk Ha. rewrite A3; [done|]. apply Hwf. eauto.
  - intros h' q. destruct Hru as [-> | ->]; [done|]. rewrite elem_of_cons. naive_solver.
  - intros q. destruct Hru as [-> | ->]; [by left|]. rewrite elem_of_cons. naive_solver.
  - destruct Hru as [-> | ->]; [done|]. by right.
Qed.

(** *** A record in memory *)

(** What [entry_ok] says of the record itself. *)
Definition sound_record (h : ccask_datafile_record_header) (k v : bytes) : Prop :=
  datafile_record_ok h k v ∧ df_crc h = record_crc (df_timestamp h) k v ∧ v ≠ [].

(** The three blocks at [b] hold the record. *)
Definition loaded_at (e : env) (b : Z) (h : ccask_datafile_record_header) (k v : bytes) : Prop :=
  e_heap e !! b = Some (datafile_header_bytes h) ∧ e_heap e !! (b + 1) = Some k ∧
  e_heap e !! (b + 2) = Some v ∧ b + 2 < e_brk e.

(** The blocks at [b] were filled, and nothing else was touched. *)
Record read_into (b : Z) (d0 d1 d2 : bytes) (e e' : env) : Prop := {
  ri_heap : ∀ a, a < e_brk e → e_heap e' !! a =
    if decide (a = b + 2) then Some d2 else if decide (a = b + 1) then Some d1 else
    if decide (a = b) then Some d0 else e_heap e !! a;
  ri_live : b + 2 < e_brk e;
  ri_ext : kernel_ext (e_kernel e) (e_kernel e');
  ri_inodes : inodes e' = inodes e;
  ri_wf : heap_wf e';
  ri_brk : e_brk e ≤ e_brk e';
  ri_calm : calm e';
  ri_events : events e' `suffix_of` events e;
}.

Lemma read_into_step b d0 d1 d2 e e1 e2 :
  heap_wf e → calm e → is_Some (e_heap e !! b) → is_Some (e_heap e !! (b + 1)) →
  is_Some (e_heap e !! (b + 2)) → env_grow e e1 →
  env_step e1 e2 (<[b + 2 := d2]> (<[b + 1 := d1]> (<[b := d0]> (e_heap e1)))) (inodes e1) →
  read_into b d0 d1 d2 e e2.
Proof.
  intros Hwf Hc Hb%Hwf Hb1%Hwf Hb2%Hwf Hg Hst.
  destruct (env_grow_kept _ _ Hg Hc Hwf) as [A1 A2 A3 A4 A5 A6 A7].
  pose proof (calm_step _ _ _ _ Hst A6). destruct Hst as [B1 B2 B3 B4 B5 B6 B7].
  assert (∀ a, e_heap e2 !! a = if decide (a = b + 2) then Some d2 else
    if decide (a = b + 1) then Some d1 else if decide (a = b) then Some d0 else e_heap e1 !! a) as Hh.
  { intros a. rewrite B1, !lookup_insert. repeat case_decide; done || lia. }
  constructor; [| lia | by eapply kernel_ext_trans | congruence | | lia | done | by etrans].
  - intros a Ha. rewrite Hh. by rewrite A3.
  - intros a. rewrite Hh. repeat case_decide; [intros _; lia..|]. intros ?%A4. lia.
Qed.

(** The record of an entry, or its beginning, is read into the three blocks at
    [b], the last of which may be smaller than the value. *)
Lemma read_record_ok fuel e f kd rg th ru sd l x k v b b0 b1 b2 :
  disk_ok (e, f) l → entry_ok (e, f) l k (kd_info_of x) v →
  e_heap e !! b = Some b0 → e_heap e !! (b + 1) = Some b1 → e_heap e !! (b + 2) = Some b2 →
  zlen b0 = 16 → zlen b1 = zlen k → 0 < zlen b2 ≤ zlen v →
  calm e → heap_wf e → (length (events e) + Z.to_nat (16 + zlen k + zlen b2) < fuel)%nat →
  ∃ h e2 p y z ru', sound_record h k v ∧ kd_value_size x = zlen v ∧
    ccask_read_datafile_record fuel (kd_file_id x) (datafile_iov b (zlen k) (zlen b2))
      (kd_record_pos x) (World e f kd rg th ru sd) = Ret CCASK_OK (World e2 (put_node p z f) kd rg th ru' sd) ∧
    (p ∈ l ∧ fs_nodes f !! p = Some y ∧ file_id z = file_id y ∧
      file_has_hint z = file_has_hint y ∧ (ru' = ru ∨ ru' = TInvalidator p :: ru)) ∧
    disk_ok (e2, put_node p z f) l ∧
    read_into b (datafile_header_bytes h) k (take (length b2) v) e e2.
Proof.
  intros Hd (content & h & Hin & Hdc & Hlen & Hrec & Hvs & Hcrc & Hne & Hpos & Hend & Hsl)
    Hb0 Hb1 Hb2 Hz0 Hz1 Hz2 Hc Hwf Hfuel.
  cbn [fst snd kd_info_of ki_file_id ki_record_pos ki_value_size] in *.
  pose proof Hrec as (Hhd & Hks & Hvz). pose proof (zlen_nonneg k).
  apply list_elem_of_fmap in Hin as (p & Hid & Hp).
  destruct (rep_lookup _ _ _ (do_rep _ _ Hd) Hp) as [y Hy]. cbn [snd] in Hy.
  assert (file_id y = kd_file_id x) as Hyid by (unfold node_id in Hid; by rewrite Hy in Hid).
  rewrite (zlen_datafile_record _ _ _ Hrec) in Hend, Hsl.
  rewrite <-Hks, <-Hvz in Hend, Hsl.
  assert (zlen (take (length b2) v) = zlen b2) as Htake.
  { unfold zlen in *. rewrite length_take. lia. }
  destruct (read_datafile_record_ok fuel kd rg th sd e f ru l p y b b0 b1 b2
    (datafile_header_bytes h) k (take (length b2) v) (kd_record_pos x) content)
    as (e1 & e2 & z & ru' & Hrun & Hzid & Hzh & Hru & Hdz & Hg & Hst); try done.
  - by rewrite Hyid.
  - intros Heq. rewrite Heq in Htake. change (0 = zlen b2) in Htake. lia.
  - rewrite Hz1. rewrite (slice_shorter _ _ (16 + zlen k + zlen v)) by lia. rewrite Hsl.
    pose proof (zlen_datafile_header h). unfold datafile_record_bytes, zlen in *.
    rewrite !take_app_ge by lia. do 3 f_equal. lia.
  - lia.
  - lia.
  - by rewrite Hz1.
  - rewrite Hz1 in Hrun. exists h, e2, p, y, z, ru'. split; [done|]. split; [congruence|].
    split; [rewrite <-Hyid; exact Hrun|]. split; [by split_and!|].
    split; [exact Hdz|]. eapply read_into_step; [exact Hwf | exact Hc | eauto.. | exact Hg | exact Hst].
Qed.

(** The record of an entry is read into three new blocks. *)
Lemma load_record_ok fuel e f kd rg th ru sd l x k v :
  disk_ok (e, f) l → entry_ok (e, f) l k (kd_info_of x) v → kd_key_size x = zlen k →
  calm e → heap_wf e → (length (events e) + Z.to_nat (16 + zlen k + zlen v) < fuel)%nat →
  ∃ h e1 e2 p y z ru', let b := e_brk e in let iov := datafile_iov b (zlen k) (zlen v) in
    sound_record h k v ∧ kd_value_size x = zlen v ∧
    ccask_allocate_datafile_record datafile_record_garbage (kd_key_size x) (kd_value_size x) e =
      Ret (CCASK_OK, iov) e1 ∧
    CCASK_ATTEMPT 5 (ccask_read_datafile_record fuel (kd_file_id x) iov (kd_record_pos x))
      (World e1 f kd rg th ru sd) = Ret CCASK_OK (World e2 (put_node p z f) kd rg th ru' sd) ∧
    p ∈ l ∧ fs_nodes f !! p = Some y ∧ file_id z = file_id y ∧
    file_has_hint z = file_has_hint y ∧ (ru' = ru ∨ ru' = TInvalidator p :: ru) ∧
    disk_ok (e2, put_node p z f) l ∧ env_kept e e2 ∧ loaded_at e2 b h k v.
Proof.
  intros Hd He Hxk Hc Hwf Hfuel. set (b := e_brk e).
  destruct (entry_value _ _ _ _ _ He) as [Hv0 Hvs]. cbn in Hvs.
  pose proof (zlen_nonneg k). set (e3 := three_blocks (zeros 16) (zeros (zlen k)) (zeros (zlen v)) e).
  destruct (three_blocks_lookup (zeros 16) (zeros (zlen k)) (zeros (zlen v)) e)
    as (Hb0 & Hb1 & Hb2 & Hold). fold b e3 in Hb0, Hb1, Hb2, Hold.
  pose proof (three_blocks_grow (zeros 16) (zeros (zlen k)) (zeros (zlen v)) e Hwf) as Hg3.
  fold e3 in Hg3.
  destruct (read_record_ok fuel e3 f kd rg th ru sd l x k v b (zeros 16) (zeros (zlen k)) (zeros (zlen v)))
    as (h & e5 & p & y & z & ru' & Hsound & Hxv & Hrun & (Hp & Hy & Hzid & Hzh & Hru) & Hdz & Hri);
    rewrite ?zlen_zeros by lia; try done; try lia;
    [by eapply disk_ok_grow | by eapply env_grow_calm
    | by eapply env_grow_heap_wf |].
  rewrite zlen_zeros in Hrun by lia. rewrite take_ge in Hri by (unfold zeros, zlen in *; rewrite length_replicate; lia).
  exists h, e3, e5, p, y, z, ru'. split; [done|]. split; [done|].
  split; [rewrite Hxk, Hvs; by apply allocate_datafile_record_ok, calm_mallocs|].
  split; [by apply attempt_once|]. do 6 (split; [done|]).
  destruct Hri as [H1 H2 H3 H4 H5 H6 H7 H8]. change (e_brk e3) with (b + 1 + 1 + 1) in *. split.
  - pose proof (eg_ext _ _ Hg3). constructor; [by eapply kernel_ext_trans | by rewrite H4 | | done
      | fold b; lia | done | exact H8].
    intros a Ha. fold b in Ha. rewrite H1 by lia. rewrite !decide_False by lia. by apply Hold.
  - unfold loaded_at. rewrite !H1 by lia. split_and!; [repeat case_decide; done || lia..|]. lia.
Qed.

(** The three blocks at [b] are freed. *)
Definition unbuffered (b : Z) (e : env) : env :=
  set_heap (delete (b + 2) (delete (b + 1) (delete b (e_heap e)))) e.

Lemma unbuffered_lookup b e a :
  e_heap (unbuffered b e) !! a = if decide (b ≤ a < b + 3) then None else e_heap e !! a.
Proof. unfold unbuffered. simpl. rewrite !lookup_delete. repeat case_decide; done || lia. Qed.

(** Three blocks that wait for a record with a key and a value of these sizes. *)
Definition buffers_at (e : env) (b ks vs : Z) : Prop :=
  ∃ b0 b1 b2, e_heap e !! b = Some b0 ∧ e_heap e !! (b + 1) = Some b1 ∧ e_heap e !! (b + 2) = Some b2 ∧
    zlen b0 = 16 ∧ zlen b1 = ks ∧ zlen b2 = vs.

Lemma buffers_fresh e ks vs :
  0 ≤ ks → 0 ≤ vs → buffers_at (three_blocks (zeros 16) (zeros ks) (zeros vs) e) (e_brk e) ks vs.
Proof.
  intros Hk Hv. destruct (three_blocks_lookup (zeros 16) (zeros ks) (zeros vs) e) as (H0 & H1 & H2 & _).
  exists (zeros 16), (zeros ks), (zeros vs). rewrite !zlen_zeros by lia. done.
Qed.

Lemma unbuffered_fresh e d0 d1 d2 :
  calm e → heap_wf e → env_kept e (unbuffered (e_brk e) (three_blocks d0 d1 d2 e)).
Proof.
  intros Hc Hwf. destruct (three_blocks_lookup d0 d1 d2 e) as (_ & _ & _ & Hold).
  pose proof (three_blocks_grow d0 d1 d2 e Hwf) as Hg.
  apply (env_kept_heap e _ _ (env_grow_kept _ _ Hg Hc Hwf)); [done | done | done | |].
  - intros a. rewrite unbuffered_lookup. case_decide; [by intros []|].
    apply (env_grow_heap_wf _ _ Hg Hwf).
  - intros a Ha. rewrite unbuffered_lookup, decide_False by lia. done.
Qed.

(** The buffers are allocated with the sizes that the entry has now. *)
Lemma get_allocate_ok e f kd rg th ru sd x :
  keydir_ok (e, kd) → x ∈ hash_table kd → calm e →
  get_allocate (kd_at x) (World e f kd rg th ru sd) =
  Ret (CCASK_OK, datafile_iov (e_brk e) (kd_key_size x) (kd_value_size x))
    (World (three_blocks (zeros 16) (zeros (kd_key_size x)) (zeros (kd_value_size x)) e) f kd rg th ru sd).
Proof.
  intros Hkd Hx Hc. unfold get_allocate.
  erewrite bind_run by (by apply zoom_keydir, (kd_entry_run e)).
  by apply zoom_env, allocate_datafile_record_ok, calm_mallocs.
Qed.

(** The last part of [ccask_get]: what the pointer to the entry leads to now
    is copied, and the buffers are freed. *)
Lemma get_fetch_ok fuel e f kd rg th ru sd l x k v b r :
  disk_ok (e, f) l → keydir_ok (e, kd) → x ∈ hash_table kd → entry_ok (e, f) l k (kd_info_of x) v →
  buffers_at e b (zlen k) (zlen v) → calm e → heap_wf e →
  (length (events e) + Z.to_nat (16 + zlen k + zlen v) < fuel)%nat →
  ∃ ts c e' p y z ru',
    get_fetch fuel (kd_at x) (datafile_iov b (zlen k) (zlen v)) r (World e f kd rg th ru sd) =
      Ret (CCASK_OK, CRecord ts (zlen k) (zlen v) (Some (c, 0)))
        (World e' (put_node p z f) kd rg th ru' sd) ∧
    (p ∈ l ∧ fs_nodes f !! p = Some y ∧ file_id z = file_id y ∧
      file_has_hint z = file_has_hint y ∧ (ru' = ru ∨ ru' = TInvalidator p :: ru)) ∧
    disk_ok (e', put_node p z f) l ∧ env_kept (unbuffered b e) e' ∧
    e_brk e ≤ c ∧ e_heap e' !! c = Some v.
Proof.
  intros Hd Hkd Hx He (b0 & b1 & b2 & Hb0 & Hb1 & Hb2 & Hz0 & Hz1 & Hz2) Hc Hwf Hfuel.
  destruct (entry_value _ _ _ _ _ He) as [Hv0 _].
  destruct (read_record_ok fuel e f kd rg th ru sd l x k v b b0 b1 b2) as
    (h & e2 & p & y & z & ru' & (Hrec & Hcrc & Hne) & Hvs & Hrun & Hnode & Hdz & Hri);
    try done; try lia.
  rewrite Hz2 in Hrun. rewrite take_ge in Hri by (unfold zlen in *; lia).
  destruct Hri as [H1 H2 H3 H4 H5 H6 H7 H8].
  assert (∀ e' f' ru', zoom (kd_entry (kd_at x)) (World e' f' kd rg th ru' sd) =
    Ret x (World e' f' kd rg th ru' sd)) as Hentry
    by (intros e' f' ru1; by apply zoom_keydir, (kd_entry_run e)).
  set (e6 := set_heap (delete (b + 2) (delete (b + 1) (delete b (<[e_brk e2 := v]> (e_heap e2)))))
    (put_block v e2)).
  assert (∀ a, e_heap e6 !! a = if decide (b ≤ a < b + 3) then None else
    if decide (a = e_brk e2) then Some v else e_heap e2 !! a) as Hh6.
  { intros a. subst e6. simpl. rewrite !lookup_delete, !lookup_insert.
    repeat case_decide; done || lia. }
  exists (df_timestamp h), (e_brk e2), e6, p, y, z, ru'.
  split; [|split; [exact Hnode|split; [|split; [|split; [lia|]]]]].
  - unfold get_fetch. pose proof (Hentry e2 (put_node p z f) ru') as Hentry2.
    erewrite bind_run by (apply attempt_once;
      [erewrite bind_run by exact (get_place_run _ x (Hentry _ _ _)); exact Hrun | done]).
    rewrite bool_decide_neq_refl.
    erewrite bind_run by (apply zoom_env, (get_check_ok e2 b h k v);
      try done; rewrite H1 by lia; repeat case_decide; done || lia).
    cbn match. assert (kd_value_size x = zlen v) as Hxv by done.
    erewrite bind_run by exact (get_space_run _ x Hentry2 _ _ (malloc_ok _ e2 (calm_malloc_head e2 H7))).
    cbn match. set (e3 := put_block (zeros (kd_value_size x)) e2).
    set (w3 := set_part e3 (World e2 (put_node p z f) kd rg th ru' sd)).
    assert (∀ e', zoom (kd_entry (kd_at x)) (set_part (E := env) e' w3) =
      Ret x (set_part (E := env) e' w3)) as Hentry3 by (intros e'; apply Hentry).
    assert (zlen (zeros (zlen v)) = zlen v) as Hz by (apply zlen_zeros; lia).
    erewrite bind_run by (apply (get_copy_run w3 x (Hentry3 e3) (e_brk e2) (zeros (zlen v)) b (zlen k) (zlen v) v);
      cbn [w3 set_part part_env w_env]; unfold e3; rewrite ?Hxv; cbn [put_block e_heap];
      [apply lookup_insert_eq | rewrite lookup_insert_ne, H1 by lia; repeat case_decide; done || lia | lia | lia]).
    rewrite Hxv. rewrite take_ge, drop_ge, app_nil_r by (unfold zlen in *; lia).
    erewrite (get_result_run _ x (Hentry3 _)).
    2: { apply free_datafile_iov; cbn [w3 set_part part_env w_env]; simpl;
         rewrite !lookup_insert_ne by lia; rewrite H1 by lia; repeat case_decide; eauto; lia. }
    rewrite Hxv. destruct Hrec as (_ & -> & _). subst e6. do 2 f_equal.
    cbn [w3 set_part part_env w_env]. unfold e3. simpl. unfold set_heap, put_block. simpl.
    by rewrite insert_insert_eq.
  - apply (disk_ok_env e2); [apply kernel_ext_refl | apply (do_kernel _ _ Hdz) | exact Hdz].
  - constructor; [exact H3 | exact H4 | | | simpl; lia | | exact H8].
    + intros a Ha. change (a < e_brk e) in Ha. rewrite unbuffered_lookup, Hh6.
      case_decide; [done|]. rewrite decide_False by lia. rewrite H1 by done. by rewrite !decide_False by lia.
    + intros a. rewrite Hh6. simpl. repeat case_decide; [by intros [] | lia |]. intros ?%H5. lia.
    + destruct H7. constructor; [done|]. eapply Forall_suffix; [apply tail_suffix | done].
  - rewrite Hh6. rewrite decide_False by lia. by rewrite decide_True.
Qed.

Lemma get_ok fuel w l m key ks k r :
  store_ok w l m → calm (w_env w) → cbuf_read key ks = Some k →
  (∀ v, m !! k = Some v →
    (length (events (w_env w)) + Z.to_nat (16 + zlen k + zlen v) < fuel)%nat) →
  wp (ccask_get fuel key ks r) w (λ out w',
    out.1 = CCASK_OK ∧ store_ok w' l m ∧ calm (w_env w') ∧ quiet w w' ∧
    match m !! k with
    | None => rec_value out.2 = None
    | Some v => ∃ b, rec_value out.2 = Some (b, 0) ∧ e_heap (w_env w') !! b = Some v ∧
        e_heap (w_env w) !! b = None ∧ rec_value_size out.2 = zlen v
    end).
Proof.
  intros Hok Hc Hk Hfuel. pose proof Hok as [Hd Hkd Hm].
  destruct w as [e f kd rg th ru sd]. simpl in *.
  pose proof (keydir_heap _ Hkd) as Hwf. simpl in Hwf. specialize (Hm k).
  unfold ccask_get. rewrite wp_bind.
  destruct (keydir_map kd !! k) as [i|] eqn:Hi.
  2: { rewrite Hm. pose proof Hi as Hi'. rewrite (keydir_map_lookup (e, kd)) in Hi by done.
    simpl in Hi. apply fmap_None in Hi.
    eapply wp_run; [apply zoom_keydir, (keydir_find_run (e, kd) _ _ k 0);
      [apply (keydir_free _ Hkd) | done]|]. simpl. rewrite Hi, wp_ret.
    split; [done|]. split; [done|]. split; [done|]. split; [apply quiet_refl | done]. }
  destruct Hm as (v & Hv & He). rewrite Hv. specialize (Hfuel v Hv).
  destruct (keydir_find_entry e kd k ks key i Hkd Hi Hk) as (x & Hfind & <- & Hxk & Hx & _).
  eapply wp_run; [by apply zoom_keydir|]. cbn beta iota. rewrite wp_bind.
  destruct (entry_value _ _ _ _ _ He) as [Hv0 Hvs]. cbn in Hvs. pose proof (zlen_nonneg k).
  set (b := e_brk e). set (e3 := three_blocks (zeros 16) (zeros (zlen k)) (zeros (zlen v)) e).
  pose proof (three_blocks_grow (zeros 16) (zeros (zlen k)) (zeros (zlen v)) e Hwf) as Hg3.
  fold e3 in Hg3. pose proof (env_grow_heap_wf _ _ Hg3 Hwf) as Hwf3.
  destruct (get_fetch_ok fuel e3 f kd rg th ru sd l x k v b r) as
    (ts & c & e6 & p & y & z & ru' & Hrun & (Hp & Hy & Hzid & Hzh & Hru) & Hdz & Hke & Hc6 & Hv6);
    [by eapply disk_ok_grow | by eapply keydir_ok_grow | done | by apply (entry_ok_env e)
    | apply buffers_fresh; lia | by eapply env_grow_calm | done | done |].
  pose proof (env_kept_trans _ _ _ (unbuffered_fresh e (zeros 16) (zeros (zlen k)) (zeros (zlen v)) Hc Hwf) Hke) as Hke6.
  eapply wp_run; [by apply get_allocate_ok|]. cbn beta iota. rewrite bool_decide_neq_refl.
  rewrite Hxk, Hvs. eapply wp_run; [exact Hrun|]. cbn [fst snd].
  split; [done|]. split; [|split; [apply (ek_calm _ _ Hke6)|split]].
  - exact (store_ok_after_read e e6 f p y z kd rg th ru ru' sd l m Hok Hke6 Hy Hzid Hdz).
  - apply (quiet_after_read e e6 f p y); try done. by rewrite (rep_table _ _ (do_rep _ _ Hd)).
  - exists c. split; [done|]. split; [done|]. split; [|done]. apply heap_wf_fresh; [done|].
    pose proof (eg_brk _ _ Hg3). lia.
Qed.

(** *** Writing *)

(** Files only grow: an entry stays good. *)
Lemma entry_ok_extend s s' l k i v :
  (∀ p, node_id (fs_nodes s'.2) p = node_id (fs_nodes s.2) p) →
  (∀ id c, data_content s id = Some c → zlen c < 2 ^ 63 →
    ∃ c', data_content s' id = Some (c ++ c') ∧ zlen (c ++ c') < 2 ^ 63) →
  entry_ok s l k i v → entry_ok s' l k i v.
Proof.
  intros Hid Hdc (content & h & Hin & Hc & Hlen & Hrec & Hvs & Hcrc & Hne & Hpos & Hend & Hsl).
  destruct (Hdc _ _ Hc Hlen) as (c' & Hc' & Hlen').
  exists (content ++ c'), h. pose proof (zlen_nonneg c').
  split; [erewrite list_fmap_ext; [exact Hin|]; intros j p _; apply Hid|].
  rewrite slice_app_l by (done || apply zlen_nonneg). rewrite zlen_app in *.
  split_and!; done || lia.
Qed.

(** Appending to one file. *)
Lemma data_content_append e e' f ino old d id c :
  k_dir (e_kernel e') = k_dir (e_kernel e) → inodes e' = <[ino := old ++ d]> (inodes e) →
  inodes e !! ino = Some old → data_content (e, f) id = Some c →
  data_content (e', f) id = Some (c ++ if decide (data_ino (e, f) id = Some ino) then d else []).
Proof.
  intros Hdir Hi Hino. unfold data_content, data_ino in *. simpl in *. rewrite Hdir, Hi.
  destruct (fs_data_dir f) as [[a dir]|]; [|done]. simpl.
  destruct (k_dir (e_kernel e) !! _) as [j|]; [|done]. simpl. intros Hc. case_decide as Hj.
  - injection Hj as ->. rewrite lookup_insert_eq. by simplify_eq.
  - rewrite lookup_insert_ne by congruence. by rewrite app_nil_r.
Qed.

(** The file that is written to, and how much is in it. *)
Definition active_size (w : world) : Z :=
  default 0 (zlen <$> (p ← fs_head (w_files w); x ← fs_nodes (w_files w) !! p;
                       data_content (w_env w, w_files w) (file_id x))).

Lemma active_file w l m :
  store_ok w l m →
  ∃ p x ino old, fs_head (w_files w) = Some p ∧ p ∈ l ∧ fs_nodes (w_files w) !! p = Some x ∧
    file_rwlock x = rwlock_new ∧ 0 ≤ file_fd x ∧
    fd_opened (w_env w) (file_fd x) ino true true ∧ inodes (w_env w) !! ino = Some old ∧
    data_ino (w_env w, w_files w) (file_id x) = Some ino ∧
    data_content (w_env w, w_files w) (file_id x) = Some old ∧ active_size w = zlen old.
Proof.
  intros [Hd _ _]. destruct (do_active _ _ Hd) as (p & x & Hl & Hx & _ & Hfd & ino & Hino & Ho).
  simpl in *. assert (p ∈ l) as Hp by (destruct l; [done|]; injection Hl as ->; by left).
  destruct (do_nodes _ _ Hd p x Hp Hx) as (Hlock & _).
  assert (fs_head (w_files w) = Some p) as Hh.
  { pose proof (rep_head _ _ (do_rep _ _ Hd)) as H0. simpl in H0. congruence. }
  pose proof Hino as Hino'. unfold data_ino in Hino'. simpl in Hino'.
  destruct (fs_data_dir (w_files w)) as [[a dir]|] eqn:Hdir; simpl in Hino'; [|done].
  destruct (kw_inodes _ (do_kernel _ _ Hd) _ _ Hino') as (_ & old & Hold).
  assert (data_content (w_env w, w_files w) (file_id x) = Some old) as Hc.
  { unfold data_content. by rewrite Hino. }
  exists p, x, ino, old. split_and!; try done.
  unfold active_size. rewrite Hh. simpl. rewrite Hx. simpl. by rewrite Hc.
Qed.

(** The entries after a record of [k] has been appended to the file of [x]
    and indexed. *)
Lemma data_insert e e1 f kd kd' l m p x ino old h k v :
  map_ok (e, f) kd l m →
  p ∈ l → fs_nodes f !! p = Some x → data_content (e, f) (file_id x) = Some old →
  data_ino (e, f) (file_id x) = Some ino →
  (∀ id c, data_content (e, f) id = Some c → data_content (e1, f) id =
    Some (c ++ if decide (data_ino (e, f) id = Some ino)
               then datafile_record_bytes h k v else [])) →
  inodes e !! ino = Some old →
  datafile_record_ok h k v → df_crc h = record_crc (df_timestamp h) k v → v ≠ [] →
  zlen old + zlen (datafile_record_bytes h k v) < 2 ^ 63 →
  keydir_map kd' =
    <[k := KdInfo (file_id x) (zlen old) (zlen v) (df_timestamp h)]> (keydir_map kd) →
  map_ok (e1, f) kd' l (<[k := v]> m).
Proof.
  intros Hm Hp Hx Hc Hdi Happ Hino Hrec Hcrc Hv H63 Hkd k'. rewrite Hkd.
  destruct (decide (k = k')) as [<-|Hk].
  - rewrite !lookup_insert_eq. exists v. split; [done|].
    exists (old ++ datafile_record_bytes h k v), h. simpl.
    rewrite (Happ _ _ Hc), decide_True, slice_last, zlen_app by done.
    pose proof (zlen_nonneg old). destruct (Hrec) as (_ & _ & <-).
    split_and!; try done; try lia. apply list_elem_of_fmap. exists p.
    split; [|done]. unfold node_id. by rewrite Hx.
  - rewrite !lookup_insert_ne by done. specialize (Hm k').
    destruct (keydir_map kd !! k') as [i|]; [|done].
    destruct Hm as (v' & Hv' & He). exists v'. split; [done|].
    eapply (entry_ok_extend (e, f)); [done | | exact He]. intros id c Hidc Hlen.
    eexists. split; [by apply Happ|]. case_decide as Hj; [|by rewrite app_nil_r].
    unfold data_content in Hidc. rewrite Hj in Hidc. simpl in Hidc.
    assert (c = old) as -> by congruence. by rewrite zlen_app.
Qed.

#[local] Arguments time : simpl never.
#[local] Arguments ccask_write_record_blocking : simpl never.

(** Creating the record of a [put]: where it is in memory, and what it says. *)
Lemma put_record_created v0 v1 v2 e kb ks k vb vs v :
  calm e → heap_wf e → cbuf_read (Some kb) ks = Some k → cbuf_read (Some vb) vs = Some v →
  is_u32 ks → is_u32 vs →
  ∃ t e0, let h := DatafileHeader (record_crc (u32 t) k v) (u32 t) ks vs in
    let e3 := three_blocks (datafile_header_bytes h) k v e0 in
    time e = Ret t e0 ∧
    ccask_create_datafile_record [v0; v1; v2] (u32 t) (Some kb) ks (Some vb) vs e0 =
      Ret (CCASK_OK, datafile_iov (e_brk e0) ks vs) e3 ∧
    env_grow e e0 ∧ env_grow e e3 ∧
    datafile_record_ok h k v ∧ df_crc h = record_crc (df_timestamp h) k v.
Proof.
  intros Hc Hwf Hk Hv Hku Hvu. destruct (time_step e) as (t & e0 & Ht & Hst0).
  pose proof (cbuf_read_zlen _ _ _ Hk). pose proof (cbuf_read_zlen _ _ _ Hv).
  assert (env_grow e e0) as Hg0 by by apply env_step_grow.
  pose proof (env_grow_heap_wf _ _ Hg0 Hwf) as Hwf0.
  exists t, e0. split; [done|]. split; [|split; [done|split; [|split; [|done]]]].
  - apply create_datafile_record_ok; [done | by apply calm_mallocs, (env_grow_calm _ _ Hg0)
      | by apply calculate_crc32_record | done | done].
  - eapply env_grow_trans; [exact Hg0 | by apply three_blocks_grow].
  - split; [|by split]. split_and!; simpl; try done; [apply crc32_range | apply u32_range].
Qed.

(** The file a [put] appends to grows by [d]; the others stay. *)
Definition active_appended (w w' : world) (d : bytes) : Prop :=
  ∃ p x ino old, fs_head (w_files w) = Some p ∧ fs_nodes (w_files w) !! p = Some x ∧
    data_ino (w_env w, w_files w) (file_id x) = Some ino ∧
    inodes (w_env w) !! ino = Some old ∧
    inodes (w_env w') = <[ino := old ++ d]> (inodes (w_env w)) ∧
    k_dir (e_kernel (w_env w')) = k_dir (e_kernel (w_env w)).

Lemma active_appended_size w w' l m d :
  store_ok w l m → active_appended w w' d → w_files w' = w_files w →
  active_size w' = active_size w + zlen d.
Proof.
  intros Hok (p & x & ino & old & Hp & Hx & Hi & Hino & Hin & Hdir) Hf.
  destruct (active_file _ _ _ Hok) as (p' & x' & ino' & old' & Hp' & _ & Hx' & _ & _ & _ & _ &
    _ & Hdc & ->). simplify_eq.
  unfold active_size. rewrite Hf, Hp. simpl. rewrite Hx. simpl.
  rewrite (data_content_append (w_env w) _ _ ino old d _ old'), decide_True by done.
  simpl. apply zlen_app.
Qed.

(** After the record has been written and indexed, its three blocks are
    freed: the store has the new value. *)
Lemma store_ok_after_write e e3 e4 e5 f kd kd5 rg th ru sd l m p x ino old b h k v :
  store_ok (World e f kd rg th ru sd) l m →
  fs_head f = Some p → p ∈ l → fs_nodes f !! p = Some x →
  data_ino (e, f) (file_id x) = Some ino → inodes e !! ino = Some old →
  env_grow e e3 → (∀ c, c ∈ kd_blocks (hash_table kd) → ¬ (b ≤ c < b + 3)) → b + 3 ≤ e_brk e3 →
  env_step e3 e4 (e_heap e3) (<[ino := old ++ datafile_record_bytes h k v]> (inodes e3)) →
  env_grow e4 e5 → keydir_ok (e5, kd5) →
  keydir_map kd5 =
    <[k := KdInfo (file_id x) (zlen old) (zlen v) (df_timestamp h)]> (keydir_map kd) →
  (∀ a, a ∈ kd_blocks (hash_table kd5) → a ∈ kd_blocks (hash_table kd) ∨ e_brk e3 ≤ a) →
  datafile_record_ok h k v → df_crc h = record_crc (df_timestamp h) k v → v ≠ [] →
  zlen old + zlen (datafile_record_bytes h k v) < 2 ^ 63 →
  let e6 := set_heap (delete (b + 2) (delete (b + 1) (delete b (e_heap e5)))) e5 in
  store_ok (World e6 f kd5 rg th ru sd) l (<[k := v]> m) ∧
  active_appended (World e f kd rg th ru sd) (World e6 f kd5 rg th ru sd)
    (datafile_record_bytes h k v).
Proof.
  intros [Hd Hkd Hm] Hp Hpl Hx Hdi Hino Hg Hb Hb3 Hst4 Hg5 Hkd5 Hmap Hbl Hrec Hcrc Hvn H63 e6.
  simpl in Hd, Hkd, Hm. pose proof (keydir_heap _ Hkd) as Hwf. simpl in Hwf.
  assert (inodes e6 = <[ino := old ++ datafile_record_bytes h k v]> (inodes e)) as Hi6.
  { change (inodes e6) with (inodes e5).
    by rewrite (eg_inodes _ _ Hg5), (es_inodes _ _ _ _ Hst4), (eg_inodes _ _ Hg). }
  assert (k_dir (e_kernel e6) = k_dir (e_kernel e)) as Hdir6.
  { destruct (eg_ext _ _ Hg) as [<- _], (es_ext _ _ _ _ Hst4) as [<- _], (eg_ext _ _ Hg5) as [<- _].
    done. }
  split; [|by exists p, x, ino, old]. constructor; simpl.
  - apply (disk_ok_env e5); [apply kernel_ext_refl | |].
    2: { eapply disk_ok_grow; [exact Hg5|]. eapply disk_ok_step; [exact Hst4|].
         by eapply disk_ok_grow. }
    apply (eg_wf _ _ Hg5), (es_wf _ _ _ _ Hst4), (eg_wf _ _ Hg), (do_kernel _ _ Hd).
  - apply (keydir_ok_blocks e5); [done | |].
    + intros a [blk Ha]. apply (keydir_heap _ Hkd5). simpl in *.
      rewrite !lookup_delete in Ha. repeat case_decide; eauto; done.
    + intros a [Ha|Ha]%Hbl; simpl; rewrite !lookup_delete.
      * apply Hb in Ha. repeat case_decide; lia || done.
      * repeat case_decide; lia || done.
  - assert (data_content (e, f) (file_id x) = Some old) as Hdc
      by (unfold data_content; by rewrite Hdi).
    eapply data_insert; try done. intros id c. by apply (data_content_append e e6 f ino old).
Qed.

Lemma store_ok_grow e e' f kd rg th ru sd rg' th' ru' l m :
  env_grow e e' → store_ok (World e f kd rg th ru sd) l m →
  store_ok (World e' f kd rg' th' ru' sd) l m.
Proof.
  intros Hg Hok. pose proof (keydir_heap _ (st_keydir _ _ _ Hok)) as Hwf. simpl in Hwf.
  eapply store_ok_same; [exact Hok | | done | | | done |]; simpl.
  - eapply disk_ok_grow; [exact Hg | apply Hok].
  - by eapply env_grow_heap_wf.
  - intros c [blk Hc]. rewrite Hc. eapply lookup_weaken; [exact Hc | apply (eg_heap _ _ Hg)].
  - intros id. by apply data_content_grow.
Qed.

(** A record in three blocks, for which there is room in the active file, is
    written, indexed and freed. *)
Lemma record_written fuel n e f kd rg th ru sd l m b h k v :
  let w := World e f kd rg th ru sd in
  let iov := datafile_iov b (zlen k) (zlen v) in
  let size := 16 + zlen k + zlen v in
  store_ok w l m → calm e →
  e_heap e !! b = Some (datafile_header_bytes h) → e_heap e !! (b + 1) = Some k →
  e_heap e !! (b + 2) = Some v →
  (∀ c, c ∈ kd_blocks (hash_table kd) → ¬ (b ≤ c < b + 3)) → b + 3 ≤ e_brk e →
  datafile_record_ok h k v → df_crc h = record_crc (df_timestamp h) k v → v ≠ [] →
  active_size w + size ≤ fs_max_active f → active_size w + size < 2 ^ 63 →
  (length (events e) + Z.to_nat size < fuel)%nat →
  ∃ e5 kd5 e6,
    write_record fuel (S n) iov w = Ret CCASK_OK (World e5 f kd5 rg th ru sd) ∧
    free_datafile_record iov e5 = Ret tt e6 ∧
    store_ok (World e6 f kd5 rg th ru sd) l (<[k := v]> m) ∧
    active_appended w (World e6 f kd5 rg th ru sd) (datafile_record_bytes h k v) ∧
    calm e6 ∧ events e6 `suffix_of` events e ∧ e_brk e ≤ e_brk e6 ∧
    (∀ c blk, ¬ (b ≤ c < b + 3) → e_heap e !! c = Some blk → e_heap e6 !! c = Some blk) ∧
    (∀ c, c ∈ kd_blocks (hash_table kd5) → c ∈ kd_blocks (hash_table kd) ∨ e_brk e ≤ c).
Proof.
  intros w iov size Hok Hc Hb0 Hb1 Hb2 Hbk Hb3 Hrec Hcrc Hvn Hmax H63 Hfuel.
  destruct (active_file _ _ _ Hok) as (p & x & ino & old & Hp & Hpl & Hx & Hlock & Hfd & Ho &
    Hino & Hdi & Hdc & Has). rewrite Has in *. simpl in Hp, Hx, Ho, Hino, Hdi, Hdc.
  destruct (write_record_ok fuel rg th ru sd n e f kd l p x b h k v ino old)
    as (e4 & e5 & kd5 & Hwr & Hst4 & Hg5 & Hkd5 & Hmap & Hbl); try done; try apply Hok.
  assert (∀ a blk, e_heap e !! a = Some blk → e_heap e5 !! a = Some blk) as Hkeep.
  { intros a blk Ha. eapply lookup_weaken; [|by apply eg_heap].
    by rewrite (es_heap _ _ _ _ Hst4). }
  destruct (store_ok_after_write e e e4 e5 f kd kd5 rg th ru sd l m p x ino old b h k v)
    as [Hok6 Happ]; try done; [apply env_grow_refl | |].
  { rewrite (zlen_datafile_record _ _ _ Hrec). destruct Hrec as (_ & <- & <-). unfold size in H63. lia. }
  eexists e5, kd5, _. split; [exact Hwr|]. split; [apply free_datafile_iov; eexists; by apply Hkeep|].
  split; [exact Hok6|]. split; [exact Happ|]. split_and!.
  - destruct (env_grow_calm e4 e5 Hg5) as [Hev Hml]; [|by constructor]. by eapply calm_step.
  - simpl. etrans; [apply (eg_events _ _ Hg5) | apply (es_events _ _ _ _ Hst4)].
  - simpl. rewrite <-(es_brk _ _ _ _ Hst4). apply (eg_brk _ _ Hg5).
  - intros c blk Hcb Hblk. simpl. rewrite !lookup_delete. repeat case_decide; lia || auto.
  - done.
Qed.

(** The blocks of a record that was created after the key directory. *)
Lemma new_blocks e e0 kd c b :
  keydir_ok (e, kd) → env_grow e e0 → b = e_brk e0 → c ∈ kd_blocks (hash_table kd) →
  ¬ (b ≤ c < b + 3).
Proof.
  intros Hkd Hg -> Hc. pose proof (eg_brk _ _ Hg).
  pose proof (kd_blocks_live _ _ _ (keydir_table _ Hkd) Hc) as Hlive%(keydir_heap _ Hkd).
  simpl in Hlive. lia.
Qed.

(** The blocking [put] is an insertion. *)
Lemma put_blocking_ok fuel w l m kb ks k vb vs v :
  store_ok w l m → calm (w_env w) → w_shutting_down w = false →
  cbuf_read (Some kb) ks = Some k → cbuf_read (Some vb) vs = Some v →
  is_u32 ks → is_u32 vs → v ≠ [] →
  active_size w + (16 + ks + vs) ≤ fs_max_active (w_files w) →
  active_size w + (16 + ks + vs) < 2 ^ 63 →
  (length (events (w_env w)) + Z.to_nat (16 + ks + vs) < fuel)%nat →
  wp (ccask_put_blocking fuel (Some kb) ks (Some vb) vs) w (λ res w',
    res = CCASK_OK ∧ store_ok w' l (<[k := v]> m) ∧ calm (w_env w') ∧ w_files w' = w_files w ∧
    events (w_env w') `suffix_of` events (w_env w) ∧
    ∃ h, datafile_record_ok h k v ∧ df_crc h = record_crc (df_timestamp h) k v ∧
      active_appended w w' (datafile_record_bytes h k v)).
Proof.
  intros Hok Hc Hsd Hk Hv Hku Hvu Hvn Hmax H63 Hfuel.
  destruct w as [e f kd rg th ru sd]. simpl in Hc, Hsd, Hmax, Hfuel. subst sd.
  pose proof (keydir_heap _ (st_keydir _ _ _ Hok)) as Hwf. simpl in Hwf.
  destruct (put_record_created iov_garbage iov_garbage iov_garbage e kb ks k vb vs v Hc Hwf Hk Hv Hku Hvu)
    as (t & e0 & Ht & Hcreate & Hg0 & Hg & Hrec & Hcrc).
  pose proof (cbuf_read_zlen _ _ _ Hk). pose proof (cbuf_read_zlen _ _ _ Hv). subst ks vs.
  set (h := DatafileHeader _ (u32 t) (zlen k) (zlen v)) in *.
  destruct (three_blocks_lookup (datafile_header_bytes h) k v e0) as (Hb0 & Hb1 & Hb2 & _).
  set (e3 := three_blocks _ k v e0) in *. set (b := e_brk e0) in *.
  assert (e_brk e3 = b + 3) as Hb3 by (change (e_brk e3) with (b + 1 + 1 + 1); lia).
  destruct fuel as [|n]; [lia|].
  pose proof (store_ok_grow e e3 f kd rg th ru false rg th ru l m Hg Hok) as Hok3.
  assert (active_size (World e3 f kd rg th ru false) = active_size (World e f kd rg th ru false)) as Has.
  { unfold active_size. simpl. destruct (fs_head f) as [p|]; [simpl|done].
    destruct (fs_nodes f !! p) as [x|]; [simpl|done]. by rewrite (data_content_grow e e3). }
  destruct (record_written (S n) n e3 f kd rg th ru false l m b h k v) as
    (e5 & kd5 & e6 & Hwr & Hfree & Hok6 & Happ & Hc6 & Hev & Hbrk & Hfr & Hkb); try done; rewrite ?Has; try done.
  { by eapply env_grow_calm. }
  { intros c. eapply new_blocks; [apply Hok | exact Hg0 | done]. }
  { lia. }
  { pose proof (suffix_length _ _ (eg_events _ _ Hg)). lia. }
  eapply wp_run.
  { unfold ccask_put_blocking. rewrite bind_get. cbn [w_shutting_down].
    erewrite bind_run by apply zoom_env, Ht.
    erewrite bind_run by apply zoom_env, Hcreate. cbn beta iota. rewrite bool_decide_neq_refl.
    erewrite bind_run by exact Hwr. rewrite bool_decide_neq_refl.
    erewrite bind_run by apply zoom_env, Hfree. reflexivity. }
  cbn beta. split; [done|]. split; [done|]. split; [done|]. split; [done|]. split.
  - simpl. etrans; [exact Hev | apply (eg_events _ _ Hg)].
  - exists h. split; [done|]. split; [done|].
    destruct Happ as (p & x & ino & old & H1 & H2 & H3 & H4 & H5 & H6). cbn [w_env w_files] in *.
    exists p, x, ino, old. rewrite <-(data_ino_ext _ _ _ _ (eg_ext _ _ Hg)). cbn [w_env w_files].
    rewrite (eg_inodes _ _ Hg) in H4, H5. destruct (eg_ext _ _ Hg) as [Hdir _].
    rewrite Hdir in H6. by split_and!.
Qed.

(** A tombstone is a record with an empty value: writing it never ends. *)
Lemma delete_blocking_hangs fuel w l m kb ks k :
  store_ok w l m → calm (w_env w) → w_shutting_down w = false →
  cbuf_read (Some kb) ks = Some k →
  active_size w + (16 + ks) ≤ fs_max_active (w_files w) → active_size w + (16 + ks) < 2 ^ 63 →
  ccask_delete_blocking fuel (Some kb) ks w = NoFuel.
Proof.
  intros Hok Hc Hsd Hk Hmax H63.
  destruct (active_file _ _ _ Hok) as (p & x & ino & old & Hp & Hpl & Hx & Hlock & Hfd & Ho &
    Hino & _ & _ & Has). rewrite Has in *.
  pose proof (cbuf_read_zlen _ _ _ Hk). subst ks. pose proof (zlen_nonneg k).
  pose proof Hok as [Hd Hkd Hm]. destruct w as [e f kd rg th ru sd]. simpl in *. subst sd.
  pose proof (keydir_heap _ Hkd) as Hwf. simpl in Hwf.
  destruct (time_step e) as (t & e0 & Ht & Hst0).
  assert (env_grow e e0) as Hg0 by by apply env_step_grow.
  set (h := DatafileHeader 0 (u32 t) (zlen k) 0).
  pose proof (three_blocks_grow (datafile_header_bytes h) k [] e0
    (env_grow_heap_wf _ _ Hg0 Hwf)) as Hg3.
  destruct (three_blocks_lookup (datafile_header_bytes h) k [] e0) as (Hb0 & Hb1 & Hb2 & _).
  pose proof (env_grow_trans _ _ _ Hg0 Hg3) as Hg.
  unfold ccask_delete_blocking, ccask_put_blocking. rewrite bind_get. cbn [w_shutting_down].
  erewrite bind_run by apply zoom_env, Ht.
  erewrite bind_run by (apply zoom_env, create_datafile_record_ok;
    [by eapply env_grow_heap_wf | by apply calm_mallocs, (env_grow_calm _ _ Hg0)
    | by eapply calculate_crc32_null | done | done]).
  fold h. cbn beta iota. rewrite bool_decide_neq_refl. apply bind_nofuel.
  apply (write_record_hangs _ _ _ _ _ _ _ _ _ p x _ _
    (datafile_header_bytes h ++ k ++ []) ino old); try done.
  - eapply fd_opened_ext; [apply Hg | done].
  - by rewrite <-Hino, <-(eg_inodes _ _ Hg).
  - apply (gather_datafile_iov _ _ _ k []); first [done | apply zlen_datafile_header].
  - by eapply env_grow_calm.
Qed.
End store.
