(* ===== verification/Durable.v ===== *)
(** * Durable: the files alone hold the map

    What a store would be after a restart: replaying the records of the data
    files, the oldest file first, gives the map it represents now.  The
    blocking [put] keeps this, and [ccask_keydir_init] recovers the map from
    the files, whether through their records or through their hints. *)
From stdpp Require Import sorting.
From S2P Require Import Prelude Status Posix SafeIO Codec Records Ringbuf Uthash Keydir Log.
From S2P Require Import Filenames Files Disk DiskWrite World Hint Recovery HintGen Reader Writer.
From S2P Require Import Core Store.
Open Scope Z_scope.

Definition log_values (l : list log_record) (m : gmap bytes bytes) : gmap bytes bytes :=
  foldl (λ m r, <[lr_key r := lr_value r]> m) m l.

Definition recovered_values (s : fstate) (l : list Z) (m : gmap bytes bytes) : gmap bytes bytes :=
  foldr (λ p m, log_values (log_of s (node_id (fs_nodes s.2) p)) m) m l.

Section durable.
Context {host : Host} {zlib : Zlib}.

Definition log_crc_ok (r : log_record) : Prop :=
  df_crc (lr_header r) = record_crc (df_timestamp (lr_header r)) (lr_key r) (lr_value r).

(** The replay of the files is [m]: all records have the right checksums,
    every file has a file of its own on the disk, and the active file, which
    has no hints yet, ends with a whole record. *)
Record durable (s : fstate) (l : list Z) (m : gmap bytes bytes) : Prop := {
  du_values : recovered_values s l ∅ = m;
  du_crc : ∀ p, p ∈ l → Forall log_crc_ok (log_of s (node_id (fs_nodes s.2) p));
  du_inodes : NoDup ((λ p, data_ino s (node_id (fs_nodes s.2) p)) <$> l);
  du_whole : ∀ p c, head l = Some p → data_content s (node_id (fs_nodes s.2) p) = Some c →
    c = log_bytes (records_of c);
  du_hints : ∀ p q, p ∈ l → q ∈ l → is_Some (hint_ino s (node_id (fs_nodes s.2) p)) →
    hint_ino s (node_id (fs_nodes s.2) p) ≠ data_ino s (node_id (fs_nodes s.2) q);
  du_active : ∀ p x, head l = Some p → fs_nodes s.2 !! p = Some x → file_has_hint x = false;
}.

(** The entries [im] lead to the values [m]: [map_ok] of a directory. *)
Definition represents (s : fstate) (l : list Z) (im : gmap bytes kd_info)
    (m : gmap bytes bytes) : Prop :=
  ∀ k, match im !! k with
       | Some i => ∃ v, m !! k = Some v ∧ entry_ok s l k i v
       | None => m !! k = None
       end.

Lemma represents_insert s l im m k i v :
  represents s l im m → entry_ok s l k i v → represents s l (<[k := i]> im) (<[k := v]> m).
Proof.
  intros Hr He k'. destruct (decide (k = k')) as [<-|Hk].
  - rewrite !lookup_insert_eq. eauto.
  - rewrite !lookup_insert_ne by done. apply Hr.
Qed.

(** Replaying the records of a file, after those of [l1]. *)
Lemma represents_log s l id content l1 l2 rest im m :
  id ∈ node_id (fs_nodes s.2) <$> l → data_content s id = Some content → zlen content < 2 ^ 63 →
  content = log_bytes l1 ++ log_bytes l2 ++ rest → Forall log_record_ok l2 →
  Forall log_crc_ok l2 → represents s l im m →
  represents s l (index_log id (zlen (log_bytes l1)) l2 im) (log_values l2 m).
Proof.
  intros Hid Hc H63. revert l1 im m. induction l2 as [|r l2 IH]; intros l1 im m Hcont Hok Hcrc Hr;
    [done|].
  apply Forall_cons in Hok as [Hrok Hok]. apply Forall_cons in Hcrc as [Hrc Hcrc].
  pose proof (zlen_log_record _ Hrok) as Hz. rewrite log_bytes_cons, <-app_assoc in Hcont.
  assert (log_bytes (l1 ++ [r]) = log_bytes l1 ++ log_record_bytes r) as Hl1.
  { rewrite log_bytes_app, log_bytes_cons. unfold log_bytes at 2. simpl. by rewrite app_nil_r. }
  cbn [index_log log_values foldl].
  replace (zlen (log_bytes l1) + log_record_size r) with (zlen (log_bytes (l1 ++ [r])))
    by (rewrite Hl1, zlen_app; lia).
  apply IH; [by rewrite Hl1, <-app_assoc | done | done |].
  apply represents_insert; [done|]. destruct Hrok as [Hrec Hne].
  exists content, (lr_header r). simpl. change (datafile_record_bytes _ _ _) with (log_record_bytes r).
  pose proof (zlen_nonneg (log_bytes l1)). pose proof (zlen_nonneg (log_bytes l2)).
  pose proof (zlen_nonneg rest).
  split_and!; try done.
  - rewrite Hcont, !zlen_app. lia.
  - rewrite Hcont. by apply slice_exact.
Qed.

(** The directory that recovery builds represents the replay. *)
Lemma recovered_represents s l l0 :
  (∀ p, p ∈ l → p ∈ l0) →
  (∀ p, p ∈ l → ∃ c, data_content s (node_id (fs_nodes s.2) p) = Some c ∧ zlen c < 2 ^ 63) →
  (∀ p, p ∈ l → Forall log_crc_ok (log_of s (node_id (fs_nodes s.2) p))) →
  represents s l0 (recovered_index s l ∅) (recovered_values s l ∅).
Proof.
  intros Hl0. destruct s as [e f]. simpl. induction l as [|p l IH]; intros Hc Hcrc.
  { intros k. unfold recovered_index, recovered_values. cbn [foldr]. by rewrite !lookup_empty. }
  rewrite recovered_index_cons. cbn [recovered_values foldr snd].
  destruct (Hc p ltac:(by left)) as (c & Hcont & Hlen).
  destruct (records_of_split c) as (Hok & rest & Hsplit & _).
  assert (log_of (e, f) (node_id (fs_nodes f) p) = records_of c) as Hlog
    by (unfold log_of; by rewrite Hcont).
  specialize (Hcrc p ltac:(by left)) as Hcrcp. rewrite Hlog in *. simpl in *.
  apply (represents_log (e, f) l0 (node_id (fs_nodes f) p) c [] _ rest); try done.
  - simpl. apply list_elem_of_fmap_2, Hl0. by left.
  - apply IH; intros q Hq; [apply Hl0 | apply Hc | apply Hcrc]; by right.
Qed.

(** A restart of the key directory gives the map back. *)
Lemma keydir_init_store fuel e f kd rg th ru sd l m n :
  disk_ok (e, f) l → recoverable (e, f) l n → durable (e, f) l m → calm e → heap_wf e →
  (length (events e) + 2 * n + 20 < fuel)%nat →
  ∃ e' kd', ccask_keydir_init fuel (World e f kd rg th ru sd) =
      Ret CCASK_OK (World e' f kd' rg th ru sd) ∧
    store_ok (World e' f kd' rg th ru sd) l m ∧ env_grow e e' ∧
    ∀ c, c ∈ kd_blocks (hash_table kd') → e_brk e ≤ c.
Proof.
  intros Hd Hrc Hdu Hc Hwf Hfuel.
  destruct (keydir_init_ok fuel f rg th ru sd e kd l n) as (e' & kd' & Hrun & Hg & Hkd & Hmap & Hnew);
    [done..|].
  exists e', kd'. split; [done|]. split; [|by split]. constructor; simpl.
  - by eapply disk_ok_grow.
  - done.
  - destruct Hdu as [<- Hcrc _ _ _ _]. unfold map_ok. rewrite Hmap.
    assert (represents (e, f) l (recovered_index (e, f) l ∅) (recovered_values (e, f) l ∅)) as Hr.
    { apply recovered_represents; [done | | done]. intros p Hp.
      destruct (rep_lookup _ _ _ (do_rep _ _ Hd) Hp) as [x Hx]. simpl in Hx |- *.
      destruct (rc_data _ _ _ Hrc p x Hp Hx) as (c & Hcont & Hlen).
      assert (node_id (fs_nodes f) p = file_id x) as -> by (unfold node_id; by rewrite Hx).
      exists c. split; [done|]. pose proof (rc_small _ _ _ Hrc). zlen_lia. }
    intros k. specialize (Hr k). destruct (recovered_index (e, f) l ∅ !! k) as [i|]; [|done].
    destruct Hr as (v & Hv & He). exists v. split; [done|].
    eapply (entry_ok_same (e, f)); [done | | exact He]. intros id. by apply data_content_grow.
Qed.

(** *** Appending a record *)

Lemma log_values_snoc l r m :
  log_values (l ++ [r]) m = <[lr_key r := lr_value r]> (log_values l m).
Proof. unfold log_values. by rewrite foldl_app. Qed.

Lemma log_of_append e e' f ino old r id c :
  k_dir (e_kernel e') = k_dir (e_kernel e) →
  inodes e' = <[ino := old ++ log_record_bytes r]> (inodes e) → inodes e !! ino = Some old →
  data_content (e, f) id = Some c → log_record_ok r → old = log_bytes (records_of old) →
  log_of (e', f) id = log_of (e, f) id ++ if decide (data_ino (e, f) id = Some ino) then [r] else [].
Proof.
  intros Hdir Hi Hino Hc Hr Hold. unfold log_of.
  rewrite (data_content_append e e' f ino old (log_record_bytes r) id c), Hc by done.
  case_decide as Hid; [|by rewrite !app_nil_r].
  assert (c = old) as ->.
  { unfold data_content in Hc. rewrite Hid in Hc. simpl in Hc. congruence. }
  destruct (records_of_split old) as (Hok & _). rewrite Hold at 1.
  rewrite records_of_app by done. f_equal.
  rewrite <-(app_nil_r (log_record_bytes r)), records_of_eq, next_record_app by done.
  rewrite <-(zlen_log_record _ Hr). unfold zlen. by rewrite Nat2Z.id, drop_app_length.
Qed.

Lemma recovered_values_cons e f p l m :
  recovered_values (e, f) (p :: l) m =
  log_values (log_of (e, f) (node_id (fs_nodes f) p)) (recovered_values (e, f) l m).
Proof. reflexivity. Qed.

Lemma recovered_values_same e e' f f' l m :
  (∀ p, p ∈ l → log_of (e', f') (node_id (fs_nodes f') p) = log_of (e, f) (node_id (fs_nodes f) p)) →
  recovered_values (e', f') l m = recovered_values (e, f) l m.
Proof.
  intros H. induction l as [|p l IH]; [done|].
  rewrite !recovered_values_cons, H by (by left). f_equal. apply IH. intros q Hq. apply H. by right.
Qed.

Section append.
Context (e e' : env) (f : files_state) (l : list Z) (m : gmap bytes bytes) (p : Z) (x : ccask_file)
  (ino : Z) (old : bytes) (h : ccask_datafile_record_header) (k v : bytes) (n : nat).
Hypothesis Hd : disk_ok (e, f) l.
Hypothesis Hdu : durable (e, f) l m.
Hypothesis Hrc : recoverable (e, f) l n.
Hypothesis Hp : fs_head f = Some p.
Hypothesis Hx : fs_nodes f !! p = Some x.
Hypothesis Hdi : data_ino (e, f) (file_id x) = Some ino.
Hypothesis Hino : inodes e !! ino = Some old.
Hypothesis Hi : inodes e' = <[ino := old ++ datafile_record_bytes h k v]> (inodes e).
Hypothesis Hdir : k_dir (e_kernel e') = k_dir (e_kernel e).
Hypothesis Hrec : datafile_record_ok h k v.
Hypothesis Hvn : v ≠ [].

Let Hid : node_id (fs_nodes f) p = file_id x.
Proof. unfold node_id. by rewrite Hx. Qed.

Lemma append_head : ∃ l', l = p :: l'.
Proof.
  pose proof (rep_head _ _ (do_rep _ _ Hd)) as Hh. simpl in Hh. rewrite Hp in Hh.
  destruct l as [|q l']; [done|]. injection Hh as ->. by exists l'.
Qed.

Lemma append_other q :
  q ∈ l → q ≠ p → data_ino (e, f) (node_id (fs_nodes f) q) ≠ Some ino.
Proof.
  destruct append_head as [l' Hl]. pose proof (du_inodes _ _ _ Hdu) as Hnd. rewrite Hl in *.
  simpl in Hnd. apply NoDup_cons in Hnd as [Hnd _].
  intros [->|Hq]%elem_of_cons Hqp Heq; [done|]. apply Hnd. apply list_elem_of_fmap.
  exists q. split; [|done]. by rewrite Hid, Hdi, Heq.
Qed.

Lemma append_log q :
  q ∈ l → log_of (e', f) (node_id (fs_nodes f) q) =
    log_of (e, f) (node_id (fs_nodes f) q) ++ if decide (q = p) then [LogRecord h k v] else [].
Proof.
  intros Hq. destruct (rep_lookup _ _ _ (do_rep _ _ Hd) Hq) as [y Hy]. simpl in Hy.
  assert (node_id (fs_nodes f) q = file_id y) as Hidq by (unfold node_id; by rewrite Hy).
  destruct (rc_data _ _ _ Hrc q y Hq Hy) as (c & Hc & _). destruct append_head as [l' Hl].
  rewrite (log_of_append e e' f ino old (LogRecord h k v) _ c); try done.
  - f_equal. destruct (decide (q = p)) as [->|Hqp].
    + by rewrite decide_True by (by rewrite Hid).
    + rewrite decide_False; [done|]. by apply append_other.
  - by rewrite Hidq.
  - apply (du_whole _ _ _ Hdu p); [by rewrite Hl|]. simpl. rewrite Hid.
    unfold data_content. by rewrite Hdi.
Qed.

(** The replay has the new value. *)
Lemma durable_append :
  df_crc h = record_crc (df_timestamp h) k v → durable (e', f) l (<[k := v]> m).
Proof.
  intros Hcrc. destruct append_head as [l' Hl].
  pose proof (rep_nodup _ _ (do_rep _ _ Hd)) as Hnd. rewrite Hl in Hnd.
  apply NoDup_cons in Hnd as [Hpl Hnd].
  assert (∀ id, data_ino (e', f) id = data_ino (e, f) id) as Hdisame.
  { intros id. unfold data_ino. simpl. by rewrite Hdir. }
  assert (∀ id, hint_ino (e', f) id = hint_ino (e, f) id) as Hhisame.
  { intros id. unfold hint_ino. simpl. by rewrite Hdir. }
  destruct Hdu as [Hval Hcrcs Hinos Hwhole Hhints Hact]. constructor; simpl in *.
  - assert (p ∈ l) as Hp1 by (rewrite Hl; by left).
    rewrite <-Hval, Hl, !recovered_values_cons, (append_log p Hp1), (decide_True _ _ eq_refl),
      log_values_snoc. cbn [lr_key lr_value]. do 2 f_equal.
    apply recovered_values_same. intros q Hq.
    rewrite append_log by (rewrite Hl; by right). rewrite decide_False by congruence.
    by rewrite app_nil_r.
  - intros q Hq. rewrite append_log by done. apply Forall_app. split; [by apply Hcrcs|].
    case_decide; [|done]. by repeat constructor.
  - by setoid_rewrite Hdisame.
  - intros q c Hq. rewrite Hl in Hq. injection Hq as <-. rewrite Hid.
    assert (data_content (e, f) (file_id x) = Some old) as Hc
      by (unfold data_content; by rewrite Hdi).
    rewrite (data_content_append e e' f ino old (datafile_record_bytes h k v) _ old),
      decide_True by done.
    intros [= <-]. pose proof (append_log p ltac:(rewrite Hl; by left)) as Hlog.
    rewrite Hid, decide_True in Hlog by done. unfold log_of in Hlog. rewrite Hc in Hlog.
    rewrite (data_content_append e e' f ino old (datafile_record_bytes h k v) _ old),
      decide_True in Hlog by done.
    rewrite Hlog, log_bytes_app. f_equal.
    + apply (Hwhole p); [by rewrite Hl|]. rewrite Hid. exact Hc.
    + rewrite log_bytes_cons. unfold log_bytes. simpl. by rewrite app_nil_r.
  - intros q r Hq Hr.
    rewrite (Hhisame (node_id (fs_nodes f) q)), (Hdisame (node_id (fs_nodes f) r)).
    by apply Hhints.
  - done.
Qed.

Lemma recoverable_append :
  2 * (Z.of_nat n + zlen (datafile_record_bytes h k v)) < 2 ^ 32 →
  recoverable (e', f) l (n + length (datafile_record_bytes h k v)).
Proof.
  intros Hsm. constructor; [unfold zlen in Hsm; lia | |]; cbn [fst snd].
  - intros q y Hq Hy. destruct (rc_data _ _ _ Hrc q y Hq Hy) as (c & Hc & Hlen).
    eexists. split; [by apply (data_content_append e e' f ino old)|].
    rewrite length_app. case_decide; simpl; lia.
  - intros q y Hq Hy Hh. destruct (rc_hint _ _ _ Hrc q y Hq Hy Hh) as (c & Hc & Hlen & Hrec').
    assert (node_id (fs_nodes f) q = file_id y) as Hidq by (unfold node_id; by rewrite Hy).
    destruct append_head as [l' Hl]. exists c. split_and!; [| lia |].
    + unfold hint_content in *. destruct (hint_ino (e, f) (file_id y)) as [j|] eqn:Hj; [|done].
      assert (hint_ino (e', f) (file_id y) = Some j) as ->.
      { rewrite <-Hj. unfold hint_ino. simpl. by rewrite Hdir. }
      simpl in *. rewrite Hi, lookup_insert_ne; [done|]. intros ->.
      assert (p ∈ l) as Hpl by (rewrite Hl; by left).
      pose proof (du_hints _ _ _ Hdu q p Hq Hpl) as Hne. simpl in Hne.
      rewrite Hidq, Hid, Hj, Hdi in Hne. by destruct Hne.
    + rewrite Hrec', <-Hidq, append_log, decide_False, app_nil_r; try done.
      intros ->. pose proof (du_active _ _ _ Hdu p y ltac:(by rewrite Hl) Hy). congruence.
Qed.
End append.
End durable.

(** *** What does not disturb the files *)

Lemma data_ino_grow e e' f id : env_grow e e' → data_ino (e', f) id = data_ino (e, f) id.
Proof. intros Hg. apply data_ino_ext, Hg. Qed.

Lemma hint_ino_grow e e' f id : env_grow e e' → hint_ino (e', f) id = hint_ino (e, f) id.
Proof. intros Hg. unfold hint_ino. simpl. by destruct (eg_ext _ _ Hg) as [-> _]. Qed.

Lemma durable_grow {zlib : Zlib} {host : Host} e e' f l m :
  env_grow e e' → durable (e, f) l m → durable (e', f) l m.
Proof.
  intros Hg [H1 H2 H3 H4 H5 H6]. constructor; simpl in *.
  - rewrite <-H1. apply recovered_values_same. intros p _. by apply log_of_grow.
  - intros p Hp. rewrite (log_of_grow e e') by done. by apply H2.
  - erewrite list_fmap_ext; [exact H3|]. intros i p _. by apply data_ino_grow.
  - intros p c. rewrite (data_content_grow e e') by done. by apply H4.
  - intros p q. rewrite (hint_ino_grow e e' f (node_id (fs_nodes f) p)),
      (data_ino_grow e e' f (node_id (fs_nodes f) q)) by done. by apply H5.
  - done.
Qed.

Section after_append.
Context {host : Host} {zlib : Zlib}.

Lemma active_size_recoverable w l m n :
  store_ok w l m → recoverable (w_env w, w_files w) l n → active_size w ≤ Z.of_nat n.
Proof.
  intros Hok Hrc. destruct (active_file _ _ _ Hok) as (p & x & _ & old & _ & Hp & Hx & _ & _ & _ &
    _ & _ & Hc & ->).
  destruct (rc_data _ _ _ Hrc p x Hp Hx) as (c & Hc' & Hlen). simpl in *. simplify_eq. zlen_lia.
Qed.

(** What a [put] leaves on the disk. *)
Lemma active_appended_durable w w' l m h k v n :
  store_ok w l m → active_appended w w' (datafile_record_bytes h k v) → w_files w' = w_files w →
  durable (w_env w, w_files w) l m → recoverable (w_env w, w_files w) l n →
  datafile_record_ok h k v → df_crc h = record_crc (df_timestamp h) k v → v ≠ [] →
  2 * (Z.of_nat n + zlen (datafile_record_bytes h k v)) < 2 ^ 32 →
  durable (w_env w', w_files w') l (<[k := v]> m) ∧
  recoverable (w_env w', w_files w') l (n + length (datafile_record_bytes h k v)).
Proof.
  intros Hok (p & x & ino & old & Hp & Hx & Hdi & Hino & Hin & Hdir) Hf Hdu Hrc Hrec Hcrc Hv Hsm.
  rewrite Hf. split.
  - by eapply (durable_append (w_env w) _ _ l m p x ino old); [apply Hok|..].
  - by eapply (recoverable_append (w_env w) _ _ l m p x ino old); [apply Hok|..].
Qed.
End after_append.

(** ** The hint thread leaves the map alone *)

Lemma hint_bytes_length pos l :
  Forall log_record_ok l → zlen (hint_bytes (hints_of pos l)) ≤ 2 * zlen (log_bytes l).
Proof.
  intros Hl. revert pos. induction Hl as [|r l Hr _ IH]; intros pos; [done|].
  cbn [hints_of]. rewrite hint_bytes_cons, log_bytes_cons, !zlen_app, (zlen_log_record _ Hr).
  specialize (IH (pos + log_record_size r)). pose proof (log_record_size_pos _ Hr).
  unfold hint_record_bytes, hintfile_record_bytes. rewrite zlen_app, zlen_hintfile_header.
  cbn [hint_of hr_key]. unfold log_record_size in *. pose proof (zlen_nonneg (lr_value r)). lia.
Qed.

(** The disk [e'] is [e] with one more file, the hint file of [id], with the
    contents [d]. *)
Section hint_file.
Context {host : Host} {zlib : Zlib} (e e' : env) (f : files_state) (l : list Z) (a : Z) (dir : string) (p : Z) (x : ccask_file)
  (d : bytes).
Hypothesis Hd : disk_ok (e, f) l.
Hypothesis Hdir : fs_data_dir f = Some (a, dir).
Hypothesis Hp : p ∈ l.
Hypothesis Hx : fs_nodes f !! p = Some x.
Hypothesis Hnone : hint_ino (e, f) (file_id x) = None.
Let path := filepath dir (file_id x) ".hint".
Let hino := k_next_ino (e_kernel e).
Hypothesis Hw : file_written (put_file path e) hino d e'.
Let f' := put_node p (set_file_has_hint true x) f.

Lemma hint_file_dir : k_dir (e_kernel e') = <[path := hino]> (k_dir (e_kernel e)).
Proof. by destruct (eg_ext _ _ Hw) as [-> _]. Qed.

Lemma hint_file_inodes : inodes e' = <[hino := d]> (inodes e).
Proof.
  rewrite (file_written_inodes _ _ _ _ Hw). unfold inodes. simpl. by rewrite insert_insert_eq.
Qed.

Lemma hint_file_data_ino id : data_ino (e', f') id = data_ino (e, f) id.
Proof.
  unfold data_ino. simpl. rewrite hint_file_dir, Hdir. simpl.
  rewrite lookup_insert_ne; [done|]. apply hint_path_not_data.
Qed.

Lemma data_ino_old id ino : data_ino (e, f) id = Some ino → ino < hino.
Proof.
  unfold data_ino. simpl. rewrite Hdir. simpl.
  intros H%(kw_inodes _ (do_kernel _ _ Hd)). apply H.
Qed.

Lemma hint_file_data_content id : data_content (e', f') id = data_content (e, f) id.
Proof.
  unfold data_content. rewrite hint_file_data_ino. destruct (data_ino (e, f) id) as [ino|] eqn:Hi; [|done].
  simpl. apply data_ino_old in Hi. by rewrite hint_file_inodes, lookup_insert_ne by lia.
Qed.

Lemma hint_file_log_of id : log_of (e', f') id = log_of (e, f) id.
Proof. unfold log_of. by rewrite hint_file_data_content. Qed.

Lemma hint_file_new : hint_content (e', f') (file_id x) = Some d.
Proof.
  unfold hint_content, hint_ino. simpl. rewrite Hdir. simpl. fold path.
  by rewrite hint_file_dir, lookup_insert_eq; simpl; rewrite hint_file_inodes, lookup_insert_eq.
Qed.

Lemma hint_file_ino id :
  hint_ino (e', f') id = if decide (filepath dir id ".hint" = path) then Some hino
                         else hint_ino (e, f) id.
Proof.
  unfold hint_ino. simpl. rewrite Hdir. simpl. rewrite hint_file_dir, lookup_insert.
  repeat case_decide; congruence.
Qed.

Lemma hint_file_old id c : hint_content (e, f) id = Some c → hint_content (e', f') id = Some c.
Proof.
  unfold hint_content. rewrite hint_file_ino. case_decide as Hid.
  { assert (hint_ino (e, f) id = None) as ->; [|done]. rewrite <-Hnone. unfold hint_ino. simpl.
    rewrite Hdir. simpl. by rewrite Hid. }
  destruct (hint_ino (e, f) id) as [j|] eqn:Hj; [|done]. simpl.
  unfold hint_ino in Hj. simpl in Hj. rewrite Hdir in Hj. simpl in Hj.
  apply (kw_inodes _ (do_kernel _ _ Hd)) in Hj as [? _].
  rewrite hint_file_inodes, lookup_insert_ne by (unfold hino; simpl in *; lia). done.
Qed.

Lemma hint_file_node q : node_id (fs_nodes f') q = node_id (fs_nodes f) q.
Proof. by apply (node_id_put f p x). Qed.

Lemma hint_file_disk : disk_ok (e', f') l.
Proof.
  assert (disk_ok (put_file path e, f) l) as H0.
  { apply (disk_ok_put_file e f l a dir); [done | | done]. intros q _. apply hint_path_not_data. }
  assert (dom (<[hino := d]> (inodes (put_file path e))) = dom (inodes (put_file path e))) as Hdom.
  { eapply dom_insert_inode. unfold inodes. simpl. apply lookup_insert_eq. }
  assert (disk_ok (e', f) l) as H1.
  { eapply disk_ok_grow; [exact Hw|]. eapply disk_ok_env; [| |exact H0].
    - split_and!; [done | done | | simpl; lia].
      change (dom (inodes (put_file path e)) ⊆ dom (<[hino := d]> (inodes (put_file path e)))).
      by rewrite Hdom.
    - apply put_inodes_wf; [exact Hdom|]. apply (do_kernel _ _ H0). }
  eapply disk_ok_put; [exact H1 | exact Hx | done | done | done | | done].
  apply (do_nodes _ _ H1 p x Hp Hx).
Qed.

Lemma hint_file_durable m :
  head l ≠ Some p → durable (e, f) l m → durable (e', f') l m.
Proof.
  intros Hh [H1 H2 H3 H4 H5 H6]. constructor; cbn [fst snd] in *.
  - rewrite <-H1. apply recovered_values_same. intros q _.
    by rewrite hint_file_node, hint_file_log_of.
  - intros q Hq. rewrite hint_file_node, hint_file_log_of. by apply H2.
  - erewrite list_fmap_ext; [exact H3|]. intros i q _. cbn [snd]. rewrite hint_file_node.
    apply hint_file_data_ino.
  - intros q c Hq. rewrite hint_file_node, hint_file_data_content. by apply H4.
  - intros q r Hq Hr. rewrite (hint_file_node q), (hint_file_node r),
      (hint_file_data_ino (node_id (fs_nodes f) r)), (hint_file_ino (node_id (fs_nodes f) q)).
    case_decide as Hid; [|by apply H5]. intros _ Heq. symmetry in Heq. apply data_ino_old in Heq.
    unfold hino in Heq. lia.
  - intros q y Hq. unfold f'. simpl. rewrite lookup_insert. case_decide; [congruence|]. by apply H6.
Qed.

Lemma hint_file_recoverable n :
  recoverable (e, f) l n → d = hint_bytes (hints_of 0 (log_of (e, f) (file_id x))) →
  Forall (λ r, lr_key r ≠ []) (log_of (e, f) (file_id x)) → recoverable (e', f') l n.
Proof.
  intros [H1 H2 H3] Hdd Hkeys. constructor; [done | |]; cbn [fst snd] in *.
  - intros q y Hq. unfold f'. simpl. rewrite lookup_insert, hint_file_data_content.
    case_decide as Hpq; [|by apply H2]. subst q. intros [= <-]. by apply (H2 p x).
  - intros q y Hq. unfold f'. simpl. rewrite lookup_insert, hint_file_log_of. case_decide as Hpq.
    + intros [= <-] _. exists d. split; [apply hint_file_new|]. cbn [set_file_has_hint file_id].
      destruct (H2 p x Hp Hx) as (c & Hc & Hlen). unfold log_of in *. rewrite Hc in *.
      destruct (records_of_split c) as (Hok & rest & Hsplit & _).
      pose proof (f_equal zlen Hsplit) as Hz. rewrite zlen_app in Hz. pose proof (zlen_nonneg rest).
      pose proof (hint_bytes_length 0 _ Hok). subst d. split; [zlen_lia|].
      apply hints_roundtrip; [done | done | lia | zlen_lia].
    + intros Hy Hh. destruct (H3 q y Hq Hy Hh) as (c & Hc & Hlen & Hrec). exists c.
      split; [by apply hint_file_old|]. done.
Qed.

Lemma hint_file_store kd rg th ru sd m :
  store_ok (World e f kd rg th ru sd) l m → store_ok (World e' f' kd rg th ru sd) l m.
Proof.
  intros Hok. pose proof (keydir_heap _ (st_keydir _ _ _ Hok)) as Hwf.
  eapply store_ok_same; [exact Hok | apply hint_file_disk | done | | | |]; simpl.
  - eapply env_grow_heap_wf; [exact Hw | exact Hwf].
  - intros b [blk Hb]. rewrite Hb. eapply lookup_weaken; [exact Hb | apply (eg_heap _ _ Hw)].
  - apply hint_file_node.
  - apply hint_file_data_content.
Qed.
End hint_file.
