(* ===== verification/Rotated.v ===== *)
(** * Rotated: a rotation keeps the map

    After [ccask_files_rotate] the files stand for the same map as before, and
    the new active file is empty. *)
From stdpp Require Import sorting.
From S2P Require Import Prelude Status Posix SafeIO Codec Records Ringbuf Uthash Keydir Log.
From S2P Require Import Filenames Files Disk DiskWrite World Hint Recovery HintGen Rotate.
From S2P Require Import Reader Writer Core Store Durable.
Open Scope Z_scope.

Section rotated.
Context {host : Host} {zlib : Zlib} (e e' : env) (f : files_state) (l : list Z) (p : Z)
  (x : ccask_file) (b : Z) (dir : string) (a fd t : Z).
Hypothesis Hd : disk_ok (e, f) (p :: l).
Hypothesis Hdir : fs_data_dir f = Some (b, dir).
Hypothesis Hx : fs_nodes f !! p = Some x.
Hypothesis Hid : is_u64 (file_id x + 1).
Hypothesis Hdnone : data_ino (e, f) (file_id x + 1) = None.
Hypothesis Hhnone : hint_ino (e, f) (file_id x + 1) = None.
Hypothesis Hdistinct : NoDup ((λ q, data_ino (e, f) (node_id (fs_nodes f) q)) <$> p :: l).
Hypothesis Ha : a ∉ p :: l.
Let path := filepath dir (file_id x + 1) ".data".
Let ino := k_next_ino (e_kernel e).
Let y := fresh_node (file_id x + 1) fd t.
Let f' := linked_newest a p (retired x) y f.
Hypothesis Hrep : files_rep f' (a :: p :: l).
Hypothesis Hfd0 : 0 ≤ fd.
Hypothesis Hg : env_grow (close_fd (file_fd x) (put_file path e)) e'.
Hypothesis Hfd : fd_opened e' fd ino true true.

Lemma rotated_dir : k_dir (e_kernel e') = <[path := ino]> (k_dir (e_kernel e)).
Proof. by destruct (eg_ext _ _ Hg) as [-> _]. Qed.
Lemma rotated_inodes : inodes e' = <[ino := []]> (inodes e).
Proof. by rewrite (eg_inodes _ _ Hg). Qed.

Lemma rotated_path_new : k_dir (e_kernel e) !! path = None.
Proof. exact (data_ino_none e f b dir _ Hdir Hdnone). Qed.

Lemma rotated_data_ino_new : data_ino (e', f') (file_id x + 1) = Some ino.
Proof.
  unfold data_ino. simpl. rewrite Hdir, rotated_dir. simpl. apply lookup_insert_eq.
Qed.

Lemma rotated_data_ino id j : data_ino (e, f) id = Some j → data_ino (e', f') id = Some j.
Proof.
  unfold data_ino. simpl. rewrite Hdir, rotated_dir. simpl. intros Hj.
  rewrite lookup_insert_ne; [done|]. intros Heq. rewrite <-Heq, rotated_path_new in Hj. done.
Qed.

Lemma rotated_data_content id c : data_content (e, f) id = Some c → data_content (e', f') id = Some c.
Proof.
  unfold data_content. destruct (data_ino (e, f) id) as [j|] eqn:Hj; [|done].
  rewrite (rotated_data_ino _ _ Hj). simpl. apply (data_ino_old e f _ b dir Hd Hdir) in Hj.
  fold ino in Hj. by rewrite rotated_inodes, lookup_insert_ne by lia.
Qed.

Lemma rotated_content_new : data_content (e', f') (file_id x + 1) = Some [].
Proof.
  unfold data_content. rewrite rotated_data_ino_new. simpl. rewrite rotated_inodes.
  apply lookup_insert_eq.
Qed.

Lemma rotated_hint_ino id : hint_ino (e', f') id = hint_ino (e, f) id.
Proof.
  unfold hint_ino. simpl. rewrite Hdir, rotated_dir. simpl. rewrite lookup_insert_ne; [done|].
  intros Heq. by eapply hint_path_not_data.
Qed.

Lemma hint_ino_old id j : hint_ino (e, f) id = Some j → j < ino.
Proof.
  unfold hint_ino. simpl. rewrite Hdir. simpl.
  intros H%(kw_inodes _ (do_kernel _ _ Hd)). apply H.
Qed.

Lemma rotated_hint_content id c : hint_content (e, f) id = Some c → hint_content (e', f') id = Some c.
Proof.
  unfold hint_content. rewrite rotated_hint_ino. destruct (hint_ino (e, f) id) as [j|] eqn:Hj; [|done].
  simpl. apply hint_ino_old in Hj. by rewrite rotated_inodes, lookup_insert_ne by lia.
Qed.

(** *** The nodes *)

Lemma rotated_a : a ≠ p ∧ a ∉ l.
Proof. by apply not_elem_of_cons in Ha. Qed.

Lemma rotated_node_active : fs_nodes f' !! a = Some (set_file_previous None (set_file_next (Some p) y)).
Proof. destruct rotated_a. simpl. by rewrite lookup_insert_ne, lookup_insert_eq. Qed.

Lemma rotated_node_old : fs_nodes f' !! p = Some (set_file_previous (Some a) (retired x)).
Proof. apply lookup_insert_eq. Qed.

Lemma rotated_node q : q ∈ l → fs_nodes f' !! q = fs_nodes f !! q.
Proof.
  intros Hq. destruct rotated_a as [_ Hal].
  pose proof (rep_nodup _ _ (do_rep _ _ Hd)) as [Hpl _]%NoDup_cons.
  simpl. by rewrite !lookup_insert_ne by (intros ->; done).
Qed.

Lemma rotated_node_id q : q ∈ p :: l → node_id (fs_nodes f') q = node_id (fs_nodes f) q.
Proof.
  unfold node_id. intros [->|Hq]%elem_of_cons; [by rewrite rotated_node_old, Hx|].
  by rewrite rotated_node.
Qed.

Lemma rotated_log_of q :
  q ∈ p :: l → log_of (e', f') (node_id (fs_nodes f') q) = log_of (e, f) (node_id (fs_nodes f) q).
Proof.
  intros Hq. rewrite rotated_node_id by done.
  destruct (rep_lookup _ _ _ (do_rep _ _ Hd) Hq) as [z Hz]. simpl in Hz.
  destruct (do_nodes _ _ Hd q z Hq Hz) as (_ & _ & j & Hj & _).
  unfold node_id. rewrite Hz. simpl. unfold log_of.
  destruct (data_content (e, f) (file_id z)) as [c|] eqn:Hc; [by rewrite (rotated_data_content _ _ Hc)|].
  unfold data_content in Hc. rewrite Hj in Hc. simpl in Hc.
  unfold data_ino in Hj. simpl in Hj. rewrite Hdir in Hj. simpl in Hj.
  apply (kw_inodes _ (do_kernel _ _ Hd)) in Hj as [_ [c' Hc']]. simpl in Hc'.
  unfold inodes in Hc. congruence.
Qed.

(** The descriptor that is closed belongs to no other node. *)
Lemma rotated_fd q z j app wr :
  q ∈ l → fs_nodes f !! q = Some z → data_ino (e, f) (file_id z) = Some j →
  fd_opened e (file_fd z) j app wr → fd_opened e' (file_fd z) j app wr.
Proof.
  intros Hq Hz Hj Hop. destruct (do_active _ _ Hd) as (p' & x' & [= <-] & Hx' & _ & _ & i & Hi & Hio).
  simpl in Hx'. assert (x' = x) as -> by congruence.
  assert (i ≠ j) as Hij.
  { rewrite fmap_cons in Hdistinct. apply NoDup_cons in Hdistinct as [Hnot _]. intros ->.
    apply Hnot, list_elem_of_fmap. exists q. split; [|done]. unfold node_id.
    rewrite Hx, Hz. simpl. congruence. }
  eapply fd_opened_ext; [apply (eg_ext _ _ Hg)|]. apply close_fd_opened; [|done].
  intros Heq. rewrite Heq in Hop. unfold fd_opened in *. simpl in Hio. congruence.
Qed.

Lemma rotated_disk_ok : disk_ok (e', f') (a :: p :: l).
Proof.
  pose proof Hd as [H1 H2 H3 H4 H5]. constructor; cbn [fst snd] in *; [exact Hrep | done | | |].
  - apply (eg_wf _ _ Hg), close_fd_wf, put_file_wf, H3.
  - intros q z [->|Hq]%elem_of_cons Hz.
    { rewrite rotated_node_active in Hz. injection Hz as <-. split_and!; [done | done |].
      exists ino. split; [apply rotated_data_ino_new|]. intros _. by exists true, true. }
    apply elem_of_cons in Hq as [->|Hq].
    { rewrite rotated_node_old in Hz. injection Hz as <-.
      destruct (H4 p x ltac:(by left) Hx) as (Hl & Hu & j & Hj & _). split_and!; [done | done |].
      exists j. split; [by apply rotated_data_ino|]. done. }
    rewrite rotated_node in Hz by done.
    destruct (H4 q z ltac:(by right) Hz) as (Hl & Hu & j & Hj & Hop). split_and!; [done | done |].
    exists j. split; [by apply rotated_data_ino|]. intros (app & wr & Ho)%Hop.
    exists app, wr. by eapply rotated_fd.
  - eexists a, _. split; [done|]. split; [apply rotated_node_active|].
    split_and!; [done | done |]. exists ino. split; [apply rotated_data_ino_new | exact Hfd].
Qed.

Lemma rotated_durable m : durable (e, f) (p :: l) m → durable (e', f') (a :: p :: l) m.
Proof.
  intros [H1 H2 H3 H4 H5 H6]. cbn [fst snd] in *.
  assert (node_id (fs_nodes f') a = file_id x + 1) as Hida.
  { unfold node_id. by rewrite rotated_node_active. }
  assert (log_of (e', f') (file_id x + 1) = []) as Hloga.
  { unfold log_of. by rewrite rotated_content_new. }
  assert (∀ q, q ∈ p :: l → ∃ j, data_ino (e, f) (node_id (fs_nodes f) q) = Some j ∧
    data_ino (e', f') (node_id (fs_nodes f') q) = Some j) as Hino.
  { intros q Hq. destruct (rep_lookup _ _ _ (do_rep _ _ Hd) Hq) as [z Hz]. simpl in Hz.
    destruct (do_nodes _ _ Hd q z Hq Hz) as (_ & _ & j & Hj & _). exists j.
    rewrite rotated_node_id by done. unfold node_id. rewrite Hz. simpl.
    split; [done | by apply rotated_data_ino]. }
  constructor; cbn [fst snd].
  - rewrite recovered_values_cons, Hida, Hloga. rewrite <-H1. unfold log_values. cbn [foldl].
    apply recovered_values_same. intros q Hq. by apply rotated_log_of.
  - intros q [->|Hq]%elem_of_cons; [by rewrite Hida, Hloga|].
    rewrite rotated_log_of by done. by apply H2.
  - rewrite fmap_cons, Hida, rotated_data_ino_new. apply NoDup_cons. split.
    + intros (q & Heq & Hq)%list_elem_of_fmap. destruct (Hino q Hq) as (j & Hj & Hj').
      rewrite Hj' in Heq. apply (data_ino_old e f _ b dir Hd Hdir) in Hj. fold ino in Hj.
      injection Heq. lia.
    + erewrite list_fmap_ext; [exact H3|]. intros i q Hq%list_elem_of_lookup_2.
      by destruct (Hino q Hq) as (j & -> & ->).
  - intros q c [= <-]. rewrite Hida, rotated_content_new. by intros [= <-].
  - intros q r Hq Hr. destruct (decide (q = a)) as [->|Hqa].
    { rewrite Hida, rotated_hint_ino, Hhnone. by intros []. }
    apply elem_of_cons in Hq as [Hqa'|Hq]; [by destruct (Hqa Hqa')|].
    rewrite (rotated_node_id q Hq), (rotated_hint_ino (node_id (fs_nodes f) q)). intros Hs.
    apply elem_of_cons in Hr as [->|Hr].
    + rewrite Hida, rotated_data_ino_new. intros Hj%hint_ino_old. lia.
    + destruct (Hino r Hr) as (j & Hj & Hj'). rewrite Hj', <-Hj. by apply H5.
  - intros q z [= <-] Hz. rewrite rotated_node_active in Hz. by injection Hz as <-.
Qed.

Lemma rotated_recoverable n : recoverable (e, f) (p :: l) n → recoverable (e', f') (a :: p :: l) n.
Proof.
  intros [H1 H2 H3]. constructor; [done | |]; cbn [fst snd] in *.
  - intros q z [->|Hq]%elem_of_cons Hz.
    { rewrite rotated_node_active in Hz. injection Hz as <-. exists []. split; [|simpl; lia].
      apply rotated_content_new. }
    assert (∃ z0, fs_nodes f !! q = Some z0 ∧ file_id z = file_id z0) as (z0 & Hz0 & ->).
    { apply elem_of_cons in Hq as [->|Hq].
      - rewrite rotated_node_old in Hz. injection Hz as <-. by exists x.
      - rewrite rotated_node in Hz by done. by exists z. }
    destruct (H2 q z0 Hq Hz0) as (c & Hc & Hlen). exists c. split; [by apply rotated_data_content|done].
  - intros q z [->|Hq]%elem_of_cons Hz Hh.
    { rewrite rotated_node_active in Hz. by injection Hz as <-. }
    assert (∃ z0, fs_nodes f !! q = Some z0 ∧ file_id z = file_id z0 ∧ file_has_hint z0 = true)
      as (z0 & Hz0 & Hid0 & Hh0).
    { apply elem_of_cons in Hq as [->|Hq].
      - rewrite rotated_node_old in Hz. injection Hz as <-. by exists x.
      - rewrite rotated_node in Hz by done. by exists z. }
    destruct (H3 q z0 Hq Hz0 Hh0) as (c & Hc & Hlen & Hrec). exists c. rewrite Hid0.
    split; [by apply rotated_hint_content|]. split; [done|]. rewrite Hrec. f_equal.
    pose proof (rotated_log_of q Hq) as Hlog. rewrite rotated_node_id in Hlog by done.
    unfold node_id in Hlog. rewrite Hz0 in Hlog. by symmetry.
Qed.

Lemma rotated_store kd rg th ru sd rg' th' ru' m :
  store_ok (World e f kd rg th ru sd) (p :: l) m →
  store_ok (World e' f' kd rg' th' ru' sd) (a :: p :: l) m.
Proof.
  intros [_ Hk Hm]. simpl in Hk, Hm. pose proof (keydir_heap _ Hk) as Hwf. simpl in Hwf.
  constructor; simpl; [apply rotated_disk_ok | |].
  - eapply keydir_ok_frame; [exact Hk | |].
    + eapply env_grow_heap_wf; [exact Hg | exact Hwf].
    + intros c [blk Hb]. rewrite Hb. eapply lookup_weaken; [exact Hb | apply (eg_heap _ _ Hg)].
  - intros k. specialize (Hm k). destruct (keydir_map kd !! k) as [i|]; [|done].
    destruct Hm as (v & Hv & He). exists v. split; [done|].
    eapply (entry_ok_mono (e, f)); [| |exact He].
    + intros q Hq. split; [by right | by apply rotated_node_id].
    + apply rotated_data_content.
Qed.
End rotated.
