(* ===== verification/Tidy.v ===== *)
(** * Tidy: the names in the data directory

    The directory of a store has the data files and hint files of the nodes of
    its list, and no others; the compactor also needs that no temporary file
    is left.  The calls of a store keep both. *)
From stdpp Require Import sorting.
From S2P Require Import Prelude Status Posix Filenames Files Disk DiskWrite World.
Open Scope Z_scope.

Definition file_ino (e : env) (dir ext : string) (id : Z) : option Z :=
  k_dir (e_kernel e) !! filepath dir id ext.

(** ** Names with different extensions *)

Lemma filepath_ext_ne dir dir' id id' s s' :
  s ≠ EmptyString → s' ≠ EmptyString → last_char s ≠ last_char s' →
  filepath dir id s ≠ filepath dir' id' s'.
Proof. intros Hs Hs' Hl H%(f_equal last_char). by rewrite !filepath_last in H. Qed.

Lemma temp_not_data dir dir' id id' : filepath dir id ".data.tmp" ≠ filepath dir' id' ".data".
Proof. by apply filepath_ext_ne. Qed.
Lemma temp_not_hint dir dir' id id' : filepath dir id ".data.tmp" ≠ filepath dir' id' ".hint".
Proof. by apply filepath_ext_ne. Qed.

(** ** A directory with the files [ids] *)

Record tidy (e : env) (dir : string) (ids : list Z) : Prop := {
  td_data : ∀ id, is_u64 id → is_Some (file_ino e dir ".data" id) → id ∈ ids;
  td_hint : ∀ id, is_u64 id → is_Some (file_ino e dir ".hint" id) → id ∈ ids;
}.

Definition no_temps (e : env) (dir : string) : Prop :=
  ∀ id, is_u64 id → file_ino e dir ".data.tmp" id = None.

Lemma tidy_same e e' dir ids ids' :
  k_dir (e_kernel e') = k_dir (e_kernel e) → ids ⊆ ids' → tidy e dir ids → tidy e' dir ids'.
Proof.
  unfold file_ino. intros Hd Hids [T1 T2].
  constructor; intros id Hu; unfold file_ino; rewrite Hd; intros Hi; apply Hids;
    [by apply T1 | by apply T2].
Qed.

(** A new file, in the list [ids'] with the others. *)
Lemma tidy_put e e' dir ids ids' ext id ino :
  ext = ".data"%string ∨ ext = ".hint"%string → is_u64 id →
  k_dir (e_kernel e') = <[filepath dir id ext := ino]> (k_dir (e_kernel e)) →
  ids ⊆ ids' → id ∈ ids' → tidy e dir ids → tidy e' dir ids'.
Proof.
  intros Hext Hu Hd Hids Hid [T1 T2].
  constructor; intros id' Hu'; unfold file_ino; rewrite Hd, lookup_insert.
  - case_decide as Heq; [|intros Hi; by apply Hids, T1]. intros _. destruct Hext as [->| ->].
    + by apply filepath_inj in Heq as <-.
    + by apply hint_path_not_data in Heq.
  - case_decide as Heq; [|intros Hi; by apply Hids, T2]. intros _. destruct Hext as [->| ->].
    + symmetry in Heq. by apply hint_path_not_data in Heq.
    + by apply filepath_inj in Heq as <-.
Qed.

Lemma no_temps_put e e' dir dir' ext id ino :
  ext = ".data"%string ∨ ext = ".hint"%string →
  k_dir (e_kernel e') = <[filepath dir id ext := ino]> (k_dir (e_kernel e)) →
  no_temps e dir' → no_temps e' dir'.
Proof.
  intros Hext Hd Hn id' Hu. unfold file_ino. rewrite Hd, lookup_insert_ne; [by apply Hn|].
  intros Heq. symmetry in Heq.
  destruct Hext as [->| ->]; [by apply temp_not_data in Heq | by apply temp_not_hint in Heq].
Qed.

(** Every name is that of a file. *)
Definition linked (e : env) : Prop :=
  ∀ path ino, k_dir (e_kernel e) !! path = Some ino → is_Some (inodes e !! ino).

Lemma kernel_wf_linked e : kernel_wf (e_kernel e) → linked e.
Proof. intros Hk path ino Hp. by apply (kw_inodes _ Hk path). Qed.

Lemma linked_same e e' :
  k_dir (e_kernel e') = k_dir (e_kernel e) → inodes e' = inodes e → linked e → linked e'.
Proof. intros Hd Hi Hl path ino. rewrite Hd, Hi. apply Hl. Qed.

(** ** The directory of a store *)

Definition file_ids (w : world) : list Z := node_id (fs_nodes (w_files w)) <$> fs_table (w_files w).

Definition tidy_world (w : world) : Prop :=
  ∀ a dir, fs_data_dir (w_files w) = Some (a, dir) → tidy (w_env w) dir (file_ids w).

(** What a call does to the names and to the data files: no file is forgotten,
    and the files only grow. *)
Record names_kept (w w' : world) : Prop := {
  nk_tidy : tidy_world w → tidy_world w';
  nk_temps : ∀ dir, no_temps (w_env w) dir → no_temps (w_env w') dir;
  nk_ids : file_ids w ⊆ file_ids w';
  nk_data : ∀ id c, data_content (w_env w, w_files w) id = Some c →
    ∃ d, data_content (w_env w', w_files w') id = Some (c ++ d);
}.

Lemma data_same s s' :
  (∀ id c, data_content s id = Some c → data_content s' id = Some c) →
  ∀ id c, data_content s id = Some c → ∃ d, data_content s' id = Some (c ++ d).
Proof. intros Hs id c Hc. exists []. rewrite app_nil_r. by apply Hs. Qed.

Lemma names_kept_files w w' :
  w_env w' = w_env w → w_files w' = w_files w → names_kept w w'.
Proof.
  intros He Hf. constructor; unfold tidy_world, file_ids; rewrite ?He, ?Hf; [done..|].
  by apply data_same.
Qed.

Lemma names_kept_trans w1 w2 w3 : names_kept w1 w2 → names_kept w2 w3 → names_kept w1 w3.
Proof.
  intros [T1 N1 I1 D1] [T2 N2 I2 D2]. constructor; [auto | auto | by etrans |].
  intros id c (d & Hd)%D1. destruct (D2 _ _ Hd) as [d' Hd']. exists (d ++ d'). by rewrite app_assoc.
Qed.

Lemma names_kept_same w w' :
  k_dir (e_kernel (w_env w')) = k_dir (e_kernel (w_env w)) →
  fs_data_dir (w_files w') = fs_data_dir (w_files w) → file_ids w ⊆ file_ids w' →
  (∀ id c, data_content (w_env w, w_files w) id = Some c →
    ∃ d, data_content (w_env w', w_files w') id = Some (c ++ d)) →
  names_kept w w'.
Proof.
  intros Hk Hd Hids Hdata. constructor; [| | done | done].
  - intros Ht a dir. rewrite Hd. intros Hdir. exact (tidy_same _ _ _ _ _ Hk Hids (Ht a dir Hdir)).
  - intros dir Hn id Hu. unfold file_ino. rewrite Hk. by apply Hn.
Qed.

Lemma names_kept_put w w' a dir ext id ino :
  fs_data_dir (w_files w) = Some (a, dir) → fs_data_dir (w_files w') = fs_data_dir (w_files w) →
  ext = ".data"%string ∨ ext = ".hint"%string → is_u64 id →
  k_dir (e_kernel (w_env w')) = <[filepath dir id ext := ino]> (k_dir (e_kernel (w_env w))) →
  file_ids w ⊆ file_ids w' → id ∈ file_ids w' →
  (∀ id c, data_content (w_env w, w_files w) id = Some c →
    data_content (w_env w', w_files w') id = Some c) →
  names_kept w w'.
Proof.
  intros Hdir Hd Hext Hu Hk Hids Hid Hdata. constructor; [| | done | by apply data_same].
  - intros Ht a' dir'. rewrite Hd, Hdir. intros [= <- <-].
    exact (tidy_put _ _ _ _ _ _ _ _ Hext Hu Hk Hids Hid (Ht a dir Hdir)).
  - intros dir' Hn. exact (no_temps_put _ _ _ _ _ _ _ Hext Hk Hn).
Qed.

(** The disk did not change. *)
Lemma names_kept_env e e' f kd kd' rg rg' th th' ru ru' sd sd' :
  k_dir (e_kernel e') = k_dir (e_kernel e) → inodes e' = inodes e →
  names_kept (World e f kd rg th ru sd) (World e' f kd' rg' th' ru' sd').
Proof.
  intros Hk Hi. apply names_kept_same; [done..|]. apply data_same. intros id c.
  unfold data_content, data_ino. cbn [w_env w_files fst snd]. by rewrite Hk, Hi.
Qed.
