(* ===== verification/Run.v ===== *)
(** * Run: a running store

    The invariant of a store between two calls, with its hint threads and its
    files, and what a write does to it, whether the active file has room for
    the record or is rotated first. *)
From stdpp Require Import sorting.
From S2P Require Import Prelude Status Posix SafeIO Codec Records Ringbuf Uthash Keydir Log.
From S2P Require Import Filenames Files Disk DiskWrite World Hint Recovery HintGen Rotate.
From S2P Require Import Reader Writer Core Store Durable Rotated Tidy.
Open Scope Z_scope.

(** The identifier of the active file. *)
Definition active_id (w : world) : Z :=
  match fs_head (w_files w) with Some p => node_id (fs_nodes (w_files w)) p | None => 0 end.

Definition disk (w : world) : fstate := (w_env w, w_files w).

Section run.
Context {host : Host} {zlib : Zlib}.

(** The store [w] represents [m] with the files [l], of at most [n] bytes
    each; its threads are about to write the hints of files that are not
    active and have none. *)
Record running (w : world) (l : list Z) (m : gmap bytes bytes) (n : nat) : Prop := {
  rn_store : store_ok w l m;
  rn_durable : durable (disk w) l m;
  rn_recoverable : recoverable (disk w) l n;
  rn_calm : calm (w_env w);
  rn_live : ∀ p, p ∈ l → p < e_brk (w_env w);
  rn_fresh : ∀ id, active_id w < id → is_u64 id → data_ino (disk w) id = None;
  rn_unhinted : ∀ id, active_id w ≤ id → is_u64 id → hint_ino (disk w) id = None;
  rn_keys : ∀ p, p ∈ l → Forall (λ r, lr_key r ≠ []) (log_of (disk w) (node_id (fs_nodes (w_files w)) p));
  rn_threads : ∀ h p, THint h p ∈ w_running w →
    p ∈ l ∧ head l ≠ Some p ∧ hint_ino (disk w) (node_id (fs_nodes (w_files w)) p) = None;
  rn_once : ∀ h h' p, THint h p ∈ w_running w → THint h' p ∈ w_running w → h = h';
  rn_closing : ∀ p, TInvalidator p ∈ w_running w → p ∈ l;
  rn_hinted : ∀ p x, p ∈ l → fs_nodes (w_files w) !! p = Some x →
    is_Some (hint_ino (disk w) (file_id x)) → file_has_hint x = true;
}.

(** *** Quiet calls *)

Section quiet.
Context (w w' : world) (Hq : quiet w w').

Lemma quiet_data_ino id : data_ino (disk w') id = data_ino (disk w) id.
Proof. unfold data_ino, disk. simpl. by rewrite (q_data_dir _ _ Hq), (q_dir _ _ Hq). Qed.
Lemma quiet_hint_ino id : hint_ino (disk w') id = hint_ino (disk w) id.
Proof. unfold hint_ino, disk. simpl. by rewrite (q_data_dir _ _ Hq), (q_dir _ _ Hq). Qed.
Lemma quiet_data_content id : data_content (disk w') id = data_content (disk w) id.
Proof. unfold data_content. rewrite quiet_data_ino. unfold disk. simpl. by rewrite (q_inodes _ _ Hq). Qed.
Lemma quiet_hint_content id : hint_content (disk w') id = hint_content (disk w) id.
Proof. unfold hint_content. rewrite quiet_hint_ino. unfold disk. simpl. by rewrite (q_inodes _ _ Hq). Qed.
Lemma quiet_log_of id : log_of (disk w') id = log_of (disk w) id.
Proof. unfold log_of. by rewrite quiet_data_content. Qed.

Lemma quiet_durable l m : durable (disk w) l m → durable (disk w') l m.
Proof.
  intros [H1 H2 H3 H4 H5 H6]. constructor.
  - rewrite <-H1. apply recovered_values_same. intros p _. rewrite (q_ids _ _ Hq). apply quiet_log_of.
  - intros p Hp. unfold disk at 2. cbn [snd]. rewrite (q_ids _ _ Hq), quiet_log_of. by apply H2.
  - erewrite list_fmap_ext; [exact H3|]. intros i p _. unfold disk at 2. cbn [snd].
    rewrite (q_ids _ _ Hq). apply quiet_data_ino.
  - intros p c Hp. unfold disk at 2. cbn [snd]. rewrite (q_ids _ _ Hq), quiet_data_content. by apply H4.
  - intros p q Hp Hq'. unfold disk at 2 4 6. cbn [snd].
    rewrite (q_ids _ _ Hq p), (q_ids _ _ Hq q), (quiet_hint_ino (node_id (fs_nodes (w_files w)) p)),
      (quiet_data_ino (node_id (fs_nodes (w_files w)) q)). by apply H5.
  - intros p x Hp Hx. destruct (q_nodes _ _ Hq p x Hx) as (y & Hy & _ & ->). by apply (H6 p).
Qed.

Lemma quiet_recoverable l n : recoverable (disk w) l n → recoverable (disk w') l n.
Proof.
  intros [H1 H2 H3]. constructor; [done | |].
  - intros p x Hp Hx. destruct (q_nodes _ _ Hq p x Hx) as (y & Hy & -> & _).
    rewrite quiet_data_content. by apply (H2 p).
  - intros p x Hp Hx. destruct (q_nodes _ _ Hq p x Hx) as (y & Hy & -> & ->).
    rewrite quiet_hint_content, quiet_log_of. by apply (H3 p).
Qed.
End quiet.

Lemma store_head w l m :
  store_ok w l m → ∃ p l', l = p :: l' ∧ fs_head (w_files w) = Some p ∧
    active_id w = node_id (fs_nodes (w_files w)) p.
Proof.
  intros Hok. pose proof (do_active _ _ (st_disk _ _ _ Hok)) as (p & x & Hp & _).
  pose proof (rep_head _ _ (do_rep _ _ (st_disk _ _ _ Hok))) as Hh. simpl in Hh.
  destruct l as [|q l']; [done|]. injection Hp as ->. exists p, l'. split; [done|].
  split; [done|]. unfold active_id. by rewrite Hh.
Qed.

Lemma store_top w l m :
  store_ok w l m → default 0 (head (node_id (fs_nodes (w_files w)) <$> l)) = active_id w.
Proof. by intros (p & l' & -> & _ & ->)%store_head. Qed.

Lemma running_quiet w w' l m n :
  running w l m n → quiet w w' → store_ok w' l m → calm (w_env w') → running w' l m n.
Proof.
  intros Hr Hq Hok Hc. pose proof Hr as [H1 H2 H3 H4 H5 H6 H6' H7 H8 H9 H9' Hhint].
  assert (active_id w' = active_id w) as Hid.
  { destruct (store_head _ _ _ H1) as (p & l' & Hl & _ & ->).
    destruct (store_head _ _ _ Hok) as (p' & l'' & Hl' & _ & ->).
    rewrite Hl in Hl'. injection Hl' as <- <-. apply (q_ids _ _ Hq). }
  constructor; [done | by eapply quiet_durable | by eapply quiet_recoverable | done | | | | | | | |].
  - intros p Hp. pose proof (q_brk _ _ Hq). specialize (H5 p Hp). lia.
  - intros id Hlt Hu. rewrite Hid in Hlt.
    rewrite (quiet_data_ino w w' Hq id). by apply H6.
  - intros id Hlt Hu. rewrite Hid in Hlt. rewrite (quiet_hint_ino w w' Hq id). by apply H6'.
  - intros p Hp. rewrite (q_ids _ _ Hq), (quiet_log_of w w' Hq). by apply H7.
  - intros h p Hin%(q_running _ _ Hq). rewrite (q_ids _ _ Hq), (quiet_hint_ino w w' Hq).
    by apply (H8 h).
  - intros h h' p Hi%(q_running _ _ Hq) Hi'%(q_running _ _ Hq). by eapply H9.
  - intros p [Hp|Hp]%(q_closing _ _ Hq); [by apply H9'|].
    by rewrite (rep_table _ _ (do_rep _ _ (st_disk _ _ _ H1))) in Hp.
  - intros p x Hp Hx. destruct (q_nodes _ _ Hq p x Hx) as (y & Hy & -> & ->).
    rewrite (quiet_hint_ino w w' Hq). by apply (Hhint p).
Qed.

Lemma quiet_grow e e' f kd rg th ru sd :
  env_grow e e' → quiet (World e f kd rg th ru sd) (World e' f kd rg th ru sd).
Proof.
  intros Hg. constructor; simpl; try done; try apply Hg; eauto.
Qed.

Lemma running_grow e e' f kd rg th ru sd l m n :
  env_grow e e' → running (World e f kd rg th ru sd) l m n →
  running (World e' f kd rg th ru sd) l m n.
Proof.
  intros Hg Hr. eapply running_quiet; [exact Hr | by apply quiet_grow | |].
  - eapply store_ok_grow; [exact Hg | apply Hr].
  - eapply env_grow_calm; [exact Hg | apply Hr].
Qed.

(** The ring is not a part of it. *)
Lemma running_ring e f kd rg rg' th ru sd l m n :
  running (World e f kd rg th ru sd) l m n → running (World e f kd rg' th ru sd) l m n.
Proof. intros [[] ? ? ? ? ? ? ? ? ? ? ?]. by constructor. Qed.

(** *** Writing a record *)

(** A record in memory, in three blocks that are none of [others]. *)
Record record_at (e : env) (others : list Z) (b : Z) (h : ccask_datafile_record_header)
    (k v : bytes) : Prop := {
  ra_header : e_heap e !! b = Some (datafile_header_bytes h);
  ra_key : e_heap e !! (b + 1) = Some k;
  ra_value : e_heap e !! (b + 2) = Some v;
  ra_apart : ∀ c, c ∈ others → ¬ (b ≤ c < b + 3);
  ra_brk : b + 3 ≤ e_brk e;
  ra_ok : datafile_record_ok h k v;
  ra_crc : df_crc h = record_crc (df_timestamp h) k v;
  ra_nonempty : k ≠ [] ∧ v ≠ [];
}.

Definition record_size (k v : bytes) : Z := 16 + zlen k + zlen v.

Lemma record_size_pos k v : 16 ≤ record_size k v.
Proof. unfold record_size. pose proof (zlen_nonneg k). pose proof (zlen_nonneg v). lia. Qed.

Lemma zlen_record e others b h k v :
  record_at e others b h k v → zlen (datafile_record_bytes h k v) = record_size k v.
Proof.
  intros Hra. pose proof (ra_ok _ _ _ _ _ _ Hra) as Hrec. rewrite (zlen_datafile_record _ _ _ Hrec).
  destruct Hrec as (_ & <- & <-). done.
Qed.

(** The log after a record was appended. *)
Lemma active_appended_log w w' l m h k v n q :
  store_ok w l m → active_appended w w' (datafile_record_bytes h k v) → w_files w' = w_files w →
  durable (disk w) l m → recoverable (disk w) l n → datafile_record_ok h k v → v ≠ [] → q ∈ l →
  log_of (disk w') (node_id (fs_nodes (w_files w')) q) =
  log_of (disk w) (node_id (fs_nodes (w_files w)) q) ++
    if decide (fs_head (w_files w) = Some q) then [LogRecord h k v] else [].
Proof.
  intros Hok (p & x & ino & old & Hp & Hx & Hdi & Hino & Hin & Hdir) Hf Hdu Hrc Hrec Hv Hq.
  unfold disk. rewrite Hf.
  rewrite (append_log (w_env w) (w_env w') (w_files w) l m p x ino old h k v n);
    try done; [|apply Hok].
  f_equal. rewrite Hp. do 2 case_decide; done || congruence.
Qed.

Lemma running_appended w w' l m h k v n :
  running w l m n → store_ok w' l (<[k := v]> m) → calm (w_env w') →
  active_appended w w' (datafile_record_bytes h k v) → w_files w' = w_files w →
  w_running w' = w_running w →
  e_brk (w_env w) ≤ e_brk (w_env w') →
  datafile_record_ok h k v → df_crc h = record_crc (df_timestamp h) k v → k ≠ [] → v ≠ [] →
  2 * (Z.of_nat n + zlen (datafile_record_bytes h k v)) < 2 ^ 32 →
  running w' l (<[k := v]> m) (n + length (datafile_record_bytes h k v)).
Proof.
  intros Hr Hok' Hc Happ Hf Hru Hb Hrec Hcrc Hk Hv Hsm.
  pose proof Hr as [H1 H2 H3 H4 H5 H6 H6' H7 H8 H9 H9' Hhint].
  destruct (active_appended_durable w w' l m h k v n H1 Happ Hf H2 H3 Hrec Hcrc Hv Hsm) as [Hdu Hrc].
  assert (k_dir (e_kernel (w_env w')) = k_dir (e_kernel (w_env w))) as Hdir
    by by destruct Happ as (? & ? & ? & ? & ? & ? & ? & ? & ? & ->).
  assert (∀ id, data_ino (disk w') id = data_ino (disk w) id) as Hdi.
  { intros id. unfold data_ino, disk. simpl. by rewrite Hf, Hdir. }
  assert (∀ id, hint_ino (disk w') id = hint_ino (disk w) id) as Hhi.
  { intros id. unfold hint_ino, disk. simpl. by rewrite Hf, Hdir. }
  constructor; [exact Hok' | exact Hdu | exact Hrc | exact Hc | | | | | | | |].
  - intros p Hp. specialize (H5 p Hp). lia.
  - intros id. unfold active_id. rewrite Hf, (Hdi id). apply H6.
  - intros id. unfold active_id. rewrite Hf, (Hhi id). apply H6'.
  - intros p Hp. rewrite (active_appended_log w w' l m h k v n p H1 Happ Hf H2 H3 Hrec Hv Hp).
    apply Forall_app. split; [exact (H7 p Hp)|].
    case_decide; [|apply Forall_nil_2]. by apply Forall_singleton.
  - intros h' p. rewrite Hru, Hf. rewrite (Hhi (node_id (fs_nodes (w_files w)) p)). apply H8.
  - rewrite Hru. exact H9.
  - rewrite Hru. exact H9'.
  - intros p x. rewrite Hf. rewrite (Hhi (file_id x)). apply Hhint.
Qed.

(** The blocks the statics hold: the name of the directory, the nodes of the
    files, and the ring; and the handles of the threads. *)
Definition owned (w : world) : list Z :=
  option_list (fst <$> fs_data_dir (w_files w)) ++ fs_table (w_files w) ++
  match w_ring w with Some r => [rb_buf_at r; rb_self_at r] | None => [] end.
Definition handles (w : world) : list Z := th_at <$> w_threads w.

(** The list of threads has hint threads only. *)
Definition hint_threads (w : world) : Prop :=
  Forall (λ h, ∃ p, th_thread h = THint (th_at h) p) (w_threads w).

(** Blocks that [w'] has and [w] had not. *)
Record new_in (P : Z → Prop) (w w' : world) (bs : list Z) : Prop := {
  ni_nodup : NoDup bs;
  ni_new : ∀ c, c ∈ bs → e_brk (w_env w) ≤ c < e_brk (w_env w');
  ni_apart : ∀ c, c ∈ bs → ¬ P c ∧ c ∉ kd_blocks (hash_table (w_keydir w'));
  ni_live : ∀ c, c ∈ bs → is_Some (e_heap (w_env w') !! c);
}.

(** What a call leaves alone: the blocks outside [P] that were allocated, the
    ring, and the bound on the files; what it comes to own is new. *)
Record kept (P : Z → Prop) (w w' : world) : Prop := {
  kp_heap : ∀ c blk, ¬ P c → e_heap (w_env w) !! c = Some blk → e_heap (w_env w') !! c = Some blk;
  kp_brk : e_brk (w_env w) ≤ e_brk (w_env w');
  kp_kd : ∀ c, c ∈ kd_blocks (hash_table (w_keydir w')) →
    c ∈ kd_blocks (hash_table (w_keydir w)) ∨ e_brk (w_env w) ≤ c;
  kp_events : events (w_env w') `suffix_of` events (w_env w);
  kp_ring : w_ring w' = w_ring w;
  kp_max : fs_max_active (w_files w') = fs_max_active (w_files w);
  kp_down : w_shutting_down w' = w_shutting_down w;
  kp_dir : fs_data_dir (w_files w') = fs_data_dir (w_files w);
  kp_hints : hint_threads w → hint_threads w';
  kp_writer : TWriter ∈ w_running w → TWriter ∈ w_running w';
  kp_names : names_kept w w';
  kp_owned : ∃ ns hs, owned w' ≡ₚ ns ++ owned w ∧ handles w' = hs ++ handles w ∧
    new_in P w w' (ns ++ hs);
}.

Lemma kp_owned_same P w w' :
  owned w' = owned w → handles w' = handles w →
  ∃ ns hs, owned w' ≡ₚ ns ++ owned w ∧ handles w' = hs ++ handles w ∧ new_in P w w' (ns ++ hs).
Proof.
  intros -> ->. exists [], []. split; [done|]. split; [done|].
  constructor; [apply NoDup_nil_2|..]; by intros c ?%elem_of_nil.
Qed.

Lemma new_in_trans P w1 w2 w3 bs1 bs2 :
  new_in P w1 w2 bs1 → new_in P w2 w3 bs2 → e_brk (w_env w1) ≤ e_brk (w_env w2) →
  e_brk (w_env w2) ≤ e_brk (w_env w3) →
  (∀ c blk, ¬ P c → e_heap (w_env w2) !! c = Some blk → e_heap (w_env w3) !! c = Some blk) →
  (∀ c, c ∈ kd_blocks (hash_table (w_keydir w3)) →
    c ∈ kd_blocks (hash_table (w_keydir w2)) ∨ e_brk (w_env w2) ≤ c) →
  new_in P w1 w3 (bs2 ++ bs1).
Proof.
  intros [N1 B1 A1 L1] [N2 B2 A2 L2] Hb12 Hb23 Hheap Hkd. constructor.
  - apply NoDup_app. split; [done|]. split; [|done]. intros c Hc2%B2 Hc1%B1. lia.
  - intros c [Hc%B2|Hc%B1]%elem_of_app; lia.
  - intros c [Hc|Hc]%elem_of_app; [by apply A2|]. split; [by apply A1|].
    apply B1 in Hc as Hb. apply A1 in Hc as [_ Hc]. intros [?|?]%Hkd; [done | lia].
  - intros c [Hc|Hc]%elem_of_app; [by apply L2|]. destruct (L1 c Hc) as [blk Hblk].
    exists blk. apply Hheap; [by apply A1 | done].
Qed.

Lemma kept_trans P w1 w2 w3 : kept P w1 w2 → kept P w2 w3 → kept P w1 w3.
Proof.
  intros [H1 H2 H3 H4 H5 H6 H6' D1 U1 H7 N1 (n1 & h1 & O1 & T1 & F1)]
    [K1 K2 K3 K4 K5 K6 K6' D2 U2 K7 N2 (n2 & h2 & O2 & T2 & F2)].
  constructor; [auto | lia | | by etrans | congruence | congruence | congruence | congruence | auto | auto
    | exact (names_kept_trans _ _ _ N1 N2) |].
  { intros c [Hc|Hc]%K3; [by apply H3 | right; lia]. }
  exists (n2 ++ n1), (h2 ++ h1). split; [by rewrite O2, O1, app_assoc|].
  split; [by rewrite T2, T1, app_assoc|].
  pose proof (new_in_trans P w1 w2 w3 _ _ F1 F2 H2 K2 K1 K3) as [N B A L].
  assert ((n2 ++ n1) ++ h2 ++ h1 ≡ₚ (n2 ++ h2) ++ n1 ++ h1) as Hp by solve_Permutation.
  constructor; [by rewrite Hp|..]; intros c; rewrite Hp; auto.
Qed.

(** The blocks that are newer than the world do not count. *)
Lemma kept_new P w w' :
  heap_wf (w_env w) → (∀ c, P c → e_brk (w_env w) ≤ c) → kept P w w' → kept (λ _, False) w w'.
Proof.
  intros Hwf HP [H1 H2 H3 H4 H5 H6 H6' D U H7 Nm (n & h & O & T & [N B A L])]. constructor; try done.
  - intros c blk _ Hc. apply H1; [|done].
    intros Hlt%HP. pose proof (Hwf c ltac:(eauto)). lia.
  - exists n, h. split; [done|]. split; [done|]. constructor; try done.
    intros c Hc. split; [by intros []|]. by apply A.
Qed.

Lemma kept_weaken P w w' :
  kept (λ _, False) w w' → (∀ c, P c → c < e_brk (w_env w)) → kept P w w'.
Proof.
  intros [H1 H2 H3 H4 H5 H6 H6' D U H7 Nm (n & h & O & T & [N B A L])] HP. constructor; try done.
  - intros c blk _. apply H1. auto.
  - exists n, h. split; [done|]. split; [done|]. constructor; try done.
    intros c Hc. split; [|by apply A]. intros Hlt%HP. apply B in Hc. lia.
Qed.

Lemma kept_grow P e e' f kd rg th ru sd :
  env_grow e e' → kept P (World e f kd rg th ru sd) (World e' f kd rg th ru sd).
Proof.
  intros Hg. constructor; simpl; try done; try apply Hg; [|by left| |by apply kp_owned_same].
  - intros c blk _ Hc. eapply lookup_weaken; [exact Hc | apply (eg_heap _ _ Hg)].
  - apply names_kept_env; [by destruct (eg_ext _ _ Hg) as [-> _] | apply (eg_inodes _ _ Hg)].
Qed.

Lemma kept_quiet P w w' : quiet w w' → kept P w w'.
Proof.
  intros Hq. constructor; try apply Hq.
  - intros c blk _ Hc. eapply lookup_weaken; [exact Hc | apply (q_heap _ _ Hq)].
  - intros c. rewrite (q_keydir _ _ Hq). by left.
  - unfold hint_threads. by rewrite (q_threads _ _ Hq).
  - apply names_kept_same; [apply (q_dir _ _ Hq) | apply (q_data_dir _ _ Hq) | |].
    + unfold file_ids. rewrite (q_table _ _ Hq). erewrite list_fmap_ext; [done|].
      intros i p _. symmetry. apply (q_ids _ _ Hq).
    + apply data_same. intros id c. pose proof (quiet_data_content w w' Hq id) as Heq.
      unfold disk in Heq. by rewrite Heq.
  - apply kp_owned_same; unfold owned, handles.
    + by rewrite (q_data_dir _ _ Hq), (q_table _ _ Hq), (q_ring _ _ Hq).
    + by rewrite (q_threads _ _ Hq).
Qed.

Lemma write_with_room fuel j e f kd rg th ru sd others l m n b h k v :
  let w := World e f kd rg th ru sd in
  let iov := datafile_iov b (zlen k) (zlen v) in
  running w l m n → record_at e others b h k v → kd_blocks (hash_table kd) ⊆ others →
  active_size w + record_size k v ≤ fs_max_active f →
  2 * (Z.of_nat n + record_size k v) < 2 ^ 32 →
  (length (events e) + Z.to_nat (record_size k v) < fuel)%nat →
  ∃ e5 kd5 e6, let w' := World e6 f kd5 rg th ru sd in
    write_record fuel (S j) iov w = Ret CCASK_OK (World e5 f kd5 rg th ru sd) ∧
    free_datafile_record iov e5 = Ret tt e6 ∧
    running w' l (<[k := v]> m) (n + Z.to_nat (record_size k v)) ∧
    kept (λ c, b ≤ c < b + 3) w w' ∧
    active_size w' = active_size w + record_size k v.
Proof.
  intros w iov Hr Hra Hkb Hmax Hsm Hfuel. pose proof Hra as [R1 R2 R3 R4 R5 R6 R7 [R8 R9]].
  pose proof (zlen_record _ _ _ _ _ _ Hra) as Hz.
  pose proof (active_size_recoverable w l m n (rn_store _ _ _ _ Hr) (rn_recoverable _ _ _ _ Hr)).
  destruct (record_written fuel j e f kd rg th ru sd l m b h k v) as
    (e5 & kd5 & e6 & Hwr & Hfree & Hok6 & Happ & Hc6 & Hev & Hbrk & Hfr & Hkb5); try done;
    try apply Hr; [intros c Hc; by apply R4, Hkb | fold w; unfold record_size in *; lia|].
  exists e5, kd5, e6. split; [exact Hwr|]. split; [exact Hfree|].
  split; [|split].
  - replace (Z.to_nat (record_size k v)) with (length (datafile_record_bytes h k v)) by zlen_lia.
    eapply running_appended; try done. by rewrite Hz.
  - constructor; try done; [|by apply kp_owned_same].
    destruct Happ as (p & x & ino & old & _ & _ & _ & Hino & Hi & Hdirs).
    apply names_kept_same; [done..|]. intros id c Hdc. eexists. by eapply data_content_append.
  - rewrite <-Hz. eapply active_appended_size; [apply Hr | exact Happ | done].
Qed.

(** The lock of the old file is released after the rotation. *)
Lemma linked_unlocked a p x x1 z y f :
  put_node p (set_file_previous (Some a) (retired x)) (linked_newest a p z y (put_node p x1 f)) =
  linked_newest a p (retired x) y f.
Proof.
  unfold linked_newest, put_node, set_fs_nodes. simpl. f_equal. apply map_eq. intros b.
  rewrite !lookup_insert. repeat case_decide; done.
Qed.

(** The store after a rotation. *)
Lemma running_rotated e e' f kd rg th ru sd th' h l m n p x bd dir fd t :
  let a := e_brk e in
  let f' := linked_newest a p (retired x) (fresh_node (file_id x + 1) fd t) f in
  running (World e f kd rg th ru sd) (p :: l) m n →
  fs_data_dir f = Some (bd, dir) → fs_nodes f !! p = Some x → is_u64 (file_id x + 1) →
  files_rep f' (a :: p :: l) → 0 ≤ fd →
  env_grow (close_fd (file_fd x) (put_file (filepath dir (file_id x + 1) ".data") e)) e' →
  fd_opened e' fd (k_next_ino (e_kernel e)) true true → e_brk e < e_brk e' →
  running (World e' f' kd rg th' (THint h p :: ru) sd) (a :: p :: l) m n ∧
  active_id (World e' f' kd rg th' (THint h p :: ru) sd) = file_id x + 1 ∧
  active_size (World e' f' kd rg th' (THint h p :: ru) sd) = 0 ∧
  names_kept (World e f kd rg th ru sd) (World e' f' kd rg th' (THint h p :: ru) sd).
Proof.
  intros a f' Hr Hdir Hx Hid Hrep Hfd0 Hg Hfd Hbrk. pose proof Hr as [H1 H2 H3 H4 H5 H6 H6' H7 H8 H9 H9' Hhint].
  pose proof (st_disk _ _ _ H1) as Hd. cbn [w_env w_files] in Hd, H4, H5.
  assert (a ∉ p :: l) as Ha by (intros Hin%H5; unfold a in Hin; lia).
  assert (active_id (World e f kd rg th ru sd) = file_id x) as Hidx.
  { destruct (store_head _ _ _ H1) as (p' & l' & Hl & _ & ->). injection Hl as <- <-.
    unfold node_id. cbn [w_files]. by rewrite Hx. }
  pose proof (H6 (file_id x + 1) ltac:(rewrite Hidx; lia) Hid) as Hdn.
  pose proof (H6' (file_id x + 1) ltac:(rewrite Hidx; lia) Hid) as Hhn.
  destruct (do_nodes _ _ Hd p x ltac:(by left) Hx) as (_ & Hu & _).
  unfold disk in *. cbn [w_env w_files] in *.
  pose proof (du_inodes _ _ _ H2) as Hnd. cbn [snd] in Hnd.
  assert (∀ q, q ∈ p :: l → node_id (fs_nodes f') q = node_id (fs_nodes f) q) as Hids.
  { intros q Hq. apply (rotated_node_id e f l p x a fd t Hd Hx Hnd Ha Hrep q Hq). }
  assert (fs_head f' = Some a) as Hh by apply (rep_head _ _ Hrep).
  assert (node_id (fs_nodes f') a = file_id x + 1) as Hida.
  { unfold node_id. unfold f'. by rewrite (rotated_node_active f l p x a fd t Ha). }
  assert (∀ id, hint_ino (e', f') id = hint_ino (e, f) id) as Hhi.
  { intros id. apply (rotated_hint_ino e e' f p x bd dir a fd t Hdir Hg). }
  assert (data_content (e', f') (file_id x + 1) = Some []) as Hnew.
  { apply (rotated_content_new e e' f p x bd dir a fd t Hdir Hg). }
  split; [constructor; unfold disk; cbn [w_env w_files w_running]|split; [|split]].
  - exact (rotated_store e e' f l p x bd dir a fd t Hd Hdir Hx Hid Hdn Hnd Ha Hrep Hfd0 Hg Hfd
      kd rg th ru sd rg th' (THint h p :: ru) m H1).
  - exact (rotated_durable e e' f l p x bd dir a fd t Hd Hdir Hx Hdn Hhn Hnd Ha Hrep Hg m H2).
  - exact (rotated_recoverable e e' f l p x bd dir a fd t Hd Hdir Hx Hdn Hnd Ha Hrep Hg n H3).
  - eapply env_grow_calm; [exact Hg|]. destruct H4. by constructor.
  - intros q [->|Hq]%elem_of_cons; [exact Hbrk|]. specialize (H5 q Hq). lia.
  - intros id. unfold active_id. cbn [w_files]. rewrite Hh, Hida. intros Hlt Hui.
    unfold data_ino. simpl. rewrite Hdir, (rotated_dir e e' x dir Hg). simpl.
    rewrite lookup_insert_ne.
    + apply (data_ino_none e f bd dir id Hdir), H6; [rewrite Hidx; lia | exact Hui].
    + intros Heq%filepath_inj; [lia | exact Hid | exact Hui].
  - intros id. unfold active_id. cbn [w_files]. rewrite Hh, Hida, (Hhi id). intros Hlt.
    apply H6'. rewrite Hidx. lia.
  - intros q [->|Hq]%elem_of_cons.
    + rewrite Hida. unfold log_of. rewrite Hnew. apply Forall_nil_2.
    + pose proof (rotated_log_of e e' f l p x bd dir a fd t Hd Hdir Hx Hdn Hnd Ha Hrep Hg q Hq) as Hlog.
      fold f' in Hlog. rewrite Hlog. exact (H7 q Hq).
  - intros h' q [[= -> ->]|Hin]%elem_of_cons.
    + split; [by right; left|]. split; [intros [= Heq]; apply Ha; rewrite Heq; by left|].
      rewrite (Hids p ltac:(by left)), (Hhi (node_id (fs_nodes f) p)).
      unfold node_id. rewrite Hx. simpl. apply H6'; [rewrite Hidx; lia | exact Hu].
    + destruct (H8 h' q Hin) as (Hq & _ & Hn). split; [by right|].
      split; [intros [= Heq]; apply Ha; by rewrite Heq|].
      rewrite (Hids q Hq), (Hhi (node_id (fs_nodes f) q)). exact Hn.
  - intros h1 h2 q. rewrite !elem_of_cons. intros [[= -> ->]|Hin1] [Heq|Hin2].
    + by injection Heq.
    + destruct (H8 h2 p Hin2) as (_ & Hn & _). done.
    + injection Heq as -> ->. destruct (H8 h1 p Hin1) as (_ & Hn & _). done.
    + exact (H9 h1 h2 q Hin1 Hin2).
  - intros q [Heq|Hq%H9']%elem_of_cons; [done|]. by right.
  - intros q z Hq. rewrite (Hhi (file_id z)). apply elem_of_cons in Hq as [->|Hq].
    { unfold f'. rewrite (rotated_node_active f l p x a fd t Ha). intros <-%(inj Some) [j Hj].
      change (file_id _) with (file_id x + 1) in Hj. congruence. }
    apply elem_of_cons in Hq as [->|Hq].
    { unfold f'. rewrite (rotated_node_old f p x a fd t). intros <-%(inj Some).
      apply (Hhint p x); [by left | done]. }
    unfold f'. rewrite (rotated_node e f l p x a fd t Hd Hx Hnd Ha Hrep q Hq). apply Hhint. by right.
  - unfold active_id. cbn [w_files]. by rewrite Hh.
  - pose proof (rotated_node_active f l p x a fd t Ha) as Hna. fold f' in Hna.
    unfold active_size. cbn [w_files w_env]. rewrite Hh. cbn [mbind option_bind].
    rewrite Hna. cbn [mbind option_bind].
    change (file_id _) with (file_id x + 1). by rewrite Hnew.
  - pose proof (rep_table _ _ (do_rep _ _ Hd)) as Ht. pose proof (rep_table _ _ Hrep) as Ht'.
    apply (names_kept_put _ _ bd dir ".data" (file_id x + 1) (k_next_ino (e_kernel e)));
      cbn [w_env w_files]; [exact Hdir | done | by left | exact Hid | exact (rotated_dir e e' x dir Hg) | | |];
      unfold file_ids; cbn [w_files].
    + intros i (q & -> & Hq)%list_elem_of_fmap. rewrite Ht in Hq. rewrite <-(Hids q Hq).
      apply list_elem_of_fmap_2. rewrite Ht'. by right.
    + rewrite <-Hida. apply list_elem_of_fmap_2. rewrite Ht'. by left.
    + intros id c. by apply (rotated_data_content e e' f l p x bd dir a fd t).
Qed.

(** What a rotation leaves alone: the node and the handle are new. *)
Lemma kept_rotated e e' f kd rg th ru sd p a h l x y :
  let f' := linked_newest a p x y f in
  e_heap e ⊆ e_heap e' → e_brk e ≤ a → a < h → h < e_brk e' →
  is_Some (e_heap e' !! a) → is_Some (e_heap e' !! h) → events e' `suffix_of` events e →
  fs_table f ≡ₚ l → fs_table f' ≡ₚ a :: l → (∀ c, c ∈ kd_blocks (hash_table kd) → c < e_brk e) →
  names_kept (World e f kd rg th ru sd)
    (World e' f' kd rg (ThreadHandle h (THint h p) :: th) (THint h p :: ru) sd) →
  kept (λ _, False) (World e f kd rg th ru sd)
    (World e' f' kd rg (ThreadHandle h (THint h p) :: th) (THint h p :: ru) sd).
Proof.
  intros f' Hsub Ha Hah Hh La Lh Hev Ht Ht' Hkb Hnames.
  constructor; cbn [w_env w_files w_keydir w_ring w_running]; try done; [|lia|by left| |by right|].
  { intros c blk _ Hc. by eapply lookup_weaken. }
  { intros Hhs. constructor; [by exists p | exact Hhs]. }
  exists [a], [h]. split; [|split; [done|]].
  - unfold owned. cbn [w_files w_ring]. rewrite Ht', Ht.
    change (fs_data_dir f') with (fs_data_dir f). solve_Permutation.
  - simpl. constructor; cbn [w_env w_keydir hash_table].
    + constructor; [|apply NoDup_singleton]. intros ?%list_elem_of_singleton. lia.
    + intros c [->| ->%list_elem_of_singleton]%elem_of_cons; lia.
    + intros c [->| ->%list_elem_of_singleton]%elem_of_cons; (split; [by intros []|]);
        intros Hc%Hkb; lia.
    + by intros c [->| ->%list_elem_of_singleton]%elem_of_cons.
Qed.

(** The active file is full: it is rotated, and the function calls itself. *)
Lemma write_rotates fuel j e f kd rg th ru sd others l m n b h k v :
  let w := World e f kd rg th ru sd in
  let iov := datafile_iov b (zlen k) (zlen v) in
  running w l m n → record_at e others b h k v → is_u64 (active_id w + 1) →
  fs_max_active f < active_size w + record_size k v →
  2 * (Z.of_nat n + record_size k v) < 2 ^ 32 →
  ∃ e' f' th' ru' l', let w' := World e' f' kd rg th' ru' sd in
    write_record fuel (S j) iov w = write_record fuel j iov w' ∧
    running w' l' m n ∧ record_at e' others b h k v ∧ active_size w' = 0 ∧
    active_id w' = active_id w + 1 ∧ kept (λ _, False) w w'.
Proof.
  intros w iov Hr Hra Hid Hmax Hsm.
  pose proof (rn_store _ _ _ _ Hr) as Hok. pose proof (st_disk _ _ _ Hok) as Hd. simpl in Hd.
  pose proof (keydir_heap _ (st_keydir _ _ _ Hok)) as Hwf. simpl in Hwf.
  destruct (active_file _ _ _ Hok) as (p & x & ino & old & Hp & Hpl & Hx & Hlock & Hfd & Ho &
    Hino & Hdi & Hdc & Has). simpl in Hp, Hx, Ho, Hino, Hdi, Hdc.
  destruct (store_head _ _ _ Hok) as (p' & l' & -> & Hp' & Hact). simpl in Hp'.
  assert (p' = p) as -> by congruence. clear Hp'.
  assert (active_id w = file_id x) as Hidx.
  { rewrite Hact. unfold node_id. simpl. by rewrite Hx. }
  pose proof (rn_recoverable _ _ _ _ Hr) as Hrc. pose proof (rn_calm _ _ _ _ Hr) as Hc.
  pose proof (active_size_recoverable _ _ _ _ Hok Hrc) as Hle. simpl in Hc.
  destruct (do_dir _ _ Hd) as (bd & dir & Hdir & Hne). simpl in Hdir.
  destruct (do_nodes _ _ Hd p x ltac:(by left) Hx) as (_ & Hu & _).
  pose proof (rn_fresh _ _ _ _ Hr (file_id x + 1) ltac:(rewrite Hidx; lia) ltac:(by rewrite <-Hidx))
    as Hdn.
  destruct (lseek_end_ok e (file_fd x) ino true true old Ho Hino (calm_head e Hc)) as (e1 & Hseek & Hfr).
  assert (env_grow e e1) as Hg1 by by apply env_step_grow, io_frame_step.
  pose proof (running_grow _ _ _ _ _ _ _ _ _ _ _ Hg1 Hr) as Hr1.
  set (x1 := set_file_rwlock (RWLock 0 true) x). set (f1 := put_node p x1 f).
  pose proof (do_rep _ _ Hd) as Hrep. cbn [snd] in Hrep.
  assert (files_rep f1 (p :: l')) as Hrep1 by by apply (rep_put _ _ _ x).
  pose proof (fd_opened_ext _ _ _ _ _ _ (eg_ext _ _ Hg1) Ho) as Ho1.
  destruct (files_rotate_ok kd rg th ru sd e1 f1 l' p x1 bd dir) as
    (e2 & h2 & t & Hrot & Hrep2 & Hfd2 & Hg2 & Ho2 & [Hah Hb2] & Hlive_a & Hlive_h); cbv zeta in *.
  { exact Hrep1. }
  { exact Hdir. }
  { exact Hne. }
  { apply put_node_lookup. }
  { apply Hu. }
  { change (is_u64 (file_id x + 1)). by rewrite <-Hidx. }
  { rewrite <-Hdn. apply (data_ino_ext e e1 f), Hg1. }
  { apply fd_opened_lookup in Ho1 as [pos Hpos]. by eexists. }
  { apply (eg_wf _ _ Hg1), (do_kernel _ _ Hd). }
  { by eapply env_grow_calm. }
  { by eapply env_grow_heap_wf. }
  { intros Hin%(rn_live _ _ _ _ Hr1). simpl in Hin. lia. }
  set (a := e_brk e1) in *. set (fd := k_next_fd (e_kernel e1)) in *.
  change (file_id x1) with (file_id x) in *. change (file_fd x1) with (file_fd x) in *.
  set (y := fresh_node (file_id x + 1) fd t) in *.
  set (f2 := linked_newest a p (retired x1) y f1) in *.
  assert (put_node p (set_file_previous (Some a) (retired x)) f2 = linked_newest a p (retired x) y f)
    as Hf2 by apply linked_unlocked.
  assert (fs_nodes f2 !! p = Some (set_file_previous (Some a) (retired x1))) as Hp2
    by apply lookup_insert_eq.
  destruct (running_rotated e1 e2 f kd rg th ru sd (ThreadHandle h2 (THint h2 p) :: th) h2 l' m n p x
    bd dir fd t) as (Hr2 & Hid2 & Hsz2 & Hnames); try done; [| |lia|].
  { by rewrite <-Hidx. }
  { change (files_rep (linked_newest a p (retired x) y f) (a :: p :: l')).
    rewrite <-Hf2. by apply (rep_put _ _ _ (set_file_previous (Some a) (retired x1))). }
  eexists e2, _, _, _, _. split; [|split; [exact Hr2|]].
  - cbn [write_record]. unfold ccask_files_get_active_file, w.
    erewrite bind_run by (apply zoom_files; reflexivity). cbn [snd]. rewrite Hp.
    rewrite (bind_deref p) by done.
    erewrite bind_run by (apply zoom_files, (node_lock_put _ p e f x (RWLock 0 true));
      [done | by rewrite Hlock]).
    erewrite bind_run by apply zoom_files, (node_run p e _ x1), put_node_lookup.
    erewrite bind_run by apply zoom_env, Hseek.
    rewrite bool_decide_eq_false_2 by (pose proof (zlen_nonneg old); lia).
    unfold record_size in *. pose proof (zlen_nonneg old). pose proof (zlen_nonneg k).
    pose proof (zlen_nonneg v). unfold iov. rewrite datafile_iov_size by lia.
    unfold files. erewrite bind_run by (apply zoom_files; reflexivity).
    rewrite u64_small, bool_decide_eq_true_2 by (unfold is_u64; simpl; lia).
    fold f1. erewrite bind_run by exact Hrot.
    erewrite bind_run by (apply zoom_files,
      (node_lock_put _ p _ _ (set_file_previous (Some a) (retired x1)) rwlock_new); [exact Hp2 | done]).
    assert (set_file_rwlock rwlock_new (set_file_previous (Some a) (retired x1)) =
      set_file_previous (Some a) (retired x)) as ->.
    { unfold x1, retired, set_file_rwlock, set_file_previous. simpl. by rewrite Hlock. }
    by rewrite Hf2.
  - assert (e_heap e ⊆ e_heap e2) as Hsub by (etrans; [apply (eg_heap _ _ Hg1) | apply (eg_heap _ _ Hg2)]).
    assert (e_brk e ≤ a) as Hbrk by exact (eg_brk _ _ Hg1).
    split; [|split; [exact Hsz2|split; [by rewrite Hid2, Hidx|]]].
    + destruct Hra as [R1 R2 R3 R4 R5 R6 R7 R8].
      constructor; [by eapply lookup_weaken..|done|lia|done|done|done].
    + apply (kept_rotated e e2 f kd rg th ru sd p a h2 (p :: l')); try done.
      * etrans; [apply (eg_events _ _ Hg2)|apply (eg_events _ _ Hg1)].
      * apply (rep_table _ _ Hrep).
      * apply (rep_table _ _ (do_rep _ _ (st_disk _ _ _ (rn_store _ _ _ _ Hr2)))).
      * apply (keydir_blocks_old e kd (st_keydir _ _ _ Hok)).
      * refine (names_kept_trans _ _ _ _ Hnames). destruct (eg_ext _ _ Hg1) as [Hdirs _].
        by apply names_kept_env, (eg_inodes _ _ Hg1).
Qed.

(** A record of at most the size of a file is written, whatever is in the
    active file. *)
Lemma write_ok fuel e f kd rg th ru sd others l m n b h k v :
  let w := World e f kd rg th ru sd in
  let iov := datafile_iov b (zlen k) (zlen v) in
  running w l m n → record_at e others b h k v → kd_blocks (hash_table kd) ⊆ others →
  is_u64 (active_id w + 1) →
  record_size k v ≤ fs_max_active f → 2 * (Z.of_nat n + record_size k v) < 2 ^ 32 →
  (length (events e) + Z.to_nat (record_size k v) < fuel)%nat →
  ∃ e5 kd5 e6 f' th' ru' l', let w' := World e6 f' kd5 rg th' ru' sd in
    ccask_write_record_blocking fuel iov w = Ret CCASK_OK (World e5 f' kd5 rg th' ru' sd) ∧
    free_datafile_record iov e5 = Ret tt e6 ∧
    running w' l' (<[k := v]> m) (n + Z.to_nat (record_size k v)) ∧
    kept (λ c, b ≤ c < b + 3) w w' ∧
    active_id w ≤ active_id w' ≤ active_id w + 1 ∧
    (active_size w ≤ fs_max_active f → active_size w' ≤ fs_max_active f).
Proof.
  intros w iov Hr Hra Hkb Hid Hsz Hsm Hfuel. pose proof (record_size_pos k v).
  destruct fuel as [|[|j]]; [lia|lia|]. unfold ccask_write_record_blocking.
  destruct (decide (active_size w + record_size k v ≤ fs_max_active f)) as [Hroom|Hfull].
  - destruct (write_with_room (S (S j)) (S j) e f kd rg th ru sd others l m n b h k v) as
      (e5 & kd5 & e6 & Hwr & Hfree & Hr' & Hwrote & Has); [done..|].
    exists e5, kd5, e6, f, th, ru, l. split; [exact Hwr|]. split; [exact Hfree|].
    split; [exact Hr'|]. split; [exact Hwrote|].
    change (active_id (World e6 f kd5 rg th ru sd)) with (active_id w).
    split; [lia|]. rewrite Has. fold w. lia.
  - destruct (write_rotates (S (S j)) (S j) e f kd rg th ru sd others l m n b h k v) as
      (e2 & f2 & th2 & ru2 & l2 & Hwr2 & Hr2 & Hra2 & Has2 & Hid2 & Hk2);
      [done | done | done | fold w; lia | done |].
    pose proof (suffix_length _ _ (kp_events _ _ _ Hk2)) as Hev. pose proof (kp_max _ _ _ Hk2) as Hmax2.
    cbn [w_env w_files] in Hev, Hmax2.
    destruct (write_with_room (S (S j)) j e2 f2 kd rg th2 ru2 sd others l2 m n b h k v) as
      (e5 & kd5 & e6 & Hwr & Hfree & Hr' & Hwrote & Has);
      [done | done | done | rewrite Has2; lia | done | lia |].
    exists e5, kd5, e6, f2, th2, ru2, l2. split; [etrans; [exact Hwr2 | exact Hwr]|].
    split; [done|]. split; [done|]. split.
    + eapply kept_trans; [|exact Hwrote]. apply kept_weaken; [exact Hk2|].
      pose proof (ra_brk _ _ _ _ _ _ Hra). simpl. lia.
    + split; [|rewrite Has, Has2; lia].
      assert (active_id (World e6 f2 kd5 rg th2 ru2 sd) =
        active_id (World e2 f2 kd rg th2 ru2 sd)) as -> by reflexivity. fold w in Hid2. lia.
Qed.
End run.

Section clients.
Context {host : Host} {zlib : Zlib} {laws : ZlibLaws}.

(** A record that was just created. *)
Lemma record_created v0 v1 v2 e others kb ks k vb vs v :
  calm e → heap_wf e → (∀ c, c ∈ others → c < e_brk e) → cbuf_read (Some kb) ks = Some k → cbuf_read (Some vb) vs = Some v →
  is_u32 ks → is_u32 vs → k ≠ [] → v ≠ [] →
  ∃ t e0 e3 b h,
    time e = Ret t e0 ∧
    ccask_create_datafile_record [v0; v1; v2] (u32 t) (Some kb) ks (Some vb) vs e0 =
      Ret (CCASK_OK, datafile_iov b (zlen k) (zlen v)) e3 ∧
    env_grow e e3 ∧ e_brk e ≤ b ∧ record_at e3 others b h k v.
Proof.
  intros Hc Hwf Hothers Hk Hv Hku Hvu Hkn Hvn.
  destruct (put_record_created v0 v1 v2 e kb ks k vb vs v Hc Hwf Hk Hv Hku Hvu)
    as (t & e0 & Ht & Hcreate & Hg0 & Hg & Hrec & Hcrc).
  pose proof (cbuf_read_zlen _ _ _ Hk). pose proof (cbuf_read_zlen _ _ _ Hv). subst ks vs.
  set (h := DatafileHeader _ (u32 t) (zlen k) (zlen v)) in *.
  destruct (three_blocks_lookup (datafile_header_bytes h) k v e0) as (Hb0 & Hb1 & Hb2 & _).
  exists t, e0, (three_blocks (datafile_header_bytes h) k v e0), (e_brk e0), h.
  split; [done|]. split; [done|]. split; [done|]. split; [apply (eg_brk _ _ Hg0)|].
  constructor; try done.
  - intros c Hco%Hothers. pose proof (eg_brk _ _ Hg0). lia.
  - simpl. lia.
Qed.

Lemma active_size_grow e e' f kd rg th ru sd l m :
  store_ok (World e f kd rg th ru sd) l m → env_grow e e' →
  active_size (World e' f kd rg th ru sd) = active_size (World e f kd rg th ru sd).
Proof.
  intros Hok Hg. unfold active_size. simpl. destruct (fs_head f) as [p|]; [simpl|done].
  destruct (fs_nodes f !! p) as [x|]; [simpl|done].
  by rewrite (data_content_grow e e' f (file_id x) Hg).
Qed.

(** The blocking [put], with or without a rotation. *)
Lemma put_running fuel w l m n kb ks k vb vs v :
  running w l m n → w_shutting_down w = false →
  cbuf_read (Some kb) ks = Some k → cbuf_read (Some vb) vs = Some v →
  is_u32 ks → is_u32 vs → k ≠ [] → v ≠ [] → is_u64 (active_id w + 1) →
  record_size k v ≤ fs_max_active (w_files w) → 2 * (Z.of_nat n + record_size k v) < 2 ^ 32 →
  (length (events (w_env w)) + Z.to_nat (record_size k v) < fuel)%nat →
  ∃ w' l', ccask_put_blocking fuel (Some kb) ks (Some vb) vs w = Ret CCASK_OK w' ∧
    running w' l' (<[k := v]> m) (n + Z.to_nat (record_size k v)) ∧ kept (λ _, False) w w' ∧
    active_id w ≤ active_id w' ≤ active_id w + 1 ∧
    (active_size w ≤ fs_max_active (w_files w) → active_size w' ≤ fs_max_active (w_files w')).
Proof.
  intros Hr Hup Hk Hv Hku Hvu Hkn Hvn Hid Hsz Hsm Hfuel.
  pose proof (rn_store _ _ _ _ Hr) as Hok. pose proof (st_keydir _ _ _ Hok) as Hkd.
  pose proof (rn_calm _ _ _ _ Hr) as Hc.
  destruct w as [e f kd rg th ru sd]. cbn [w_env w_files w_keydir w_shutting_down] in *. subst sd.
  destruct (record_created iov_garbage iov_garbage iov_garbage e (kd_blocks (hash_table kd)) kb ks k vb vs v)
    as (t & e0 & e3 & b & h & Ht & Hcreate & Hg & Hb & Hra); try done.
  { apply (keydir_heap _ Hkd). }
  { apply (keydir_blocks_old e kd Hkd). }
  pose proof (running_grow _ _ _ _ _ _ _ _ _ _ _ Hg Hr) as Hr3.
  destruct (write_ok fuel e3 f kd rg th ru false (kd_blocks (hash_table kd)) l m n b h k v) as
    (e5 & kd5 & e6 & f6 & th6 & ru6 & l6 & Hwr & Hfree & Hr6 & Hkept & Hid6 & Hs6); try done.
  { pose proof (suffix_length _ _ (eg_events _ _ Hg)). lia. }
  eexists _, l6. split; [|split; [exact Hr6|split; [|split; [exact Hid6|]]]].
  - unfold ccask_put_blocking. rewrite bind_get. cbn [w_shutting_down].
    erewrite bind_run by apply zoom_env, Ht.
    erewrite bind_run by apply zoom_env, Hcreate. cbn beta iota. rewrite bool_decide_neq_refl.
    erewrite bind_run by exact Hwr. rewrite bool_decide_neq_refl.
    by erewrite bind_run by apply zoom_env, Hfree.
  - eapply kept_new with (P := λ c, b ≤ c < b + 3); [apply (keydir_heap _ Hkd) | intros c; simpl; lia |].
    eapply kept_trans; [|exact Hkept]. by apply kept_grow.
  - intros Hle. pose proof (kp_max _ _ _ Hkept) as Hmax. cbn [w_files] in *. rewrite Hmax. apply Hs6.
    by rewrite (active_size_grow e e3 f kd rg th ru false l m Hok Hg).
Qed.
End clients.
