(* ===== verification/Turns.v ===== *)
(** * Turns: the other calls and threads on a running store

    What [ccask_get], a hint thread and a turn of a thread that closes an idle
    descriptor do to a running store: it represents the same map. *)
From stdpp Require Import sorting.
From S2P Require Import Prelude Status Posix SafeIO Codec Records Ringbuf Uthash Keydir Log.
From S2P Require Import Filenames Files Disk DiskWrite World Hint Recovery HintGen.
From S2P Require Import Reader Writer Core Store Durable Tidy Run.
Open Scope Z_scope.

(** *** The identifiers of the files *)

Lemma sorted_fmap_inj (g : Z → Z) l p q :
  StronglySorted Z.gt (g <$> l) → p ∈ l → q ∈ l → g p = g q → p = q.
Proof.
  induction l as [|a l IH]; [by intros _ ?%elem_of_nil|]. rewrite fmap_cons.
  intros [Hs Ha]%StronglySorted_inv. rewrite !elem_of_cons.
  rewrite Forall_fmap, Forall_forall in Ha. simpl in Ha.
  intros [->|Hp] [->|Hq]; [done | | |by apply IH].
  - apply Ha in Hq. lia.
  - apply Ha in Hp. lia.
Qed.

Lemma rep_newest f l p q :
  files_rep f (p :: l) → q ∈ l → node_id (fs_nodes f) q < node_id (fs_nodes f) p.
Proof.
  intros Hrep Hq. pose proof (rep_sorted _ _ Hrep) as Hs. rewrite fmap_cons in Hs.
  apply StronglySorted_inv in Hs as [_ Ha]. rewrite Forall_fmap, Forall_forall in Ha.
  apply Ha in Hq. simpl in Hq. lia.
Qed.

Lemma fmap_inj_NoDup {A B} (g : A → B) l p q :
  NoDup (g <$> l) → p ∈ l → q ∈ l → g p = g q → p = q.
Proof.
  intros Hnd (i & Hi)%list_elem_of_lookup (j & Hj)%list_elem_of_lookup Heq.
  assert (i = j) as ->; [|congruence].
  eapply (NoDup_lookup (g <$> l) i j (g p)); [done | |];
    rewrite list_lookup_fmap, ?Hi, ?Hj; simpl; congruence.
Qed.

(** Closing a descriptor that no node holds. *)
Lemma disk_ok_close fd e f l :
  disk_ok (e, f) l → (∀ q z, q ∈ l → fs_nodes f !! q = Some z → file_fd z ≠ fd) →
  disk_ok (close_fd fd e, f) l.
Proof.
  intros [H1 H2 H3 H4 (p & x & H5 & H6 & Ha & Hfd & j & Hj & Ho)] Hne.
  constructor; [done | done | by apply close_fd_wf | |].
  - intros q z Hq Hz. destruct (H4 q z Hq Hz) as (Hl & Hu & i & Hi & Hop).
    split_and!; [done | done |]. exists i. split; [done|]. intros (app & wr & Hopen)%Hop.
    exists app, wr. apply close_fd_opened; [by eapply Hne | done].
  - exists p, x. split; [done|]. split; [done|]. split; [done|]. split; [done|].
    exists j. split; [done|].
    apply close_fd_opened; [|done]. eapply Hne; [|done]. simpl in H5.
    destruct l; [done|]. injection H5 as ->. by left.
Qed.

Section turns.
Context {host : Host} {zlib : Zlib}.

(** The name of an old file is not that of another file. *)
Lemma old_id_lt w l m n p :
  running w l m n → p ∈ l → head l ≠ Some p → node_id (fs_nodes (w_files w)) p < active_id w.
Proof.
  intros Hr Hp Hh. pose proof (rn_store _ _ _ _ Hr) as Hok.
  destruct (store_head _ _ _ Hok) as (q & l' & -> & _ & ->).
  apply elem_of_cons in Hp as [->|Hp]; [done|].
  eapply rep_newest; [apply (do_rep _ _ (st_disk _ _ _ Hok)) | done].
Qed.

(** A thread that writes a hint file. *)
Lemma hint_running fuel w l m n h p :
  running w l m n → THint h p ∈ w_running w → (length (events (w_env w)) + n + 20 < fuel)%nat →
  ∃ w', pthread_join (hint_body fuel) (THint h p) w = Ret tt w' ∧
    running w' l m n ∧ kept (λ _, False) w w' ∧
    active_id w' = active_id w ∧ active_size w' = active_size w.
Proof.
  intros Hr Hin Hfuel. pose proof Hr as [H1 H2 H3 H4 H5 H6 H6' H7 H8 H9 H9' Hhint].
  destruct w as [e f kd rg th ru sd]. unfold disk in *. cbn [w_env w_files w_running] in *.
  pose proof (st_disk _ _ _ H1) as Hd. cbn [w_env w_files] in Hd.
  pose proof (do_rep _ _ Hd) as Hrep. cbn [snd] in Hrep.
  destruct (H8 h p Hin) as (Hp & Hh & Hnone).
  destruct (rep_lookup _ _ _ Hrep Hp) as [x Hx].
  assert (node_id (fs_nodes f) p = file_id x) as Hidp by (unfold node_id; by rewrite Hx).
  rewrite Hidp in Hnone. pose proof (H7 p Hp) as Hkeys. rewrite Hidp in Hkeys.
  destruct (do_dir _ _ Hd) as (a & dir & Hdir & _). cbn [snd] in Hdir.
  destruct (do_nodes _ _ Hd p x Hp Hx) as (_ & Hu & _).
  destruct (rc_data _ _ _ H3 p x Hp Hx) as (c & Hdc & Hlen). pose proof (rc_small _ _ _ H3).
  assert (log_of (e, f) (file_id x) = records_of c) as Hlog by (unfold log_of; by rewrite Hdc).
  destruct (hintfile_generator_ok fuel f kd rg th ru sd e l p x a dir c) as (e' & Hrun & Hw);
    try done; [zlen_lia | by rewrite <-Hlog | apply (keydir_heap _ (st_keydir _ _ _ H1)) | lia |].
  pose proof (old_id_lt _ _ _ _ p Hr Hp Hh) as Hlt. cbn [w_files] in Hlt. rewrite Hidp in Hlt.
  pose proof (hint_file_ino e e' f a dir p x _ Hdir Hw) as Hhino.
  pose proof (hint_file_data_ino e e' f a dir p x _ Hdir Hw) as Hdino.
  pose proof (hint_file_data_content e e' f l a dir p x _ Hd Hdir Hw) as Hdcont.
  pose proof (hint_file_log_of e e' f l a dir p x _ Hd Hdir Hw) as Hdlog.
  set (f' := put_node p (set_file_has_hint true x) f) in *.
  set (ru' := filter (λ u, u ≠ THint h p) ru).
  assert (∀ q, node_id (fs_nodes f') q = node_id (fs_nodes f) q) as Hids
    by (intros q; by apply (node_id_put f p x)).
  assert (active_id (World e' f' kd rg th ru' sd) = active_id (World e f kd rg th ru sd)) as Hact.
  { unfold active_id. cbn [w_files]. change (fs_head f') with (fs_head f).
    destruct (fs_head f) as [q|]; [apply Hids | done]. }
  assert (∀ id, is_u64 id → id ≠ file_id x → hint_ino (e', f') id = hint_ino (e, f) id) as Hhi.
  { intros id Hui Hne. rewrite (Hhino id).
    apply decide_False. by intros ->%filepath_inj. }
  eexists (World e' f' kd rg th ru' sd). split; [|split; [|split; [|split; [exact Hact|]]]].
  - unfold pthread_join. rewrite bind_get. cbn [w_running]. rewrite bool_decide_eq_true_2 by done.
    erewrite bind_run by exact Hrun. reflexivity.
  - constructor; unfold disk; cbn [w_env w_files w_running].
    + apply (store_ok_threads (World e' f' kd rg th ru sd)).
      exact (hint_file_store e e' f l a dir p x _ Hd Hdir Hp Hx Hw kd rg th ru sd m H1).
    + exact (hint_file_durable e e' f l a dir p x _ Hd Hdir Hx Hw m Hh H2).
    + apply (hint_file_recoverable e e' f l a dir p x _ Hd Hdir Hp Hx Hnone Hw n H3);
        [by rewrite Hlog | exact Hkeys].
    + eapply file_written_calm; [exact Hw|]. destruct H4. by constructor.
    + intros q Hq. specialize (H5 q Hq). pose proof (eg_brk _ _ Hw). simpl in *. lia.
    + intros id. rewrite Hact, (Hdino id). apply H6.
    + intros id. rewrite Hact. intros Hle Hui. rewrite Hhi by (done || lia). by apply H6'.
    + intros q Hq. rewrite (Hids q), (Hdlog (node_id (fs_nodes f) q)). by apply H7.
    + intros h' q [Hne Hin']%list_elem_of_filter. destruct (H8 h' q Hin') as (Hq & Hhq & Hnq).
      split; [done|]. split; [done|]. rewrite (Hids q).
      destruct (rep_lookup _ _ _ Hrep Hq) as [z Hz].
      destruct (do_nodes _ _ Hd q z Hq Hz) as (_ & Huz & _).
      rewrite Hhi; [done | |].
      * unfold node_id. by rewrite Hz.
      * rewrite <-Hidp. intros Heq. apply Hne.
        assert (q = p) as -> by exact (sorted_fmap_inj _ _ _ _ (rep_sorted _ _ Hrep) Hq Hp Heq).
        by rewrite (H9 h' h p Hin' Hin).
    + intros h1 h2 q [_ Hi1]%list_elem_of_filter [_ Hi2]%list_elem_of_filter. by eapply H9.
    + intros q [_ Hi]%list_elem_of_filter. by apply H9'.
    + intros q z Hq. unfold f'. simpl. rewrite lookup_insert. case_decide as Hpq.
      * intros <-%(inj Some). done.
      * intros Hz. rewrite Hhino. case_decide as Hpath; [|by apply (Hhint q)]. exfalso.
        destruct (do_nodes _ _ Hd q z Hq Hz) as (_ & Huz & _).
        apply filepath_inj in Hpath; [|done|done]. apply Hpq.
        apply (sorted_fmap_inj _ _ _ _ (rep_sorted _ _ Hrep) Hp Hq). unfold node_id.
        rewrite Hx, Hz. simpl. congruence.
  - constructor; cbn [w_env w_files w_keydir w_ring]; try done.
    + intros b blk _ Hb. eapply lookup_weaken; [exact Hb | apply (eg_heap _ _ Hw)].
    + apply (eg_brk _ _ Hw).
    + by left.
    + apply (file_written_events _ _ _ _ Hw).
    + intros Hwr. by apply list_elem_of_filter.
    + apply (names_kept_put _ _ a dir ".hint" (file_id x) (k_next_ino (e_kernel e)));
        cbn [w_env w_files]; [exact Hdir | done | by right | exact Hu
          | exact (hint_file_dir e e' dir x _ Hw) | | |]; unfold file_ids; cbn [w_files].
      * intros i (q & -> & Hq)%list_elem_of_fmap. rewrite <-(Hids q). by apply list_elem_of_fmap_2.
      * rewrite <-Hidp, <-(Hids p). apply list_elem_of_fmap_2.
        change (fs_table f') with (fs_table f). by rewrite (rep_table _ _ Hrep).
      * intros id c'. by rewrite (Hdcont id).
    + by apply kp_owned_same.
  - unfold active_size. cbn [w_files w_env]. change (fs_head f') with (fs_head f).
    destruct (fs_head f) as [q|]; [simpl|done]. rewrite lookup_insert. case_decide as Hq.
    + subst q. rewrite Hx. simpl.
      by rewrite (Hdcont (file_id x)).
    + destruct (fs_nodes f !! q) as [z|]; [simpl|done].
      by rewrite (Hdcont (file_id z)).
Qed.

(** A turn of a thread that closes the descriptor of a file that is not read
    any more. *)
Lemma invalidator_running w l m n p :
  running w l m n → p ∈ l →
  ∃ r w', zoom (datafile_fd_invalidator_turn p) w = Ret r w' ∧
    running w' l m n ∧ kept (λ _, False) w w' ∧
    active_id w' = active_id w ∧ active_size w' = active_size w ∧ w_running w' = w_running w.
Proof.
  intros Hr Hp. pose proof Hr as [H1 H2 H3 H4 H5 H6 H6' H7 H8 H9 H9' Hhint].
  destruct w as [e f kd rg th ru sd]. cbn [w_env w_files w_running] in *.
  destruct (time_step e) as (t & e1 & Ht & Hst). pose proof (env_step_grow _ _ Hst) as Hg.
  pose proof (running_grow e e1 f kd rg th ru sd l m n Hg Hr) as Hr1.
  pose proof (rn_store _ _ _ _ Hr1) as Hok1. pose proof (st_disk _ _ _ Hok1) as Hd.
  cbn [w_env w_files] in Hd. pose proof (do_rep _ _ Hd) as Hrep. cbn [snd] in Hrep.
  destruct (rep_lookup _ _ _ Hrep Hp) as [x Hx].
  destruct (do_nodes _ _ Hd p x Hp Hx) as (Hlock & Hu & j & Hj & Hop).
  assert (active_size (World e1 f kd rg th ru sd) = active_size (World e f kd rg th ru sd)) as Has
    by exact (active_size_grow e e1 f kd rg th ru sd l m H1 Hg).
  unfold datafile_fd_invalidator_turn.
  destruct (negb (file_is_active x) && bool_decide (file_fd x >= 0 ∧ t - file_last_accessed x >=
    FD_INVALIDATE_DURATION)) eqn:Hcond.
  2: { eexists _, _. split; [|split; [exact Hr1|split; [by apply kept_grow|split; [done|by split]]]].
    apply zoom_files. erewrite bind_run by exact (zoom_fst _ e f t e1 Ht).
    erewrite bind_run by exact (node_run p e1 f x Hx). by rewrite Hcond. }
  apply andb_prop in Hcond as Hcond'. destruct Hcond' as [Hna [Hfd _]%bool_decide_eq_true].
  apply negb_true_iff in Hna.
  set (z := set_file_invalidator false (set_file_fd (-1) x)). set (f' := put_node p z f).
  set (e' := close_fd (file_fd x) e1).
  assert (disk_ok (e', f') l) as Hd'.
  { apply disk_ok_close.
    - eapply disk_ok_put; [exact Hd | exact Hx | done | done | done | |].
      + split_and!; [done | done |]. exists j. split; [done|]. simpl. lia.
      + intros [Ha _]. congruence.
    - intros q y Hq. unfold f'. simpl. rewrite lookup_insert. destruct (decide (p = q)) as [Hpq|Hpq].
      + intros <-%(inj Some). unfold z. simpl. lia.
      + intros Hy Heq. destruct (do_nodes _ _ Hd q y Hq Hy) as (_ & _ & i & Hi & Hoq).
        destruct Hop as (? & ? & Hop); [lia|]. destruct Hoq as (? & ? & Hoq); [lia|].
        rewrite Heq in Hoq. assert (i = j) as -> by (unfold fd_opened in *; congruence).
        apply Hpq. eapply (fmap_inj_NoDup (λ r, data_ino (e1, f) (node_id (fs_nodes f) r)) l);
          [apply (du_inodes _ _ _ (rn_durable _ _ _ _ Hr1)) | done | done |].
        unfold node_id. by rewrite Hx, Hy; simpl; rewrite Hi, Hj. }
  assert (∀ q, node_id (fs_nodes f') q = node_id (fs_nodes f) q) as Hids
    by (intros q; by apply (node_id_put f p x)).
  assert (quiet (World e1 f kd rg th ru sd) (World e' f' kd rg th ru sd)) as Hq.
  { constructor; cbn [w_env w_files w_keydir w_ring w_running w_shutting_down]; try done; [|by left].
    intros q y. unfold f'. simpl. rewrite lookup_insert. destruct (decide (p = q)) as [Hpq|Hpq]; [|by eauto].
    subst q. intros <-%(inj Some). by exists x. }
  assert (store_ok (World e' f' kd rg th ru sd) l m) as Hok'.
  { eapply store_ok_same; [exact Hok1 | exact Hd' | done | | done | exact Hids | done].
    exact (keydir_heap _ (st_keydir _ _ _ Hok1)). }
  assert (calm e') as Hc' by (destruct (rn_calm _ _ _ _ Hr1); by constructor).
  exists true, (World e' f' kd rg th ru sd). split; [|split; [|split; [|split; [|split; [|done]]]]].
  - apply zoom_files. erewrite bind_run by exact (zoom_fst _ e f t e1 Ht).
    erewrite bind_run by exact (node_run p e1 f x Hx). rewrite Hcond.
    erewrite bind_run by (apply (node_lock_put _ p e1 f x (RWLock 0 true)); [done | by rewrite Hlock]).
    set (x1 := set_file_rwlock (RWLock 0 true) x).
    set (x2 := set_file_invalidator false (set_file_fd (-1) x1)).
    erewrite bind_run by exact (node_run p e1 _ x1 (put_node_lookup _ _ _)).
    erewrite bind_run by exact (zoom_fst _ e1 _ tt e' (sys_close_run _ _)).
    erewrite bind_run by exact (set_node_put p _ e' _ x1 (put_node_lookup _ _ _)).
    erewrite bind_run by (apply (node_lock_put _ p e' _ x2 rwlock_new);
      [apply put_node_lookup | done]).
    rewrite !put_node_twice. unfold f', z, x2, x1, mret, M_ret. do 3 f_equal.
    unfold set_file_rwlock, set_file_invalidator, set_file_fd. simpl. by rewrite Hlock.
  - by eapply running_quiet.
  - eapply kept_trans; [by apply kept_grow | by apply kept_quiet].
  - unfold active_id. cbn [w_files]. change (fs_head f') with (fs_head f).
    destruct (fs_head f) as [q|]; [apply Hids | done].
  - rewrite <-Has. unfold active_size. cbn [w_files w_env]. change (fs_head f') with (fs_head f).
    destruct (fs_head f) as [q|]; [simpl|done]. rewrite lookup_insert.
    destruct (decide (p = q)) as [Hpq|Hpq]; [|done]. subst q. by rewrite Hx.
Qed.
End turns.
