(* ===== verification/System.v ===== *)
(** * System: clients and threads together

    The store as its callers see it: the calls of the clients and the turns of
    the writer thread, of the hint threads and of the threads that close idle
    descriptors, in any order; and the abstract machine they implement, a
    finite map and a bounded queue. *)
From stdpp Require Import sorting.
From S2P Require Import Prelude Status Posix SafeIO Codec Records Ringbuf Uthash Keydir Log.
From S2P Require Import Filenames Files Disk DiskWrite World Hint Recovery HintGen.
From S2P Require Import Reader Writer Core Store Durable Tidy Run Turns.
Open Scope Z_scope.

(** ** The operations *)

Inductive op : Type :=
  | OPut (k v : bytes)                  (* ccask_put_blocking *)
  | OQueue (k v : bytes)                (* ccask_put *)
  | OGet (k : bytes)                    (* ccask_get, and the value is freed *)
  | OWriter                             (* a turn of the writer thread *)
  | OHint (h p : Z)                     (* the hint thread [h], on the file [p] *)
  | OClose (p : Z).                     (* a turn of the invalidator of [p] *)

Inductive result : Type :=
  | RStatus (s : ccask_status_e)
  | RValue (v : option bytes)
  | RWait                               (* the thread cannot go on *)
  | RDone.

#[export] Instance result_eq_dec : EqDecision result.
Proof. solve_decision. Defined.

Section ops.
Context {host : Host} {zlib : Zlib} (fuel : nat).

(** A client that asks for a key and copies the value. *)
Definition read_value (k : bytes) : M world result :=
  '(res, r) ← ccask_get fuel (Some k) (zlen k) (CRecord 0 0 0 None);
  if bool_decide (res ≠ CCASK_OK) then mret (RStatus res)
  else
    match rec_value r with
    | None => mret (RValue None)
    | Some p =>
        v ← zoom (load (Some p) (rec_value_size r));
        _ ← zoom (ccask_free_record r);
        mret (RValue (Some v))
    end.

(** A thread that has to wait is put off, and nothing has happened. *)
Definition turn {A} (m : M world A) : M world result := λ w,
  match m w with
  | Ret _ w' => Ret RDone w'
  | Blocked => Ret RWait w
  | Undef => Undef
  | NoFuel => NoFuel
  end.

(** A turn of the thread that closes the descriptor of [p], if there is one. *)
Definition close_turn (p : Z) : M world unit :=
  w ← get;
  if bool_decide (TInvalidator p ∈ w_running w) then
    ended ← zoom (datafile_fd_invalidator_turn p);
    if ended : bool
    then modify (λ w, set_w_running (filter (λ u, u ≠ TInvalidator p) (w_running w)) w)
    else mret tt
  else mret tt.

Definition run_op (o : op) : M world result :=
  match o with
  | OPut k v =>
      s ← ccask_put_blocking fuel (Some k) (zlen k) (Some v) (zlen v); mret (RStatus s)
  | OQueue k v => s ← ccask_put (Some k) (zlen k) (Some v) (zlen v); mret (RStatus s)
  | OGet k => read_value k
  | OWriter => turn (writer_turn fuel datafile_record_garbage)
  | OHint h p => turn (pthread_join (hint_body fuel) (THint h p))
  | OClose p => turn (close_turn p)
  end.

Fixpoint run_ops (os : list op) : M world (list result) :=
  match os with
  | [] => mret []
  | o :: os' => r ← run_op o; rs ← run_ops os'; mret (r :: rs)
  end.
End ops.

(** ** What they implement *)

Definition queue : Type := list (bytes * bytes).

(** One operation on a map and a queue of at most [cap - 1] records. *)
Definition abs_op (cap : Z) (o : op) (s : gmap bytes bytes * queue) :
    result * (gmap bytes bytes * queue) :=
  let '(m, q) := s in
  match o with
  | OPut k v => (RStatus CCASK_OK, (<[k := v]> m, q))
  | OQueue k v =>
      if bool_decide (zlen q = cap - 1) then (RStatus CCASK_FAIL, (m, q))
      else (RStatus CCASK_OK, (m, q ++ [(k, v)]))
  | OGet k => (RValue (m !! k), (m, q))
  | OWriter =>
      match q with
      | [] => (RWait, (m, q))
      | (k, v) :: q' => (RDone, (<[k := v]> m, q'))
      end
  | OHint _ _ | OClose _ => (RDone, (m, q))
  end.

Fixpoint abs_ops (cap : Z) (os : list op) (s : gmap bytes bytes * queue) :
    list result * (gmap bytes bytes * queue) :=
  match os with
  | [] => ([], s)
  | o :: os' =>
      let '(r, s1) := abs_op cap o s in
      let '(rs, s2) := abs_ops cap os' s1 in (r :: rs, s2)
  end.

Lemma abs_ops_app cap os os' s :
  abs_ops cap (os ++ os') s =
  let '(rs, s1) := abs_ops cap os s in let '(rs', s2) := abs_ops cap os' s1 in (rs ++ rs', s2).
Proof.
  revert s. induction os as [|o os IH]; intros s; [simpl; by destruct (abs_ops cap os' s)|].
  simpl. destruct (abs_op cap o s) as [r s1]. rewrite IH.
  destruct (abs_ops cap os s1) as [rs s2]. by destruct (abs_ops cap os' s2).
Qed.

(** ** The queue in the ring *)

Section ring.
Context {host : Host} {zlib : Zlib}.

(** All blocks that are in use, but for those of records. *)
Definition blocks (w : world) : list Z :=
  kd_blocks (hash_table (w_keydir w)) ++ owned w ++ handles w.

Lemma kept_blocks P w w' c :
  kept P w w' → c ∈ blocks w' → c ∈ blocks w ∨ e_brk (w_env w) ≤ c.
Proof.
  intros [_ _ H3 _ _ _ _ _ _ _ _ (ns & hs & O & T & [_ B _ _])]. unfold blocks.
  rewrite O, T, !elem_of_app. intros [[?|?]%H3|[[Hc|?]|[Hc|?]]]; auto.
  - right. apply (B c). apply elem_of_app. by left.
  - right. apply (B c). apply elem_of_app. by right.
Qed.

(** The blocks [bs] are allocated, and each is used once. *)
Record owns (bs : list Z) (w : world) : Prop := {
  ow_nodup : NoDup bs;
  ow_live : ∀ c, c ∈ bs → is_Some (e_heap (w_env w) !! c);
  ow_kd : ∀ c, c ∈ bs → c ∉ kd_blocks (hash_table (w_keydir w));
}.

Lemma owns_perm bs bs' w : bs ≡ₚ bs' → owns bs w → owns bs' w.
Proof. intros Hp [H1 H2 H3]. constructor; [by rewrite <-Hp|..]; intros c; rewrite <-Hp; auto. Qed.

Lemma owns_new P bs ns w w' :
  kept P w w' → heap_wf (w_env w) → (∀ c, c ∈ bs → ¬ P c) → new_in P w w' ns →
  owns bs w → owns (ns ++ bs) w'.
Proof.
  intros Hk Hwf HP [N B A L] [H1 H2 H3].
  assert (∀ c, c ∈ bs → c < e_brk (w_env w)) as Hold by (intros c Hc; by apply Hwf, H2). constructor.
  - apply NoDup_app. split; [done|]. split; [|done]. intros c Hc%B Hb%Hold. lia.
  - intros c [Hc|Hc]%elem_of_app; [by apply L|]. destruct (H2 c Hc) as [blk Hb]. exists blk.
    apply (kp_heap _ _ _ Hk); [by apply HP | done].
  - intros c [Hc|Hc]%elem_of_app; [by apply A|]. intros [?|?]%(kp_kd _ _ _ Hk).
    + by apply (H3 c).
    + apply Hold in Hc. lia.
Qed.

(** Some of the handles, and what is owned now. *)
Lemma owns_step P hs w w' :
  kept P w w' → heap_wf (w_env w) → (∀ c, c ∈ owned w ++ hs → ¬ P c) →
  owns (owned w ++ hs) w → owns (owned w' ++ hs) w'.
Proof.
  intros Hk Hwf HP Ho. destruct (kp_owned _ _ _ Hk) as (ns & new & O & _ & [N B A L]).
  eapply owns_perm; [|apply (owns_new P (owned w ++ hs) ns w w' Hk Hwf HP); [|exact Ho]].
  - by rewrite O, app_assoc.
  - constructor; [by apply NoDup_app in N as [? _]|..]; intros c Hc; [apply B|apply A|apply L];
      apply elem_of_app; by left.
Qed.

Lemma owns_kept P w w' :
  kept P w w' → heap_wf (w_env w) → (∀ c, c ∈ blocks w → ¬ P c) →
  owns (owned w ++ handles w) w → owns (owned w' ++ handles w') w'.
Proof.
  intros Hk Hwf HP Ho. destruct (kp_owned _ _ _ Hk) as (ns & hs & O & T & Hn).
  eapply owns_perm; [|eapply owns_new; [exact Hk | done | | exact Hn | exact Ho]].
  - rewrite O, T. solve_Permutation.
  - intros c Hc. apply HP, elem_of_app. by right.
Qed.

Lemma blocks_old w :
  keydir_ok (w_env w, w_keydir w) → owns (owned w ++ handles w) w →
  ∀ c, c ∈ blocks w → c < e_brk (w_env w).
Proof.
  intros Hkd Ho c [Hc|Hc]%elem_of_app; [by apply (keydir_blocks_old _ _ Hkd)|].
  apply (keydir_heap _ Hkd), (ow_live _ _ Ho c Hc).
Qed.

(** The ring's blocks stay the same. *)
Lemma owned_ring w r r' :
  w_ring w = Some r → rb_self_at r' = rb_self_at r → rb_buf_at r' = rb_buf_at r →
  owned (set_w_ring (Some r') w) = owned w.
Proof. unfold owned. intros -> Hs Hb. simpl. by rewrite Hs, Hb. Qed.

(** The records of [q] are in memory, each in three blocks, the later ones in
    newer blocks; none of them is one of [others]. *)
Definition queued (e : env) (others : list Z) (bs : list Z) (q : queue) : Prop :=
  Forall2 (λ b kv, ∃ h, record_at e others b h kv.1 kv.2) bs q ∧
  StronglySorted (λ b b', b + 3 ≤ b') bs.

Record ring_holds (e : env) (others : list Z) (r : ccask_writer_ringbuf) (cap : Z) (q : queue) :
    Prop := {
  rh_mutex : rb_mutex r = false;
  rh_ok : ring_ok r;
  rh_cap : rb_capacity r = cap;
  rh_queue : ∃ bs, queued e others bs q ∧
    ring_queue r = zip_with (λ b kv, datafile_iov b (zlen kv.1) (zlen kv.2)) bs q;
}.

(** An empty ring is about no memory. *)
Lemma ring_holds_idle e others e' others' r cap :
  ring_holds e others r cap [] → ring_holds e' others' r cap [].
Proof.
  intros [H1 H2 H3 (bs & [Hq _] & Hr)]. apply Forall2_nil_inv_r in Hq as ->.
  constructor; [exact H1 | exact H2 | exact H3 |]. exists []. split; [|exact Hr].
  split; constructor.
Qed.

Lemma record_at_kept P w w' b h k v :
  kept P w w' → (∀ c, b ≤ c < b + 3 → ¬ P c) →
  record_at (w_env w) (blocks w) b h k v → record_at (w_env w') (blocks w') b h k v.
Proof.
  intros Hk HP [R1 R2 R3 R4 R5 R6 R7 R8]. pose proof (kp_brk _ _ _ Hk).
  constructor; try done.
  - apply (kp_heap _ _ _ Hk); [apply HP; lia | done].
  - apply (kp_heap _ _ _ Hk); [apply HP; lia | done].
  - apply (kp_heap _ _ _ Hk); [apply HP; lia | done].
  - intros c [Hc|Hc]%(kept_blocks _ _ _ _ Hk); [by apply R4 | lia].
  - lia.
Qed.

Lemma queued_kept P w w' bs q :
  kept P w w' → (∀ b c, b ∈ bs → b ≤ c < b + 3 → ¬ P c) →
  queued (w_env w) (blocks w) bs q → queued (w_env w') (blocks w') bs q.
Proof.
  intros Hk HP [Hq Hs]. split; [|done]. clear Hs.
  induction Hq as [|b kv bs q [h Hra] Hq IH]; constructor.
  - exists h. eapply record_at_kept; [exact Hk | intros c; apply HP; by left | exact Hra].
  - apply IH. intros b' c Hb'. apply HP. by right.
Qed.

Lemma ring_holds_kept w w' r cap q :
  kept (λ _, False) w w' → ring_holds (w_env w) (blocks w) r cap q →
  ring_holds (w_env w') (blocks w') r cap q.
Proof.
  intros Hk [H1 H3 H4 (bs & Hq & Hr)]. constructor; try done. exists bs. split; [|done].
  eapply queued_kept; [exact Hk | by intros ? ? _ _ [] | exact Hq].
Qed.

Lemma zlen_ring_queue e others r cap q :
  ring_holds e others r cap q → ring_count r = zlen q.
Proof.
  intros [_ Hok _ (bs & [Hq _] & Hr)]. rewrite <-length_ring_queue by done. rewrite Hr.
  unfold zlen. rewrite length_zip_with. apply Forall2_length in Hq. lia.
Qed.

(** A record at the end. *)
Lemma queued_snoc w w' bs q b h k v :
  kept (λ _, False) w w' → queued (w_env w) (blocks w) bs q → e_brk (w_env w) ≤ b →
  record_at (w_env w') (blocks w') b h k v →
  queued (w_env w') (blocks w') (bs ++ [b]) (q ++ [(k, v)]).
Proof.
  intros Hk Hq Hb Hra. pose proof (queued_kept _ _ _ _ _ Hk ltac:(by intros ? ? _ _ []) Hq) as [Hq' Hs].
  destruct Hq as [Hq _]. split.
  - apply Forall2_app; [done|]. constructor; [by exists h | done].
  - apply StronglySorted_app. split; [|split; [done|by repeat constructor]].
    intros x y Hx ->%list_elem_of_singleton.
    apply list_elem_of_lookup in Hx as [i Hi].
    destruct (Forall2_lookup_l _ _ _ _ _ Hq Hi) as (kv & _ & h' & Hr).
    pose proof (ra_brk _ _ _ _ _ _ Hr). lia.
Qed.

Lemma ring_push w w' r cap q b h k v :
  kept (λ _, False) w w' → ring_holds (w_env w) (blocks w) r cap q → zlen q ≠ cap - 1 →
  e_brk (w_env w) ≤ b → record_at (w_env w') (blocks w') b h k v →
  ring_holds (w_env w') (blocks w')
    (set_rb_head ((rb_head r + 1) mod rb_capacity r) (set_rb_buf
      (<[Z.to_nat (rb_head r) := datafile_iov b (zlen k) (zlen v)]> (rb_buf r)) r))
    cap (q ++ [(k, v)]).
Proof.
  intros Hk Hrh Hfull Hb Hra. pose proof (zlen_ring_queue _ _ _ _ _ Hrh) as Hcount.
  destruct Hrh as [H1 H3 H4 (bs & Hq & Hr)].
  destruct (ring_queue_push r (datafile_iov b (zlen k) (zlen v))
    ((rb_head r + 1) mod rb_capacity r) H3 eq_refl eq_refl) as [Hok' Hqueue'].
  { rewrite ring_full by done. congruence. }
  constructor; [done | done | done |]. exists (bs ++ [b]). split.
  - by eapply queued_snoc.
  - rewrite Hqueue', Hr, zip_with_app; [done|].
    destruct Hq as [Hq _]. by apply Forall2_length in Hq.
Qed.

(** The blocks of the records in the ring. *)
Definition record_blocks (iov : list iovec) : list Z := iov ≫= λ v, option_list (fst <$> iov_base v).
Definition ring_blocks (w : world) : list Z :=
  match w_ring w with Some r => ring_queue r ≫= record_blocks | None => [] end.

Lemma record_blocks_datafile b ks vs c : c ∈ record_blocks (datafile_iov b ks vs) ↔ b ≤ c < b + 3.
Proof.
  change (record_blocks _) with [b; b + 1; b + 2]. rewrite !elem_of_cons, elem_of_nil. lia.
Qed.

(** Memory that is not of the queued records stays as it is, and records that
    are queued are in new blocks. *)
Record memory_kept (w w' : world) : Prop := {
  mk_brk : e_brk (w_env w) ≤ e_brk (w_env w');
  mk_heap : ∀ c blk, c ∉ ring_blocks w → e_heap (w_env w) !! c = Some blk →
    e_heap (w_env w') !! c = Some blk;
  mk_ring : ∀ c, c ∈ ring_blocks w' → c ∈ ring_blocks w ∨ e_brk (w_env w) ≤ c;
  mk_blocks : ∀ c, c ∈ blocks w' → c ∈ blocks w ∨ e_brk (w_env w) ≤ c;
}.

Lemma memory_kept_refl w : memory_kept w w.
Proof. constructor; [lia | done | by left | by left]. Qed.

Lemma memory_kept_trans w1 w2 w3 :
  heap_wf (w_env w1) → memory_kept w1 w2 → memory_kept w2 w3 → memory_kept w1 w3.
Proof.
  intros Hwf [B1 H1 R1 S1] [B2 H2 R2 S2]. constructor; [lia | | |].
  - intros c blk Hc Hblk. apply H2; [|by apply H1].
    intros [?|?]%R1; [done|]. pose proof (Hwf c ltac:(by eexists)). lia.
  - intros c [[?|?]%R1|?]%R2; [by left | by right | right; lia].
  - intros c [[?|?]%S1|?]%S2; [by left | by right | right; lia].
Qed.

Lemma memory_kept_by P w w1 rg :
  kept P w w1 → (∀ c, P c → c ∈ ring_blocks w) → blocks (set_w_ring rg w1) = blocks w1 →
  (∀ c, c ∈ ring_blocks (set_w_ring rg w1) → c ∈ ring_blocks w ∨ e_brk (w_env w) ≤ c) →
  memory_kept w (set_w_ring rg w1).
Proof.
  intros Hk HP Hb Hr. constructor; [apply (kp_brk _ _ _ Hk) | | exact Hr |].
  - intros c blk Hc. apply (kp_heap _ _ _ Hk). by intros ?%HP.
  - intros c. rewrite Hb. apply (kept_blocks _ _ _ _ Hk).
Qed.

(** The first record leaves. *)
Lemma ring_pop w r cap k v q :
  ring_holds (w_env w) (blocks w) r cap ((k, v) :: q) →
  ∃ b h tl, ring_queue r = datafile_iov b (zlen k) (zlen v) :: tl ∧
    record_at (w_env w) (blocks w) b h k v ∧
    ring_queue (set_rb_tail ((rb_tail r + 1) mod rb_capacity r) r) = tl ∧
    ∀ w', kept (λ c, b ≤ c < b + 3) w w' →
      ring_holds (w_env w') (blocks w')
        (set_rb_tail ((rb_tail r + 1) mod rb_capacity r) r) cap q.
Proof.
  intros [H1 H3 H4 (bs & [Hq Hs] & Hr)].
  destruct bs as [|b bs]; [by inversion Hq|]. apply Forall2_cons in Hq as [(h & Hra) Hq].
  apply StronglySorted_inv in Hs as [Hs Hb]. rewrite Forall_forall in Hb.
  assert (rb_tail r ≠ rb_head r) as Hne.
  { rewrite ring_empty by done. by rewrite Hr. }
  destruct (ring_queue_pop r ((rb_tail r + 1) mod rb_capacity r) H3 Hne eq_refl)
    as (Hok' & slot & _ & Hqueue').
  rewrite Hr in Hqueue'. injection Hqueue' as _ Htl.
  exists b, h. eexists. split; [exact Hr|]. split; [done|]. split; [by symmetry|]. intros w' Hk.
  constructor; [done | done | done |]. exists bs. split; [|by symmetry].
  eapply queued_kept; [exact Hk | | by split]. intros b' c Hb' Hc. specialize (Hb b' Hb'). simpl. lia.
Qed.
End ring.

(** ** The operations on a running store *)

(** A block that was allocated and freed again. *)
Definition freed (b : Z) (w : world) : world :=
  World (set_heap (delete b (e_heap (w_env w))) (w_env w)) (w_files w) (w_keydir w) (w_ring w)
    (w_threads w) (w_running w) (w_shutting_down w).

(** Other contents of the memory. *)
Definition with_heap (h : gmap Z bytes) (w : world) : world :=
  set_part (set_heap h (w_env w)) w.

Lemma running_heap {host : Host} {zlib : Zlib} w l m n h :
  running w l m n → heap_wf (set_heap h (w_env w)) →
  (∀ c, c ∈ kd_blocks (hash_table (w_keydir w)) → h !! c = e_heap (w_env w) !! c) →
  running (with_heap h w) l m n.
Proof.
  intros [[Hd Hk Hm] D R C H5 H6 H7 H8 H9 H10 H11 H12] Hwf Hkd.
  constructor; [| | | | exact H5 | exact H6 | exact H7 | exact H8 | exact H9 | exact H10 | exact H11 | exact H12].
  - constructor; [| |exact Hm].
    + apply (disk_ok_env (w_env w) _ (w_files w) l);
        [apply kernel_ext_refl | apply (do_kernel _ _ Hd) | exact Hd].
    + by apply (keydir_ok_blocks (w_env w)).
  - destruct D as [D1 D2 D3 D4 D5 D6].
    constructor; [exact D1 | exact D2 | exact D3 | exact D4 | exact D5 | exact D6].
  - destruct R as [R1 R2 R3]. constructor; [exact R1 | exact R2 | exact R3].
  - destruct C as [C1 C2]. constructor; [exact C1 | exact C2].
Qed.

Lemma quiet_freed w w' b :
  quiet w w' → e_heap (w_env w) !! b = None → quiet w (freed b w').
Proof.
  intros [] Hb. constructor; try done. simpl. apply map_subseteq_spec. intros a blk Ha.
  rewrite lookup_delete_ne by congruence. by eapply lookup_weaken.
Qed.

Section operations.
Context {host : Host} {zlib : Zlib} {laws : ZlibLaws}.

Lemma load_block e b v : e_heap e !! b = Some v → load (Some (b, 0)) (zlen v) e = Ret v e.
Proof. intros Hb. unfold load. by rewrite bind_get, (mem_read_block _ _ _ Hb). Qed.

Lemma store_ok_freed w w' l m b :
  store_ok w l m → store_ok w' l m → quiet w w' → e_heap (w_env w) !! b = None →
  store_ok (freed b w') l m.
Proof.
  intros Hok Hok' Hq Hb. pose proof (quiet_freed _ _ _ Hq Hb) as Hq'.
  pose proof (st_disk _ _ _ Hok') as Hd. eapply store_ok_same; [exact Hok | | | | | |].
  - apply (disk_ok_env (w_env w') _ (w_files w') l);
      [apply kernel_ext_refl | apply (do_kernel _ _ Hd) | exact Hd].
  - apply (q_keydir _ _ Hq).
  - intros a. simpl. rewrite lookup_delete. case_decide; [by intros []|].
    apply (keydir_heap _ (st_keydir _ _ _ Hok')).
  - intros a [blk Ha]. rewrite Ha. eapply lookup_weaken; [exact Ha | apply (q_heap _ _ Hq')].
  - apply (q_ids _ _ Hq).
  - apply (quiet_data_content w w' Hq).
Qed.

Lemma value_size w l m n k v :
  running w l m n → m !! k = Some v → record_size k v ≤ Z.of_nat n.
Proof.
  intros Hr Hk. pose proof (st_data _ _ _ (rn_store _ _ _ _ Hr) k) as Hm.
  destruct (keydir_map (w_keydir w) !! k) as [i|]; [|congruence].
  destruct Hm as (v' & Hv' & content & h & Hin & Hdc & _ & Hrec & _ & _ & _ & Hpos & Hend & _).
  assert (v' = v) as -> by congruence.
  apply list_elem_of_fmap in Hin as (p & Hid & Hp).
  pose proof (do_rep _ _ (st_disk _ _ _ (rn_store _ _ _ _ Hr))) as Hrep.
  destruct (rep_lookup _ _ _ Hrep Hp) as [x Hx].
  destruct (rc_data _ _ _ (rn_recoverable _ _ _ _ Hr) p x Hp Hx) as (c & Hc & Hlen).
  unfold node_id in Hid. rewrite Hx in Hid. simpl in Hid, Hc. rewrite Hid in Hdc.
  unfold disk in Hc. assert (c = content) as -> by congruence.
  rewrite (zlen_datafile_record _ _ _ Hrec) in Hend. destruct Hrec as (_ & Hks & Hvs).
  unfold record_size. rewrite Hks, Hvs. unfold zlen in *. lia.
Qed.

Lemma get_running fuel w l m n k :
  running w l m n → (length (events (w_env w)) + n < fuel)%nat →
  ∃ w', read_value fuel k w = Ret (RValue (m !! k)) w' ∧ running w' l m n ∧ quiet w w'.
Proof.
  intros Hr Hfuel. pose proof (rn_store _ _ _ _ Hr) as Hok.
  destruct (wp_inv _ _ _ (get_ok fuel w l m (Some k) (zlen k) k (CRecord 0 0 0 None) Hok
    (rn_calm _ _ _ _ Hr) (cbuf_read_all k) ltac:(intros v Hv; pose proof (value_size _ _ _ _ _ _ Hr Hv);
      unfold record_size in *; lia))) as ([res r] & w1 & Hrun & Hres & Hok1 & Hc1 & Hq & Hval).
  simpl in Hres, Hval. subst res. unfold read_value. destruct (m !! k) as [v|] eqn:Hk.
  - destruct Hval as (b & Hb & Hblk & Hnew & Hsz). exists (freed b w1).
    split; [|split; [|by apply quiet_freed]].
    + erewrite bind_run by exact Hrun. cbn beta iota. rewrite bool_decide_neq_refl, Hb, Hsz.
      assert (zoom (load (Some (b, 0)) (zlen v)) w1 = Ret v w1) as Hload.
      { destruct w1. by apply zoom_env, load_block. }
      erewrite bind_run by exact Hload. unfold ccask_free_record. rewrite Hb.
      erewrite bind_run; [reflexivity|]. unfold zoom, free. simpl.
      rewrite bool_decide_eq_true_2 by (split; [done | by eexists]). reflexivity.
    + eapply running_quiet; [exact Hr | by apply quiet_freed | |by destruct Hc1; constructor].
      exact (store_ok_freed w w1 l m b Hok Hok1 Hq Hnew).
  - exists w1. split; [|split; [by eapply running_quiet | done]].
    erewrite bind_run by exact Hrun. cbn beta iota. by rewrite bool_decide_neq_refl, Hval.
Qed.

(** *** The queue *)

Lemma set_err_grow x e : env_grow e (set_err x e).
Proof. by constructor; eauto. Qed.

Lemma ccask_put_run kb ks vb vs w :
  w_shutting_down w = false →
  ccask_put (Some kb) ks (Some vb) vs w =
  (res ← CCASK_ATTEMPT 5 (t ← zoom time;
     zoom (ccask_writer_ringbuf_push (u32 t) (Some kb) ks (Some vb) vs));
   mret (if bool_decide (res ≠ CCASK_OK) then CCASK_FAIL else CCASK_OK)) w.
Proof. intros Hsd. unfold ccask_put. by rewrite bind_get, Hsd. Qed.

(** The ring is full: all attempts fail. *)
Lemma push_attempts_full n e f kd r th ru sd key ks value vs :
  rb_mutex r = false → ring_ok r → ring_count r = rb_capacity r - 1 →
  ∃ e', CCASK_ATTEMPT (S n) (t ← zoom time;
      zoom (ccask_writer_ringbuf_push (u32 t) key ks value vs))
      (World e f kd (Some r) th ru sd) = Ret CCASK_RETRY (World e' f kd (Some r) th ru sd) ∧
    env_grow e e'.
Proof.
  intros Hm Hr Hfull. revert e. induction n as [|n IH]; intros e.
  all: destruct (time_step e) as (t & e1 & Ht & Hst).
  all: pose proof (env_grow_trans _ _ _ (env_step_grow _ _ Hst)
         (set_err_grow CCASK_ERR_RINGBUFFER_FULL e1)) as Hg.
  all: assert ((t ← zoom time; zoom (ccask_writer_ringbuf_push (u32 t) key ks value vs))
         (World e f kd (Some r) th ru sd) =
         Ret CCASK_RETRY (World (set_err CCASK_ERR_RINGBUFFER_FULL e1) f kd (Some r) th ru sd)) as Hrun
    by (erewrite bind_run by apply zoom_env, Ht; apply zoom_ring;
        rewrite push_run by done; by rewrite bool_decide_eq_true_2).
  - eexists. split; [|exact Hg]. by apply attempt_last.
  - destruct (IH (set_err CCASK_ERR_RINGBUFFER_FULL e1)) as (e' & Hn & Hg').
    exists e'. split; [|by eapply env_grow_trans].
    rewrite <-Hn. by apply (attempt_retry n _ _ CCASK_RETRY).
Qed.

(** What [ccask_put] does: the record is appended to the queue, or refused. *)
Lemma put_queues e f kd r th ru l m n cap q k v :
  let w := World e f kd (Some r) th ru false in
  running w l m n → ring_holds e (blocks w) r cap q → (∀ c, c ∈ blocks w → c < e_brk e) →
  is_u32 (zlen k) → is_u32 (zlen v) → k ≠ [] → v ≠ [] →
  ∃ e' r', let w' := World e' f kd (Some r') th ru false in
    ccask_put (Some k) (zlen k) (Some v) (zlen v) w =
      Ret (if bool_decide (zlen q = cap - 1) then CCASK_FAIL else CCASK_OK) w' ∧
    env_grow e e' ∧
    rb_shutdown r' = rb_shutdown r ∧ blocks w' = blocks w ∧
    (∀ c, c ∈ ring_blocks w' → c ∈ ring_blocks w ∨ e_brk e ≤ c) ∧
    ring_holds e' (blocks w') r' cap (if bool_decide (zlen q = cap - 1) then q else q ++ [(k, v)]).
Proof.
  intros w Hr Hrh Hold Hk Hv Hkn Hvn. pose proof (zlen_ring_queue _ _ _ _ _ Hrh) as Hcount.
  pose proof (rh_cap _ _ _ _ _ Hrh) as Hcap. pose proof (rh_ok _ _ _ _ _ Hrh) as Hok.
  pose proof (rh_mutex _ _ _ _ _ Hrh) as Hm.
  rewrite ccask_put_run by done. case_bool_decide as Hfull.
  - destruct (push_attempts_full 4 e f kd r th ru false (Some k) (zlen k) (Some v) (zlen v))
      as (e' & Hrun & Hg); [done | done | congruence |].
    exists e', r. split; [by erewrite bind_run by exact Hrun|]. do 3 (split; [done|]).
    split; [by left|]. apply (ring_holds_kept w (World e' f kd (Some r) th ru false)); [by apply kept_grow | done].
  - destruct (lookup_lt_is_Some_2 (rb_buf r) (Z.to_nat (rb_head r))) as [slot Hslot].
    { pose proof (ring_cap _ Hok). pose proof (ring_head _ Hok). zlen_lia. }
    pose proof (Forall_lookup_1 _ _ _ _ (ring_slots _ Hok) Hslot) as Hlen.
    destruct slot as [|v0 [|v1 [|v2 [|]]]]; try done.
    destruct (record_created v0 v1 v2 e (blocks w) k (zlen k) k v (zlen v) v (rn_calm _ _ _ _ Hr)
      (keydir_heap _ (st_keydir _ _ _ (rn_store _ _ _ _ Hr))) Hold (cbuf_read_all k) (cbuf_read_all v) Hk Hv Hkn Hvn)
      as (t & e0 & e3 & b & h & Ht & Hcreate & Hg & Hb & Hra).
    set (r' := set_rb_head ((rb_head r + 1) mod rb_capacity r) (set_rb_buf
      (<[Z.to_nat (rb_head r) := datafile_iov b (zlen k) (zlen v)]> (rb_buf r)) r)).
    assert (CCASK_ATTEMPT 5 (t ← zoom time;
      zoom (ccask_writer_ringbuf_push (u32 t) (Some k) (zlen k) (Some v) (zlen v))) w =
      Ret CCASK_OK (World e3 f kd (Some r') th ru false)) as Hrun.
    { apply attempt_once; [|done]. erewrite bind_run by apply zoom_env, Ht.
      apply zoom_ring. rewrite push_run by done. rewrite bool_decide_eq_false_2 by congruence.
      by rewrite (list_lookup_total_correct _ _ _ Hslot), Hcreate. }
    exists e3, r'. split; [by rewrite (bind_run _ _ _ _ _ Hrun)|]. split; [exact Hg|]. do 2 (split; [done|]).
    split.
    { destruct (ring_queue_push r (datafile_iov b (zlen k) (zlen v))
        ((rb_head r + 1) mod rb_capacity r) Hok eq_refl eq_refl) as [_ Hq'].
      { rewrite ring_full by done. congruence. }
      unfold ring_blocks. cbn [w w_ring]. fold r' in Hq'. rewrite Hq', bind_app.
      intros c [Hc|Hc]%elem_of_app; [by left|]. right.
      apply list_elem_of_bind in Hc as (iov & Hc & ->%list_elem_of_singleton).
      apply record_blocks_datafile in Hc. lia. }
    apply (ring_push w (World e3 f kd (Some r) th ru false) r cap q b h k v); try done. by apply kept_grow.
Qed.

(** *** The writer thread *)

Lemma writer_waits fuel e f kd r th ru sd others cap record :
  ring_holds e others r cap [] → rb_shutdown r = false →
  writer_turn fuel record (World e f kd (Some r) th ru sd) = Blocked.
Proof.
  intros Hrh H2. pose proof (zlen_ring_queue _ _ _ _ _ Hrh) as Hcount.
  destruct Hrh as [H1 H3 _ _]. unfold writer_turn. apply bind_blocked. unfold zoom. simpl.
  rewrite pop_run by done. rewrite <-length_ring_queue in Hcount by done.
  destruct (ring_queue r); [by rewrite H2 | by unfold zlen in Hcount].
Qed.

Lemma writer_running fuel e f kd r th ru sd l m n cap k v q record :
  let w := World e f kd (Some r) th ru sd in
  running w l m n → ring_holds e (blocks w) r cap ((k, v) :: q) → is_u64 (active_id w + 1) →
  record_size k v ≤ fs_max_active f → 2 * (Z.of_nat n + record_size k v) < 2 ^ 32 →
  (length (events e) + Z.to_nat (record_size k v) < fuel)%nat →
  ∃ slot w1 r' l' P, let w' := set_w_ring (Some r') w1 in
    writer_turn fuel record w = Ret (true, slot) w' ∧
    running w' l' (<[k := v]> m) (n + Z.to_nat (record_size k v)) ∧
    kept P w w1 ∧ (∀ c, c ∈ blocks w → ¬ P c) ∧ memory_kept w w' ∧
    rb_shutdown r' = rb_shutdown r ∧ rb_self_at r' = rb_self_at r ∧ rb_buf_at r' = rb_buf_at r ∧
    ring_holds (w_env w') (blocks w') r' cap q ∧ active_id w' ≤ active_id w + 1 ∧
    (active_size w ≤ fs_max_active f → active_size w' ≤ fs_max_active f).
Proof.
  intros w Hr Hrh Hid Hsz Hsm Hfuel.
  pose proof (rh_mutex _ _ _ _ _ Hrh) as Hm. pose proof (rh_ok _ _ _ _ _ Hrh) as Hok.
  destruct (ring_pop w r cap k v q Hrh) as (b & h & tl & Hqueue & Hra & Htl & Hrest).
  set (r1 := set_rb_tail ((rb_tail r + 1) mod rb_capacity r) r) in *.
  pose proof (running_ring e f kd (Some r) (Some r1) th ru sd l m n Hr) as Hr1.
  destruct (write_ok fuel e f kd (Some r1) th ru sd (blocks w) l m n b h k v) as
    (e5 & kd5 & e6 & f6 & th6 & ru6 & l6 & Hwr & Hfree & Hr6 & Hkept & Hid6 & Hs6); try done.
  { intros c Hc. apply elem_of_app. by left. }
  set (w1 := World e6 f6 kd5 (Some r) th6 ru6 sd).
  assert (kept (λ c, b ≤ c < b + 3) w w1) as Hk1.
  { destruct Hkept as [? ? ? ? ? ? ? ? ? ? [T N] (ns & hs & ? & ? & [? ? ? ?])].
    constructor; try done. by exists ns, hs. }
  exists (datafile_iov b (zlen k) (zlen v)), w1, r1, l6, (λ c, b ≤ c < b + 3).
  split; [|split; [exact Hr6|split; [exact Hk1|split; [apply (ra_apart _ _ _ _ _ _ Hra)|split]]]].
  - unfold writer_turn. erewrite bind_run
      by (apply zoom_ring; rewrite pop_run by done; rewrite Hqueue; reflexivity).
    cbn beta iota. rewrite bool_decide_neq_refl. fold r1.
    erewrite bind_run by exact Hwr. by erewrite bind_run by apply zoom_env, Hfree.
  - apply (memory_kept_by _ w w1 (Some r1) Hk1); [|done|]; unfold ring_blocks; cbn [w set_w_ring w_ring];
      rewrite ?Htl, Hqueue; cbn [mbind list_bind]; intros c Hc; rewrite elem_of_app.
    + left. by apply record_blocks_datafile.
    + left. by right.
  - do 3 (split; [done|]). split; [exact (Hrest w1 Hk1)|]. by split; [apply Hid6|].
Qed.
End operations.

(** ** Refinement *)

Section refinement.
Context {host : Host} {zlib : Zlib} {laws : ZlibLaws} (cap mx : Z).

(** The store [w] with its ring represents the map [m] and the queue [q]. *)
Record system (w : world) (l : list Z) (m : gmap bytes bytes) (q : queue) (n : nat) : Prop := {
  sy_running : running w l m n;
  sy_up : w_shutting_down w = false;
  sy_ring : ∃ r, w_ring w = Some r ∧ rb_shutdown r = false ∧ ring_holds (w_env w) (blocks w) r cap q;
  sy_owns : owns (owned w ++ handles w) w;
  sy_threads : hint_threads w;
  sy_writer : TWriter ∈ w_running w;
  sy_max : fs_max_active (w_files w) = mx;
  sy_active : active_size w ≤ mx;
  sy_fits : Forall (λ kv, record_size kv.1 kv.2 ≤ mx) q;
  sy_tidy : tidy_world w;
}.

(** The records fit into a file, and neither key nor value is empty. *)
Definition op_ok (o : op) : Prop :=
  match o with
  | OPut k v | OQueue k v => k ≠ [] ∧ v ≠ [] ∧ record_size k v ≤ mx
  | _ => True
  end.

(** The bytes an operation may have to write, now or later. *)
Definition op_bytes (o : op) : nat :=
  match o with OPut k v | OQueue k v => Z.to_nat (record_size k v) | _ => 0%nat end.
Definition queue_bytes (q : queue) : nat :=
  sum_list_with (λ kv, Z.to_nat (record_size kv.1 kv.2)) q.
Definition ops_bytes (os : list op) : nat := sum_list_with op_bytes os.

Lemma active_id_nonneg w l m n : running w l m n → 0 ≤ active_id w.
Proof.
  intros Hr. pose proof (rn_store _ _ _ _ Hr) as Hok.
  destruct (store_head _ _ _ Hok) as (p & l' & -> & _ & ->).
  destruct (rep_lookup _ _ p (do_rep _ _ (st_disk _ _ _ Hok)) ltac:(by left)) as [x Hx].
  destruct (do_nodes _ _ (st_disk _ _ _ Hok) p x ltac:(by left) Hx) as (_ & Hu & _).
  unfold node_id. simpl in Hx. rewrite Hx. apply Hu.
Qed.

Lemma active_size_id w l m :
  store_ok w l m → active_size w = default 0 (zlen <$> data_content (disk w) (active_id w)).
Proof.
  intros Hok. destruct (store_head _ _ _ Hok) as (p & l' & -> & Hh & ->).
  destruct (rep_lookup _ _ p (do_rep _ _ (st_disk _ _ _ Hok)) ltac:(by left)) as [x Hx].
  unfold active_size, node_id. simpl in Hx. rewrite Hh. simpl. by rewrite Hx.
Qed.

Lemma quiet_active w w' l m :
  store_ok w l m → store_ok w' l m → quiet w w' →
  active_id w' = active_id w ∧ active_size w' = active_size w.
Proof.
  intros Hok Hok' Hq. assert (active_id w' = active_id w) as Hid.
  { destruct (store_head _ _ _ Hok) as (p & l' & Hl & _ & ->).
    destruct (store_head _ _ _ Hok') as (p' & l'' & Hl' & _ & ->).
    rewrite Hl in Hl'. injection Hl' as <- <-. apply (q_ids _ _ Hq). }
  split; [done|]. rewrite (active_size_id _ _ _ Hok), (active_size_id _ _ _ Hok'), Hid.
  by rewrite (quiet_data_content w w' Hq).
Qed.

(** A call that leaves the ring alone. *)
Lemma system_kept w w' l l' m m' q n n' :
  system w l m q n → running w' l' m' n' → kept (λ _, False) w w' → active_size w' ≤ mx →
  system w' l' m' q n'.
Proof.
  intros [H1 H2 (r & Hring & Hsd & Hr) Ho Hth Hwr H3 H4 H5 H6] Hr' Hk Hs.
  constructor; [done | | | | by apply (kp_hints _ _ _ Hk) | by apply (kp_writer _ _ _ Hk) | | done | done
    | by apply (nk_tidy _ _ (kp_names _ _ _ Hk))].
  - by rewrite (kp_down _ _ _ Hk).
  - exists r. rewrite (kp_ring _ _ _ Hk). do 2 (split; [done|]). by eapply ring_holds_kept.
  - eapply owns_kept; [exact Hk | | by intros ? _ [] | exact Ho].
    apply (keydir_heap _ (st_keydir _ _ _ (rn_store _ _ _ _ H1))).
  - by rewrite (kp_max _ _ _ Hk).
Qed.

(** A thread that is not the writer ends. *)
Lemma kept_filter P w w' t :
  kept P w w' → t ≠ TWriter → kept P w (set_w_running (filter (λ u, u ≠ t) (w_running w')) w').
Proof.
  intros [H1 H2 H3 H4 H5 H6 H6' D U H7 [Nt Nn Ni Nd] (ns & hs & O & T & [? ? ? ?])] Ht. constructor; try done.
  - intros Hin%H7. by apply list_elem_of_filter.
  - by exists ns, hs.
Qed.

(** What does not go back: at most [s] new active files, the events, the
    directory. *)
Record later (s : Z) (w w' : world) : Prop := {
  lt_id : active_id w' ≤ active_id w + s;
  lt_events : events (w_env w') `suffix_of` events (w_env w);
  lt_dir : fs_data_dir (w_files w') = fs_data_dir (w_files w);
  lt_names : names_kept w w';
  lt_memory : memory_kept w w';
}.

Lemma kept_later s w w' : kept (λ _, False) w w' → active_id w' ≤ active_id w + s → later s w w'.
Proof.
  intros Hk Hid. constructor; [exact Hid | apply (kp_events _ _ _ Hk) | apply (kp_dir _ _ _ Hk)
    | apply (kp_names _ _ _ Hk) |].
  constructor; [apply (kp_brk _ _ _ Hk) | | |].
  - intros c blk _. apply (kp_heap _ _ _ Hk). by intros [].
  - unfold ring_blocks. rewrite (kp_ring _ _ _ Hk). by left.
  - intros c. apply (kept_blocks _ _ _ _ Hk).
Qed.

Lemma later_refl s w : 0 ≤ s → later s w w.
Proof.
  intros Hs. constructor; [lia | reflexivity | reflexivity | by apply names_kept_files | apply memory_kept_refl].
Qed.

Lemma later_trans s s' w1 w2 w3 :
  heap_wf (w_env w1) → later s w1 w2 → later s' w2 w3 → later (s + s') w1 w3.
Proof.
  intros Hwf [I1 E1 D1 N1 M1] [I2 E2 D2 N2 M2].
  constructor; [lia | by etrans | congruence | exact (names_kept_trans _ _ _ N1 N2)
    | exact (memory_kept_trans _ _ _ Hwf M1 M2)].
Qed.

(** One operation is one operation of the abstract machine. *)
Definition refines_op (fuel : nat) (o : op) (w : world) (m : gmap bytes bytes) (q : queue)
    (n : nat) : Prop :=
  ∃ w' l' m' q' n' r,
    abs_op cap o (m, q) = (r, (m', q')) ∧ run_op fuel o w = Ret r w' ∧
    system w' l' m' q' n' ∧ (n' + queue_bytes q' ≤ n + queue_bytes q + op_bytes o)%nat ∧
    later 1 w w'.

Lemma close_turn_refines fuel w l m q n p :
  system w l m q n → refines_op fuel (OClose p) w m q n.
Proof.
  intros Hsy. pose proof (sy_running _ _ _ _ _ Hsy) as Hr.
  destruct (decide (TInvalidator p ∈ w_running w)) as [Hin|Hin].
  2: { exists w, l, m, q, n, RDone. split; [done|]. split.
    { simpl. unfold turn, close_turn. by rewrite bind_get, bool_decide_eq_false_2. }
    split; [done|]. split; [simpl; lia | by apply later_refl]. }
  destruct (invalidator_running w l m n p Hr (rn_closing _ _ _ _ Hr p Hin))
    as (ended & w1 & Hrun & Hr1 & Hk & Hid & Has & Hru).
  set (w2 := if ended then set_w_running (filter (λ u, u ≠ TInvalidator p) (w_running w1)) w1 else w1).
  assert (running w2 l m n) as Hr2.
  { subst w2. destruct ended; [|done]. destruct Hr1 as [H1 H2 H3 H4 H5 H6 H6' H7 H8 H9 H9' Hhint].
    constructor; try done; simpl.
    - by apply store_ok_threads.
    - intros h r [_ Hi]%list_elem_of_filter. by apply (H8 h).
    - intros h h' r [_ Hi]%list_elem_of_filter [_ Hi']%list_elem_of_filter. by eapply H9.
    - intros r [_ Hi]%list_elem_of_filter. by apply H9'. }
  assert (kept (λ _, False) w w2) as Hk2 
    by (subst w2; destruct ended; [by apply kept_filter|done]).
  exists w2, l, m, q, n, RDone. split; [done|]. split.
  { simpl. unfold turn, close_turn. rewrite bind_get, bool_decide_eq_true_2 by done.
    erewrite bind_run by exact Hrun. subst w2. by destruct ended. }
  split; [eapply system_kept; [exact Hsy | exact Hr2 | exact Hk2 |] |].
  - assert (active_size w2 = active_size w1) as -> by (subst w2; by destruct ended).
    rewrite Has. apply (sy_active _ _ _ _ _ Hsy).
  - split; [simpl; lia|]. apply (kept_later _ _ _ Hk2).
    assert (active_id w2 = active_id w1) as -> by (subst w2; by destruct ended). lia.
Qed.

Lemma hint_refines fuel w l m q n h p :
  system w l m q n → (length (events (w_env w)) + n + 20 < fuel)%nat →
  refines_op fuel (OHint h p) w m q n.
Proof.
  intros Hsy Hfuel. pose proof (sy_running _ _ _ _ _ Hsy) as Hr.
  destruct (decide (THint h p ∈ w_running w)) as [Hin|Hin].
  - destruct (hint_running fuel w l m n h p Hr Hin Hfuel) as (w' & Hrun & Hr' & Hk & Hid & Has).
    exists w', l, m, q, n, RDone. split; [done|]. split.
    { simpl. unfold turn. by rewrite Hrun. }
    split; [eapply system_kept; [exact Hsy | exact Hr' | exact Hk |] |].
    + rewrite Has. apply (sy_active _ _ _ _ _ Hsy).
    + split; [simpl; lia|]. apply (kept_later _ _ _ Hk). lia.
  - exists w, l, m, q, n, RDone. split; [done|]. split.
    { simpl. unfold turn, pthread_join. by rewrite bind_get, bool_decide_eq_false_2. }
    split; [done|]. split; [simpl; lia | by apply later_refl].
Qed.

Lemma get_refines fuel w l m q n k :
  system w l m q n → (length (events (w_env w)) + n < fuel)%nat →
  refines_op fuel (OGet k) w m q n.
Proof.
  intros Hsy Hfuel. pose proof (sy_running _ _ _ _ _ Hsy) as Hr.
  destruct (get_running fuel w l m n k Hr Hfuel) as (w' & Hrun & Hr' & Hq).
  destruct (quiet_active w w' l m (rn_store _ _ _ _ Hr) (rn_store _ _ _ _ Hr') Hq) as [Hid Has].
  exists w', l, m, q, n, (RValue (m !! k)). split; [done|]. split; [exact Hrun|].
  split; [eapply system_kept; [exact Hsy | exact Hr' | by apply kept_quiet |] |].
  - rewrite Has. apply (sy_active _ _ _ _ _ Hsy).
  - split; [simpl; lia|]. apply kept_later; [by apply kept_quiet | lia].
Qed.

Lemma record_fits k v : record_size k v < 2 ^ 32 → is_u32 (zlen k) ∧ is_u32 (zlen v).
Proof.
  unfold record_size, is_u32. pose proof (zlen_nonneg k). pose proof (zlen_nonneg v). lia.
Qed.

Lemma put_refines fuel w l m q n k v :
  system w l m q n → op_ok (OPut k v) → active_id w + 1 < 2 ^ 64 →
  2 * (Z.of_nat n + record_size k v) < 2 ^ 32 →
  (length (events (w_env w)) + Z.to_nat (record_size k v) < fuel)%nat →
  refines_op fuel (OPut k v) w m q n.
Proof.
  intros Hsy (Hkn & Hvn & Hsz) Hid Hsm Hfuel. pose proof (sy_running _ _ _ _ _ Hsy) as Hr.
  pose proof (active_id_nonneg _ _ _ _ Hr). pose proof (sy_max _ _ _ _ _ Hsy) as Hmx.
  destruct (record_fits k v) as [Hku Hvu]; [lia|].
  destruct (put_running fuel w l m n k (zlen k) k v (zlen v) v Hr (sy_up _ _ _ _ _ Hsy) (cbuf_read_all k)
    (cbuf_read_all v) Hku Hvu Hkn Hvn) as (w' & l' & Hrun & Hr' & Hk & Hid' & Has);
    [unfold is_u64; lia | lia | done | done |].
  exists w', l', (<[k := v]> m), q, (n + Z.to_nat (record_size k v))%nat, (RStatus CCASK_OK).
  split; [done|]. split; [simpl; by erewrite bind_run by exact Hrun|].
  split; [eapply system_kept; [exact Hsy | exact Hr' | exact Hk |] |].
  - rewrite <-Hmx, <-(kp_max _ _ _ Hk). apply Has. rewrite Hmx. apply (sy_active _ _ _ _ _ Hsy).
  - split; [simpl; lia|]. apply (kept_later _ _ _ Hk). lia.
Qed.

Lemma queue_refines fuel w l m q n k v :
  system w l m q n → op_ok (OQueue k v) → record_size k v < 2 ^ 32 →
  refines_op fuel (OQueue k v) w m q n.
Proof.
  intros [Hr Hup (r & Hring & Hrsd & Hrh) Ho Hth Hwr Hmx Has Hfits Htd] (Hkn & Hvn & Hsz) Hsm.
  destruct (record_fits k v) as [Hku Hvu]; [done|].
  assert (∀ c, c ∈ blocks w → c < e_brk (w_env w)) as Hold.
  { apply blocks_old; [apply Hr | exact Ho]. }
  destruct w as [e f kd rg th ru sd].
  cbn [w_env w_files w_keydir w_ring w_shutting_down w_running] in *. subst rg sd.
  destruct (put_queues e f kd r th ru l m n cap q k v) as (e' & r' & Hrun & Hg & Hrsd' & Hbl & Hblocks & Hrh'); [done..|].
  set (w' := World e' f kd (Some r') th ru false) in *.
  assert (running w' l m n) as Hr'.
  { eapply running_ring. eapply running_grow; [exact Hg | exact Hr]. }
  assert (active_size w' = active_size (World e f kd (Some r) th ru false)) as Has'.
  { apply (active_size_grow e e' f kd (Some r) th ru false l m); [apply Hr | done]. }
  exists w', l, m, (if bool_decide (zlen q = cap - 1) then q else q ++ [(k, v)]), n,
    (RStatus (if bool_decide (zlen q = cap - 1) then CCASK_FAIL else CCASK_OK)).
  split; [simpl; by case_bool_decide|]. split; [simpl; by erewrite bind_run by exact Hrun|].
  split; [constructor; [done | done | | | done | done | done | by rewrite Has' | |]|].
  - exists r'. split; [done|]. split; [congruence | exact Hrh'].
  - apply (app_inv_head (kd_blocks (hash_table kd))) in Hbl.
    rewrite Hbl. destruct Ho as [O1 O2 O3]. constructor; [done | | done]. intros c Hc.
    destruct (O2 c Hc) as [blk Hb]. exists blk. eapply lookup_weaken; [exact Hb | apply (eg_heap _ _ Hg)].
  - case_bool_decide; [done|]. apply Forall_app. split; [done|]. by apply Forall_singleton.
  - apply (nk_tidy _ _ (kp_names _ _ _ (kept_grow (λ _, False) e e' f kd (Some r') th ru false Hg))).
    exact Htd.
  - split; [|constructor; [change (active_id w') with (active_id (World e f kd (Some r) th ru false)); lia
      | apply (eg_events _ _ Hg) | reflexivity | |]].
    3: { exact (memory_kept_by (λ _, False) _ _ (Some r') (kept_grow _ e e' f kd (Some r) th ru false Hg)
        ltac:(by intros c []) Hbl Hblocks). }
    2: { apply names_kept_env; [by destruct (eg_ext _ _ Hg) as [-> _] | apply (eg_inodes _ _ Hg)]. }
    unfold queue_bytes. simpl. case_bool_decide; [lia|]. rewrite sum_list_with_app. simpl. lia.
Qed.

Lemma writer_refines fuel w l m q n :
  system w l m q n → active_id w + 1 < 2 ^ 64 →
  2 * (Z.of_nat n + Z.of_nat (queue_bytes q)) < 2 ^ 32 →
  (length (events (w_env w)) + queue_bytes q < fuel)%nat →
  refines_op fuel OWriter w m q n.
Proof.
  intros Hsy Hid Hsm Hfuel. pose proof Hsy as [Hr Hup (r & Hring & Hrsd & Hrh) Ho Hth Hwr Hmx Has Hfits Htd].
  pose proof (active_id_nonneg _ _ _ _ Hr). pose proof (keydir_heap _ (st_keydir _ _ _ (rn_store _ _ _ _ Hr))) as Hwf.
  destruct w as [e f kd rg th ru sd].
  cbn [w_env w_files w_keydir w_ring w_shutting_down w_running] in *. subst rg sd.
  destruct q as [|[k v] q].
  - exists (World e f kd (Some r) th ru false), l, m, [], n, RWait. split; [done|]. split.
    { simpl. unfold turn. by rewrite (writer_waits fuel e f kd r th ru false _ cap _ Hrh Hrsd). }
    split; [done|]. split; [simpl; lia | by apply later_refl].
  - apply Forall_cons in Hfits as [Hfit Hfits]. simpl in Hfit.
    unfold queue_bytes in *. simpl in Hsm, Hfuel. pose proof (record_size_pos k v).
    destruct (writer_running fuel e f kd r th ru false l m n cap k v q datafile_record_garbage) as
      (slot & w1 & r' & l' & P & Hrun & Hr' & Hk & HP & Hmem & Hrsd' & Hself & Hbuf & Hrh' & Hid' & Has');
      try done; [unfold is_u64; lia | lia | lia | lia |].
    set (w' := set_w_ring (Some r') w1) in *.
    assert (owned w' = owned w1) as Hown by exact (owned_ring w1 r r' (kp_ring _ _ _ Hk) Hself Hbuf).
    exists w', l', (<[k := v]> m), q, (n + Z.to_nat (record_size k v))%nat, RDone.
    split; [done|]. split; [simpl; unfold turn; by rewrite Hrun|]. split; [constructor|].
    + exact Hr'.
    + exact (kp_down _ _ _ Hk).
    + exists r'. split; [done|]. split; [congruence | exact Hrh'].
    + rewrite Hown. destruct (owns_kept P _ w1 Hk Hwf HP Ho). by constructor.
    + by apply (kp_hints _ _ _ Hk).
    + by apply (kp_writer _ _ _ Hk).
    + rewrite <-Hmx. exact (kp_max _ _ _ Hk).
    + rewrite <-Hmx. apply Has'. by rewrite Hmx.
    + done.
    + exact (nk_tidy _ _ (kp_names _ _ _ Hk) Htd).
    + split; [simpl; lia|]. constructor; [exact Hid' | exact (kp_events _ _ _ Hk) | exact (kp_dir _ _ _ Hk) | | exact Hmem].
      exact (names_kept_trans _ _ _ (kp_names _ _ _ Hk) (names_kept_files w1 w' eq_refl eq_refl)).
Qed.

(** Any sequence of operations is one of the abstract machine. *)
Lemma run_ops_refine fuel os w l m q n :
  system w l m q n → Forall op_ok os → active_id w + Z.of_nat (length os) < 2 ^ 64 →
  2 * Z.of_nat (n + queue_bytes q + ops_bytes os) < 2 ^ 32 →
  (length (events (w_env w)) + (n + queue_bytes q + ops_bytes os) + 20 < fuel)%nat →
  ∃ w' l' n' m' q' rs, abs_ops cap os (m, q) = (rs, (m', q')) ∧
    run_ops fuel os w = Ret rs w' ∧ system w' l' m' q' n' ∧
    (n' + queue_bytes q' ≤ n + queue_bytes q + ops_bytes os)%nat ∧ later (Z.of_nat (length os)) w w'.
Proof.
  revert w l m q n. induction os as [|o os IH]; intros w l m q n Hsy Hok Hid Hsm Hfuel.
  { exists w, l, n, m, q, []. do 3 (split; [done|]). split; [unfold ops_bytes; simpl; lia | by apply later_refl]. }
  apply Forall_cons in Hok as [Ho Hok]. unfold ops_bytes in *. simpl in Hid, Hsm, Hfuel.
  assert (refines_op fuel o w m q n) as (w1 & l1 & m1 & q1 & n1 & r & Habs & Hrun & Hsy1 & Hb & Hlt).
  { destruct o as [k v|k v|k| |h p|p]; simpl in Hsm, Hfuel.
    - eapply put_refines; [exact Hsy | exact Ho | lia..].
    - eapply queue_refines; [exact Hsy | exact Ho | pose proof (record_size_pos k v); lia].
    - eapply get_refines; [exact Hsy | lia].
    - eapply writer_refines; [exact Hsy | lia..].
    - eapply hint_refines; [exact Hsy | lia].
    - eapply close_turn_refines; exact Hsy. }
  pose proof (lt_id _ _ _ Hlt) as Hid1. pose proof (suffix_length _ _ (lt_events _ _ _ Hlt)) as Hev.
  destruct (IH w1 l1 m1 q1 n1 Hsy1 Hok) as (w' & l' & n' & m' & q' & rs & Habs' & Hrun' & Hsy' & Hb' & Hlt');
    [lia..|].
  exists w', l', n', m', q', (r :: rs). split; [cbn [abs_ops]; by rewrite Habs, Habs'|]. split; [|split; [exact Hsy'|split]].
  - cbn [run_ops]. erewrite bind_run by exact Hrun. by erewrite bind_run by exact Hrun'.
  - simpl. lia.
  - change (length (o :: os)) with (S (length os)). rewrite Nat2Z.inj_succ, <-Z.add_1_l. refine (later_trans _ _ _ _ _ _ Hlt Hlt').
    exact (keydir_heap _ (st_keydir _ _ _ (rn_store _ _ _ _ (sy_running _ _ _ _ _ Hsy)))).
Qed.
End refinement.
