(* ===== verification/Private.v ===== *)
(** * Private: memory that a call keeps to itself

    A call that was interrupted between two of its steps has blocks which
    nothing else in the program points to.  The other calls and threads leave
    them alone, and the store does not notice what the call does with them. *)
From stdpp Require Import sorting.
From S2P Require Import Prelude Status Posix SafeIO Codec Records Ringbuf Uthash Keydir Log.
From S2P Require Import Filenames Files Disk World Store Durable Tidy Run Turns System.
Open Scope Z_scope.

(** The block [c] holds [blk], and is none of those that the program uses. *)
Record mine (w : world) (c : Z) (blk : bytes) : Prop := {
  mi_heap : e_heap (w_env w) !! c = Some blk;
  mi_blocks : c ∉ blocks w;
  mi_ring : c ∉ ring_blocks w;
}.

(** The other calls do not touch it. *)
Lemma mine_later s w w' c blk :
  heap_wf (w_env w) → later s w w' → mine w c blk → mine w' c blk.
Proof.
  intros Hwf Hl [H1 H2 H3]. destruct (lt_memory _ _ _ Hl) as [M1 M2 M3 M4].
  assert (c < e_brk (w_env w)) as Hc by (apply Hwf; by eexists).
  constructor; [by apply M2 | intros [?|?]%M4; [done | lia] | intros [?|?]%M3; [done | lia]].
Qed.

Lemma mine_heap h w c blk d :
  mine w c blk → h !! c = Some d → mine (with_heap h w) c d.
Proof. intros [H1 H2 H3] Hd. by constructor. Qed.

(** Calls that leave the ring and the use of the memory as they are. *)
Lemma mine_kept w w' c blk :
  heap_wf (w_env w) → kept (λ _, False) w w' → mine w c blk → mine w' c blk.
Proof.
  intros Hwf Hk. apply (mine_later (active_id w' - active_id w)); [done|].
  apply kept_later; [done | lia].
Qed.

Section private.
Context {host : Host} {zlib : Zlib} {laws : ZlibLaws} (cap mx : Z).

Lemma system_wf w l m q n : system cap mx w l m q n → heap_wf (w_env w).
Proof. intros Hsy. apply (keydir_heap _ (st_keydir _ _ _ (rn_store _ _ _ _ (sy_running _ _ _ _ _ _ _ Hsy)))). Qed.

Lemma system_keydir w l m q n :
  system cap mx w l m q n → keydir_ok (w_env w, w_keydir w).
Proof. intros Hsy. apply (st_keydir _ _ _ (rn_store _ _ _ _ (sy_running _ _ _ _ _ _ _ Hsy))). Qed.

(** The blocks of the queued records. *)
Lemma queued_blocks (bs : list Z) (q : queue) i b kv c :
  bs !! i = Some b → q !! i = Some kv → b ≤ c < b + 3 →
  c ∈ zip_with (λ b kv, datafile_iov b (zlen kv.1) (zlen kv.2)) bs q ≫= record_blocks.
Proof.
  intros Hb Hkv Hc. apply list_elem_of_bind.
  exists (datafile_iov b (zlen kv.1) (zlen kv.2)). split; [by apply record_blocks_datafile|].
  apply list_elem_of_lookup. exists i. rewrite lookup_zip_with.
  apply bind_Some. exists b. split; [done|]. apply bind_Some. by exists kv.
Qed.

Lemma ring_blocks_old w l m q n c :
  system cap mx w l m q n → c ∈ ring_blocks w → c < e_brk (w_env w).
Proof.
  intros Hsy. destruct (sy_ring _ _ _ _ _ _ _ Hsy) as (r & Hr & _ & [_ _ _ (bs & [Hq _] & Hring)]).
  unfold ring_blocks. rewrite Hr, Hring. clear -Hq.
  intros (iov & Hc & Hin)%list_elem_of_bind.
  apply list_elem_of_lookup in Hin as [i Hi]. rewrite lookup_zip_with in Hi.
  apply bind_Some in Hi as (b & Hb & ([k v] & Hkv & [= <-])%bind_Some).
  destruct (Forall2_lookup_lr _ _ _ _ _ _ Hq Hb Hkv) as [h Hra].
  apply record_blocks_datafile in Hc. pose proof (ra_brk _ _ _ _ _ _ Hra). lia.
Qed.

(** A block that is new. *)
Lemma mine_new w l m q n w' c blk :
  system cap mx w l m q n → e_brk (w_env w) ≤ c → blocks w' = blocks w →
  ring_blocks w' = ring_blocks w → e_heap (w_env w') !! c = Some blk → mine w' c blk.
Proof.
  intros Hsy Hc Hb Hr Hblk. constructor; [done | rewrite Hb | rewrite Hr].
  - intros Hin%(blocks_old w (system_keydir _ _ _ _ _ Hsy) (sy_owns _ _ _ _ _ _ _ Hsy)). lia.
  - intros Hin%(ring_blocks_old _ _ _ _ _ _ Hsy). lia.
Qed.

(** The contents of memory that is not used. *)
Lemma system_heap w l m q n h :
  system cap mx w l m q n → heap_wf (set_heap h (w_env w)) →
  (∀ c, c ∈ blocks w ∨ c ∈ ring_blocks w → h !! c = e_heap (w_env w) !! c) →
  system cap mx (with_heap h w) l m q n.
Proof.
  intros [H1 H2 (r & Hring & Hsd & Hrh) Ho Hth Hwr H3 H4 H5 H6] Hwf Hh.
  constructor; [| exact H2 | | | exact Hth | exact Hwr | exact H3 | exact H4 | exact H5 |].
  - apply running_heap; [done | done |]. intros c Hc. apply Hh. left. apply elem_of_app. by left.
  - exists r. do 2 (split; [done|]). destruct Hrh as [R1 R2 R3 (bs & Hq & Hr)].
    constructor; [done | done | done |]. exists bs. split; [|done].
    assert (∀ i b kv c, bs !! i = Some b → q !! i = Some kv → b ≤ c < b + 3 →
      h !! c = e_heap (w_env w) !! c) as Hsame.
    { intros i b kv c Hb Hkv Hc. apply Hh. right. unfold ring_blocks. rewrite Hring.
      rewrite Hr. by apply (queued_blocks bs q i b kv). }
    destruct Hq as [Hq Hs]. split; [|done]. apply Forall2_same_length_lookup.
    split; [by apply Forall2_length in Hq|]. intros i b kv Hb Hkv.
    destruct (Forall2_lookup_lr _ _ _ _ _ _ Hq Hb Hkv) as (hd & [A1 A2 A3 A4 A5 A6 A7 A8]).
    exists hd. constructor; try done; simpl; by rewrite (Hsame i b kv) by (done || lia).
  - destruct Ho as [O1 O2 O3]. constructor; [exact O1 | | exact O3].
    intros c Hc. simpl. rewrite Hh; [by apply O2|]. left. apply elem_of_app. by right.
  - intros a dir Hdir. destruct (H6 a dir Hdir) as [T1 T2]. constructor; [exact T1 | exact T2].
Qed.

(** Private blocks are written and freed. *)
Lemma system_write w l m q n c blk d :
  system cap mx w l m q n → mine w c blk →
  system cap mx (with_heap (<[c := d]> (e_heap (w_env w))) w) l m q n.
Proof.
  intros Hsy [M1 M2 M3]. pose proof (system_wf _ _ _ _ _ Hsy) as Hwf. apply system_heap; [done| |].
  - intros a. simpl. rewrite lookup_insert. case_decide as Ha; [intros _; subst a; apply Hwf; by eexists | apply Hwf].
  - intros a Ha. apply lookup_insert_ne. intros ->. by destruct Ha.
Qed.

Lemma system_delete w l m q n c blk :
  system cap mx w l m q n → mine w c blk →
  system cap mx (with_heap (delete c (e_heap (w_env w))) w) l m q n.
Proof.
  intros Hsy [M1 M2 M3]. pose proof (system_wf _ _ _ _ _ Hsy) as Hwf. apply system_heap; [done| |].
  - intros a. simpl. rewrite lookup_delete. case_decide; [by intros []|]. apply Hwf.
  - intros a Ha. apply lookup_delete_ne. intros ->. by destruct Ha.
Qed.

(** More memory, and system calls that leave the files alone. *)
Lemma system_grow e e' f kd rg th ru sd l m q n :
  env_grow e e' → system cap mx (World e f kd rg th ru sd) l m q n →
  system cap mx (World e' f kd rg th ru sd) l m q n.
Proof.
  intros Hg Hsy. pose proof (sy_running _ _ _ _ _ _ _ Hsy) as Hr.
  apply (system_kept cap mx _ _ l l m m q n n Hsy);
    [by eapply running_grow | by apply kept_grow |].
  rewrite (active_size_grow e e' _ _ _ _ _ _ l m (rn_store _ _ _ _ Hr) Hg).
  exact (sy_active _ _ _ _ _ _ _ Hsy).
Qed.

Lemma system_quiet w w' l m q n :
  system cap mx w l m q n → quiet w w' → store_ok w' l m → calm (w_env w') →
  system cap mx w' l m q n.
Proof.
  intros Hsy Hq Hok Hc. pose proof (sy_running _ _ _ _ _ _ _ Hsy) as Hr.
  apply (system_kept cap mx w w' l l m m q n n Hsy); [by eapply running_quiet | by apply kept_quiet |].
  rewrite (proj2 (quiet_active w w' l m (rn_store _ _ _ _ Hr) Hok Hq)).
  exact (sy_active _ _ _ _ _ _ _ Hsy).
Qed.
End private.
