(* ===== verification/Races.v ===== *)
(** * Races: a get between other calls

    [ccask_get] gives up the lock of the table as soon as it has found the
    entry, and follows its pointer to the entry again six times: for the sizes
    of the buffers, for the place of the record, and then for the size of the
    caller's block, for how much is copied into it, and for the size it
    reports.  Other calls and threads may run before each of these steps, and
    between the place and the read.  The entry itself stays where it is, and
    the record it led to stays in its file; but the size that each step finds
    is that of the value of this moment.

    The two sizes of the buffers are one step (the size of the key never
    changes), and so are the file and the position of the place: a put between
    the loads of these two is not covered.  The read is one step. *)
From stdpp Require Import sorting.
From S2P Require Import Prelude Status Posix SafeIO Codec Records Ringbuf Uthash Keydir Log.
From S2P Require Import Filenames Files Disk DiskWrite World Hint Recovery HintGen.
From S2P Require Import Reader Writer Core Frames Store Durable Tidy Run Turns System Private.
Open Scope Z_scope.

(** What runs before which step of the get. *)
Record schedule := Schedule {
  before_allocate : list op;
  before_place : list op;
  before_read : list op;
  before_space : list op;
  before_copy : list op;
  before_result : list op;
}.

(** The calls in the order in which they run. *)
Definition calls (o : schedule) : list op :=
  before_allocate o ++ before_place o ++ before_read o ++ before_space o ++
  before_copy o ++ before_result o.

Definition idle : schedule := Schedule [] [] [] [] [] [].

Section races.
Context {host : Host} {zlib : Zlib} (fuel : nat).

(** ** The entries stay *)

#[export] Instance read_value_stays k : Frames entries_stay (read_value fuel k).
Proof. unfold read_value. frames. Qed.

#[export] Instance turn_stays {A} (m : M world A) : Frames entries_stay m → Frames entries_stay (turn m).
Proof.
  intros Hm w a w'. unfold turn. destruct (m w) as [b w1| | |] eqn:Hrun; [|by intros [= _ <-]|done..].
  intros [= _ <-]. exact (Hm _ _ _ Hrun).
Qed.

#[export] Instance close_turn_stays p : Frames entries_stay (close_turn p).
Proof. unfold close_turn. frames. Qed.

#[export] Instance run_op_stays o : Frames entries_stay (run_op fuel o).
Proof. destruct o; simpl; frames. Qed.

#[export] Instance run_ops_stays os : Frames entries_stay (run_ops fuel os).
Proof. induction os; simpl; frames. Qed.

(** A key of the map is found. *)
Lemma key_found w l m k v :
  store_ok w l m → m !! k = Some v →
  ∃ x, x ∈ hash_table (w_keydir w) ∧ kd_key x = k ∧
    zoom (ccask_keydir_find (Some k) (zlen k)) w = Ret (Some x) w.
Proof.
  intros [_ Hkd Hm] Hv. specialize (Hm k).
  destruct (keydir_map (w_keydir w) !! k) as [i|] eqn:Hi; [|congruence].
  destruct (keydir_find_entry _ _ k (zlen k) (Some k) i Hkd Hi (cbuf_read_all k))
    as (x & Hfind & _ & _ & Hx & Hkey).
  exists x. split; [done|]. split; [done|]. destruct w. by apply zoom_keydir.
Qed.

(** The entry that a pointer leads to later has the same key. *)
Lemma entry_found w w' l' m' x :
  store_ok w' l' m' → entries_stay w w' → x ∈ hash_table (w_keydir w) →
  ∃ y v, y ∈ hash_table (w_keydir w') ∧ kd_at y = kd_at x ∧ kd_key y = kd_key x ∧
    m' !! kd_key x = Some v.
Proof.
  intros [Hd Hkd Hm] Hst Hx.
  assert ((kd_at x, kd_key x) ∈ kd_names (hash_table (w_keydir w'))) as (y & [= Hat Hkey] & Hy)%list_elem_of_fmap
    by (apply Hst; by apply (list_elem_of_fmap_2 (λ x, (kd_at x, kd_key x)))).
  pose proof (keydir_table _ Hkd) as [T1 _ _ _]. cbn [snd] in T1.
  specialize (Hm (kd_key x)). change (w_keydir w') with ((w_env w', w_keydir w').2) in Hm.
  rewrite (keydir_map_lookup _ _ Hkd) in Hm. cbn [snd] in Hm.
  rewrite (hash_find_unique kd_key (kd_key x) _ y T1 Hy (eq_sym Hkey)) in Hm.
  destruct Hm as (v & Hv & _). by exists y, v.
Qed.

(** What the entry of a value says. *)
Lemma entry_says w l m y v :
  store_ok w l m → y ∈ hash_table (w_keydir w) → m !! kd_key y = Some v →
  kd_key_size y = zlen (kd_key y) ∧ kd_value_size y = zlen v ∧ 0 < zlen v ∧
  entry_ok (disk w) l (kd_key y) (kd_info_of y) v.
Proof.
  intros [Hd Hkd Hm] Hy Hv. pose proof (keydir_table _ Hkd) as [T1 T2 T3 T4]. cbn [snd fst] in *.
  specialize (Hm (kd_key y)). change (w_keydir w) with ((w_env w, w_keydir w).2) in Hm.
  rewrite (keydir_map_lookup _ _ Hkd) in Hm. cbn [snd] in Hm.
  rewrite (hash_find_unique kd_key (kd_key y) _ y T1 Hy eq_refl) in Hm.
  destruct Hm as (v' & Hv' & He). assert (v' = v) as -> by congruence.
  rewrite Forall_forall in T3. split; [symmetry; by apply T3|].
  destruct (entry_value _ _ _ _ _ He) as [Hpos Hvs]. by split_and!.
Qed.

(** ** A get in steps *)

(** The end of the get, once the record has been read and checked. *)
Definition split_copy (p : Z) (df_record : ccask_datafile_record_t)
    (header : ccask_datafile_record_header) (o : schedule) :
    M world (list result * (ccask_status_e * ccask_record_t)) :=
  rs4 ← run_ops fuel (before_space o);
  value ← get_space p;
  match value with
  | None =>
      _ ← zoom (set_ccask_errno CCASK_ERR_NO_MEMORY);
      mret (rs4, (CCASK_FAIL, CRecord 0 0 0 None))
  | Some value =>
      rs5 ← run_ops fuel (before_copy o);
      _ ← get_copy p value df_record;
      rs6 ← run_ops fuel (before_result o);
      out ← get_result p header value df_record;
      mret (rs4 ++ rs5 ++ rs6, out)
  end.

Definition split_fetch (p : Z) (df_record : ccask_datafile_record_t) (o : schedule) :
    M world (list result * (ccask_status_e * ccask_record_t)) :=
  rs2 ← run_ops fuel (before_place o);
  '(res, rs3) ← CCASK_ATTEMPT 5 (
    '(file_id, record_pos) ← get_place p;
    rs ← run_ops fuel (before_read o);
    res ← ccask_read_datafile_record fuel file_id df_record record_pos;
    mret (res, rs));
  if bool_decide (res ≠ CCASK_OK) then mret (rs2 ++ rs3, (CCASK_FAIL, CRecord 0 0 0 None))
  else
    header ← zoom (get_check df_record);
    match header with
    | None => mret (rs2 ++ rs3, (CCASK_FAIL, CRecord 0 0 0 None))
    | Some header => '(rs, out) ← split_copy p df_record header o; mret (rs2 ++ rs3 ++ rs, out)
    end.

(** The results of the other calls, and what the get returns; [None] when the
    key is not there. *)
Definition split_get (k : bytes) (o : schedule) :
    M world (option (list result * (ccask_status_e * ccask_record_t))) :=
  kd_record ← zoom (ccask_keydir_find (Some k) (zlen k));
  match kd_record with
  | None => mret None
  | Some kd =>
      rs1 ← run_ops fuel (before_allocate o);
      '(res, df_record) ← get_allocate (kd_at kd);
      if bool_decide (res ≠ CCASK_OK) then mret (Some (rs1, (CCASK_FAIL, CRecord 0 0 0 None)))
      else '(rs, out) ← split_fetch (kd_at kd) df_record o; mret (Some (rs1 ++ rs, out))
  end.

(** With no calls in between it is [ccask_get]. *)
Lemma split_copy_idle p df h w :
  split_copy p df h idle w =
  (value ← get_space p;
   match value with
   | None => _ ← zoom (set_ccask_errno CCASK_ERR_NO_MEMORY); mret ([], (CCASK_FAIL, CRecord 0 0 0 None))
   | Some value => _ ← get_copy p value df; out ← get_result p h value df; mret ([], out)
   end) w.
Proof.
  unfold split_copy. cbn [run_ops before_space before_copy before_result idle].
  unfold mbind, M_bind, mret, M_ret. destruct (get_space p w) as [[c|] w1| | |]; [|done..].
  by destruct (get_copy p c df w1).
Qed.

Lemma split_fetch_idle p df w :
  split_fetch p df idle w = (out ← get_fetch fuel p df (CRecord 0 0 0 None); mret ([], out)) w.
Proof.
  unfold split_fetch, get_fetch. cbn [run_ops before_place before_read idle].
  set (read := '(file_id, record_pos) ← get_place p; ccask_read_datafile_record fuel file_id df record_pos).
  assert (∀ w, CCASK_ATTEMPT 5 ('(file_id, record_pos) ← get_place p;
      rs ← mret (M := M world) (A := list result) [];
      res ← ccask_read_datafile_record fuel file_id df record_pos; mret (res, rs)) w =
    (res ← CCASK_ATTEMPT 5 read; mret (res, [])) w) as Hread.
  { intros w0. rewrite <-attempt_with. apply attempt_ext. intros w1. unfold read, mbind, M_bind, mret, M_ret.
    by destruct (get_place p w1) as [[id pos] w2| | |]. }
  unfold mbind at 1, M_bind at 1, mret at 1, M_ret at 1.
  unfold mbind at 1, M_bind at 1. rewrite Hread. unfold mbind, M_bind, mret, M_ret.
  destruct (CCASK_ATTEMPT 5 read w) as [res w1| | |]; [|done..].
  case_bool_decide; [done|]. destruct (zoom (get_check df) w1) as [[h|] w2| | |]; [|done..].
  rewrite split_copy_idle. unfold mbind, M_bind, mret, M_ret.
  destruct (get_space p w2) as [[c|] w3| | |]; [|done..].
  destruct (get_copy p c df w3) as [u w4| | |]; [|done..]. by destruct (get_result p h c df w4).
Qed.

Lemma split_get_whole k w :
  ccask_get fuel (Some k) (zlen k) (CRecord 0 0 0 None) w =
  (out ← split_get k idle;
   mret (match out with Some (_, o) => o | None => (CCASK_OK, CRecord 0 0 0 None) end)) w.
Proof.
  unfold ccask_get, split_get. cbn [run_ops before_allocate idle].
  unfold mbind, M_bind, mret, M_ret.
  destruct (zoom (ccask_keydir_find _ _) w) as [[x|] w1| | |]; [|done..].
  destruct (get_allocate _ w1) as [[res df] w2| | |]; [|done..].
  case_bool_decide; [done|]. rewrite split_fetch_idle. unfold mbind, M_bind, mret, M_ret.
  by destruct (get_fetch _ _ _ _ w2).
Qed.

(** ** The states between the steps *)

(** A state of the store, what it represents, and the entry and the value of
    the key. *)
Record snap := Snap {
  at_world : world;
  at_files : list Z;
  at_map : gmap bytes bytes;
  at_queue : queue;
  at_bytes : nat;
  at_entry : ccask_keydir_record;
  at_value : bytes;
}.

Definition with_world (w : world) (s : snap) : snap :=
  Snap w (at_files s) (at_map s) (at_queue s) (at_bytes s) (at_entry s) (at_value s).

Context {laws : ZlibLaws} (cap mx : Z) (k : bytes) (p : Z).

(** The store can run the calls [os], and [p] is the entry of the key. *)
Record stage (os : list op) (s : snap) : Prop := {
  sg_system : system cap mx (at_world s) (at_files s) (at_map s) (at_queue s) (at_bytes s);
  sg_calls : Forall (op_ok mx) os;
  sg_ids : active_id (at_world s) + Z.of_nat (length os) < 2 ^ 64;
  sg_small : 2 * Z.of_nat (at_bytes s + queue_bytes (at_queue s) + ops_bytes os) < 2 ^ 32;
  sg_fuel : (length (events (w_env (at_world s))) +
    (at_bytes s + queue_bytes (at_queue s) + ops_bytes os) + 20 < fuel)%nat;
  sg_entry : at_entry s ∈ hash_table (w_keydir (at_world s));
  sg_at : kd_at (at_entry s) = p;
  sg_key : kd_key (at_entry s) = k;
  sg_value : at_map s !! k = Some (at_value s);
}.

Lemma stage_store os s : stage os s → store_ok (at_world s) (at_files s) (at_map s).
Proof. intros Hs. exact (rn_store _ _ _ _ (sy_running _ _ _ _ _ _ _ (sg_system _ _ Hs))). Qed.

Lemma stage_calm os s : stage os s → calm (w_env (at_world s)).
Proof. intros Hs. exact (rn_calm _ _ _ _ (sy_running _ _ _ _ _ _ _ (sg_system _ _ Hs))). Qed.

Lemma stage_wf os s : stage os s → heap_wf (w_env (at_world s)).
Proof. intros Hs. exact (system_wf _ _ _ _ _ _ _ (sg_system _ _ Hs)). Qed.

Lemma stage_entry os s :
  stage os s → kd_key_size (at_entry s) = zlen k ∧ kd_value_size (at_entry s) = zlen (at_value s) ∧
    0 < zlen (at_value s) ∧
    entry_ok (disk (at_world s)) (at_files s) k (kd_info_of (at_entry s)) (at_value s).
Proof.
  intros Hs. destruct (entry_says (at_world s) (at_files s) (at_map s) (at_entry s) (at_value s))
    as (H1 & H2 & H3 & H4); [exact (stage_store _ _ Hs) | apply (sg_entry _ _ Hs) | |].
  - rewrite (sg_key _ _ Hs). apply (sg_value _ _ Hs).
  - rewrite (sg_key _ _ Hs) in H1, H4. by split_and!.
Qed.

(** The pointer is followed. *)
Lemma stage_pointer os s :
  stage os s → zoom (kd_entry p) (at_world s) = Ret (at_entry s) (at_world s).
Proof.
  intros Hs. rewrite <-(sg_at _ _ Hs). pose proof (st_keydir _ _ _ (stage_store _ _ Hs)) as Hkd.
  pose proof (sg_entry _ _ Hs) as Hx. destruct (at_world s). by apply entry_run.
Qed.

(** Some of the calls. *)
Lemma stage_run os os' s :
  stage (os ++ os') s → ∃ rs s',
    abs_ops cap os (at_map s, at_queue s) = (rs, (at_map s', at_queue s')) ∧
    run_ops fuel os (at_world s) = Ret rs (at_world s') ∧ stage os' s' ∧
    later (Z.of_nat (length os)) (at_world s) (at_world s').
Proof.
  intros Hs. pose proof Hs as [Hsy [Hok Hok']%Forall_app Hid Hsm Hfuel Hx Hat Hkey Hv].
  rewrite length_app in Hid. unfold ops_bytes in *. rewrite sum_list_with_app in Hsm, Hfuel.
  fold (ops_bytes os) (ops_bytes os') in *.
  destruct (run_ops_refine cap mx fuel os _ _ _ _ _ Hsy Hok) as
    (w & l & n & m & q & rs & Habs & Hrun & Hsy' & Hb & Hlt); [lia..|].
  pose proof (rn_store _ _ _ _ (sy_running _ _ _ _ _ _ _ Hsy')) as Hst'.
  destruct (entry_found _ w l m (at_entry s) Hst' (frames_run _ _ _ Hrun) Hx)
    as (y & v & Hy & Hyat & Hykey & Hyv).
  exists rs, (Snap w l m q n y v). cbn [at_world at_map at_queue]. split; [done|]. split; [done|].
  split; [|done]. pose proof (lt_id _ _ _ Hlt). pose proof (suffix_length _ _ (lt_events _ _ _ Hlt)).
  constructor; cbn [at_world at_files at_map at_queue at_bytes at_entry at_value]; try done;
    [lia | lia | lia | congruence | congruence | congruence].
Qed.

(** A step of the get, which the store does not notice. *)
Lemma stage_step os s w' :
  stage os s → system cap mx w' (at_files s) (at_map s) (at_queue s) (at_bytes s) →
  w_keydir w' = w_keydir (at_world s) → active_id w' = active_id (at_world s) →
  events (w_env w') `suffix_of` events (w_env (at_world s)) → stage os (with_world w' s).
Proof.
  intros [H1 H2 H3 H4 H5 H6 H7 H8 H9] Hsy Hkd Hid Hev%suffix_length.
  constructor; try done; cbn [with_world at_world at_queue at_bytes at_entry]; [lia | lia | by rewrite Hkd].
Qed.

(** ** The buffers *)

Definition buffers (w : world) (b : Z) (d0 d1 d2 : bytes) : Prop :=
  mine w b d0 ∧ mine w (b + 1) d1 ∧ mine w (b + 2) d2.

Lemma buffers_later s w w' b d0 d1 d2 :
  heap_wf (w_env w) → later s w w' → buffers w b d0 d1 d2 → buffers w' b d0 d1 d2.
Proof. intros Hwf Hl (H0 & H1 & H2). split_and!; by eapply mine_later. Qed.

Lemma buffers_kept w w' b d0 d1 d2 :
  heap_wf (w_env w) → kept (λ _, False) w w' → buffers w b d0 d1 d2 → buffers w' b d0 d1 d2.
Proof. intros Hwf Hk (H0 & H1 & H2). split_and!; by eapply mine_kept. Qed.

(** They are allocated. *)
Lemma stage_allocate os s :
  stage os s → ∃ w' b, let n := zlen (at_value s) in
    get_allocate p (at_world s) = Ret (CCASK_OK, datafile_iov b (zlen k) n) w' ∧
    stage os (with_world w' s) ∧ buffers w' b (zeros 16) (zeros (zlen k)) (zeros n).
Proof.
  intros Hs. destruct (stage_entry _ _ Hs) as (Hks & Hvs & _). pose proof (stage_wf _ _ Hs) as Hwf.
  pose proof (stage_calm _ _ Hs) as Hc. pose proof (stage_store _ _ Hs) as Hst.
  pose proof (sg_entry _ _ Hs) as Hx. pose proof (sg_at _ _ Hs) as Hat. pose proof (sg_system _ _ Hs) as Hsy.
  destruct s as [[e f kd rg th ru sd] l m q n y v]. cbn [at_world at_entry at_value w_env w_keydir] in *.
  pose proof (three_blocks_grow (zeros 16) (zeros (zlen k)) (zeros (zlen v)) e Hwf) as Hg.
  destruct (three_blocks_lookup (zeros 16) (zeros (zlen k)) (zeros (zlen v)) e) as (H0 & H1 & H2 & _).
  exists (World (three_blocks (zeros 16) (zeros (zlen k)) (zeros (zlen v)) e) f kd rg th ru sd), (e_brk e).
  split; [|split].
  - rewrite <-Hks, <-Hvs, <-Hat. exact (get_allocate_ok e f kd rg th ru sd y (st_keydir _ _ _ Hst) Hx Hc).
  - apply (stage_step os _ _ Hs); [by eapply system_grow | done | done | apply (eg_events _ _ Hg)].
  - split_and!; eapply (mine_new cap mx _ l m q n _ _ _ Hsy); try done; cbn [w_env]; lia.
Qed.

(** The files only grow, so that a record stays where it is. *)
Lemma entry_later w w' l l' m m' n n' c i v s :
  running w l m n → running w' l' m' n' → later s w w' →
  entry_ok (disk w) l c i v → entry_ok (disk w') l' c i v.
Proof.
  intros Hr Hr' Hl (content & h & Hin & Hc & Hlen & Hrec & Hvs & Hcrc & Hne & Hpos & Hend & Hsl).
  pose proof (do_rep _ _ (st_disk _ _ _ (rn_store _ _ _ _ Hr))) as Hrep.
  pose proof (do_rep _ _ (st_disk _ _ _ (rn_store _ _ _ _ Hr'))) as Hrep'.
  destruct (nk_data _ _ (lt_names _ _ _ Hl) _ _ Hc) as [d Hd].
  assert (ki_file_id i ∈ node_id (fs_nodes (w_files w')) <$> l') as Hin'.
  { rewrite <-(rep_table _ _ Hrep'). apply (nk_ids _ _ (lt_names _ _ _ Hl)).
    unfold file_ids. by rewrite (rep_table _ _ Hrep). }
  exists (content ++ d), h. split; [exact Hin'|]. split; [exact Hd|].
  rewrite zlen_app. pose proof (zlen_nonneg d). split; [|split_and!; try done; [lia|]].
  - apply list_elem_of_fmap in Hin' as (q & Hid & Hq).
    destruct (rep_lookup _ _ q Hrep' Hq) as [x Hx]. cbn [disk snd] in Hx.
    destruct (rc_data _ _ _ (rn_recoverable _ _ _ _ Hr') q x Hq Hx) as (c' & Hc' & Hn).
    unfold node_id in Hid. rewrite Hx in Hid. simpl in Hid, Hc'. rewrite <-Hid in Hc'.
    unfold disk in Hd, Hc'. assert (c' = content ++ d) as -> by congruence.
    pose proof (rc_small _ _ _ (rn_recoverable _ _ _ _ Hr')). rewrite length_app in Hn. unfold zlen. lia.
  - rewrite slice_app_l by (done || apply zlen_nonneg). exact Hsl.
Qed.

(** The world after the buffers have been filled. *)
Definition filled (b : Z) (d0 d1 d2 : bytes) (w : world) : world :=
  with_heap (<[b + 2 := d2]> (<[b + 1 := d1]> (<[b := d0]> (e_heap (w_env w))))) w.

Lemma filled_system w l m q n b d0 d1 d2 c0 c1 c2 :
  system cap mx w l m q n → buffers w b d0 d1 d2 →
  system cap mx (filled b c0 c1 c2 w) l m q n ∧ buffers (filled b c0 c1 c2 w) b c0 c1 c2.
Proof.
  intros Hsy (H0 & H1 & H2).
  set (h0 := <[b := c0]> (e_heap (w_env w))). set (h1 := <[b + 1 := c1]> h0).
  assert (mine (with_heap h0 w) (b + 1) d1) as H1'.
  { eapply mine_heap; [exact H1|]. unfold h0. rewrite lookup_insert_ne by lia. apply H1. }
  assert (mine (with_heap h1 w) (b + 2) d2) as H2'.
  { eapply mine_heap; [exact H2|]. unfold h1, h0. rewrite !lookup_insert_ne by lia. apply H2. }
  split.
  - pose proof (system_write cap mx w l m q n b d0 c0 Hsy H0) as S0.
    pose proof (system_write cap mx _ l m q n (b + 1) d1 c1 S0 H1') as S1.
    exact (system_write cap mx _ l m q n (b + 2) d2 c2 S1 H2').
  - split_and!; eapply mine_heap; try done; simpl; rewrite !lookup_insert; repeat case_decide; done || lia.
Qed.

(** The world after they have been freed. *)
Lemma freed_system w l m q n b d0 d1 d2 :
  system cap mx w l m q n → buffers w b d0 d1 d2 →
  system cap mx (with_heap (delete (b + 2) (delete (b + 1) (delete b (e_heap (w_env w))))) w) l m q n.
Proof.
  intros Hsy (H0 & H1 & H2).
  set (h0 := delete b (e_heap (w_env w))). set (h1 := delete (b + 1) h0).
  assert (mine (with_heap h0 w) (b + 1) d1) as H1'.
  { eapply mine_heap; [exact H1|]. unfold h0. rewrite lookup_delete_ne by lia. apply H1. }
  assert (mine (with_heap h1 w) (b + 2) d2) as H2'.
  { eapply mine_heap; [exact H2|]. unfold h1, h0. rewrite !lookup_delete_ne by lia. apply H2. }
  pose proof (system_delete cap mx w l m q n b d0 Hsy H0) as S0.
  pose proof (system_delete cap mx _ l m q n (b + 1) d1 S0 H1') as S1.
  exact (system_delete cap mx _ l m q n (b + 2) d2 S1 H2').
Qed.

(** The record at a place is read. *)
Lemma stage_read os s y v b d0 d1 d2 :
  stage os s → entry_ok (disk (at_world s)) (at_files s) k (kd_info_of y) v →
  buffers (at_world s) b d0 d1 d2 → zlen d0 = 16 → zlen d1 = zlen k → 0 < zlen d2 ≤ zlen v →
  (length (events (w_env (at_world s))) + Z.to_nat (16 + zlen k + zlen d2) < fuel)%nat →
  ∃ h w', sound_record h k v ∧
    ccask_read_datafile_record fuel (kd_file_id y) (datafile_iov b (zlen k) (zlen d2)) (kd_record_pos y)
      (at_world s) = Ret CCASK_OK w' ∧
    stage os (with_world w' s) ∧ buffers w' b (datafile_header_bytes h) k (take (length d2) v).
Proof.
  intros Hs He Hb Hz0 Hz1 Hz2 Hfuel. pose proof (sg_system _ _ Hs) as Hsy.
  pose proof (stage_wf _ _ Hs) as Hwf. pose proof (stage_calm _ _ Hs) as Hc.
  pose proof (stage_store _ _ Hs) as Hst. pose proof (st_disk _ _ _ Hst) as Hd.
  pose proof Hb as ([H0 _ _] & [H1 _ _] & [H2 _ _]).
  destruct s as [[e f kd rg th ru sd] l m q n y0 v0]. unfold disk in *.
  cbn [at_world at_files at_map at_queue at_bytes w_env w_files] in *.
  destruct (read_record_ok fuel e f kd rg th ru sd l y k v b d0 d1 d2) as
    (h & e2 & r & x & z & ru' & Hrec & _ & Hrun & (Hr & Hx & Hzid & Hzh & Hru) & Hdz & Hri); try done.
  set (w := World e f kd rg th ru sd) in *. set (w' := World e2 (put_node r z f) kd rg th ru' sd) in *.
  destruct (filled_system w l m q n b d0 d1 d2 (datafile_header_bytes h) k (take (length d2) v) Hsy Hb)
    as [Hsy1 Hb1]. set (w1 := filled b _ _ _ w) in *.
  pose proof (system_wf _ _ _ _ _ _ _ Hsy1) as Hwf1.
  destruct Hri as [R1 R2 R3 R4 R5 R6 R7 R8].
  assert (env_kept (w_env w1) e2) as Hke.
  { constructor; try done. intros a Ha. rewrite R1 by exact Ha. simpl. rewrite !lookup_insert.
    repeat case_decide; done || lia. }
  pose proof (rn_store _ _ _ _ (sy_running _ _ _ _ _ _ _ Hsy1)) as Hst1.
  assert (quiet w1 w') as Hq.
  { apply (quiet_after_read (w_env w1) e2 f r x z kd rg th ru ru' sd); try done.
    by rewrite (rep_table _ _ (do_rep _ _ Hd)). }
  assert (store_ok w' l m) as Hst'
    by exact (store_ok_after_read (w_env w1) e2 f r x z kd rg th ru ru' sd l m Hst1 Hke Hx Hzid Hdz).
  exists h, w'. split; [done|]. split; [exact Hrun|]. split.
  - apply (stage_step os _ _ Hs); [by apply (system_quiet cap mx w1) | done | | exact R8].
    exact (proj1 (quiet_active w1 w' l m Hst1 Hst' Hq)).
  - eapply buffers_kept; [exact Hwf1 | by apply kept_quiet | exact Hb1].
Qed.

(** The checksum of a record that was read completely. *)
Lemma stage_check os s b h v n :
  stage os s → buffers (at_world s) b (datafile_header_bytes h) k v → sound_record h k v →
  zoom (get_check (datafile_iov b (zlen k) n)) (at_world s) = Ret (Some h) (at_world s).
Proof.
  intros Hs ([H0 _ _] & [H1 _ _] & [H2 _ _]) (Hrec & Hcrc & _). destruct (at_world s) as [e f kd rg th ru sd].
  by apply zoom_env, (get_check_ok e b h k v n).
Qed.

(** The block for the caller. *)
Lemma stage_space os s b d0 d1 d2 :
  stage os s → buffers (at_world s) b d0 d1 d2 → ∃ w' c,
    get_space p (at_world s) = Ret (Some c) w' ∧ stage os (with_world w' s) ∧
    buffers w' b d0 d1 d2 ∧ mine w' c (zeros (zlen (at_value s))) ∧ b + 2 < c.
Proof.
  intros Hs Hb. destruct (stage_entry _ _ Hs) as (_ & Hvs & _). pose proof (stage_wf _ _ Hs) as Hwf.
  pose proof (stage_calm _ _ Hs) as Hc. pose proof (sg_system _ _ Hs) as Hsy.
  pose proof (stage_pointer _ _ Hs) as Hp. rewrite <-(sg_at _ _ Hs) in Hp |- *.
  pose proof (get_space_run _ _ Hp _ _ (malloc_ok _ _ (calm_malloc_head _ Hc))) as Hrun.
  destruct s as [[e f kd rg th ru sd] l m q n y v].
  cbn [at_world at_entry at_value at_files at_map at_queue at_bytes w_env] in *. rewrite Hvs in Hrun.
  set (e' := put_block (zeros (zlen v)) e) in *.
  pose proof (put_block_grow e (zeros (zlen v)) Hwf) as Hg.
  exists (World e' f kd rg th ru sd), (e_brk e). split; [exact Hrun|]. split; [|split; [|split]].
  - apply (stage_step os _ _ Hs); [by eapply system_grow | done | done | apply (eg_events _ _ Hg)].
  - eapply buffers_kept; [|by eapply kept_grow|exact Hb]. exact Hwf.
  - eapply (mine_new cap mx _ l m q n _ _ _ Hsy); try done. apply lookup_insert_eq.
  - destruct Hb as (_ & _ & [H2 _ _]). apply Hwf. by eexists.
Qed.

(** Some of the value is copied. *)
Lemma stage_copy os s b d0 d1 v c blk n :
  stage os s → buffers (at_world s) b d0 d1 v → mine (at_world s) c blk → b + 2 < c →
  zlen (at_value s) ≤ zlen v → zlen (at_value s) ≤ zlen blk → ∃ w',
    get_copy p c (datafile_iov b (zlen k) n) (at_world s) = Ret tt w' ∧ stage os (with_world w' s) ∧
    buffers w' b d0 d1 v ∧
    mine w' c (take (length (at_value s)) v ++ drop (length (at_value s)) blk).
Proof.
  intros Hs (B0 & B1 & B2) Hc Hlt Hv Hblk. destruct (stage_entry _ _ Hs) as (_ & Hvs & Hpos & _).
  pose proof (sg_system _ _ Hs) as Hsy. pose proof (stage_pointer _ _ Hs) as Hp.
  rewrite <-(sg_at _ _ Hs) in Hp |- *.
  pose proof (get_copy_run _ _ Hp c blk b (zlen k) n v (mi_heap _ _ _ Hc) (mi_heap _ _ _ B2)
    ltac:(lia) ltac:(lia)) as Hrun. cbv zeta in Hrun.
  rewrite Hvs in Hrun. unfold zlen in Hrun at 2 3. rewrite Nat2Z.id in Hrun.
  set (d := take (length (at_value s)) v ++ drop (length (at_value s)) blk) in *.
  exists (with_heap (<[c := d]> (e_heap (w_env (at_world s)))) (at_world s)). split; [exact Hrun|].
  split; [|split; [split_and!|]].
  - apply (stage_step os _ _ Hs); [by eapply system_write | done..].
  - eapply mine_heap; [exact B0|]. rewrite lookup_insert_ne by lia. apply B0.
  - eapply mine_heap; [exact B1|]. rewrite lookup_insert_ne by lia. apply B1.
  - eapply mine_heap; [exact B2|]. rewrite lookup_insert_ne by lia. apply B2.
  - eapply mine_heap; [exact Hc|]. apply lookup_insert_eq.
Qed.

(** The end: the buffers are freed. *)
Lemma stage_result os s b d0 d1 d2 c blk h n :
  stage os s → buffers (at_world s) b d0 d1 d2 → mine (at_world s) c blk → b + 2 < c → ∃ w',
    get_result p h c (datafile_iov b (zlen k) n) (at_world s) =
      Ret (CCASK_OK, CRecord (df_timestamp h) (df_key_size h) (zlen (at_value s)) (Some (c, 0))) w' ∧
    stage os (with_world w' s) ∧ mine w' c blk.
Proof.
  intros Hs (B0 & B1 & B2) Hc Hlt. destruct (stage_entry _ _ Hs) as (_ & Hvs & _).
  pose proof (sg_system _ _ Hs) as Hsy. pose proof (stage_pointer _ _ Hs) as Hp.
  rewrite <-(sg_at _ _ Hs) in Hp |- *. rewrite <-Hvs.
  eexists. split; [|split].
  - apply (get_result_run _ _ Hp). apply free_datafile_iov; eexists; apply mi_heap; done.
  - apply (stage_step os _ _ Hs); [|done..].
    by apply (freed_system _ _ _ _ _ b d0 d1 d2).
  - eapply mine_heap; [exact Hc|]. rewrite !lookup_delete_ne by lia. apply Hc.
Qed.

(** ** A value that has become longer *)

Lemma crc_overruns ts ks vs key d :
  zlen d < vs → calculate_crc32 ts ks vs key (Some d) = None.
Proof.
  intros Hvs. assert (∀ c, crc32_over c (Some d) vs = None) as Hlast.
  { intros c. unfold crc32_over, cbuf_read. pose proof (zlen_nonneg d).
    rewrite bool_decide_eq_false_2 by lia. cbn. by rewrite bool_decide_eq_false_2 by lia. }
  assert (∀ (o : option Z) (f : Z → option Z), (∀ c, f c = None) → o ≫= f = None) as Hbind
    by (intros [c|] f Hf; [apply Hf | done]).
  unfold calculate_crc32. do 4 (apply Hbind; intros ?). apply Hlast.
Qed.

(** The checksum is computed beyond the end of the buffer. *)
Lemma check_overruns w b h v d n :
  buffers w b (datafile_header_bytes h) k d → datafile_record_ok h k v → zlen d < zlen v →
  zoom (get_check (datafile_iov b (zlen k) n)) w = Undef.
Proof.
  intros ([H0 _ _] & [H1 _ _] & [H2 _ _]) (Hh & Hks & Hvs) Hlt.
  unfold zoom. change (part w) with (w_env w). unfold get_check.
  rewrite (bind_run _ _ _ _ _ (get_datafile_record_header_run (w_env w)
    (datafile_iov b (zlen k) n) b 16 _ eq_refl H0 (zlen_datafile_header h))),
    datafile_header_of_bytes by done.
  erewrite bind_run by exact (heap_buf_run _ (b + 1) k H1).
  erewrite bind_run by exact (heap_buf_run _ (b + 2) d H2).
  by rewrite crc_overruns by lia.
Qed.

(** More is copied than was read, or than there is room for. *)
Lemma copy_overruns os s b d0 d1 v c blk n :
  stage os s → buffers (at_world s) b d0 d1 v → mine (at_world s) c blk →
  zlen v < zlen (at_value s) ∨ zlen blk < zlen (at_value s) →
  get_copy p c (datafile_iov b (zlen k) n) (at_world s) = Undef.
Proof.
  intros Hs (_ & _ & [H2 _ _]) [Hc _ _] Hlt. destruct (stage_entry _ _ Hs) as (_ & Hvs & Hpos & _).
  unfold get_copy. erewrite bind_run by exact (stage_pointer _ _ Hs). rewrite Hvs.
  destruct (at_world s) as [e f kd rg th ru sd]. cbn [w_env] in *.
  erewrite bind_run by apply zoom_env, (heap_buf_run e (b + 2) v H2).
  unfold zoom. cbn [part part_env w_env]. unfold memcpy, cbuf_read. rewrite bool_decide_eq_false_2 by lia. simpl.
  case_bool_decide as Hv; [|done]. unfold mbind, M_bind. simpl. destruct Hlt as [Hlt|Hlt]; [lia|].
  assert (zlen (take (Z.to_nat (zlen (at_value s))) v) = zlen (at_value s)) as Hlen.
  { unfold zlen in *. rewrite length_take. lia. }
  unfold store, mem_write, mbind, M_bind, get. simpl. rewrite bool_decide_eq_false_2.
  2: { intros Heq. rewrite Heq in Hlen. change (0 = zlen (at_value s)) in Hlen. lia. }
  simpl. rewrite Hc. simpl. by rewrite bool_decide_eq_false_2 by lia.
Qed.

(** ** The get *)

(** The end of the get copies as much as the entry says then. *)
Lemma split_copy_meets o s b h v n :
  stage (before_space o ++ before_copy o ++ before_result o) s →
  buffers (at_world s) b (datafile_header_bytes h) k v → sound_record h k v →
  ∃ rs4 s4 rs5 s5, let n4 := zlen (at_value s4) in let n5 := zlen (at_value s5) in
    abs_ops cap (before_space o) (at_map s, at_queue s) = (rs4, (at_map s4, at_queue s4)) ∧
    abs_ops cap (before_copy o) (at_map s4, at_queue s4) = (rs5, (at_map s5, at_queue s5)) ∧
    at_map s4 !! k = Some (at_value s4) ∧ at_map s5 !! k = Some (at_value s5) ∧
    (zlen v < n5 ∨ n4 < n5 → split_copy p (datafile_iov b (zlen k) n) h o (at_world s) = Undef) ∧
    (n5 ≤ zlen v ∧ n5 ≤ n4 → ∃ rs6 s6 c,
      abs_ops cap (before_result o) (at_map s5, at_queue s5) = (rs6, (at_map s6, at_queue s6)) ∧
      split_copy p (datafile_iov b (zlen k) n) h o (at_world s) =
        Ret (rs4 ++ rs5 ++ rs6, (CCASK_OK, CRecord (df_timestamp h) (zlen k) (zlen (at_value s6)) (Some (c, 0))))
          (at_world s6) ∧
      stage [] s6 ∧
      mine (at_world s6) c (take (length (at_value s5)) v ++ drop (length (at_value s5)) (zeros n4))).
Proof.
  intros Hs Hb ((Hh & Hks & Hvs) & _ & _).
  destruct (stage_run _ _ s Hs) as (rs4 & s4 & Habs4 & Hrun4 & Hs4 & Hl4).
  pose proof (buffers_later _ _ _ _ _ _ _ (stage_wf _ _ Hs) Hl4 Hb) as Hb4.
  destruct (stage_space _ s4 b _ _ _ Hs4 Hb4) as (w4 & c & Hspace & Hs4' & Hb4' & Hc4 & Hlt).
  destruct (stage_run _ _ (with_world w4 s4) Hs4') as (rs5 & s5 & Habs5 & Hrun5 & Hs5 & Hl5).
  pose proof (stage_wf _ _ Hs4') as Hwf4. cbn [with_world at_world at_map at_queue] in *.
  pose proof (buffers_later _ _ _ _ _ _ _ Hwf4 Hl5 Hb4') as Hb5.
  pose proof (mine_later _ _ _ _ _ Hwf4 Hl5 Hc4) as Hc5.
  assert (zlen (zeros (zlen (at_value s4))) = zlen (at_value s4)) as Hz by apply zlen_zeros, zlen_nonneg.
  exists rs4, s4, rs5, s5. cbv zeta. split; [exact Habs4|]. split; [exact Habs5|].
  split; [apply (sg_value _ _ Hs4)|]. split; [apply (sg_value _ _ Hs5)|]. split.
  - intros Hover. unfold split_copy. erewrite bind_run by exact Hrun4. erewrite bind_run by exact Hspace.
    cbn match. erewrite bind_run by exact Hrun5. apply bind_undef.
    eapply copy_overruns; [exact Hs5 | exact Hb5 | exact Hc5 | by rewrite Hz].
  - intros [Hv Hn]. rewrite <-Hz in Hn.
    destruct (stage_copy _ s5 b _ _ v c _ n Hs5 Hb5 Hc5 Hlt Hv Hn) as (w5 & Hcopy & Hs5' & Hb5' & Hc5').
    rewrite <-(app_nil_r (before_result o)) in Hs5'.
    destruct (stage_run _ _ (with_world w5 s5) Hs5') as (rs6 & s6 & Habs6 & Hrun6 & Hs6 & Hl6).
    pose proof (stage_wf _ _ Hs5') as Hwf5. cbn [with_world at_world at_map at_queue] in *.
    pose proof (buffers_later _ _ _ _ _ _ _ Hwf5 Hl6 Hb5') as Hb6.
    pose proof (mine_later _ _ _ _ _ Hwf5 Hl6 Hc5') as Hc6.
    destruct (stage_result _ s6 b _ _ _ c _ h n Hs6 Hb6 Hc6 Hlt) as (w6 & Hres & Hs6' & Hc6').
    exists rs6, (with_world w6 s6), c. split; [exact Habs6|]. split; [|by split].
    unfold split_copy. erewrite bind_run by exact Hrun4. erewrite bind_run by exact Hspace.
    cbn match. erewrite bind_run by exact Hrun5. erewrite bind_run by exact Hcopy.
    erewrite bind_run by exact Hrun6. erewrite bind_run by exact Hres. by rewrite Hks.
Qed.

(** The record is read from where it was when the place was looked up. *)
Lemma split_fetch_meets o s b d0 d1 d2 rest :
  stage (before_place o ++ before_read o ++ rest) s → buffers (at_world s) b d0 d1 d2 →
  zlen d0 = 16 → zlen d1 = zlen k → 0 < zlen d2 →
  let df := datafile_iov b (zlen k) (zlen d2) in
  ∃ rs2 s2 rs3 s3,
    abs_ops cap (before_place o) (at_map s, at_queue s) = (rs2, (at_map s2, at_queue s2)) ∧
    abs_ops cap (before_read o) (at_map s2, at_queue s2) = (rs3, (at_map s3, at_queue s3)) ∧
    at_map s2 !! k = Some (at_value s2) ∧
    (zlen d2 < zlen (at_value s2) → split_fetch p df o (at_world s) = Undef) ∧
    (zlen (at_value s2) = zlen d2 → ∃ h, sound_record h k (at_value s2) ∧ stage rest s3 ∧
      buffers (at_world s3) b (datafile_header_bytes h) k (at_value s2) ∧
      split_fetch p df o (at_world s) =
        ('(rs, out) ← split_copy p df h o; mret (rs2 ++ rs3 ++ rs, out)) (at_world s3)).
Proof.
  intros Hs Hb Hz0 Hz1 Hz2 df.
  destruct (stage_run _ _ s Hs) as (rs2 & s2 & Habs2 & Hrun2 & Hs2 & Hl2).
  pose proof (buffers_later _ _ _ _ _ _ _ (stage_wf _ _ Hs) Hl2 Hb) as Hb2.
  destruct (stage_run _ _ s2 Hs2) as (rs3 & s3 & Habs3 & Hrun3 & Hs3 & Hl3).
  pose proof (buffers_later _ _ _ _ _ _ _ (stage_wf _ _ Hs2) Hl3 Hb2) as Hb3.
  pose proof (sy_running _ _ _ _ _ _ _ (sg_system _ _ Hs2)) as Hr2.
  destruct (stage_entry _ _ Hs2) as (_ & _ & _ & He2).
  pose proof (entry_later _ _ _ _ _ _ _ _ _ _ _ _ Hr2 (sy_running _ _ _ _ _ _ _ (sg_system _ _ Hs3)) Hl3 He2) as He3.
  pose proof (value_size _ _ _ _ _ _ Hr2 (sg_value _ _ Hs2)) as Hsz. unfold record_size in Hsz.
  pose proof (sg_fuel _ _ Hs2) as Hfuel. pose proof (suffix_length _ _ (lt_events _ _ _ Hl3)) as Hev.
  pose proof (stage_pointer _ _ Hs2) as Hplace. rewrite <-(sg_at _ _ Hs2) in Hplace.
  apply get_place_run in Hplace. rewrite (sg_at _ _ Hs2) in Hplace.
  assert (zlen d2 ≤ zlen (at_value s2) → ∃ h w', sound_record h k (at_value s2) ∧
    stage rest (with_world w' s3) ∧ buffers w' b (datafile_header_bytes h) k (take (length d2) (at_value s2)) ∧
    split_fetch p df o (at_world s) =
      (header ← zoom (get_check df);
       match header with
       | None => mret (rs2 ++ rs3, (CCASK_FAIL, CRecord 0 0 0 None))
       | Some header => '(rs, out) ← split_copy p df header o; mret (rs2 ++ rs3 ++ rs, out)
       end) w') as Hread.
  { intros Hle. destruct (stage_read _ s3 (at_entry s2) (at_value s2) b d0 d1 d2 Hs3 He3 Hb3 Hz0 Hz1)
      as (h & w' & Hrec & Hread & Hs3' & Hb3'); [lia | lia |].
    exists h, w'. split; [done|]. split; [done|]. split; [done|]. unfold split_fetch.
    erewrite bind_run by exact Hrun2. erewrite bind_run.
    2: { apply (attempt_once 4 _ _ (CCASK_OK, rs3)); [|reflexivity]. erewrite bind_run by exact Hplace. cbn beta iota.
         erewrite bind_run by exact Hrun3. erewrite bind_run by exact Hread. reflexivity. }
    cbn beta iota. by rewrite bool_decide_neq_refl. }
  exists rs2, s2, rs3.
  destruct (decide (zlen (at_value s2) = zlen d2)) as [Heq|Hne].
  - destruct Hread as (h & w' & Hrec & Hs3' & Hb3' & Hfetch); [lia|].
    rewrite take_ge in Hb3' by (unfold zlen in *; lia).
    exists (with_world w' s3). do 2 (split; [done|]). split; [apply (sg_value _ _ Hs2)|].
    split; [lia|]. intros _. exists h. split; [done|]. split; [done|]. split; [done|]. rewrite Hfetch.
    by erewrite bind_run by exact (stage_check _ (with_world w' s3) b h _ _ Hs3' Hb3' Hrec).
  - exists s3. do 2 (split; [done|]). split; [apply (sg_value _ _ Hs2)|]. split; [|done]. intros Hlt.
    destruct Hread as (h & w' & (Hrec & _) & _ & Hb3' & Hfetch); [lia|]. rewrite Hfetch. apply bind_undef.
    eapply check_overruns; [exact Hb3' | exact Hrec |]. unfold zlen in *. rewrite length_take. lia.
Qed.
End races.

Section get.
Context {host : Host} {zlib : Zlib} {laws : ZlibLaws} (fuel : nat) (cap mx : Z).

(** What the buffers are allocated for. *)
Lemma split_get_starts k o w l m q n :
  system cap mx w l m q n → is_Some (m !! k) → Forall (op_ok mx) (calls o) →
  active_id w + Z.of_nat (length (calls o)) < 2 ^ 64 →
  2 * Z.of_nat (n + queue_bytes q + ops_bytes (calls o)) < 2 ^ 32 →
  (length (events (w_env w)) + (n + queue_bytes q + ops_bytes (calls o)) + 20 < fuel)%nat →
  ∃ p rs1 s1 b, let n1 := zlen (at_value s1) in
    abs_ops cap (before_allocate o) (m, q) = (rs1, (at_map s1, at_queue s1)) ∧
    at_map s1 !! k = Some (at_value s1) ∧ 0 < n1 ∧
    stage fuel cap mx k p (before_place o ++ before_read o ++ before_space o ++ before_copy o ++ before_result o) s1 ∧
    buffers (at_world s1) b (zeros 16) (zeros (zlen k)) (zeros n1) ∧
    split_get fuel k o w =
      ('(rs, out) ← split_fetch fuel p (datafile_iov b (zlen k) n1) o; mret (Some (rs1 ++ rs, out)))
        (at_world s1).
Proof.
  intros Hsy [v Hv] Hok Hid Hsm Hfuel.
  pose proof (rn_store _ _ _ _ (sy_running _ _ _ _ _ _ _ Hsy)) as Hst.
  destruct (key_found w l m k v Hst Hv) as (x & Hx & Hkey & Hfind).
  assert (stage fuel cap mx k (kd_at x) (calls o) (Snap w l m q n x v)) as Hs by by constructor.
  destruct (stage_run fuel cap mx k (kd_at x) (before_allocate o) _ _ Hs)
    as (rs1 & s1 & Habs1 & Hrun1 & Hs1 & _).
  destruct (stage_allocate fuel cap mx k (kd_at x) _ s1 Hs1) as (w1 & b & Halloc & Hs1' & Hb).
  exists (kd_at x), rs1, (with_world w1 s1), b. cbv zeta. split; [exact Habs1|].
  split; [apply (sg_value _ _ _ _ _ _ _ Hs1)|]. split; [apply (stage_entry _ _ _ _ _ _ _ Hs1)|].
  split; [exact Hs1'|]. split; [exact Hb|].
  unfold split_get. erewrite bind_run by exact Hfind. cbn match.
  erewrite bind_run by exact Hrun1. erewrite bind_run by exact Halloc. cbn beta iota.
  by rewrite bool_decide_neq_refl.
Qed.
(** The whole get: it overruns a buffer, or returns. *)
Lemma split_get_meets k o w l m q n :
  system cap mx w l m q n → is_Some (m !! k) → Forall (op_ok mx) (calls o) →
  active_id w + Z.of_nat (length (calls o)) < 2 ^ 64 →
  2 * Z.of_nat (n + queue_bytes q + ops_bytes (calls o)) < 2 ^ 32 →
  (length (events (w_env w)) + (n + queue_bytes q + ops_bytes (calls o)) + 20 < fuel)%nat →
  ∃ rs1 s1 rs2 s2 rs3 s3, let n1 := zlen (at_value s1) in let v := at_value s2 in
    abs_ops cap (before_allocate o) (m, q) = (rs1, (at_map s1, at_queue s1)) ∧
    abs_ops cap (before_place o) (at_map s1, at_queue s1) = (rs2, (at_map s2, at_queue s2)) ∧
    abs_ops cap (before_read o) (at_map s2, at_queue s2) = (rs3, (at_map s3, at_queue s3)) ∧
    at_map s1 !! k = Some (at_value s1) ∧ at_map s2 !! k = Some v ∧
    (n1 < zlen v → split_get fuel k o w = Undef) ∧
    (zlen v = n1 → ∃ rs4 s4 rs5 s5, let n4 := zlen (at_value s4) in let n5 := zlen (at_value s5) in
      abs_ops cap (before_space o) (at_map s3, at_queue s3) = (rs4, (at_map s4, at_queue s4)) ∧
      abs_ops cap (before_copy o) (at_map s4, at_queue s4) = (rs5, (at_map s5, at_queue s5)) ∧
      at_map s4 !! k = Some (at_value s4) ∧ at_map s5 !! k = Some (at_value s5) ∧
      (zlen v < n5 ∨ n4 < n5 → split_get fuel k o w = Undef) ∧
      (n5 ≤ zlen v ∧ n5 ≤ n4 → ∃ rs6 s6 ts c,
        abs_ops cap (before_result o) (at_map s5, at_queue s5) = (rs6, (at_map s6, at_queue s6)) ∧
        at_map s6 !! k = Some (at_value s6) ∧
        split_get fuel k o w = Ret (Some ((abs_ops cap (calls o) (m, q)).1,
          (CCASK_OK, CRecord ts (zlen k) (zlen (at_value s6)) (Some (c, 0))))) (at_world s6) ∧
        system cap mx (at_world s6) (at_files s6) (at_map s6) (at_queue s6) (at_bytes s6) ∧
        e_heap (w_env (at_world s6)) !! c =
          Some (take (length (at_value s5)) v ++ drop (length (at_value s5)) (zeros n4)))).
Proof.
  intros Hsy Hkey Hok Hid Hsm Hfuel.
  destruct (split_get_starts k o w l m q n Hsy Hkey Hok Hid Hsm Hfuel) as
    (p & rs1 & s1 & b & Habs1 & Hv1 & Hpos & Hst1 & Hbuf & Hrun1). cbv zeta in *.
  assert (zlen (zeros (zlen (at_value s1))) = zlen (at_value s1)) as Hz by apply zlen_zeros, zlen_nonneg.
  destruct (split_fetch_meets fuel cap mx k p o s1 b _ _ _ _ Hst1 Hbuf (zlen_zeros 16 ltac:(lia))
    (zlen_zeros (zlen k) (zlen_nonneg k)) ltac:(lia)) as
    (rs2 & s2 & rs3 & s3 & Habs2 & Habs3 & Hv2 & Hover & Hread). rewrite Hz in Hover, Hread.
  exists rs1, s1, rs2, s2, rs3, s3. do 5 (split; [done|]). split.
  { intros Hlt. rewrite Hrun1. by apply bind_undef, Hover. }
  intros Heq. destruct (Hread Heq) as (h & Hrec & Hst3 & Hbuf3 & Hrun3).
  destruct (split_copy_meets fuel cap mx k p o s3 b h (at_value s2) (zlen (at_value s1)) Hst3 Hbuf3 Hrec) as
    (rs4 & s4 & rs5 & s5 & Habs4 & Habs5 & Hv4 & Hv5 & Hover5 & Hcopy). cbv zeta in *.
  exists rs4, s4, rs5, s5. do 4 (split; [done|]). split.
  { intros Hlt. rewrite Hrun1. apply bind_undef. rewrite Hrun3. by apply bind_undef, Hover5. }
  intros Hle. destruct (Hcopy Hle) as (rs6 & s6 & c & Habs6 & Hrun6 & Hst6 & [Hc _ _]).
  exists rs6, s6, (df_timestamp h), c. split; [done|]. split; [apply (sg_value _ _ _ _ _ _ _ Hst6)|].
  split; [|split; [apply (sg_system _ _ _ _ _ _ _ Hst6) | exact Hc]].
  rewrite Hrun1. erewrite bind_run; [|rewrite Hrun3; erewrite bind_run by exact Hrun6; reflexivity].
  unfold calls. do 5 (rewrite abs_ops_app; first [rewrite Habs1 | rewrite Habs2 | rewrite Habs3
    | rewrite Habs4 | rewrite Habs5]; cbn beta iota). by rewrite Habs6.
Qed.
End get.
