(* ===== verification/Scan.v ===== *)
(** * Scan: the files of a directory

    What [ccask_files_init] makes of a data directory: the scan builds the
    sorted list of files, whatever the order of the entries, and the newest
    file becomes the active one; in an empty directory a first file is
    created. *)
From stdpp Require Import sorting.
From Stdlib Require Import Strings.Ascii.
From S2P Require Import Prelude Status Posix SafeIO Codec Records Ringbuf Uthash Keydir Log.
From S2P Require Import Filenames Files Disk DiskWrite World Hint Recovery Rotate.
From S2P Require Import Store Turns.
Open Scope Z_scope.

(** ** What [readdir] says *)

(** The entries of a directory with the data files [ids]: hint files, the two
    dots, and what is not a regular file may be anywhere between them. *)
Inductive listing : list dirent → list Z → Prop :=
  | listing_nil : listing [] []
  | listing_data id es ids :
      0 ≤ id < 2 ^ 31 → listing es ids →
      listing (Dirent (file_name id ".data") (Some true) :: es) (id :: ids)
  | listing_hint id es ids :
      0 ≤ id < 2 ^ 31 → listing es ids →
      listing (Dirent (file_name id ".hint") (Some true) :: es) ids
  | listing_dot name b es ids :
      name = "."%string ∨ name = ".."%string → listing es ids →
      listing (Dirent name b :: es) ids
  | listing_other name b es ids :
      strlen name ≤ 256 → b ≠ Some true → listing es ids → listing (Dirent name b :: es) ids.

Lemma file_name_plain id s :
  0 ≤ id → s = ".data"%string ∨ s = ".hint"%string →
  ¬ (file_name id s = "." ∨ file_name id s = "..")%string ∧ ¬ 256 < strlen (file_name id s) ∧
  strrchr "."%char s = Some (EmptyString, s).
Proof.
  intros Hid Hs. assert (strrchr "."%char s = Some (EmptyString, s)) as Hdot by (by destruct Hs as [-> | ->]).
  split_and!; [| |done].
  - pose proof (strrchr_file_name id s Hid Hdot) as Hn.
    intros [Heq|Heq]; rewrite Heq in Hn; apply (f_equal (option_map snd)) in Hn;
      destruct Hs as [-> | ->]; discriminate Hn.
  - pose proof (strlen_print_digits 20 id s) as Hlen. unfold file_name, print_u64.
    assert (strlen s = 5) by (by destruct Hs as [-> | ->]). lia.
Qed.

(** ** The scan *)

(** A node of the scan: its file is not open, and it has hints if there is a
    hint file. *)
Record fresh_file (s : fstate) (x : ccask_file) : Prop := {
  ff_fd : file_fd x = -1;
  ff_lock : file_rwlock x = rwlock_new;
  ff_active : file_is_active x = false;
  ff_id : 0 ≤ file_id x < 2 ^ 31;
  ff_hint : file_has_hint x = bool_decide (is_Some (hint_ino s (file_id x)));
}.

(** The blocks that the statics of files.c hold: each is used once, is
    allocated, and not below [lo]. *)
Definition files_owned (f : files_state) : list Z :=
  option_list (fst <$> fs_data_dir f) ++ fs_table f.

Record files_own (lo : Z) (s : fstate) : Prop := {
  fo_nodup : NoDup (files_owned s.2);
  fo_live : ∀ c, c ∈ files_owned s.2 → lo ≤ c ∧ is_Some (e_heap s.1 !! c);
}.

Lemma files_own_grow lo e e' f : env_grow e e' → files_own lo (e, f) → files_own lo (e', f).
Proof.
  intros Hg [H1 H2]. constructor; [done|]. intros c Hc. destruct (H2 c Hc) as [Hlo [blk Hb]].
  split; [done|]. exists blk. eapply lookup_weaken; [exact Hb | apply (eg_heap _ _ Hg)].
Qed.

(** A new node. *)
Lemma files_own_new lo e e' f f' b :
  files_own lo (e, f) → fs_table f' ≡ₚ b :: fs_table f → fs_data_dir f' = fs_data_dir f →
  env_grow e e' → heap_wf e → lo ≤ e_brk e → e_brk e ≤ b → is_Some (e_heap e' !! b) →
  files_own lo (e', f').
Proof.
  intros Ho Ht Hd Hg Hwf Hlo Hb Hlive.
  pose proof (files_own_grow lo e e' f Hg Ho) as [H1 H2]. destruct Ho as [_ Hold]. cbn [fst snd] in *.
  assert (files_owned f' ≡ₚ b :: files_owned f) as Hp.
  { unfold files_owned. rewrite Hd, Ht. solve_Permutation. }
  constructor; cbn [fst snd].
  - rewrite Hp. apply NoDup_cons. split; [|done]. intros Hin.
    destruct (Hold b Hin) as [_ Hl%Hwf]. lia.
  - intros c. rewrite Hp. intros [->|Hc]%elem_of_cons; [|by apply H2]. split; [lia | done].
Qed.

Record scanned (lo : Z) (s : fstate) (l : list Z) (ids : list Z) : Prop := {
  sc_rep : files_rep s.2 l;
  sc_ids : node_id (fs_nodes s.2) <$> l ≡ₚ ids;
  sc_nodes : ∀ p x, p ∈ l → fs_nodes s.2 !! p = Some x → fresh_file s x;
  sc_live : ∀ p, p ∈ l → p < e_brk s.1;
  sc_own : files_own lo s;
}.

Lemma hint_ino_ext e e' f f' id :
  kernel_ext (e_kernel e) (e_kernel e') → fs_data_dir f' = fs_data_dir f →
  hint_ino (e', f') id = hint_ino (e, f) id.
Proof. intros [Hd _] Hf. unfold hint_ino. simpl. by rewrite Hd, Hf. Qed.

Lemma fresh_file_view s s' x y :
  (∀ id, hint_ino s' id = hint_ino s id) → file_view y = file_view x →
  fresh_file s x → fresh_file s' y.
Proof.
  intros Hh Hv [H1 H2 H3 H4 H5]. destruct x, y. injection Hv as -> -> -> -> -> -> ->. simpl in *.
  constructor; simpl; try done. by rewrite Hh.
Qed.

Lemma view_lookup f f' p y :
  same_views (fs_nodes f) (fs_nodes f') → fs_nodes f' !! p = Some y →
  ∃ x, fs_nodes f !! p = Some x ∧ file_view y = file_view x.
Proof.
  intros Hv Hy. apply (f_equal (.!! p)) in Hv. rewrite !lookup_fmap, Hy in Hv. simpl in Hv.
  destruct (fs_nodes f !! p) as [x|]; [|done]. exists x. split; [done|]. by apply (inj Some) in Hv.
Qed.

Lemma scanned_grow lo e e' f l ids : env_grow e e' → scanned lo (e, f) l ids → scanned lo (e', f) l ids.
Proof.
  intros Hg [H1 H2 H3 H4 H5]. constructor; [done | done | | | by eapply files_own_grow].
  - intros p x Hp Hx. apply (fresh_file_view (e, f) _ x); [|done|exact (H3 p x Hp Hx)].
    intros id. apply hint_ino_ext; [apply Hg | done].
  - intros p Hp. pose proof (eg_brk _ _ Hg). specialize (H4 p Hp). simpl in *. lia.
Qed.

Lemma has_hintfile_ok e f a dir id :
  fs_data_dir f = Some (a, dir) → dir ≠ EmptyString → calm e → heap_wf e →
  ∃ e', has_hintfile id (e, f) = Ret (bool_decide (is_Some (hint_ino (e, f) id))) (e', f) ∧
    env_grow e e'.
Proof.
  intros Hd Hdir Hc Hwf.
  destruct (data_path_ok e f id FILE_HINT ".hint" a dir) as (e1 & Hpath & Hg & Hk); [done..|].
  exists e1. split; [|done]. unfold has_hintfile. erewrite bind_run by exact Hpath.
  unfold zoom, path_exists, gets, hint_ino. simpl. by rewrite Hd, Hk.
Qed.

Lemma allocate_node_ok e f id hh :
  calm e → heap_wf e →
  ∃ e' t, let b := e_brk e in
    allocate_datafile_node id hh (e, f) =
      Ret (Some b) (e', put_node b (CFile id (-1) t hh false false rwlock_new None None) f) ∧
    env_grow e e' ∧ b < e_brk e' ∧ is_Some (e_heap e' !! b).
Proof.
  intros Hc Hwf. set (e1 := put_block (zeros sizeof_file) e).
  pose proof (put_block_grow e (zeros sizeof_file) Hwf) as Hg1. fold e1 in Hg1.
  destruct (time_step e1) as (t & e2 & Ht & Hst). pose proof (env_step_grow _ _ Hst) as Hg2.
  exists e2, t. split; [|split].
  - unfold allocate_datafile_node.
    erewrite bind_run by exact (zoom_fst (malloc _) _ _ _ _ (malloc_ok _ e (calm_malloc_head e Hc))).
    cbv beta iota. by erewrite bind_run by exact (zoom_fst time _ _ _ _ Ht).
  - by eapply env_grow_trans.
  - pose proof (eg_brk _ _ Hg2) as H. unfold e1 in H. simpl in H. split; [lia|].
    eexists. eapply lookup_weaken; [apply lookup_insert_eq | apply (eg_heap _ _ Hg2)].
Qed.

(** A file is found: its node joins the list. *)
Lemma scan_file lo e f l ids a dir id :
  scanned lo (e, f) l ids → lo ≤ e_brk e → fs_data_dir f = Some (a, dir) → dir ≠ EmptyString →
  0 ≤ id < 2 ^ 31 → id ∉ ids → calm e → heap_wf e →
  ∃ e' f' l', (∀ A (k : M fstate A),
      (has_hint ← has_hintfile id; file ← allocate_datafile_node id has_hint;
       file ← deref file; _ ← add_file file; k) (e, f) = k (e', f')) ∧
    scanned lo (e', f') l' (id :: ids) ∧ env_grow e e' ∧ fs_data_dir f' = fs_data_dir f ∧
    fs_max_active f' = fs_max_active f.
Proof.
  intros Hsc Hlo Hd Hdir Hid Hnew Hc Hwf.
  destruct (has_hintfile_ok e f a dir id) as (e1 & Hhas & Hg1); [done..|].
  set (hh := bool_decide (is_Some (hint_ino (e, f) id))) in *.
  pose proof (env_grow_calm _ _ Hg1 Hc) as Hc1. pose proof (env_grow_heap_wf _ _ Hg1 Hwf) as Hwf1.
  destruct (allocate_node_ok e1 f id hh Hc1 Hwf1) as (e3 & t & Halloc & Hg3 & Hlt & Hblive).
  pose proof (env_grow_trans _ _ _ Hg1 Hg3) as Hg. set (b := e_brk e1) in *.
  set (y := CFile id (-1) t hh false false rwlock_new None None) in *.
  set (f1 := put_node b y f).
  assert (b ∉ l) as Hb.
  { intros Hin%(sc_live _ _ _ _ Hsc). pose proof (eg_brk _ _ Hg1). simpl in Hin. unfold b in Hin. lia. }
  assert (files_rep f1 l) as Hrep1 by exact (rep_new b y f l (sc_rep _ _ _ _ Hsc) Hb).
  assert (∀ p, p ∈ l → fs_nodes f1 !! p = fs_nodes f !! p) as Hold.
  { intros p Hp. simpl. rewrite lookup_insert_ne; [done|]. intros ->. done. }
  assert (node_id (fs_nodes f1) <$> l = node_id (fs_nodes f) <$> l) as Hids1.
  { apply list_fmap_ext. intros i p Hp%list_elem_of_lookup_2. unfold node_id. by rewrite Hold. }
  destruct (add_file_run e3 f1 l b y Hrep1 Hb (put_node_lookup _ _ _)) as
    (l1 & l2 & f' & Hl & Hadd & Hrep' & Hviews & Hdd & Hmax).
  { rewrite Hids1, (sc_ids _ _ _ _ Hsc). done. }
  exists e3, f', (l1 ++ b :: l2). split; [|split; [|split; [exact Hg|split; [done|done]]]].
  - intros A k. erewrite bind_run by exact Hhas. erewrite bind_run by exact Halloc.
    rewrite (bind_deref b) by done. by erewrite bind_run by exact Hadd.
  - constructor; cbn [fst snd]; [exact Hrep' | | | |].
    + transitivity (node_id (fs_nodes f1) <$> (l1 ++ b :: l2)).
      { erewrite (list_fmap_ext _ (node_id (fs_nodes f1))); [done|].
        intros i p _. by apply same_views_id. }
      rewrite <-Permutation_middle, <-Hl, fmap_cons, Hids1, (sc_ids _ _ _ _ Hsc).
      unfold node_id at 1. unfold f1. by rewrite put_node_lookup.
    + intros p x Hp Hx. destruct (view_lookup f1 f' p x Hviews Hx) as (z & Hz & Hxz).
      destruct (decide (p = b)) as [->|Hpb].
      * unfold f1 in Hz. rewrite put_node_lookup in Hz. apply (inj Some) in Hz as <-.
        apply (fresh_file_view (e, f) _ y); [|done|].
        -- intros i. apply hint_ino_ext; [apply Hg | done].
        -- by constructor.
      * assert (p ∈ l) as Hpl by (rewrite Hl; set_solver). rewrite Hold in Hz by done.
        apply (fresh_file_view (e, f) _ z); [|done|by apply (sc_nodes _ _ _ _ Hsc p)].
        intros i. apply hint_ino_ext; [apply Hg | done].
    + intros p Hp. assert (p = b ∨ p ∈ l) as [->|Hpl] by (rewrite Hl; set_solver).
      * done.
      * pose proof (sc_live _ _ _ _ Hsc p Hpl). pose proof (eg_brk _ _ Hg). simpl in *. lia.
    + apply (files_own_new lo e e3 f f' b (sc_own _ _ _ _ Hsc)); try done.
      * rewrite (rep_table _ _ Hrep'), <-Permutation_middle, <-Hl. f_equiv. symmetry.
        apply (rep_table _ _ (sc_rep _ _ _ _ Hsc)).
      * apply (eg_brk _ _ Hg1).
Qed.

#[local] Arguments parse_filename : simpl never.
#[local] Arguments file_name : simpl never.

Lemma init_scan_ok es ids : listing es ids → ∀ lo e f l ids0 a dir,
  scanned lo (e, f) l ids0 → lo ≤ e_brk e → fs_data_dir f = Some (a, dir) → dir ≠ EmptyString →
  NoDup (ids ++ ids0) → calm e → heap_wf e →
  ∃ e' f' l', init_scan es (e, f) = Ret tt (e', f') ∧ scanned lo (e', f') l' (ids ++ ids0) ∧
    env_grow e e' ∧ fs_data_dir f' = fs_data_dir f ∧ fs_max_active f' = fs_max_active f.
Proof.
  induction 1 as [|id es ids Hid _ IH|id es ids Hid _ IH|name b es ids Hname _ IH
    |name b es ids Hlen Hb _ IH]; intros lo e f l ids0 a dir Hsc Hlo Hd Hdir Hnd Hc Hwf.
  - exists e, f, l. split_and!; try done. apply env_grow_refl.
  - destruct (file_name_plain id ".data") as (Hdots & Hshort & Hdot); [lia | by left |].
    set (e1 := put_block (zeros (strlen (print_u64 id "") + 1)) e).
    pose proof (put_block_grow e (zeros (strlen (print_u64 id "") + 1)) Hwf) as Hg1. fold e1 in Hg1.
    rewrite <-app_comm_cons in Hnd. apply NoDup_cons in Hnd as [Hnew Hnd].
    apply not_elem_of_app in Hnew as [Hnew Hnew0].
    pose proof (eg_brk _ _ Hg1) as Hb1.
    destruct (scan_file lo e1 f l ids0 a dir id) as (e2 & f2 & l2 & Hrun & Hsc2 & Hg2 & Hd2 & Hmax2);
      [by eapply scanned_grow | lia | done | done | done | done | by eapply env_grow_calm
      | by eapply env_grow_heap_wf |].
    pose proof (env_grow_trans _ _ _ Hg1 Hg2) as Hg. pose proof (eg_brk _ _ Hg) as Hb2.
    destruct (IH lo e2 f2 l2 (id :: ids0) a dir) as (e3 & f3 & l3 & Hrun3 & Hsc3 & Hg3 & Hd3 & Hmax3);
      [done | lia | congruence | done | | by eapply env_grow_calm | by eapply env_grow_heap_wf |].
    { rewrite <-Permutation_middle. apply NoDup_cons. split; [set_solver | done]. }
    exists e3, f3, l3. split; [|split; [|split; [by eapply env_grow_trans | split; congruence]]].
    + cbn [init_scan d_name d_isreg]. rewrite (bool_decide_eq_false_2 _ Hdots),
        (bool_decide_eq_false_2 _ Hshort).
      erewrite bind_run by exact (zoom_fst (parse_filename _) _ _ _ _
        (parse_filename_run e id ".data" Hid Hdot (calm_malloc_head e Hc))).
      cbn beta iota. rewrite bool_decide_eq_true_2 by done. by rewrite Hrun.
    + destruct Hsc3 as [H1 H2 H3 H4 H5]. constructor; try done.
      by rewrite H2, <-Permutation_middle.
  - destruct (file_name_plain id ".hint") as (Hdots & Hshort & Hdot); [lia | by right |].
    set (e1 := put_block (zeros (strlen (print_u64 id "") + 1)) e).
    pose proof (put_block_grow e (zeros (strlen (print_u64 id "") + 1)) Hwf) as Hg1. fold e1 in Hg1.
    pose proof (eg_brk _ _ Hg1) as Hb1.
    destruct (IH lo e1 f l ids0 a dir) as (e2 & f2 & l2 & Hrun2 & Hsc2 & Hg2 & Hd2 & Hmax2);
      [by eapply scanned_grow | lia | done | done | done | by eapply env_grow_calm
      | by eapply env_grow_heap_wf |].
    exists e2, f2, l2. split; [|split; [done|split; [by eapply env_grow_trans | done]]].
    cbn [init_scan d_name d_isreg]. rewrite (bool_decide_eq_false_2 _ Hdots),
      (bool_decide_eq_false_2 _ Hshort).
    erewrite bind_run by exact (zoom_fst (parse_filename _) _ _ _ _
      (parse_filename_run e id ".hint" Hid Hdot (calm_malloc_head e Hc))).
    cbn beta iota. rewrite bool_decide_eq_false_2, bool_decide_eq_true_2 by done. exact Hrun2.
  - destruct (IH lo e f l ids0 a dir) as (e2 & f2 & l2 & Hrun2 & Hrest); [done..|].
    exists e2, f2, l2. split; [|done]. cbn [init_scan d_name].
    by rewrite bool_decide_eq_true_2.
  - destruct (IH lo e f l ids0 a dir) as (e2 & f2 & l2 & Hrun2 & Hrest); [done..|].
    exists e2, f2, l2. split; [|done]. cbn [init_scan d_name d_isreg].
    case_bool_decide; [done|]. rewrite bool_decide_eq_false_2 by lia. by destruct b as [[]|].
Qed.

(** ** [ccask_files_init] *)

(** The end of the function, after the scan. *)
Definition choose_active : M fstate ccask_status_e :=
  f ← files;
  match fs_head f with
  | None => init_active 0
  | Some head =>
      n ← node head;
      if file_has_hint n then init_active (u64 (file_id n + 1))
      else
        fd ← CCASK_ATTEMPT 5 (ccask_files_get_active_datafile_fd (file_id n));
        if bool_decide (fd < 0) then mret CCASK_FAIL
        else
          _ ← set_node head (λ n, set_file_fd fd (set_file_is_active true n));
          mret CCASK_OK
  end.

Lemma files_scanned dir mx es ids e f :
  listing es ids → NoDup ids → dir ≠ EmptyString → calm e → heap_wf e →
  ∃ lo e' f' l a, ccask_files_init dir mx es (e, f) = choose_active (e', f') ∧
    scanned lo (e', f') l ids ∧ env_grow e e' ∧ fs_data_dir f' = Some (a, dir) ∧
    fs_max_active f' = mx ∧ lo ≤ e_brk e'.
Proof.
  intros Hes Hnd Hdir Hc Hwf. destruct (next_event_calm e Hc) as (ev & e1 & Hev & Hno & Hg1).
  pose proof (env_grow_calm _ _ Hg1 Hc) as Hc1. pose proof (env_grow_heap_wf _ _ Hg1 Hwf) as Hwf1.
  destruct (last_char_Some dir Hdir) as [last Hlast].
  set (size := strlen dir + (if bool_decide (last = "/"%char) then 0 else 1) + 256 + 1).
  set (ep := e_brk e1). set (e2 := put_block (zeros size) e1).
  pose proof (put_block_grow e1 (zeros size) Hwf1) as Hg2. fold e2 in Hg2.
  pose proof (env_grow_calm _ _ Hg2 Hc1) as Hc2. pose proof (env_grow_heap_wf _ _ Hg2 Hwf1) as Hwf2.
  set (a := e_brk e2). set (e3 := put_block (zeros (strlen dir + 1)) e2).
  pose proof (put_block_grow e2 (zeros (strlen dir + 1)) Hwf2) as Hg3. fold e3 in Hg3.
  set (f3 := FilesState (Some (a, dir)) [] None None mx (fs_nodes f)).
  destruct (init_scan_ok es ids Hes a e3 f3 [] [] a dir) as (e4 & f4 & l & Hrun & Hsc & Hg4 & Hd4 & Hmax4).
  { constructor; [|done | by intros p x ?%elem_of_nil | by intros p ?%elem_of_nil|].
    - constructor; try done; constructor.
    - constructor; cbn [fst snd]; unfold files_owned; simpl; [apply NoDup_singleton|].
      intros c ->%list_elem_of_singleton. split; [lia|]. eexists. apply lookup_insert_eq. }
  { change (a ≤ e_brk e2 + 1). unfold a. lia. }
  { done. }
  { done. }
  { by rewrite app_nil_r. }
  { by eapply env_grow_calm. }
  { by eapply env_grow_heap_wf. }
  rewrite app_nil_r in Hsc.
  assert (e_heap e4 !! ep = Some (zeros size)) as Hep.
  { eapply lookup_weaken; [|apply (eg_heap _ _ Hg4)]. unfold e3, e2, ep. simpl.
    by rewrite lookup_insert_ne, lookup_insert_eq by lia. }
  set (e5 := set_heap (delete ep (e_heap e4)) e4).
  pose proof (env_grow_trans _ _ _ Hg1 (env_grow_trans _ _ _ Hg2 (env_grow_trans _ _ _ Hg3 Hg4))) as Hg.
  assert (env_grow e e5) as Hg5.
  { apply env_grow_free; [exact Hg | |].
    - intros b blk Hb. rewrite lookup_delete_ne; [eapply lookup_weaken; [exact Hb | apply (eg_heap _ _ Hg)]|].
      pose proof (Hwf b ltac:(by eexists)). pose proof (eg_brk _ _ Hg1). unfold ep. lia.
    - intros b. rewrite lookup_delete. case_decide; [by intros [] | done]. }
  exists a, e5, f4, l, a. split; [|split; [|split; [exact Hg5|split; [by rewrite Hd4|split; [by rewrite Hmax4|]]]]].
  - unfold ccask_files_init, modify_files. rewrite bind_modify.
    erewrite bind_run by (apply (zoom_fst opendir); unfold opendir; erewrite bind_run by exact Hev;
      reflexivity).
    destruct ev as [|k|x]; [| |done].
    all: rewrite (bind_deref last) by done.
    all: erewrite bind_run by exact (zoom_fst (malloc _) _ _ _ _ (malloc_ok _ e1 (calm_malloc_head e1 Hc1))); cbv beta iota.
    all: erewrite bind_run by exact (zoom_fst (malloc _) _ _ _ _ (malloc_ok _ e2 (calm_malloc_head e2 Hc2))).
    all: rewrite bind_modify; cbn [fst snd fmap option_fmap option_map].
    all: erewrite bind_run by exact Hrun.
    all: erewrite bind_run by exact (zoom_fst (free _) _ _ _ _ (free_run e4 ep (mk_is_Some _ _ Hep))).
    all: reflexivity.
  - destruct Hsc as [H1 H2 H3 H4 [H5 H6]]. constructor; [done | done | | done |].
    + intros p x Hp Hx. by destruct (H3 p x Hp Hx).
    + constructor; [done|]. intros c Hcc. destruct (H6 c Hcc) as [Hlo Hl]. split; [done|].
      unfold e5. simpl. rewrite lookup_delete_ne; [exact Hl|]. unfold a, e2, ep in *. simpl in Hlo. lia.
  - pose proof (eg_brk _ _ Hg4) as Hb4. unfold e3, a in *. simpl in *. lia.
Qed.

(** The newest file has no hints: it becomes the active one. *)
Lemma active_reopened lo e f p l ids a dir :
  scanned lo (e, f) (p :: l) ids → fs_data_dir f = Some (a, dir) → dir ≠ EmptyString →
  kernel_wf (e_kernel e) → (∀ id, id ∈ ids → is_Some (data_ino (e, f) id)) →
  hint_ino (e, f) (node_id (fs_nodes f) p) = None → calm e → heap_wf e →
  ∃ e' f', choose_active (e, f) = Ret CCASK_OK (e', f') ∧ env_grow e e' ∧
    disk_ok (e', f') (p :: l) ∧ fs_data_dir f' = fs_data_dir f ∧ fs_max_active f' = fs_max_active f ∧
    (∀ q, node_id (fs_nodes f') q = node_id (fs_nodes f) q) ∧
    (∀ q x, q ∈ p :: l → fs_nodes f' !! q = Some x →
      file_has_hint x = bool_decide (is_Some (hint_ino (e, f) (file_id x)))) ∧
    files_own lo (e', f').
Proof.
  intros [H1 H2 H3 H4 Hown] Hd Hdir Hk Hdata Hnohint Hc Hwf. cbn [fst snd] in *.
  destruct (rep_lookup _ _ p H1 ltac:(by left)) as [x Hx].
  destruct (H3 p x ltac:(by left) Hx) as [F1 F2 F3 F4 F5].
  assert (node_id (fs_nodes f) p = file_id x) as Hid by (unfold node_id; by rewrite Hx).
  rewrite Hid in Hnohint. rewrite Hnohint in F5. rewrite bool_decide_eq_false_2 in F5 by (by intros []).
  assert (∀ q z, q ∈ p :: l → fs_nodes f !! q = Some z → is_Some (data_ino (e, f) (file_id z))) as Hino.
  { intros q z Hq Hz. apply Hdata. rewrite <-H2. apply list_elem_of_fmap. exists q. split; [|done].
    unfold node_id. by rewrite Hz. }
  destruct (Hino p x ltac:(by left) Hx) as [ino Hi].
  destruct (get_active_datafile_fd_ok e f a dir (file_id x) ino) as (e' & Hrun & Hfd0 & Hg & Hfd);
    [done..|]. set (fd := k_next_fd (e_kernel e)) in *.
  set (y := set_file_fd fd (set_file_is_active true x)). set (f' := put_node p y f).
  exists e', f'. split; [|split; [exact Hg|split; [|split; [done|split; [done|split; [|split]]]]]].
  - unfold choose_active. erewrite bind_run by reflexivity. cbn [snd].
    rewrite (rep_head _ _ H1). cbn [head]. erewrite bind_run by exact (node_run p e f x Hx).
    rewrite F5. erewrite bind_run by exact Hrun. rewrite bool_decide_eq_false_2 by lia.
    by erewrite bind_run by exact (set_node_put p _ e' f x Hx).
  - constructor; cbn [fst snd].
    + by apply (rep_put f (p :: l) p x).
    + by exists a, dir.
    + by apply (eg_wf _ _ Hg).
    + intros q z Hq. unfold f'. simpl. rewrite lookup_insert. case_decide as Hpq.
      * intros <-%(inj Some). split; [done|]. split; [unfold is_u64; simpl; lia|]. exists ino. split.
        -- rewrite <-Hi. exact (data_ino_ext e e' f _ (eg_ext _ _ Hg)).
        -- intros _. by exists true, true.
      * intros Hz. destruct (H3 q z Hq Hz) as [G1 G2 G3 G4 G5].
        split; [done|]. split; [unfold is_u64; lia|]. destruct (Hino q z Hq Hz) as [j Hj].
        exists j. split; [rewrite <-Hj; exact (data_ino_ext e e' f _ (eg_ext _ _ Hg)) | lia].
    + exists p, y. split; [done|]. split; [apply put_node_lookup|]. split; [done|]. split; [done|].
      exists ino. split; [rewrite <-Hi; exact (data_ino_ext e e' f _ (eg_ext _ _ Hg)) | done].
  - intros q. by apply (node_id_put f p x).
  - intros q z Hq. unfold f'. simpl. rewrite lookup_insert. case_decide as Hpq.
    + intros <-%(inj Some). unfold y. simpl. rewrite F5, Hnohint. by rewrite bool_decide_eq_false_2 by (by intros []).
    + intros Hz. apply (H3 q z Hq Hz).
  - destruct (files_own_grow lo e e' f Hg Hown). by constructor.
Qed.

(** There is no file: the first one is created. *)
Lemma active_created lo e f a dir :
  scanned lo (e, f) [] [] → lo ≤ e_brk e → fs_data_dir f = Some (a, dir) → dir ≠ EmptyString →
  kernel_wf (e_kernel e) → data_ino (e, f) 0 = None → calm e → heap_wf e →
  ∃ e' f' p x, choose_active (e, f) = Ret CCASK_OK (e', f') ∧
    env_grow (put_file (filepath dir 0 ".data") e) e' ∧ files_rep f' [p] ∧ p < e_brk e' ∧
    fs_nodes f' !! p = Some x ∧ file_id x = 0 ∧ file_rwlock x = rwlock_new ∧
    file_is_active x = true ∧ file_has_hint x = false ∧ 0 ≤ file_fd x ∧
    fd_opened e' (file_fd x) (k_next_ino (e_kernel e)) true true ∧
    fs_data_dir f' = fs_data_dir f ∧ fs_max_active f' = fs_max_active f ∧ files_own lo (e', f').
Proof.
  intros [H1 _ _ _ Hown] Hlo Hd Hdir Hk Hnone Hc Hwf. cbn [fst snd] in *.
  set (e1 := put_block (zeros sizeof_file) e). set (p := e_brk e).
  pose proof (put_block_grow e (zeros sizeof_file) Hwf) as Hg1. fold e1 in Hg1.
  destruct (create_new_active_datafile_ok e1 f a dir 0 p) as (e2 & t & Hcreate & Hfd0 & Hg2 & Hfd2);
    [done | done | done | done | by eapply env_grow_calm | by eapply env_grow_heap_wf |].
  set (fd := k_next_fd (e_kernel e1)) in *.
  set (y := CFile 0 fd t false true false rwlock_new None None) in *.
  destruct (add_file_run e2 (put_node p y f) [] p y) as
    (l1 & l2 & f' & Hl & Hadd & Hrep & Hviews & Hdd & Hmax).
  { by apply rep_new; [|apply not_elem_of_nil]. }
  { apply not_elem_of_nil. }
  { apply put_node_lookup. }
  { apply not_elem_of_nil. }
  symmetry in Hl. apply app_nil in Hl as [-> ->]. simpl in Hrep.
  destruct (rep_lookup _ _ p Hrep ltac:(by left)) as [x Hx].
  destruct (view_lookup _ _ p x Hviews Hx) as (z & Hz & Hxz).
  rewrite put_node_lookup in Hz. apply (inj Some) in Hz as <-.
  exists e2, f', p, x. split; [|split; [|split; [done|]]].
  - unfold choose_active. erewrite bind_run by reflexivity. cbn [snd].
    rewrite (rep_head _ _ H1). cbn [head]. unfold init_active.
    erewrite bind_run by exact (zoom_fst (malloc _) _ _ _ _ (malloc_ok _ e (calm_malloc_head e Hc))).
    cbv beta iota. erewrite bind_run by exact Hcreate. rewrite bool_decide_neq_refl.
    by erewrite bind_run by exact Hadd.
  - eapply env_grow_trans; [|exact Hg2]. by apply put_file_grow.
  - split; [pose proof (eg_brk _ _ Hg2) as Hb; simpl in Hb; unfold p; lia|]. split; [done|].
    assert (files_own lo (e2, f')) as Hown2.
    { assert (env_grow (put_file (filepath dir 0 ".data") e) e2) as Hg
        by (eapply env_grow_trans; [by apply put_file_grow | exact Hg2]).
      apply (files_own_new lo (put_file (filepath dir 0 ".data") e) e2 f f' p); try done; [| |].
      - destruct Hown. by constructor.
      - rewrite (rep_table _ _ Hrep), (rep_table _ _ H1). done.
      - exists (zeros sizeof_file). eapply (lookup_weaken (e_heap e1)); [apply lookup_insert_eq|].
        apply (eg_heap _ _ Hg2). }
    destruct x. injection Hxz as -> -> -> -> -> -> ->. by split_and!.
Qed.
