(* ===== verification/Directory.v ===== *)
(** * Directory: what the files of a directory hold

    [dir_holds e dir ids m n]: without the nodes of any process, the data files
    [ids] of the directory [dir], the newest first, and their hint files hold
    the map [m].  A running store leaves this behind, whatever becomes of its
    process. *)
From stdpp Require Import sorting.
From S2P Require Import Prelude Status Posix SafeIO Codec Records Ringbuf Uthash Keydir Log.
From S2P Require Import Filenames Files Disk DiskWrite World Hint Recovery.
From S2P Require Import Writer Store Durable Tidy Run.
Open Scope Z_scope.

Definition file_bytes (e : env) (dir ext : string) (id : Z) : option bytes :=
  ino ← file_ino e dir ext id; inodes e !! ino.
Definition dir_log (e : env) (dir : string) (id : Z) : list log_record :=
  match file_bytes e dir ".data" id with Some c => records_of c | None => [] end.

(** From the oldest file, at the end of the list, to the newest one. *)
Definition replay (e : env) (dir : string) (ids : list Z) : gmap bytes bytes :=
  foldr (λ id m, log_values (dir_log e dir id) m) ∅ ids.

Lemma sorted_gt_NoDup (l : list Z) : StronglySorted Z.gt l → NoDup l.
Proof.
  induction 1 as [|x l Hs IH Hx]; constructor; [|done].
  rewrite Forall_forall in Hx. intros Hin%Hx. lia.
Qed.

Section holds.
Context {host : Host} {zlib : Zlib}.

Record dir_holds (e : env) (dir : string) (ids : list Z) (m : gmap bytes bytes) (n : nat) :
    Prop := {
  dh_small : 2 * Z.of_nat n < 2 ^ 32;
  dh_ids : Forall is_u64 ids;
  dh_sorted : StronglySorted Z.gt ids;
  dh_some : ids ≠ [];
  dh_data : ∀ id, id ∈ ids → ∃ c, file_bytes e dir ".data" id = Some c ∧ (length c ≤ n)%nat;
  dh_replay : replay e dir ids = m;
  dh_crc : ∀ id, id ∈ ids → Forall log_crc_ok (dir_log e dir id);
  dh_keys : ∀ id, id ∈ ids → Forall (λ r, lr_key r ≠ []) (dir_log e dir id);
  dh_distinct : NoDup (file_ino e dir ".data" <$> ids);
  dh_whole : ∀ id c, head ids = Some id → file_bytes e dir ".data" id = Some c →
    c = log_bytes (records_of c);
  dh_hints : ∀ id, id ∈ ids → is_Some (file_ino e dir ".hint" id) →
    ∃ c, file_bytes e dir ".hint" id = Some c ∧ (length c ≤ 2 * n)%nat ∧
      hints_of_file c = hints_of 0 (dir_log e dir id);
  dh_apart : ∀ id id', id ∈ ids → id' ∈ ids → is_Some (file_ino e dir ".hint" id) →
    file_ino e dir ".hint" id ≠ file_ino e dir ".data" id';
  dh_newest : ∀ top id, head ids = Some top → top < id → is_u64 id →
    file_ino e dir ".data" id = None;
  dh_unhinted : ∀ top id, head ids = Some top → top ≤ id → is_u64 id →
    file_ino e dir ".hint" id = None;
}.

(** Only the directory and the contents of the files matter. *)
Lemma dir_holds_same e e' dir ids m n :
  k_dir (e_kernel e') = k_dir (e_kernel e) → inodes e' = inodes e →
  dir_holds e dir ids m n → dir_holds e' dir ids m n.
Proof.
  intros Hd Hi.
  assert (file_ino e' dir = file_ino e dir) as Hfi by (unfold file_ino; by rewrite Hd).
  assert (file_bytes e' dir = file_bytes e dir) as Hfb by (unfold file_bytes; by rewrite Hfi, Hi).
  assert (dir_log e' dir = dir_log e dir) as Hl by (unfold dir_log; by rewrite Hfb).
  intros []. constructor; unfold replay; rewrite ?Hfi, ?Hfb, ?Hl; done.
Qed.

(** ** A process that has the directory open *)

Section opened.
Context (e : env) (f : files_state) (a : Z) (dir : string).
Hypothesis Hdir : fs_data_dir f = Some (a, dir).

Lemma data_ino_file id : data_ino (e, f) id = file_ino e dir ".data" id.
Proof. unfold data_ino. simpl. by rewrite Hdir. Qed.
Lemma hint_ino_file id : hint_ino (e, f) id = file_ino e dir ".hint" id.
Proof. unfold hint_ino. simpl. by rewrite Hdir. Qed.
Lemma data_content_file id : data_content (e, f) id = file_bytes e dir ".data" id.
Proof. unfold data_content. by rewrite data_ino_file. Qed.
Lemma hint_content_file id : hint_content (e, f) id = file_bytes e dir ".hint" id.
Proof. unfold hint_content. by rewrite hint_ino_file. Qed.
Lemma log_of_file id : log_of (e, f) id = dir_log e dir id.
Proof. unfold log_of. by rewrite data_content_file. Qed.

Lemma recovered_values_replay l :
  recovered_values (e, f) l ∅ = replay e dir (node_id (fs_nodes f) <$> l).
Proof.
  induction l as [|p l IH]; [done|]. cbn [recovered_values replay fmap list_fmap foldr snd].
  rewrite log_of_file. f_equal. exact IH.
Qed.
End opened.

Lemma node_of_id f l id :
  files_rep f l → id ∈ node_id (fs_nodes f) <$> l →
  ∃ p x, p ∈ l ∧ fs_nodes f !! p = Some x ∧ file_id x = id.
Proof.
  intros Hrep (p & -> & Hp)%list_elem_of_fmap. destruct (rep_lookup _ _ _ Hrep Hp) as [x Hx].
  exists p, x. split; [done|]. split; [done|]. unfold node_id. by rewrite Hx.
Qed.

(** What a running store leaves behind. *)
Lemma running_dir_holds w l m n a dir :
  running w l m n → fs_data_dir (w_files w) = Some (a, dir) →
  dir_holds (w_env w) dir (node_id (fs_nodes (w_files w)) <$> l) m n.
Proof.
  intros [H1 [D1 D2 D3 D4 D5 D6] [R1 R2 R3] _ _ H6 H6' H7 _ _ _ Hhint] Hd.
  pose proof (st_disk _ _ _ H1) as Hdisk. pose proof (do_rep _ _ Hdisk) as Hrep.
  destruct (store_head _ _ _ H1) as (p0 & l' & Hl & _ & Hact).
  destruct w as [e f kd rg th ru sd]. unfold disk in *. cbn [fst snd w_env w_files] in *.
  assert (∀ id, id ∈ node_id (fs_nodes f) <$> l →
    ∃ p x, p ∈ l ∧ fs_nodes f !! p = Some x ∧ file_id x = id ∧ node_id (fs_nodes f) p = id) as Hnode.
  { intros id (p & x & Hp & Hx & <-)%node_of_id; [|done]. exists p, x. split_and!; try done.
    unfold node_id. by rewrite Hx. }
  assert (head (node_id (fs_nodes f) <$> l) = Some (node_id (fs_nodes f) p0)) as Hhead by by rewrite Hl.
  constructor; [done | | apply (rep_sorted _ _ Hrep) | by rewrite Hl | | | | | | | | | |].
  - apply Forall_forall. intros id (p & x & Hp & Hx & <- & _)%Hnode.
    apply (do_nodes _ _ Hdisk p x Hp Hx).
  - intros id (p & x & Hp & Hx & <- & _)%Hnode. rewrite <-(data_content_file e f a dir Hd).
    by apply (R2 p).
  - by rewrite <-(recovered_values_replay e f a dir Hd).
  - intros id (p & x & Hp & Hx & _ & <-)%Hnode. rewrite <-(log_of_file e f a dir Hd). by apply D2.
  - intros id (p & x & Hp & Hx & _ & <-)%Hnode. rewrite <-(log_of_file e f a dir Hd). by apply H7.
  - rewrite <-list_fmap_compose. erewrite list_fmap_ext; [exact D3|]. intros i p _. simpl.
    by rewrite (data_ino_file e f a dir Hd).
  - intros id c. rewrite Hhead. intros <-%(inj Some). rewrite <-(data_content_file e f a dir Hd).
    apply (D4 p0). by rewrite Hl.
  - intros id (p & x & Hp & Hx & <- & _)%Hnode. rewrite <-(hint_ino_file e f a dir Hd),
      <-(hint_content_file e f a dir Hd), <-(log_of_file e f a dir Hd). intros Hh. apply (R3 p x Hp Hx).
    by apply (Hhint p x).
  - intros id id' (p & x & Hp & _ & _ & <-)%Hnode (q & y & Hq & _ & _ & <-)%Hnode.
    rewrite <-(hint_ino_file e f a dir Hd), <-(data_ino_file e f a dir Hd). by apply D5.
  - intros top id. rewrite Hhead. intros <-%(inj Some). rewrite <-(data_ino_file e f a dir Hd), <-Hact.
    apply H6.
  - intros top id. rewrite Hhead. intros <-%(inj Some). rewrite <-(hint_ino_file e f a dir Hd), <-Hact by done.
    apply H6'.
Qed.
End holds.
