(* ===== verification/DirOps.v ===== *)
(** * DirOps: removing, renaming and temporary files

    What [ccask_files_delete], [ccask_files_change_ext] and
    [ccask_files_get_temp_datafile_fd] do to the directory.  [framed e e']: the
    blocks of [e] are as they were and the machine is still calm; what became
    of the directory and of the contents of the files is said beside it. *)
From stdpp Require Import sorting.
From S2P Require Import Prelude Status Posix SafeIO Codec Records Uthash Filenames Files Disk DiskWrite.
From S2P Require Import World Keydir Reader Core Store Tidy.
Open Scope Z_scope.

Record framed (e e' : env) : Prop := {
  fm_heap : ∀ a, a < e_brk e → e_heap e' !! a = e_heap e !! a;
  fm_wf : heap_wf e';
  fm_brk : e_brk e ≤ e_brk e';
  fm_calm : calm e';
  fm_events : events e' `suffix_of` events e;
  fm_kernel : kernel_wf (e_kernel e');
}.

Lemma framed_refl e : heap_wf e → calm e → kernel_wf (e_kernel e) → framed e e.
Proof. by constructor. Qed.

Lemma framed_trans e1 e2 e3 : framed e1 e2 → framed e2 e3 → framed e1 e3.
Proof.
  intros [A1 A2 A3 A4 A5 A6] [B1 B2 B3 B4 B5 B6].
  constructor; [|done|lia|done|by etrans|done]. intros a Ha. rewrite B1 by lia. by apply A1.
Qed.

Lemma env_kept_framed e e' : env_kept e e' → kernel_wf (e_kernel e') → framed e e'.
Proof. intros [] Hk. by constructor. Qed.

(** The directory or the contents of files may have been changed before. *)
Lemma grow_framed e e0 e' :
  env_grow e0 e' → e_heap e0 = e_heap e → e_brk e0 = e_brk e → e_malloc e0 = e_malloc e →
  events e0 = events e → heap_wf e → calm e → kernel_wf (e_kernel e0) → framed e e'.
Proof.
  intros Hg Hh Hb Hm Hev Hwf Hc Hk.
  assert (heap_wf e0) as Hwf0 by (intros a; rewrite Hh, Hb; apply Hwf).
  assert (calm e0) as Hc0 by (destruct Hc; constructor; [by rewrite Hev | by rewrite Hm]).
  destruct (env_grow_kept _ _ Hg Hc0 Hwf0) as [A1 A2 A3 A4 A5 A6 A7]. rewrite Hb, Hh in A3.
  rewrite Hb in A5. rewrite Hev in A7. constructor; try done. by apply (eg_wf _ _ Hg).
Qed.

(** ** Removing and renaming *)

Definition drop_path (path : string) (e : env) : env :=
  set_kernel (set_dir (delete path (k_dir (e_kernel e))) (e_kernel e)) e.
Definition move_path (from to : string) (ino : Z) (e : env) : env :=
  set_kernel (set_dir (<[to := ino]> (delete from (k_dir (e_kernel e)))) (e_kernel e)) e.

Lemma drop_path_wf path e : kernel_wf (e_kernel e) → kernel_wf (e_kernel (drop_path path e)).
Proof.
  intros [H1 H2 H3]. constructor; simpl; [done | done |].
  intros p ino [_ Hp]%lookup_delete_Some. by apply (H3 p).
Qed.

Lemma move_path_wf from to ino e :
  k_dir (e_kernel e) !! from = Some ino →
  kernel_wf (e_kernel e) → kernel_wf (e_kernel (move_path from to ino e)).
Proof.
  intros Hfrom [H1 H2 H3]. constructor; simpl; [done | done |].
  intros p i [[_ <-]|[_ [_ Hp]%lookup_delete_Some]]%lookup_insert_Some; by eapply H3.
Qed.

(** A change of the directory alone. *)
Definition with_dir (d : gmap string Z) (e : env) : env := set_kernel (set_dir d (e_kernel e)) e.

Lemma with_dir_grow d e e' :
  env_grow e e' → e_kernel e' = e_kernel e → env_grow (with_dir d e) (with_dir d e').
Proof.
  intros [H1 H2 H3 H4 H5 H6 H7 H8] Hk. unfold with_dir. rewrite Hk. by constructor.
Qed.

Lemma with_dir_pop d e : env_grow (with_dir d e) (with_dir d (pop_event e)).
Proof.
  constructor; simpl; try done; [by left | | apply tail_suffix].
  intros [H1 H2 H3]. by constructor.
Qed.

Lemma next_event_pop e : calm e → ∃ ev, next_event e = Ret ev (pop_event e) ∧ no_error ev = true.
Proof.
  intros Hc. destruct (next_event_calm e Hc) as (ev & e' & Hev & Hno & _). exists ev.
  split; [|done]. unfold next_event in *. injection Hev as -> <-. done.
Qed.

Lemma sys_unlink_ok path e :
  is_Some (k_dir (e_kernel e) !! path) → calm e →
  ∃ e', sys_unlink path e = Ret None e' ∧ env_grow (drop_path path e) e'.
Proof.
  intros [ino Hp] Hc. destruct (next_event_pop e Hc) as (ev & Hev & Hno).
  exists (with_dir (delete path (k_dir (e_kernel e))) (pop_event e)). split; [|apply with_dir_pop].
  unfold sys_unlink. rewrite (bind_run _ _ _ _ _ Hev), bind_get. simpl. rewrite Hp.
  by destruct ev.
Qed.

Lemma sys_rename_ok from to ino e :
  k_dir (e_kernel e) !! from = Some ino → calm e →
  ∃ e', sys_rename from to e = Ret None e' ∧ env_grow (move_path from to ino e) e'.
Proof.
  intros Hp Hc. destruct (next_event_pop e Hc) as (ev & Hev & Hno).
  exists (with_dir (<[to := ino]> (delete from (k_dir (e_kernel e)))) (pop_event e)).
  split; [|apply with_dir_pop].
  unfold sys_rename. rewrite (bind_run _ _ _ _ _ Hev), bind_get. simpl. rewrite Hp.
  by destruct ev.
Qed.

Section dir.
Context (e : env) (f : files_state) (a : Z) (dir : string).
Hypothesis Hd : fs_data_dir f = Some (a, dir).
Hypothesis Hdir : dir ≠ EmptyString.
Hypothesis Hc : calm e.
Hypothesis Hwf : heap_wf e.

Lemma files_delete_ok id ext s :
  ext_string ext = Some s → is_Some (k_dir (e_kernel e) !! filepath dir id s) →
  ∃ e', CCASK_ATTEMPT 5 (ccask_files_delete id ext) (e, f) = Ret CCASK_OK (e', f) ∧
    env_grow (drop_path (filepath dir id s) e) e'.
Proof.
  intros Hs Hp. destruct (data_path_ok e f id ext s a dir) as (e1 & Hpath & Hg1 & Hk1); [done..|].
  destruct (sys_unlink_ok (filepath dir id s) e1) as (e2 & Hun & Hg2);
    [by rewrite Hk1 | by eapply env_grow_calm|].
  exists e2. split.
  - apply attempt_once; [|done]. unfold ccask_files_delete. erewrite bind_run by exact Hpath.
    by erewrite bind_run by exact (zoom_fst (unlink_path (Some _)) _ _ _ _ Hun).
  - eapply env_grow_trans; [|exact Hg2]. unfold drop_path. rewrite Hk1 at 1.
    exact (with_dir_grow _ _ _ Hg1 Hk1).
Qed.

Lemma files_change_ext_ok id from to sf st ino :
  ext_string from = Some sf → ext_string to = Some st →
  k_dir (e_kernel e) !! filepath dir id sf = Some ino →
  ∃ e', CCASK_ATTEMPT 5 (ccask_files_change_ext id from to) (e, f) = Ret CCASK_OK (e', f) ∧
    env_grow (move_path (filepath dir id sf) (filepath dir id st) ino e) e'.
Proof.
  intros Hsf Hst Hp.
  destruct (data_path_ok e f id from sf a dir) as (e1 & Hpath1 & Hg1 & Hk1); [done..|].
  destruct (data_path_ok e1 f id to st a dir) as (e2 & Hpath2 & Hg2 & Hk2);
    [done | done | done | by eapply env_grow_calm | by eapply env_grow_heap_wf |].
  pose proof (env_grow_trans _ _ _ Hg1 Hg2) as Hg. rewrite Hk1 in Hk2.
  destruct (sys_rename_ok (filepath dir id sf) (filepath dir id st) ino e2) as (e3 & Hrn & Hg3);
    [by rewrite Hk2 | by eapply env_grow_calm|].
  exists e3. split.
  - apply attempt_once; [|done]. unfold ccask_files_change_ext. erewrite bind_run by exact Hpath1.
    erewrite bind_run by exact Hpath2.
    by erewrite bind_run by exact (zoom_fst (rename_path (Some _) (Some _)) _ _ _ _ Hrn).
  - eapply env_grow_trans; [|exact Hg3]. unfold move_path. rewrite Hk2 at 1.
    exact (with_dir_grow _ _ _ Hg Hk2).
Qed.

Lemma get_temp_datafile_fd_create id :
  kernel_wf (e_kernel e) → k_dir (e_kernel e) !! filepath dir id ".data.tmp" = None →
  ∃ e', let fd := k_next_fd (e_kernel e) in
    CCASK_ATTEMPT 5 (ccask_files_get_temp_datafile_fd id) (e, f) = Ret fd (e', f) ∧ 0 ≤ fd ∧
    env_grow (put_file (filepath dir id ".data.tmp") e) e' ∧
    fd_opened e' fd (k_next_ino (e_kernel e)) true true.
Proof.
  intros Hk Hnone. pose proof (kw_next _ Hk).
  destruct (open_new_ok e f a dir id FILE_TEMP_DATA ".data.tmp" TEMP_DATAFILE_OPEN_FLAGS)
    as (e1 & e2 & Hp & Ho & Hg & Hfd); [done..|].
  exists e2. split_and!; [|done..]. eapply attempt_once.
  - unfold ccask_files_get_temp_datafile_fd. erewrite bind_run by exact Hp.
    by erewrite bind_run by exact (zoom_fst (open_path (Some _) _) _ _ _ _ Ho).
  - apply bool_decide_eq_false. simpl. lia.
Qed.
End dir.
