(* ===== verification/Dump.v ===== *)
(** * Dump: the temporary files of a compaction

    [dumping]: between two turns of the loop of [ccask_compactor_dump_keydir]
    the files of the store are as they were, and temporary files hold the
    records that were copied so far. *)
From stdpp Require Import sorting.
From S2P Require Import Prelude Status Posix SafeIO Codec Records Ringbuf Uthash Keydir Log.
From S2P Require Import Filenames Files Disk DiskWrite World Hint Recovery Reader Core Compactor.
From S2P Require Import Store Durable Tidy Turns Directory DirOps.
Open Scope Z_scope.

(** The inodes and the records of the temporary files, [0] first. *)
Notation temps := (list (Z * list log_record)).

Section dumping.
Context {host : Host} {zlib : Zlib} (e0 : env) (f0 : files_state) (a : Z) (dir : string) (l : list Z).

Definition temp_path (i : Z) : string := filepath dir i ".data.tmp".

Record dumping (e : env) (f : files_state) (ts : temps) : Prop := {
  dp_frame : framed e0 e;
  dp_disk : disk_ok (e, f) l;
  dp_data_dir : fs_data_dir f = fs_data_dir f0;
  dp_max : fs_max_active f = fs_max_active f0;
  dp_node_ids : ∀ p, node_id (fs_nodes f) p = node_id (fs_nodes f0) p;
  dp_nodes : ∀ p x, fs_nodes f !! p = Some x →
    ∃ x0, fs_nodes f0 !! p = Some x0 ∧ file_id x = file_id x0 ∧ file_has_hint x = file_has_hint x0;
  dp_dir : ∀ path, (∀ i, 0 ≤ i < Z.of_nat (length ts) → path ≠ temp_path i) →
    k_dir (e_kernel e) !! path = k_dir (e_kernel e0) !! path;
  dp_old : ∀ ino, ino < k_next_ino (e_kernel e0) → inodes e !! ino = inodes e0 !! ino;
  dp_temps : ∀ i t, ts !! i = Some t →
    k_dir (e_kernel e) !! temp_path (Z.of_nat i) = Some t.1 ∧ inodes e !! t.1 = Some (log_bytes t.2);
  dp_next : k_next_ino (e_kernel e0) ≤ k_next_ino (e_kernel e);
  dp_new : Forall (λ t, k_next_ino (e_kernel e0) ≤ t.1 < k_next_ino (e_kernel e)) ts;
  dp_distinct : NoDup ts.*1;
}.

(** [fd] is the descriptor of the last one. *)
Definition dump_fd (e : env) (ts : temps) (fd : Z) : Prop :=
  ∃ ino lg, last ts = Some (ino, lg) ∧ 0 ≤ fd ∧ fd_opened e fd ino true true.

Lemma dumping_start :
  disk_ok (e0, f0) l → heap_wf e0 → calm e0 → dumping e0 f0 [].
Proof.
  intros Hd Hwf Hc. pose proof (do_kernel _ _ Hd).
  constructor; try done; [eauto | constructor].
Qed.

Hypothesis Hdir : fs_data_dir f0 = Some (a, dir).
Hypothesis Hdisk0 : disk_ok (e0, f0) l.

Lemma dumping_dir e f ts : dumping e f ts → fs_data_dir f = Some (a, dir).
Proof. intros H. by rewrite (dp_data_dir _ _ _ H). Qed.

Lemma dumping_data_ino e f ts id :
  dumping e f ts → data_ino (e, f) id = data_ino (e0, f0) id.
Proof.
  intros H. rewrite (data_ino_file e f a dir (dumping_dir e f ts H)), (data_ino_file e0 f0 a dir Hdir).
  apply (dp_dir _ _ _ H). intros i _ Hp. symmetry in Hp.
  by apply temp_not_data in Hp.
Qed.

Lemma data_ino_below id ino :
  data_ino (e0, f0) id = Some ino → ino < k_next_ino (e_kernel e0).
Proof.
  rewrite (data_ino_file e0 f0 a dir Hdir). intros H%(kw_inodes _ (do_kernel _ _ Hdisk0)). apply H.
Qed.

Lemma dumping_data_content e f ts id :
  dumping e f ts → data_content (e, f) id = data_content (e0, f0) id.
Proof.
  intros H. unfold data_content. rewrite (dumping_data_ino e f ts id H).
  destruct (data_ino (e0, f0) id) as [ino|] eqn:Hi; [|done]. simpl.
  by apply (dp_old _ _ _ H), (data_ino_below id).
Qed.

Lemma dumping_entry e f ts k i v :
  dumping e f ts → entry_ok (e0, f0) l k i v → entry_ok (e, f) l k i v.
Proof.
  intros H. apply entry_ok_same; [apply (dp_node_ids _ _ _ H)|]. intros id.
  by apply (dumping_data_content e f ts).
Qed.

(** No node has the descriptor of a temporary file. *)
Lemma dumping_other_fd e f ts fd q z :
  dumping e f ts → dump_fd e ts fd → q ∈ l → fs_nodes f !! q = Some z → file_fd z ≠ fd.
Proof.
  intros H (ino & lg & Hlast & Hfd0 & Hfd) Hq Hz Heq.
  destruct (do_nodes _ _ (dp_disk _ _ _ H) q z Hq Hz) as (_ & _ & j & Hj & Hopen).
  destruct Hopen as (app & wr & Ho); [lia|]. cbn [fst] in Ho. rewrite Heq in Ho.
  unfold fd_opened in Hfd, Ho. rewrite Hfd in Ho. injection Ho as -> _ _.
  rewrite (dumping_data_ino e f ts _ H) in Hj. apply data_ino_below in Hj.
  pose proof (dp_new _ _ _ H) as Hnew. rewrite Forall_forall in Hnew.
  apply last_Some_elem_of, Hnew in Hlast. simpl in Hlast. lia.
Qed.

(** A record was read, or memory was used or freed. *)
Lemma dumping_kept e f e' f' ts :
  dumping e f ts → env_kept e e' → disk_ok (e', f') l →
  fs_data_dir f' = fs_data_dir f → fs_max_active f' = fs_max_active f →
  (∀ p, node_id (fs_nodes f') p = node_id (fs_nodes f) p) →
  (∀ p x, fs_nodes f' !! p = Some x →
    ∃ x0, fs_nodes f !! p = Some x0 ∧ file_id x = file_id x0 ∧ file_has_hint x = file_has_hint x0) →
  dumping e' f' ts.
Proof.
  intros [H1 H2 H3 H4 H5 H6 H7 H8 H9 Hn H10 H11] Hk Hd Hdd Hmax Hids Hnodes.
  pose proof Hk as [(K1 & _ & _ & K2) K3 _ _ _ _ _]. constructor; rewrite ?K1, ?K3; try (done || lia).
  - eapply framed_trans; [exact H1|]. apply env_kept_framed; [done | apply (do_kernel _ _ Hd)].
  - congruence.
  - intros p. by rewrite Hids.
  - intros p x (y & (z & Hz & ? & ?)%H6 & ? & ?)%Hnodes. exists z. split_and!; congruence.
  - eapply Forall_impl; [exact H10|]. simpl. intros t. lia.
Qed.

Lemma dump_fd_kept e e' ts fd :
  kernel_ext (e_kernel e) (e_kernel e') → dump_fd e ts fd → dump_fd e' ts fd.
Proof.
  intros Hk (ino & lg & Hl & H0 & Hfd). exists ino, lg. split; [done|]. split; [done|].
  by eapply fd_opened_ext.
Qed.

(** A record is appended to the last file. *)
Lemma dumping_append e f e' ts ino lg r :
  dumping e f (ts ++ [(ino, lg)]) →
  env_step e e' (e_heap e) (<[ino := log_bytes lg ++ log_record_bytes r]> (inodes e)) →
  dumping e' f (ts ++ [(ino, lg ++ [r])]).
Proof.
  intros [H1 H2 H3 H4 H5 H6 H7 H8 H9 Hn H10 H11] Hst.
  pose proof Hst as [S1 S2 S3 S4 (S5 & _ & _ & S6) S7 S8].
  assert (length (ts ++ [(ino, lg ++ [r])]) = length (ts ++ [(ino, lg)])) as Hlen
    by by rewrite !length_app.
  rewrite fmap_app in H11. apply NoDup_app in H11 as (N1 & N2 & _).
  rewrite Forall_app, Forall_singleton in H10. destruct H10 as [F1 F2]. simpl in F2.
  constructor; rewrite ?S5, ?S2, ?Hlen; try (done || lia).
  - eapply framed_trans; [exact H1|]. destruct H1 as [_ Hwf _ Hc _ Hk]. constructor.
    + intros b _. by rewrite S1.
    + intros b. rewrite S1, S3. apply Hwf.
    + lia.
    + by eapply calm_step.
    + exact S8.
    + by apply S7.
  - by eapply disk_ok_step.
  - intros i Hi. rewrite lookup_insert_ne by lia. by apply H8.
  - intros i t. intros [Ht|[Hi Ht]]%lookup_app_Some.
    + destruct (H9 i t) as [G1 G2]; [by apply lookup_app_l_Some|]. split; [done|].
      rewrite lookup_insert_ne; [done|]. intros ->. apply (N2 t.1); [|by left].
      apply list_elem_of_fmap. exists t. split; [done|]. by eapply list_elem_of_lookup_2.
    + apply list_lookup_singleton_Some in Ht as [Hz <-]. simpl.
      destruct (H9 i (ino, lg)) as [G1 G2].
      { rewrite lookup_app_r by done. by rewrite Hz. }
      split; [done|]. rewrite lookup_insert_eq, log_bytes_app, log_bytes_cons.
      unfold log_bytes at 3. simpl. by rewrite app_nil_r.
  - rewrite Forall_app, Forall_singleton. simpl. split; [|lia].
    eapply Forall_impl; [exact F1|]. simpl. intros t. lia.
  - rewrite fmap_app. apply NoDup_app. split; [done|]. split; [|apply NoDup_singleton]. exact N2.
Qed.

(** The last file is closed. *)
Lemma dumping_close e f ts fd :
  dumping e f ts → dump_fd e ts fd → dumping (close_fd fd e) f ts.
Proof.
  intros H Hfd. pose proof (dumping_other_fd e f ts fd) as Hne.
  destruct H as [H1 H2 H3 H4 H5 H6 H7 H8 H9 Hn H10 H11] eqn:Heq. clear Heq. constructor; try done.
  - eapply framed_trans; [exact H1|]. destruct H1 as [_ Hwf _ Hc _ Hk]. constructor; try done.
    + by destruct Hc; constructor.
    + by apply close_fd_wf.
  - apply disk_ok_close; [done|]. intros q z Hq Hz. by apply (Hne q z H).
Qed.

(** Another temporary file is created. *)
Lemma dumping_new e f e' ts fd :
  dumping e f ts → Z.of_nat (length ts) < 2 ^ 64 →
  k_dir (e_kernel e0) !! temp_path (Z.of_nat (length ts)) = None →
  env_grow (put_file (temp_path (Z.of_nat (length ts))) e) e' →
  0 ≤ fd → fd_opened e' fd (k_next_ino (e_kernel e)) true true →
  dumping e' f (ts ++ [(k_next_ino (e_kernel e), [])]) ∧
  dump_fd e' (ts ++ [(k_next_ino (e_kernel e), [])]) fd.
Proof.
  intros [H1 H2 H3 H4 H5 H6 H7 H8 H9 Hn H10 H11] Hlen Hnone Hg Hfd0 Hfd.
  set (ino := k_next_ino (e_kernel e)) in *. set (path := temp_path _) in *.
  split; [|exists ino, []; by rewrite last_snoc].
  destruct (eg_ext _ _ Hg) as (K1 & _ & _ & K2). cbn [put_file e_kernel set_kernel k_dir k_next_ino] in K1, K2.
  pose proof (eg_inodes _ _ Hg) as Ki. change (inodes (put_file path e)) with (<[ino := []]> (inodes e)) in Ki.
  assert (∀ i, 0 ≤ i < Z.of_nat (length ts) → path ≠ temp_path i) as Hother.
  { intros i Hi Hp%filepath_inj; [lia | unfold is_u64; lia | unfold is_u64; lia]. }
  assert (∀ i t, ts !! i = Some t → t.1 < ino) as Hbelow.
  { intros i t Ht%list_elem_of_lookup_2. rewrite Forall_forall in H10. by apply H10. }
  constructor; rewrite ?K1, ?Ki; try done.
  - eapply framed_trans; [exact H1|]. destruct H1 as [_ Hwf _ Hc _ Hk].
    by apply (grow_framed e (put_file path e) e'); [..|by apply put_file_wf].
  - eapply disk_ok_grow; [exact Hg|]. apply (disk_ok_put_file e f l a dir); [congruence | | done].
    intros p _. apply temp_not_data.
  - intros q Hq. rewrite length_app in Hq. simpl in Hq. rewrite lookup_insert_ne.
    + apply H7. intros i Hi. apply Hq. lia.
    + intros Heq. apply (Hq (Z.of_nat (length ts))); [lia | done].
  - intros i Hi. rewrite lookup_insert_ne by lia. by apply H8.
  - intros i t. intros [Ht|[Hi Ht]]%lookup_app_Some.
    + destruct (H9 i t Ht) as [G1 G2]. pose proof (Hbelow i t Ht). apply lookup_lt_Some in Ht.
      rewrite !lookup_insert_ne; [done | lia | apply Hother; lia].
    + apply list_lookup_singleton_Some in Ht as [Hz <-]. simpl.
      replace i with (length ts) by lia. by rewrite !lookup_insert_eq.
  - simpl in *. lia.
  - rewrite Forall_app, Forall_singleton. simpl in *. split; [|lia].
    eapply Forall_impl; [exact H10|]. simpl. intros t. lia.
  - rewrite fmap_app. apply NoDup_app. split; [done|]. split; [|apply NoDup_singleton].
    intros j (t & -> & (i & Ht)%list_elem_of_lookup)%list_elem_of_fmap Hj%list_elem_of_singleton.
    apply Hbelow in Ht. simpl in Hj. lia.
Qed.

(** Blocks that are newer than [e0] are freed. *)
Lemma dumping_free e f ts h :
  dumping e f ts → (∀ b, b < e_brk e0 → h !! b = e_heap e !! b) →
  (∀ b, is_Some (h !! b) → is_Some (e_heap e !! b)) → dumping (set_heap h e) f ts.
Proof.
  intros [H1 H2 H3 H4 H5 H6 H7 H8 H9 Hn H10 H11] Hold Hsome. constructor; try done.
  - destruct H1 as [F1 F2 F3 F4 F5 F6]. constructor; try done.
    + intros b Hb. simpl. rewrite Hold by done. by apply F1.
    + intros b Hb%Hsome. by apply F2.
    + by destruct F4; constructor.
  - apply (disk_ok_env e); [apply kernel_ext_refl | apply (do_kernel _ _ H2) | exact H2].
Qed.

(** The record in memory goes to the last file. *)
Lemma dump_write_ok fuel e f ts ino lg fd h k v b :
  let r := LogRecord h k v in let iov := datafile_iov b (zlen k) (zlen v) in
  dumping e f (ts ++ [(ino, lg)]) → dump_fd e (ts ++ [(ino, lg)]) fd →
  loaded_at e b h k v → e_brk e0 ≤ b → sound_record h k v →
  (length (events e) + Z.to_nat (16 + zlen k + zlen v) < fuel)%nat →
  ∃ e1 e2, safe_writev fuel fd iov e = Ret CCASK_OK e1 ∧ free_datafile_record iov e1 = Ret tt e2 ∧
    dumping e2 f (ts ++ [(ino, lg ++ [r])]) ∧ dump_fd e2 (ts ++ [(ino, lg ++ [r])]) fd.
Proof.
  intros r iov H (i & lg' & Hlast & Hfd0 & Hfd) (Hb0 & Hb1 & Hb2 & Hlt) Hb (Hrec & Hcrc & Hv) Hfuel.
  rewrite last_snoc in Hlast. injection Hlast as <- <-.
  destruct (dp_temps _ _ _ H (length ts) (ino, lg)) as [_ Hino].
  { by rewrite lookup_app_r, Nat.sub_diag by done. }
  simpl in Hino. pose proof (zlen_datafile_record _ _ _ Hrec) as Hz.
  destruct Hrec as (Hh & Hks & Hvs).
  destruct (calm_writev fuel fd iov e ino (log_bytes lg) (log_record_bytes r)) as (e1 & Hw & Hst);
    [apply (fm_calm _ _ (dp_frame _ _ _ H)) | done | done | done | | done | | |].
  { apply (gather_datafile_iov _ b); [done | apply zlen_datafile_header | done | done]. }
  { unfold ends_nonempty. simpl. apply bool_decide_eq_true. destruct v; [done | zlen_lia]. }
  { change (log_record_bytes r) with (datafile_record_bytes h k v). rewrite Hks, Hvs in Hfuel.
    rewrite <-Hz in Hfuel. unfold zlen in Hfuel. lia. }
  pose proof (es_heap _ _ _ _ Hst) as Hh1.
  exists e1, (set_heap (delete (b + 2) (delete (b + 1) (delete b (e_heap e1)))) e1).
  split; [done|]. split; [apply free_datafile_iov; rewrite Hh1; eauto|]. split.
  - apply dumping_free; [by eapply dumping_append | |].
    + intros c Hc. by rewrite !lookup_delete_ne by lia.
    + intros c. rewrite !lookup_delete. repeat case_decide; [by intros []..|done].
  - exists ino, (lg ++ [r]). rewrite last_snoc. split; [done|]. split; [done|].
    apply (fd_opened_ext e); [apply (es_ext _ _ _ _ Hst) | exact Hfd].
Qed.
End dumping.
