(* ===== verification/Compaction.v ===== *)
(** * Compaction: what [ccask_compactor_dump_keydir] does to the directory

    The loop copies the record of every entry into temporary files; then the
    old files are removed and the temporary ones take their place. *)
From stdpp Require Import sorting.
From S2P Require Import Prelude Status Posix SafeIO Codec Records Ringbuf Uthash Keydir Log.
From S2P Require Import Filenames Files Disk DiskWrite World Hint Recovery Reader Core Compactor.
From S2P Require Import Store Durable Tidy Turns Directory DirOps Dump.
Open Scope Z_scope.

(** A record is appended to the last temporary file if the file then has at
    most [mx] bytes; or it is the first of a new one. *)
Inductive copied (mx : Z) : temps → log_record → temps → Prop :=
  | copied_same ts ino lg r :
      zlen (log_bytes lg) + log_record_size r ≤ mx →
      copied mx (ts ++ [(ino, lg)]) r (ts ++ [(ino, lg ++ [r])])
  | copied_next ts ino r : copied mx ts r (ts ++ [(ino, [r])]).

Definition temp_records (ts : temps) : list log_record := concat ts.*2.

Definition temps_small (mx : Z) (ts : temps) : Prop :=
  Forall (λ t, zlen (log_bytes t.2) ≤ mx) ts.

Lemma copied_records mx ts r ts' :
  copied mx ts r ts' → temp_records ts' = temp_records ts ++ [r].
Proof.
  unfold temp_records. destruct 1; rewrite !fmap_app, !concat_app; simpl.
  - by rewrite !app_nil_r, app_assoc.
  - done.
Qed.

Lemma copied_length mx ts r ts' : copied mx ts r ts' → (length ts' ≤ S (length ts))%nat.
Proof. destruct 1; rewrite !length_app; simpl; lia. Qed.

Lemma copied_small mx ts r ts' :
  copied mx ts r ts' → log_record_ok r → log_record_size r ≤ mx → temps_small mx ts → temps_small mx ts'.
Proof.
  unfold temps_small. intros Hc Hr%zlen_log_record Hsz.
  destruct Hc; rewrite !Forall_app, !Forall_singleton; simpl.
  - intros [? ?]. split; [done|]. rewrite log_bytes_app, log_bytes_cons, !zlen_app, Hr.
    unfold log_bytes at 2. simpl. change (zlen []) with 0. lia.
  - intros ?. split; [done|]. rewrite log_bytes_cons, zlen_app, Hr.
    unfold log_bytes. simpl. change (zlen []) with 0. lia.
Qed.

Section loop.
Context {host : Host} {zlib : Zlib} {laws : ZlibLaws}.
Context (e0 : env) (f0 : files_state) (a : Z) (dir : string) (l : list Z).
Hypothesis Hdir : fs_data_dir f0 = Some (a, dir).
Hypothesis Hdisk0 : disk_ok (e0, f0) l.
Hypothesis Hmax : 0 ≤ fs_max_active f0 < 2 ^ 63.
Hypothesis Hnotemp : ∀ i, is_u64 i → file_ino e0 dir ".data.tmp" i = None.

#[local] Notation dumping := (dumping e0 f0 dir l).

(** The next temporary file. *)
Lemma dump_open_ok e f kd rg th ru sd ts :
  dumping e f ts → Z.of_nat (length ts) < 2 ^ 64 →
  ∃ e' fd ino,
    CCASK_ATTEMPT 5 (zoom (ccask_files_get_temp_datafile_fd (Z.of_nat (length ts))))
      (World e f kd rg th ru sd) = Ret fd (World e' f kd rg th ru sd) ∧
    dumping e' f (ts ++ [(ino, [])]) ∧ dump_fd e' (ts ++ [(ino, [])]) fd ∧ 0 ≤ fd ∧
    (∀ b h k v, loaded_at e b h k v → loaded_at e' b h k v).
Proof.
  intros H Hlen. pose proof (dp_frame _ _ _ _ _ _ _ H) as Hfr.
  destruct (do_dir _ _ Hdisk0) as (a' & dir' & Hd' & Hne). cbn [snd] in Hd'. rewrite Hdir in Hd'.
  injection Hd' as <- <-.
  assert (is_u64 (Z.of_nat (length ts))) as Hu by (unfold is_u64; lia).
  assert (k_dir (e_kernel e) !! temp_path dir (Z.of_nat (length ts)) = None) as Hnone.
  { rewrite (dp_dir _ _ _ _ _ _ _ H); [by apply (Hnotemp _ Hu)|].
    intros i Hi Hp%filepath_inj; [lia | done | unfold is_u64; lia]. }
  destruct (get_temp_datafile_fd_create e f a dir) with (id := Z.of_nat (length ts))
    as (e2 & Hrun & Hfd0 & Hg & Hopen);
    [by apply (dumping_dir e0 f0 a dir l Hdir e f ts) | done | apply Hfr..| done |].
  destruct (dumping_new e0 f0 a dir l Hdir e f e2 ts (k_next_fd (e_kernel e))) as [Hd2 Hfd2];
    [done | done | by apply Hnotemp | done | done | done |].
  exists e2, (k_next_fd (e_kernel e)), (k_next_ino (e_kernel e)).
  split; [by apply zoom_attempt_files|]. split; [done|]. split; [done|]. split; [done|].
  intros b h k v (B0 & B1 & B2 & Hlt). pose proof (eg_heap _ _ Hg) as Hsub. pose proof (eg_brk _ _ Hg).
  simpl in *. split_and!; [by eapply lookup_weaken..|lia].
Qed.

Lemma sound_record_size h k v b :
  sound_record h k v → let r := LogRecord h k v in
  log_record_ok r ∧ 17 ≤ log_record_size r < 2 ^ 34 ∧
  ccask_get_datafile_record_total_size (datafile_iov b (zlen k) (zlen v)) = log_record_size r.
Proof.
  intros (Hrec & _ & Hv) r. assert (log_record_ok r) as Hrok by done.
  pose proof (log_record_size_pos r Hrok). unfold log_record_size in *. simpl in *.
  destruct (header_fits _ _ _ Hrec) as (_ & [? ?] & [? ?]).
  split; [done|]. split; [lia|]. unfold ccask_get_datafile_record_total_size. simpl.
  rewrite u64_small; [done|]. unfold is_u64. lia.
Qed.

(** The record of the entry [x] is read, and the end of the last temporary
    file is looked for. *)
Lemma dump_load_ok fuel x k v e f kd rg th ru sd ts0 ino lg fd :
  let ts := ts0 ++ [(ino, lg)] in
  dumping e f ts → dump_fd e ts fd →
  entry_ok (e0, f0) l k (kd_info_of x) v → kd_key_size x = zlen k →
  (length (events e0) + Z.to_nat (16 + zlen k + zlen v) < fuel)%nat →
  ∃ h e1 e2 e3 f' ru', let b := e_brk e in let iov := datafile_iov b (zlen k) (zlen v) in
    sound_record h k v ∧
    ccask_allocate_datafile_record datafile_record_garbage (kd_key_size x) (kd_value_size x) e =
      Ret (CCASK_OK, iov) e1 ∧
    CCASK_ATTEMPT 5 (ccask_read_datafile_record fuel (kd_file_id x) iov (kd_record_pos x))
      (World e1 f kd rg th ru sd) = Ret CCASK_OK (World e2 f' kd rg th ru' sd) ∧
    lseek_end fd e2 = Ret (zlen (log_bytes lg)) e3 ∧
    dumping e3 f' ts ∧ dump_fd e3 ts fd ∧ loaded_at e3 b h k v ∧ (∀ t, t ∈ ru → t ∈ ru').
Proof.
  intros ts H Hfd He Hxk Hfuel.
  pose proof (dp_frame _ _ _ _ _ _ _ H) as [F1 F2 F3 F4 F5 F6].
  pose proof (suffix_length _ _ F5) as Hev.
  destruct (load_record_ok fuel e f kd rg th ru sd l x k v) as
    (h & e1 & e2 & p & y & z & ru' & Hsound & Hvs & Halloc & Hread & Hp & Hy & Hzid & Hzh & Hru &
     Hdz & Hke & Hat); [apply (dp_disk _ _ _ _ _ _ _ H) | by apply (dumping_entry e0 f0 a dir l Hdir Hdisk0 e f ts)
     | done | done | done | lia |].
  set (b := e_brk e) in *. set (f2 := put_node p z f) in *.
  assert (dumping e2 f2 ts) as H2.
  { apply (dumping_kept e0 f0 dir l e f e2 f2 ts H Hke Hdz); [done | done | |].
    - intros q. by apply (node_id_put f p y).
    - intros q u. unfold f2. simpl. rewrite lookup_insert. case_decide as Hpq; [|by eauto].
      subst q. intros <-%(inj Some). eauto. }
  pose proof (dump_fd_kept e e2 ts fd (ek_ext _ _ Hke) Hfd) as Hfd2.
  pose proof Hfd2 as (i & lg' & Hlast & Hfd0 & Hopen). unfold ts in Hlast. rewrite last_snoc in Hlast.
  injection Hlast as <- <-.
  destruct (dp_temps _ _ _ _ _ _ _ H2 (length ts0) (ino, lg)) as [_ Hino].
  { unfold ts. by rewrite lookup_app_r, Nat.sub_diag by done. }
  simpl in Hino. pose proof (dp_frame _ _ _ _ _ _ _ H2) as [G1 G2 G3 G4 G5 G6].
  destruct (lseek_end_ok e2 fd ino true true (log_bytes lg) Hopen Hino (calm_head _ G4))
    as (e3 & Hseek & Hio).
  pose proof (env_step_grow _ _ (io_frame_step _ _ _ _ Hio eq_refl)) as Hg3.
  pose proof (env_grow_kept _ _ Hg3 G4 G2) as Hke3.
  exists h, e1, e2, e3, f2, ru'. do 4 (split; [done|]). split; [|split; [|split]].
  - apply (dumping_kept e0 f0 dir l e2 f2 e3 f2 ts H2 Hke3); [by eapply disk_ok_grow | done | done | done | eauto].
  - exact (dump_fd_kept e2 e3 ts fd (ek_ext _ _ Hke3) Hfd2).
  - destruct Hat as (B0 & B1 & B2 & Hlt). pose proof (ek_brk _ _ Hke3).
    split_and!; [rewrite (ek_heap _ _ Hke3) by lia; done..|lia].
  - intros t Ht. destruct Hru as [-> | ->]; [done|]. by right.
Qed.

(** The last part of a turn. *)
Lemma dump_finish_ok fuel e f kd rg th ru sd h k v b ts ino lg fd id :
  let r := LogRecord h k v in let iov := datafile_iov b (zlen k) (zlen v) in
  let ts' := ts ++ [(ino, lg ++ [r])] in
  dumping e f (ts ++ [(ino, lg)]) → dump_fd e (ts ++ [(ino, lg)]) fd → loaded_at e b h k v →
  e_brk e0 ≤ b → sound_record h k v →
  (length (events e0) + Z.to_nat (16 + zlen k + zlen v) < fuel)%nat →
  ∃ e',
    (if bool_decide (fd < 0) then mret (inr (Cancel id))
     else
       res ← zoom (safe_writev fuel fd iov);
       if bool_decide (res ≠ CCASK_OK) then _ ← zoom (sys_close fd); mret (inr (Cancel id))
       else _ ← zoom (free_datafile_record iov); mret (inl (fd, id)))
      (World e f kd rg th ru sd) = Ret (inl (fd, id)) (World e' f kd rg th ru sd) ∧
    dumping e' f ts' ∧ dump_fd e' ts' fd.
Proof.
  intros r iov ts' H Hfd Hat Hb Hsound Hfuel.
  pose proof (suffix_length _ _ (fm_events _ _ (dp_frame _ _ _ _ _ _ _ H))) as Hev.
  destruct (dump_write_ok e0 f0 dir l fuel e f ts ino lg fd h k v b H Hfd Hat)
    as (e1 & e2 & Hw & Hfree & H2 & Hfd2); [done | done | lia |].
  exists e2. split; [|done]. destruct Hfd as (_ & _ & _ & Hfd0 & _).
  rewrite bool_decide_eq_false_2 by lia.
  erewrite bind_run by apply zoom_env, Hw. rewrite bool_decide_neq_refl.
  by erewrite bind_run by apply zoom_env, Hfree.
Qed.

(** A turn of the loop: the record of the entry [x] is copied. *)
Lemma dump_turn_ok fuel x k v e f kd rg th ru sd ts fd :
  dumping e f ts → dump_fd e ts fd → temps_small (fs_max_active f0) ts → Z.of_nat (length ts) < 2 ^ 64 →
  entry_ok (e0, f0) l k (kd_info_of x) v → kd_key_size x = zlen k →
  (length (events e0) + Z.to_nat (16 + zlen k + zlen v) < fuel)%nat →
  ∃ r ts' e' f' ru' fd',
    dump_turn fuel x fd (Z.of_nat (length ts) - 1) (World e f kd rg th ru sd) =
      Ret (inl (fd', Z.of_nat (length ts') - 1)) (World e' f' kd rg th ru' sd) ∧
    dumping e' f' ts' ∧ dump_fd e' ts' fd' ∧ lr_key r = k ∧ lr_value r = v ∧
    log_record_ok r ∧ log_crc_ok r ∧ copied (fs_max_active f0) ts r ts' ∧ (∀ t, t ∈ ru → t ∈ ru').
Proof.
  intros H Hfd Hsmall Hlen He Hxk Hfuel. pose proof (fm_brk _ _ (dp_frame _ _ _ _ _ _ _ H)) as Hbrk.
  pose proof Hfd as (ino & lg & [ts0 ->]%last_Some & Hfd0 & _).
  assert (zlen (log_bytes lg) ≤ fs_max_active f0) as Hlg.
  { unfold temps_small in Hsmall. rewrite Forall_app, Forall_singleton in Hsmall. apply Hsmall. }
  destruct (dump_load_ok fuel x k v e f kd rg th ru sd ts0 ino lg fd H Hfd He Hxk Hfuel) as
    (h & e1 & e2 & e3 & f' & ru' & Hsound & Halloc & Hread & Hseek & H3 & Hfd3 & Hat & Hru).
  set (b := e_brk e) in *. set (r := LogRecord h k v).
  destruct (sound_record_size h k v b Hsound) as (Hrok & Hrsz & Hsize). fold r in Hrok, Hrsz, Hsize.
  assert (log_crc_ok r) as Hcrc by apply Hsound.
  pose proof (zlen_nonneg (log_bytes lg)).
  assert (u64 (zlen (log_bytes lg) + log_record_size r) = zlen (log_bytes lg) + log_record_size r) as Hu
    by (rewrite u64_small; [done | unfold is_u64; lia]).
  assert (Z.of_nat (length (ts0 ++ [(ino, lg)])) - 1 = Z.of_nat (length ts0)) as Hid
    by (rewrite length_app; simpl; lia).
  pose proof (eq_refl (dump_turn fuel x fd (Z.of_nat (length ts0)) (World e f kd rg th ru sd))) as Hrun.
  unfold dump_turn in Hrun at 2. erewrite bind_run in Hrun by apply zoom_env, Halloc.
  cbv beta iota in Hrun. rewrite bool_decide_neq_refl in Hrun.
  erewrite bind_run in Hrun by exact Hread. rewrite bool_decide_neq_refl in Hrun.
  erewrite bind_run in Hrun by apply zoom_env, Hseek.
  rewrite (bool_decide_eq_false_2 (_ < 0)) in Hrun by lia. cbv zeta in Hrun.
  erewrite bind_run in Hrun by (apply (zoom_files e3 e3 f' f'); reflexivity).
  cbn [snd] in Hrun. rewrite (dp_max _ _ _ _ _ _ _ H3), Hsize, Hu in Hrun.
  rewrite Hid, Hrun. clear Hrun.
  destruct (decide (zlen (log_bytes lg) + log_record_size r > fs_max_active f0)) as [Hbig|Hfit].
  - rewrite (bool_decide_eq_true_2 _ Hbig).
    destruct (dump_open_ok (close_fd fd e3) f' kd rg th ru' sd (ts0 ++ [(ino, lg)])
      (dumping_close e0 f0 a dir l Hdir Hdisk0 e3 f' _ fd H3 Hfd3) Hlen) as
      (e4 & fd' & ino' & Hnext & H4 & Hfd4 & Hfd40 & Hat4).
    destruct (dump_finish_ok fuel e4 f' kd rg th ru' sd h k v b (ts0 ++ [(ino, lg)]) ino' [] fd'
      (Z.of_nat (length (ts0 ++ [(ino, lg)]))) H4 Hfd4 (Hat4 _ _ _ _ Hat)) as (e5 & Hfin & H5 & Hfd5);
      [done | done | done |].
    assert (u64 (Z.of_nat (length ts0) + 1) = Z.of_nat (length (ts0 ++ [(ino, lg)]))) as Hnid.
    { rewrite length_app in *. simpl in *. rewrite u64_small; unfold is_u64; lia. }
    exists r, ((ts0 ++ [(ino, lg)]) ++ [(ino', [r])]), e5, f', ru', fd'.
    split; [|split_and!; try done; constructor].
    rewrite Hnid, (length_app (ts0 ++ _)), Nat2Z.inj_add. replace (_ + _ - 1) with
      (Z.of_nat (length (ts0 ++ [(ino, lg)]))) by (simpl; lia).
    erewrite bind_run; last first.
    { erewrite bind_run by apply zoom_env, sys_close_run.
      erewrite bind_run by exact Hnext. reflexivity. }
    exact Hfin.
  - rewrite (bool_decide_eq_false_2 _ Hfit). rewrite bind_mret.
    destruct (dump_finish_ok fuel e3 f' kd rg th ru' sd h k v b ts0 ino lg fd
      (Z.of_nat (length ts0)) H3 Hfd3 Hat) as (e5 & Hfin & H5 & Hfd5); [done | done | done |].
    exists r, (ts0 ++ [(ino, lg ++ [r])]), e5, f', ru', fd.
    split; [|split_and!; try done; constructor; lia].
    rewrite length_app, Nat2Z.inj_add. replace (_ + _ - 1) with (Z.of_nat (length ts0)) by (simpl; lia).
    exact Hfin.
Qed.

(** The entry [x] leads to a record that fits into a file. *)
Definition copiable (m : gmap bytes bytes) (x : ccask_keydir_record) : Prop :=
  kd_key_size x = zlen (kd_key x) ∧
  ∃ v, m !! kd_key x = Some v ∧ entry_ok (e0, f0) l (kd_key x) (kd_info_of x) v ∧
    16 + zlen (kd_key x) + zlen v ≤ fs_max_active f0.

(** The record [r] is the copy for the entry [x]. *)
Definition copy_of (m : gmap bytes bytes) (x : ccask_keydir_record) (r : log_record) : Prop :=
  lr_key r = kd_key x ∧ m !! kd_key x = Some (lr_value r) ∧ log_record_ok r ∧ log_crc_ok r.

Lemma dump_loop_ok fuel m lk rg th sd n t1 t2 e f ru ts fd :
  NoDup (kd_at <$> t1 ++ t2) → (length t2 < n)%nat → Forall (copiable m) t2 →
  dumping e f ts → dump_fd e ts fd → temps_small (fs_max_active f0) ts →
  Z.of_nat (length ts + length t2) < 2 ^ 64 →
  (length (events e0) + Z.to_nat (fs_max_active f0) < fuel)%nat →
  let kd := Keydir (t1 ++ t2) lk in
  ∃ rs ts' e' f' ru' fd',
    dump_loop fuel n (kd_at <$> head t2) fd (Z.of_nat (length ts) - 1) (World e f kd rg th ru sd) =
      Ret (Done fd' (Z.of_nat (length ts') - 1)) (World e' f' kd rg th ru' sd) ∧
    dumping e' f' ts' ∧ dump_fd e' ts' fd' ∧ temps_small (fs_max_active f0) ts' ∧
    Forall2 (copy_of m) t2 rs ∧ temp_records ts' = temp_records ts ++ rs ∧
    (length ts' ≤ length ts + length t2)%nat ∧ (∀ t, t ∈ ru → t ∈ ru').
Proof.
  revert n t1 e f ru ts fd. induction t2 as [|x t2 IH];
    intros n t1 e f ru ts fd Hnd Hn Hall H Hfd Hsmall Hlen Hfuel; cbv zeta; (destruct n as [|n]; [simpl in *; lia|]).
  { exists [], ts, e, f, ru, fd. split; [done|]. rewrite app_nil_r. by split_and!; try lia. }
  apply Forall_cons in Hall as [(Hks & v & Hv & He & Hfit) Hall]. simpl in Hn, Hlen.
  destruct (dump_turn_ok fuel x (kd_key x) v e f (Keydir (t1 ++ x :: t2) lk) rg th ru sd ts fd)
    as (r & ts1 & e1 & f1 & ru1 & fd1 & Hturn & H1 & Hfd1 & Hrk & Hrv & Hrok & Hrcrc & Hcop & Hru1);
    [done | done | done | lia | done | done | lia |].
  assert (log_record_size r = 16 + zlen (kd_key x) + zlen v) as Hsz
    by (unfold log_record_size; by rewrite Hrk, Hrv).
  pose proof (copied_length _ _ _ _ Hcop) as Hlen1.
  assert ((t1 ++ [x]) ++ t2 = t1 ++ x :: t2) as Happ by by rewrite <-app_assoc.
  destruct (IH n (t1 ++ [x]) e1 f1 ru1 ts1 fd1) as
    (rs & ts' & e' & f' & ru' & fd' & Hloop & H' & Hfd' & Hsmall' & Hrs & Hrec & Hlen' & Hru');
    [by rewrite Happ | lia | done | done | done | apply (copied_small _ _ _ _ Hcop); [done | lia | done]
    | lia | done |].
  rewrite Happ in Hloop. exists (r :: rs), ts', e', f', ru', fd'.
  split; [|split_and!; try done].
  - cbn [dump_loop]. erewrite bind_run by (apply zoom_keydir, (iter_next_run e lk t1 (x :: t2) Hnd)).
    cbn [head tail]. erewrite bind_run by exact Hturn. exact Hloop.
  - constructor; [|done]. split; [done|]. by rewrite Hrv.
  - rewrite Hrec, (copied_records _ _ _ _ Hcop), <-app_assoc. done.
  - simpl. lia.
  - intros t Ht. by apply Hru', Hru1.
Qed.
End loop.

(** ** The old files are removed *)

(** What calls on the directory leave: [d] is the directory now. *)
Definition redirected (d : gmap string Z) (e e' : env) : Prop :=
  framed e e' ∧ inodes e' = inodes e ∧ k_dir (e_kernel e') = d.

Lemma redirected_trans d d' e1 e2 e3 :
  redirected d e1 e2 → redirected d' e2 e3 → redirected d' e1 e3.
Proof.
  intros (A1 & A2 & _) (B1 & B2 & B3). split; [by eapply framed_trans|]. split; [congruence|done].
Qed.

(** The paths of the files of the nodes [l]. *)
Definition node_paths (f : files_state) (dir : string) (p : Z) : list string :=
  match fs_nodes f !! p with
  | Some x => (if file_has_hint x then [filepath dir (file_id x) ".hint"] else []) ++
      [filepath dir (file_id x) ".data"]
  | None => []
  end.
Definition old_paths (f : files_state) (dir : string) (l : list Z) : list string :=
  concat (node_paths f dir <$> l).

Lemma elem_of_old_paths f dir l q : q ∈ old_paths f dir l ↔ ∃ p, p ∈ l ∧ q ∈ node_paths f dir p.
Proof.
  unfold old_paths. induction l as [|p l IH]; cbn [fmap list_fmap concat].
  - split; [by intros ?%elem_of_nil | by intros (p & ?%elem_of_nil & _)].
  - rewrite elem_of_app, IH. split.
    + intros [Hq|(p' & Hp & Hq)]; [exists p | exists p']; (split; [|done]); [by left | by right].
    + intros (p' & [->|Hp]%elem_of_cons & Hq); [by left | right; eauto].
Qed.

Definition without (ps : list string) (d : gmap string Z) : gmap string Z := foldr delete d ps.

Lemma without_lookup ps d p : without ps d !! p = if decide (p ∈ ps) then None else d !! p.
Proof.
  induction ps as [|q ps IH]; cbn [without foldr].
  { rewrite decide_False; [done | apply not_elem_of_nil]. }
  rewrite lookup_delete. fold (without ps d). rewrite IH. repeat case_decide; set_solver.
Qed.

Lemma without_app ps qs d : without (ps ++ qs) d = without ps (without qs d).
Proof. apply foldr_app. Qed.

Section remove.
Context (f : files_state) (a : Z) (dir : string) (kd : keydir) (rg : option ccask_writer_ringbuf)
  (th : list thread_handle_t) (ru : list thread) (sd : bool).
Hypothesis Hdir : fs_data_dir f = Some (a, dir).
Hypothesis Hne : dir ≠ EmptyString.

Lemma delete_path_ok e id ext s :
  ext_string ext = Some s → is_Some (k_dir (e_kernel e) !! filepath dir id s) →
  calm e → heap_wf e → kernel_wf (e_kernel e) →
  ∃ e', CCASK_ATTEMPT 5 (zoom (ccask_files_delete id ext)) (World e f kd rg th ru sd) =
      Ret CCASK_OK (World e' f kd rg th ru sd) ∧
    redirected (without [filepath dir id s] (k_dir (e_kernel e))) e e'.
Proof.
  intros Hs Hp Hc Hwf Hk.
  destruct (files_delete_ok e f a dir Hdir Hne Hc Hwf id ext s Hs Hp) as (e' & Hrun & Hg).
  exists e'. split; [by apply zoom_attempt_files|]. split; [|split].
  - by apply (grow_framed e _ e' Hg); [..|apply drop_path_wf].
  - apply (eg_inodes _ _ Hg).
  - by destruct (eg_ext _ _ Hg) as [-> _].
Qed.

(** Both files of a node. *)
Lemma delete_node_ok e p x (k : ccask_status_e → M world ccask_status_e) :
  fs_nodes f !! p = Some x →
  is_Some (k_dir (e_kernel e) !! filepath dir (file_id x) ".data") →
  (file_has_hint x = true → is_Some (k_dir (e_kernel e) !! filepath dir (file_id x) ".hint")) →
  calm e → heap_wf e → kernel_wf (e_kernel e) →
  ∃ e', redirected (without (node_paths f dir p) (k_dir (e_kernel e))) e e' ∧
    (res ← CCASK_ATTEMPT 5 (zoom (ccask_files_delete (file_id x) FILE_DATA));
     let delete_res := if bool_decide (res ≠ CCASK_OK) then CCASK_FAIL else CCASK_OK in
     delete_res ←
       (if file_has_hint x then
          res ← CCASK_ATTEMPT 5 (zoom (ccask_files_delete (file_id x) FILE_HINT));
          mret (if bool_decide (res ≠ CCASK_OK) then CCASK_FAIL else delete_res)
        else mret delete_res);
     k delete_res) (World e f kd rg th ru sd) = k CCASK_OK (World e' f kd rg th ru sd).
Proof.
  intros Hx Hdata Hhint Hc Hwf Hk. unfold node_paths. rewrite Hx.
  destruct (delete_path_ok e (file_id x) FILE_DATA ".data") as (e1 & Hrun1 & H1); [done..|].
  pose proof H1 as ([_ Hwf1 _ Hc1 _ Hk1] & _ & Hd1).
  destruct (file_has_hint x) eqn:Hh.
  - destruct (delete_path_ok e1 (file_id x) FILE_HINT ".hint") as (e2 & Hrun2 & H2); try done.
    { rewrite Hd1, without_lookup, decide_False; [by apply Hhint|].
      intros Heq%list_elem_of_singleton. by apply hint_path_not_data in Heq. }
    exists e2. split; [|by erewrite bind_run by exact Hrun1; erewrite bind_run by
      (erewrite bind_run by exact Hrun2; reflexivity)].
    rewrite Hd1 in H2. exact (redirected_trans _ _ _ _ _ H1 H2).
  - exists e1. split; [done|]. by erewrite bind_run by exact Hrun1.
Qed.

(** What the directory has of the nodes [l]. *)
Definition nodes_there (e : env) (l : list Z) : Prop :=
  ∀ p x, p ∈ l → fs_nodes f !! p = Some x →
    is_Some (k_dir (e_kernel e) !! filepath dir (file_id x) ".data") ∧
    (file_has_hint x = true → is_Some (k_dir (e_kernel e) !! filepath dir (file_id x) ".hint")).

(** The paths of other nodes are other paths. *)
Lemma node_paths_other p q x y :
  fs_nodes f !! p = Some x → fs_nodes f !! q = Some y → is_u64 (file_id x) → is_u64 (file_id y) →
  file_id x ≠ file_id y →
  filepath dir (file_id x) ".data" ∉ node_paths f dir q ∧
  filepath dir (file_id x) ".hint" ∉ node_paths f dir q.
Proof.
  intros Hx Hy Hux Huy Hneq. unfold node_paths. rewrite Hy.
  split; intros [Hp|Hp%list_elem_of_singleton]%elem_of_app; try (destruct (file_has_hint y);
    [apply list_elem_of_singleton in Hp | by apply elem_of_nil in Hp]).
  - symmetry in Hp. by apply hint_path_not_data in Hp.
  - by apply filepath_inj in Hp.
  - by apply filepath_inj in Hp.
  - by apply hint_path_not_data in Hp.
Qed.

(** From the tail of the list to its head. *)
Lemma delete_old_ok n l k e :
  dseg (fs_nodes f) None l k → NoDup (node_id (fs_nodes f) <$> l) →
  Forall (λ p, is_u64 (node_id (fs_nodes f) p)) l → nodes_there e l →
  calm e → heap_wf e → kernel_wf (e_kernel e) → (length l < n)%nat →
  ∃ e', delete_old_files n (last l) CCASK_OK (World e f kd rg th ru sd) =
      Ret CCASK_OK (World e' f kd rg th ru sd) ∧
    framed e e' ∧ inodes e' = inodes e ∧
    ∀ path, k_dir (e_kernel e') !! path =
      if decide (path ∈ old_paths f dir l) then None else k_dir (e_kernel e) !! path.
Proof.
  revert n k e. induction l as [|p l IH] using rev_ind; intros n k e Hseg Hnd Hu Hth Hc Hwf Hk Hn;
    (destruct n as [|n]; [lia|]).
  { exists e. split; [done|]. split; [by apply framed_refl|]. split; [done|]. intros path.
    rewrite decide_False; [done | apply not_elem_of_nil]. }
  apply dseg_app in Hseg as [Hseg [(x & Hx & Hprev & _) _]]. cbn [hd_or] in Hseg.
  rewrite fmap_app in Hnd. apply NoDup_app in Hnd as (Hnd & Hpl & _).
  apply Forall_app in Hu as [Hu Hup]. rewrite Forall_singleton in Hup.
  assert (node_id (fs_nodes f) p = file_id x) as Hid by (unfold node_id; by rewrite Hx).
  destruct (Hth p x) as [Hdata Hhint]; [apply elem_of_app; right; by left | done |].
  rewrite last_snoc. cbn [delete_old_files].
  destruct (delete_node_ok e p x (λ r, delete_old_files n (file_previous x) r)) as
    (e1 & (F1 & I1 & D1) & Hrun); [done..|].
  assert (file_previous x = last l) as Hpx.
  { rewrite Hprev. unfold last_or. by destruct (last l). }
  assert (nodes_there e1 l) as Hth1.
  { intros q y Hq Hy. destruct (Hth q y) as [G1 G2]; [apply elem_of_app; by left | done |].
    assert (file_id y ≠ file_id x) as Hneq.
    { rewrite <-Hid. intros Heq. apply (Hpl (node_id (fs_nodes f) q)).
      - by apply list_elem_of_fmap_2.
      - apply list_elem_of_singleton. unfold node_id at 1. rewrite Hy. simpl. congruence. }
    assert (is_u64 (file_id y)) as Huy.
    { rewrite Forall_forall in Hu. specialize (Hu q Hq). unfold node_id in Hu. by rewrite Hy in Hu. }
    destruct (node_paths_other q p y x Hy Hx Huy) as [N1 N2]; [by rewrite <-Hid | done |].
    rewrite D1, !without_lookup, (decide_False _ _ N1), (decide_False _ _ N2).
    exact (conj G1 G2). }
  destruct (IH n (Some p) e1) as (e2 & Hloop & F2 & I2 & D2); try done.
  1-3: apply F1.
  { rewrite length_app in Hn. simpl in Hn. lia. }
  exists e2. split; [|split; [by eapply framed_trans|split; [congruence|]]].
  - erewrite bind_run by (apply zoom_files, (node_run p e f x Hx)).
    rewrite Hpx in Hrun |- *. exact (eq_trans Hrun Hloop).
  - intros path. rewrite D2, D1, without_lookup. unfold old_paths.
    rewrite fmap_app, concat_app. simpl. rewrite app_nil_r.
    repeat case_decide; first [reflexivity | set_solver].
Qed.

(** ** The temporary files get their names *)

Definition in_range (i : Z) (todo : nat) (j : Z) : Prop := i ≤ j < i + Z.of_nat todo.

(** [g] gives the inodes of the temporary files. *)
Lemma rename_ok (g : Z → Z) todo i e :
  0 ≤ i → i + Z.of_nat todo ≤ 2 ^ 64 →
  (∀ j, in_range i todo j → k_dir (e_kernel e) !! temp_path dir j = Some (g j)) →
  calm e → heap_wf e → kernel_wf (e_kernel e) →
  ∃ e', rename_temp_files todo i (World e f kd rg th ru sd) = Ret tt (World e' f kd rg th ru sd) ∧
    framed e e' ∧ inodes e' = inodes e ∧
    (∀ j, in_range i todo j → k_dir (e_kernel e') !! filepath dir j ".data" = Some (g j) ∧
      k_dir (e_kernel e') !! temp_path dir j = None) ∧
    (∀ path, (∀ j, in_range i todo j → path ≠ filepath dir j ".data" ∧ path ≠ temp_path dir j) →
      k_dir (e_kernel e') !! path = k_dir (e_kernel e) !! path).
Proof.
  unfold in_range. revert i e. induction todo as [|todo IH]; intros i e Hi Hle Htemps Hc Hwf Hk.
  { exists e. split; [done|]. split; [by apply framed_refl|]. split; [done|].
    split; [intros j Hj; lia | done]. }
  assert (∀ j, i ≤ j < i + Z.of_nat (S todo) → is_u64 j) as Hu by (unfold is_u64; lia).
  pose proof (Htemps i ltac:(lia)) as Hti.
  destruct (files_change_ext_ok e f a dir Hdir Hne Hc Hwf i FILE_TEMP_DATA FILE_DATA
    ".data.tmp" ".data" (g i) eq_refl eq_refl Hti) as (e1 & Hrun & Hg).
  set (from := filepath dir i ".data.tmp") in *. set (to := filepath dir i ".data") in *.
  assert (k_dir (e_kernel e1) = <[to := g i]> (delete from (k_dir (e_kernel e)))) as Hd1
    by by destruct (eg_ext _ _ Hg) as [-> _].
  assert (framed e e1) as [F1 F2 F3 F4 F5 F6]
    by (by apply (grow_framed e _ e1 Hg); [..|apply move_path_wf]).
  destruct (IH (i + 1) e1) as (e2 & Hrest & Hf2 & Hi2 & Hin & Hout); [lia | lia | | done..|].
  { intros j Hj. rewrite Hd1, lookup_insert_ne, lookup_delete_ne; [apply Htemps; lia | |].
    - intros Heq%filepath_inj; [lia | apply Hu; lia | apply Hu; lia].
    - intros Heq. symmetry in Heq. by apply temp_not_data in Heq. }
  exists e2. split; [|split; [by eapply framed_trans|split; [|split]]].
  - cbn [rename_temp_files]. erewrite bind_run by apply zoom_attempt_files, Hrun. exact Hrest.
  - rewrite Hi2. apply (eg_inodes _ _ Hg).
  - intros j Hj. destruct (decide (j = i)) as [->|Hji]; [|apply Hin; lia].
    rewrite !Hout, Hd1.
    + fold to. unfold temp_path. fold from. rewrite lookup_insert_eq. split; [done|].
      rewrite lookup_insert_ne, lookup_delete_eq; [done|]. intros Heq. symmetry in Heq.
      by apply temp_not_data in Heq.
    + intros j' Hj'. split; [by apply temp_not_data|].
      intros Heq%filepath_inj; [lia | apply Hu; lia | apply Hu; lia].
    + intros j' Hj'. split; [|intros Heq; symmetry in Heq; by apply temp_not_data in Heq].
      intros Heq%filepath_inj; [lia | apply Hu; lia | apply Hu; lia].
  - intros path Hpath. destruct (Hpath i ltac:(lia)) as [P1 P2].
    rewrite Hout, Hd1 by (intros j Hj; apply Hpath; lia).
    rewrite lookup_insert_ne, lookup_delete_ne;
      [reflexivity | exact (not_eq_sym P2) | exact (not_eq_sym P1)].
Qed.
End remove.
