(* ===== verification/Compacted.v ===== *)
(** * Compacted: what is left of a store after a compaction

    [ccask_compactor_dump_keydir] leaves a directory that holds the same map
    with one record for each key, in files [0], [1], ... *)
From stdpp Require Import sorting.
From S2P Require Import Prelude Status Posix SafeIO Codec Records Ringbuf Uthash Keydir Log.
From S2P Require Import Filenames Files Disk DiskWrite World Hint Recovery Reader Core Compactor.
From S2P Require Import Teardown Store Durable Tidy Run Turns Directory DirOps Dump Compaction.
Open Scope Z_scope.

(** ** Replaying copies *)

Lemma log_values_lookup (m m0 : gmap bytes bytes) (rs : list log_record) k :
  Forall (λ r, m !! lr_key r = Some (lr_value r)) rs →
  log_values rs m0 !! k = if decide (k ∈ lr_key <$> rs) then m !! k else m0 !! k.
Proof.
  revert m0. induction rs as [|r rs IH]; intros m0 Hall.
  { rewrite decide_False; [done | apply not_elem_of_nil]. }
  apply Forall_cons in Hall as [Hr Hall]. cbn [log_values foldl fmap list_fmap].
  fold (log_values rs (<[lr_key r:=lr_value r]> m0)). rewrite IH by done.
  destruct (decide (k ∈ lr_key <$> rs)) as [Hin|Hin].
  { rewrite decide_True; [done|]. by right. }
  destruct (decide (lr_key r = k)) as [<-|Hne].
  - rewrite lookup_insert_eq, decide_True; [done|]. by left.
  - rewrite lookup_insert_ne, decide_False; [done | | done].
    intros [?|?]%elem_of_cons; [congruence | done].
Qed.

Lemma log_values_key (rs : list log_record) (m0 : gmap bytes bytes) k v :
  log_values rs m0 !! k = Some v → k ∈ lr_key <$> rs ∨ m0 !! k = Some v.
Proof.
  revert m0. induction rs as [|r rs IH]; intros m0; [by right|]. cbn [log_values foldl fmap list_fmap].
  intros [Hk|Hk]%IH; [left; by right|]. rewrite lookup_insert in Hk. case_decide as Heq; [|by right].
  subst k. left. by left.
Qed.

Lemma replay_keys e dir ids k v :
  (∀ id, id ∈ ids → Forall (λ r, lr_key r ≠ []) (dir_log e dir id)) →
  replay e dir ids !! k = Some v → k ≠ [].
Proof.
  induction ids as [|id ids IH]; intros Hkeys; cbn [replay foldr]; [by rewrite lookup_empty|].
  intros [(r & -> & Hr)%list_elem_of_fmap|Hk]%log_values_key.
  - specialize (Hkeys id ltac:(by left)). rewrite Forall_forall in Hkeys. by apply Hkeys.
  - apply IH; [|exact Hk]. intros i Hi. apply Hkeys. by right.
Qed.

(** ** The new files *)

(** [n - 1], ..., [1], [0]. *)
Fixpoint count_down (n : nat) : list Z :=
  match n with O => [] | S n' => Z.of_nat n' :: count_down n' end.

Lemma elem_of_count_down n i : i ∈ count_down n ↔ 0 ≤ i < Z.of_nat n.
Proof.
  induction n as [|n IH]; simpl; [split; [by intros ?%elem_of_nil | lia]|].
  rewrite elem_of_cons, IH. lia.
Qed.

Lemma count_down_sorted n : StronglySorted Z.gt (count_down n).
Proof.
  induction n as [|n IH]; constructor; [done|]. apply Forall_forall.
  intros i Hi%elem_of_count_down. lia.
Qed.

Section new_files.
Context {host : Host} {zlib : Zlib}.
Context (e : env) (dir : string) (ts : temps) (m : gmap bytes bytes) (mx : Z).
Hypothesis Hfiles : ∀ i t, ts !! i = Some t →
  file_ino e dir ".data" (Z.of_nat i) = Some t.1 ∧ inodes e !! t.1 = Some (log_bytes t.2).
Hypothesis Hrecs : Forall log_record_ok (temp_records ts).

Lemma new_file_log i t : ts !! i = Some t →
  file_bytes e dir ".data" (Z.of_nat i) = Some (log_bytes t.2) ∧
  dir_log e dir (Z.of_nat i) = t.2 ∧ Forall log_record_ok t.2.
Proof.
  intros Ht. destruct (Hfiles i t Ht) as [Hi Hino].
  assert (file_bytes e dir ".data" (Z.of_nat i) = Some (log_bytes t.2)) as Hb
    by (unfold file_bytes; by rewrite Hi).
  assert (Forall log_record_ok t.2) as Hok.
  { unfold temp_records in Hrecs. rewrite Forall_concat, Forall_fmap, Forall_forall in Hrecs.
    apply (Hrecs t). by eapply list_elem_of_lookup_2. }
  split; [done|]. split; [|done]. unfold dir_log. rewrite Hb.
  rewrite <-(app_nil_r (log_bytes t.2)), records_of_app by done. apply app_nil_r.
Qed.

Lemma new_files_replay n :
  (n ≤ length ts)%nat → replay e dir (count_down n) = log_values (temp_records (take n ts)) ∅.
Proof.
  induction n as [|n IH]; intros Hn; [by destruct ts|].
  destruct (lookup_lt_is_Some_2 ts n) as [t Ht]; [lia|].
  cbn [count_down replay foldr]. fold (replay e dir (count_down n)). rewrite IH by lia.
  destruct (new_file_log n t Ht) as (_ & -> & _).
  rewrite (take_S_r ts n t Ht). unfold temp_records, log_values.
  by rewrite fmap_app, concat_app, foldl_app; simpl; rewrite app_nil_r.
Qed.

Lemma new_files_records n :
  (n ≤ length ts)%nat →
  temp_records (take n ts) ≡ₚ concat (dir_log e dir <$> count_down n).
Proof.
  induction n as [|n IH]; intros Hn; [by destruct ts|].
  destruct (lookup_lt_is_Some_2 ts n) as [t Ht]; [lia|]. specialize (IH ltac:(lia)).
  cbn [count_down fmap list_fmap concat]. destruct (new_file_log n t Ht) as (_ & -> & _).
  rewrite (take_S_r ts n t Ht), <-IH. unfold temp_records.
  rewrite fmap_app, concat_app. simpl. rewrite app_nil_r. apply Permutation_app_comm.
Qed.

Hypothesis Hlen : (0 < length ts)%nat ∧ Z.of_nat (length ts) < 2 ^ 64.
Hypothesis Hcrc : Forall log_crc_ok (temp_records ts).
Hypothesis Hkeys : Forall (λ r, lr_key r ≠ []) (temp_records ts).
Hypothesis Hdistinct : NoDup ts.*1.
Hypothesis Hsmall : temps_small mx ts.
Hypothesis Hmx : 2 * mx < 2 ^ 32.
Hypothesis Hvalues : log_values (temp_records ts) ∅ = m.
Hypothesis Hnewest : ∀ id, Z.of_nat (length ts) ≤ id → is_u64 id → file_ino e dir ".data" id = None.
Hypothesis Hnohint : ∀ id, is_u64 id → file_ino e dir ".hint" id = None.

Lemma new_files_hold : dir_holds e dir (count_down (length ts)) m (Z.to_nat mx).
Proof.
  assert (∀ id, id ∈ count_down (length ts) → ∃ i t, id = Z.of_nat i ∧ ts !! i = Some t) as Hin.
  { intros id Hid%elem_of_count_down. destruct (lookup_lt_is_Some_2 ts (Z.to_nat id)) as [t Ht]; [lia|].
    exists (Z.to_nat id), t. split; [lia | done]. }
  assert (∀ id, id ∈ count_down (length ts) → is_u64 id) as Hu
    by (intros id ?%elem_of_count_down; unfold is_u64; lia).
  assert (∀ (P : log_record → Prop) t, Forall P (temp_records ts) → t ∈ ts → Forall P t.2) as Hall.
  { intros P t. unfold temp_records. rewrite Forall_concat, Forall_fmap, Forall_forall.
    intros H Ht. exact (H t Ht). }
  assert (∀ top, head (count_down (length ts)) = Some top → top = Z.of_nat (length ts) - 1) as Hhead.
  { intros top. destruct (length ts) as [|k] eqn:Hk; simpl; [done|]. intros [= <-]. lia. }
  constructor.
  - pose proof (zlen_nonneg ([] : bytes)). lia.
  - by apply Forall_forall.
  - apply count_down_sorted.
  - by destruct (length ts); [lia|].
  - intros id (i & t & -> & Ht)%Hin. destruct (new_file_log i t Ht) as (Hb & _ & _).
    exists (log_bytes t.2). split; [done|]. unfold temps_small in Hsmall. rewrite Forall_forall in Hsmall.
    specialize (Hsmall t ltac:(by eapply list_elem_of_lookup_2)). unfold zlen in Hsmall. lia.
  - rewrite new_files_replay, firstn_all by done. exact Hvalues.
  - intros id (i & t & -> & Ht)%Hin. destruct (new_file_log i t Ht) as (_ & -> & _).
    apply Hall; [done | by eapply list_elem_of_lookup_2].
  - intros id (i & t & -> & Ht)%Hin. destruct (new_file_log i t Ht) as (_ & -> & _).
    apply Hall; [done | by eapply list_elem_of_lookup_2].
  - apply NoDup_fmap_2_strong.
    + intros id id' (i & t & -> & Ht)%Hin (i' & t' & -> & Ht')%Hin.
      destruct (Hfiles i t Ht) as [-> _]. destruct (Hfiles i' t' Ht') as [-> _].
      intros [= Heq]. f_equal. apply (NoDup_lookup ts.*1 i i' t.1 Hdistinct);
        rewrite list_lookup_fmap, ?Ht, ?Ht'; simpl; congruence.
    + apply sorted_gt_NoDup, count_down_sorted.
  - intros id c Hid. apply Hhead in Hid as ->.
    destruct (Hin (Z.of_nat (length ts) - 1)) as (i & t & Hi & Ht); [apply elem_of_count_down; lia|].
    rewrite Hi. unfold file_bytes. destruct (Hfiles i t Ht) as [-> Hino]. simpl. rewrite Hino.
    intros [= <-]. destruct (new_file_log i t Ht) as (_ & _ & Hok).
    rewrite <-(app_nil_r (log_bytes t.2)) at 2. rewrite records_of_app by done. by rewrite app_nil_r.
  - intros id Hid. rewrite Hnohint by by apply Hu. by intros [].
  - intros id id' Hid _. rewrite Hnohint by by apply Hu. by intros [].
  - intros top id Htop%Hhead Hlt Huid. apply Hnewest; [lia | done].
  - intros top id _ _ Huid. by apply Hnohint.
Qed.
End new_files.

(** ** The entries of the key directory *)

Section entries.
Context {host : Host} {zlib : Zlib}.

Lemma table_map_entry t x :
  NoDup (kd_key <$> t) → x ∈ t → table_map t !! kd_key x = Some (kd_info_of x).
Proof.
  intros Hnd Hx. apply elem_of_list_to_map_1.
  - by rewrite <-list_fmap_compose.
  - apply list_elem_of_fmap. by exists x.
Qed.

Lemma store_entry w l m x :
  store_ok w l m → x ∈ hash_table (w_keydir w) →
  kd_key_size x = zlen (kd_key x) ∧
  ∃ v, m !! kd_key x = Some v ∧ entry_ok (w_env w, w_files w) l (kd_key x) (kd_info_of x) v.
Proof.
  intros [_ Hkd Hm] Hx. pose proof (keydir_table _ Hkd) as Ht. cbn [snd] in Ht.
  pose proof (table_sizes _ _ Ht) as Hsz. rewrite Forall_forall in Hsz. split; [by rewrite Hsz|].
  specialize (Hm (kd_key x)). unfold keydir_map in Hm. fold (table_map (hash_table (w_keydir w))) in Hm.
  by rewrite (table_map_entry _ x (table_keys _ _ Ht) Hx) in Hm.
Qed.

Lemma store_key w l m k v :
  store_ok w l m → m !! k = Some v → k ∈ kd_key <$> hash_table (w_keydir w).
Proof.
  intros [_ Hkd Hm] Hk. destruct (decide (k ∈ kd_key <$> hash_table (w_keydir w))) as [|Hno]; [done|].
  specialize (Hm k). unfold keydir_map in Hm. fold (table_map (hash_table (w_keydir w))) in Hm.
  rewrite table_map_None in Hm by done. congruence.
Qed.

(** One entry for each key. *)
Lemma store_size w l m : store_ok w l m → length (hash_table (w_keydir w)) = size m.
Proof.
  intros Hok. pose proof (table_keys _ _ (keydir_table _ (st_keydir _ _ _ Hok))) as Hnd.
  cbn [snd] in Hnd. rewrite <-(length_fmap kd_key), <-size_dom, <-(size_list_to_set (C := gset bytes)) by done.
  f_equal. apply set_eq. intros k. rewrite elem_of_list_to_set, elem_of_dom. split.
  - intros (x & -> & Hx)%list_elem_of_fmap. destruct (store_entry _ _ _ _ Hok Hx) as (_ & v & -> & _).
    by eexists.
  - intros [v Hv]. by eapply store_key.
Qed.
End entries.

(** ** The whole compaction *)

(** The store may be compacted: each of its records fits into a file, and the
    directory has no files but those of its nodes. *)
Record compactable (w : world) (l : list Z) (m : gmap bytes bytes) (dir : string) : Prop := {
  cp_dir : ∃ a, fs_data_dir (w_files w) = Some (a, dir);
  cp_max : 0 ≤ fs_max_active (w_files w) ∧ 2 * fs_max_active (w_files w) < 2 ^ 32;
  cp_fits : map_Forall (λ k v, 16 + zlen k + zlen v ≤ fs_max_active (w_files w)) m;
  cp_size : Z.of_nat (size m) < 2 ^ 31;
  cp_data : ∀ id, is_u64 id → is_Some (file_ino (w_env w) dir ".data" id) →
    id ∈ node_id (fs_nodes (w_files w)) <$> l;
  cp_hint : ∀ id, is_u64 id → is_Some (file_ino (w_env w) dir ".hint" id) →
    id ∈ node_id (fs_nodes (w_files w)) <$> l;
  cp_temp : ∀ id, is_u64 id → file_ino (w_env w) dir ".data.tmp" id = None;
}.

(** The directory has the data files [0], ..., [n - 1] and no other file. *)
Record only_files (e : env) (dir : string) (n : nat) : Prop := {
  of_data : ∀ id, is_u64 id → is_Some (file_ino e dir ".data" id) → id ∈ count_down n;
  of_hint : ∀ id, is_u64 id → file_ino e dir ".hint" id = None;
  of_temp : ∀ id, is_u64 id → file_ino e dir ".data.tmp" id = None;
}.

Section replace.
Context {host : Host} {zlib : Zlib}.
Context (e0 : env) (f0 : files_state) (a : Z) (dir : string) (l : list Z).
Hypothesis Hdir : fs_data_dir f0 = Some (a, dir).
Hypothesis Hdisk0 : disk_ok (e0, f0) l.
Hypothesis Hhints : ∀ p x, p ∈ l → fs_nodes f0 !! p = Some x →
  file_has_hint x = true ↔ is_Some (hint_ino (e0, f0) (file_id x)).
Hypothesis Hdata : ∀ id, is_u64 id → is_Some (file_ino e0 dir ".data" id) → id ∈ node_id (fs_nodes f0) <$> l.
Hypothesis Hhint : ∀ id, is_u64 id → is_Some (file_ino e0 dir ".hint" id) → id ∈ node_id (fs_nodes f0) <$> l.
Hypothesis Htemp : ∀ id, is_u64 id → file_ino e0 dir ".data.tmp" id = None.

(** The paths of the nodes are all the data and hint files there are. *)
Lemma old_paths_data e f ts id :
  dumping e0 f0 dir l e f ts → is_u64 id → is_Some (file_ino e0 dir ".data" id) →
  filepath dir id ".data" ∈ old_paths f dir l.
Proof.
  intros H Hu Hid. pose proof (Hdata id Hu Hid) as Hin.
  erewrite list_fmap_ext in Hin; [|intros i p _; symmetry; apply (dp_node_ids _ _ _ _ _ _ _ H)].
  apply node_of_id in Hin as (p & x & Hp & Hx & <-); [|apply (do_rep _ _ (dp_disk _ _ _ _ _ _ _ H))].
  cbn [snd] in Hx. apply elem_of_old_paths. exists p. split; [done|]. unfold node_paths. rewrite Hx. apply elem_of_app. right. by left.
Qed.

Lemma old_paths_hint e f ts id :
  dumping e0 f0 dir l e f ts → is_u64 id → is_Some (file_ino e0 dir ".hint" id) →
  filepath dir id ".hint" ∈ old_paths f dir l.
Proof.
  intros H Hu Hid. pose proof (Hhint id Hu Hid) as Hin.
  erewrite list_fmap_ext in Hin; [|intros i p _; symmetry; apply (dp_node_ids _ _ _ _ _ _ _ H)].
  apply node_of_id in Hin as (p & x & Hp & Hx & <-); [|apply (do_rep _ _ (dp_disk _ _ _ _ _ _ _ H))].
  cbn [snd] in Hx. destruct (dp_nodes _ _ _ _ _ _ _ H p x Hx) as (x0 & Hx0 & Hidx & Hhx).
  assert (file_has_hint x = true) as Htrue.
  { rewrite Hhx. apply (Hhints p x0 Hp Hx0). by rewrite (hint_ino_file e0 f0 a dir Hdir), <-Hidx. }
  apply elem_of_old_paths. exists p. split; [done|]. unfold node_paths. rewrite Hx, Htrue. by left.
Qed.

Lemma old_nodes_there e f ts : dumping e0 f0 dir l e f ts → nodes_there f dir e l.
Proof.
  intros H p x Hp Hx. pose proof (dumping_dir e0 f0 a dir l Hdir e f ts H) as Hd.
  destruct (do_nodes _ _ (dp_disk _ _ _ _ _ _ _ H) p x Hp Hx) as (_ & _ & ino & Hino & _).
  rewrite (data_ino_file e f a dir Hd) in Hino. split; [by exists ino|]. intros Htrue.
  destruct (dp_nodes _ _ _ _ _ _ _ H p x Hx) as (x0 & Hx0 & Hidx & Hhx). rewrite Hhx in Htrue.
  apply (Hhints p x0 Hp Hx0) in Htrue. rewrite (hint_ino_file e0 f0 a dir Hdir), <-Hidx in Htrue.
  rewrite (dp_dir _ _ _ _ _ _ _ H); [exact Htrue|]. intros i _ Heq. symmetry in Heq.
  by apply temp_not_hint in Heq.
Qed.

(** Removing the old files and renaming the new ones. *)
Lemma replace_files_ok e f ts kd rg th ru sd :
  dir ≠ EmptyString → dumping e0 f0 dir l e f ts → (0 < length ts)%nat →
  Z.of_nat (length ts) < 2 ^ 64 →
  ∃ e', (∀ (A : Type) (k : ccask_status_e → M world A),
      (f' ← zoom files;
       delete_res ← delete_old_files (1 + size (fs_nodes f')) (last l) CCASK_OK;
       if bool_decide (delete_res ≠ CCASK_OK) then k delete_res
       else _ ← rename_temp_files (length ts) 0; k CCASK_OK) (World e f kd rg th ru sd) =
      k CCASK_OK (World e' f kd rg th ru sd)) ∧
    framed e0 e' ∧ inodes e' = inodes e ∧
    (∀ i t, ts !! i = Some t → file_ino e' dir ".data" (Z.of_nat i) = Some t.1) ∧
    only_files e' dir (length ts).
Proof.
  intros Hne H Hpos Hlen. pose proof (dp_frame _ _ _ _ _ _ _ H) as [F1 F2 F3 F4 F5 F6].
  pose proof (dumping_dir e0 f0 a dir l Hdir e f ts H) as Hd.
  pose proof (dp_disk _ _ _ _ _ _ _ H) as Hdisk. pose proof (do_rep _ _ Hdisk) as Hrep. cbn [snd] in Hrep.
  destruct (delete_old_ok f a dir kd rg th ru sd Hd Hne (1 + size (fs_nodes f)) l None e)
    as (e1 & Hdel & Hf1 & Hi1 & Hd1); [apply (rep_seg _ _ Hrep) | | | by eapply old_nodes_there | done..| |].
  { apply sorted_gt_NoDup, (rep_sorted _ _ Hrep). }
  { apply Forall_forall. intros p Hp. destruct (rep_lookup _ _ _ Hrep Hp) as [x Hx].
    destruct (do_nodes _ _ Hdisk p x Hp Hx) as (_ & Hu & _). unfold node_id. by rewrite Hx. }
  { pose proof (dseg_length _ _ _ _ (rep_seg _ _ Hrep) (rep_nodup _ _ Hrep)). lia. }
  (* a path that is not the one of a temporary file *)
  assert (∀ path, (∀ i, 0 ≤ i < Z.of_nat (length ts) → path ≠ temp_path dir i) →
    k_dir (e_kernel e1) !! path = if decide (path ∈ old_paths f dir l) then None
      else k_dir (e_kernel e0) !! path) as Hother.
  { intros path Hp. rewrite Hd1, (dp_dir _ _ _ _ _ _ _ H path Hp). done. }
  assert (∀ i, temp_path dir i ∉ old_paths f dir l) as Hnot.
  { intros i (p & _ & Hp)%elem_of_old_paths. unfold node_paths in Hp.
    destruct (fs_nodes f !! p) as [x|]; [|by apply elem_of_nil in Hp].
    apply elem_of_app in Hp as [Hp|Hp%list_elem_of_singleton]; [|by apply temp_not_data in Hp].
    destruct (file_has_hint x); [|by apply elem_of_nil in Hp].
    apply list_elem_of_singleton in Hp. by apply temp_not_hint in Hp. }
  set (g := λ j, default 0 (fst <$> ts !! Z.to_nat j)).
  pose proof Hf1 as [G1 G2 G3 G4 G5 G6].
  destruct (rename_ok f a dir kd rg th ru sd Hd Hne g (length ts) 0 e1) as
    (e2 & Hren & Hf2 & Hi2 & Hin & Hout); [done | lia | | done..|].
  { intros j Hj. unfold in_range in Hj. destruct (lookup_lt_is_Some_2 ts (Z.to_nat j)) as [t Ht]; [lia|].
    destruct (dp_temps _ _ _ _ _ _ _ H _ _ Ht) as [Htp _]. rewrite Z2Nat.id in Htp by lia.
    rewrite Hd1, (decide_False _ _ (Hnot j)), Htp. unfold g. by rewrite Ht. }
  exists e2. split; [|split; [|split; [congruence|split]]].
  - intros A k. erewrite bind_run by (apply (zoom_files e e f f); reflexivity). cbn [snd].
    erewrite bind_run by exact Hdel. rewrite bool_decide_neq_refl.
    by erewrite bind_run by exact Hren.
  - eapply framed_trans; [by apply (dp_frame _ _ _ _ _ _ _ H)|]. by eapply framed_trans.
  - intros i t Ht. destruct (Hin (Z.of_nat i)) as [Hi _].
    { apply lookup_lt_Some in Ht. unfold in_range. lia. }
    unfold file_ino. rewrite Hi. unfold g. by rewrite Nat2Z.id, Ht.
  - assert (∀ id, is_u64 id → ¬ 0 ≤ id < Z.of_nat (length ts) →
      file_ino e2 dir ".data.tmp" id = None) as Htmp.
    { intros id Hu Hid. unfold file_ino. rewrite Hout, Hother.
      - rewrite (decide_False _ _ (Hnot id)). by apply Htemp.
      - intros i Hi Heq%filepath_inj; [lia | done | unfold is_u64; lia].
      - intros j Hj. unfold in_range in Hj. split; [by apply temp_not_data|].
        intros Heq%filepath_inj; [lia | done | unfold is_u64; lia]. }
    constructor.
    + intros id Hu [ino Hid]. apply elem_of_count_down.
      destruct (decide (0 ≤ id < Z.of_nat (length ts))) as [|Hno]; [done|]. exfalso.
      unfold file_ino in Hid. rewrite Hout, Hother in Hid.
      * case_decide as Hold; [done|]. apply Hold. eapply old_paths_data; [exact H | done | by exists ino].
      * intros i _ Heq. symmetry in Heq. by apply temp_not_data in Heq.
      * intros j Hj. unfold in_range in Hj. split; [|intros Heq; symmetry in Heq; by apply temp_not_data in Heq].
        intros Heq%filepath_inj; [lia | done | unfold is_u64; lia].
    + intros id Hu. unfold file_ino. rewrite Hout, Hother.
      * case_decide as Hold; [done|]. destruct (k_dir (e_kernel e0) !! filepath dir id ".hint") as [ino|] eqn:Hid; [|done].
        exfalso. apply Hold. eapply old_paths_hint; [exact H | done | by exists ino].
      * intros i _ Heq. symmetry in Heq. by apply temp_not_hint in Heq.
      * intros j _. split; [apply hint_path_not_data|]. intros Heq. symmetry in Heq.
        by apply temp_not_hint in Heq.
    + intros id Hu. destruct (decide (0 ≤ id < Z.of_nat (length ts))) as [Hid|Hid]; [|by apply Htmp].
      apply Hin. exact Hid.
Qed.
End replace.

Section compaction.
Context {host : Host} {zlib : Zlib} {laws : ZlibLaws}.

(** The loop, from the first temporary file to the last. *)
Lemma compact_loop_ok fuel e f t rg th ru sd l m n dir :
  running (World e f (Keydir t rwlock_new) rg th ru sd) l m n →
  compactable (World e f (Keydir t rwlock_new) rg th ru sd) l m dir →
  (length (events e) + Z.to_nat (fs_max_active f) < fuel)%nat → (size m < fuel)%nat →
  ∃ rs ts e1 e2 f' ru' fd fd',
    CCASK_ATTEMPT 5 (zoom (ccask_files_get_temp_datafile_fd 0))
      (World e f (Keydir t rwlock_new) rg th ru sd) =
      Ret fd (World e1 f (Keydir t rwlock_new) rg th ru sd) ∧ 0 ≤ fd ∧
    dump_loop fuel fuel (kd_at <$> head t) fd 0 (World e1 f (Keydir t (RWLock 1 false)) rg th ru sd) =
      Ret (Done fd' (Z.of_nat (length ts) - 1)) (World e2 f' (Keydir t (RWLock 1 false)) rg th ru' sd) ∧
    dumping e f dir l (close_fd fd' e2) f' ts ∧ (0 < length ts ≤ 1 + size m)%nat ∧
    temps_small (fs_max_active f) ts ∧ Forall2 (copy_of m) t rs ∧ temp_records ts = rs ∧
    (∀ u, u ∈ ru → u ∈ ru').
Proof.
  intros Hr [[a Hdir] [Hmx0 Hmx] Hfits Hsize _ _ Htemp] Hfuel Hsz.
  cbn [w_env w_files] in *. pose proof (rn_store _ _ _ _ Hr) as Hok.
  pose proof (st_disk _ _ _ Hok) as Hdisk. cbn [w_env w_files] in Hdisk.
  pose proof (st_keydir _ _ _ Hok) as Hkd. pose proof (store_size _ _ _ Hok) as Hlen.
  cbn [w_keydir hash_table w_env] in Hlen, Hkd.
  pose proof (dumping_start e f dir l Hdisk (keydir_heap _ Hkd) (rn_calm _ _ _ _ Hr)) as H0.
  destruct (dump_open_ok e f a dir l Hdir Hdisk Htemp e f (Keydir t rwlock_new) rg th ru sd [] H0)
    as (e1 & fd & ino & Hopen & H1 & Hfd1 & Hfd0 & _); [simpl; lia|].
  assert (Forall (copiable e f l m) t) as Hall.
  { apply Forall_forall. intros x Hx. destruct (store_entry _ _ _ x Hok Hx) as (Hks & v & Hv & He).
    split; [done|]. exists v. split; [done|]. split; [done|]. by apply (Hfits (kd_key x) v). }
  destruct (dump_loop_ok e f a dir l Hdir Hdisk ltac:(lia) Htemp fuel m (RWLock 1 false) rg th sd fuel
    [] t e1 f ru [(ino, [])] fd) as
    (rs & ts & e2 & f' & ru' & fd' & Hloop & H2 & Hfd2 & Hsmall & Hrs & Hrec & Hlen' & Hru);
    [apply (kd_blocks_at _ (table_blocks _ _ (keydir_table _ Hkd))) | lia | done | done | done
    | by apply Forall_singleton | simpl; lia | done |].
  exists rs, ts, e1, e2, f', ru', fd, fd'. split; [exact Hopen|]. split; [done|].
  split; [exact Hloop|]. split; [by apply (dumping_close e f a dir l Hdir Hdisk)|].
  split; [|split; [done|split; [done|split; [|done]]]].
  - rewrite <-Hlen. simpl in Hlen'. destruct Hfd2 as (i & lg & Hlast & _). destruct ts; [done|].
    simpl in *. lia.
  - by rewrite Hrec.
Qed.

(** What is left. *)
Record compacted (e : env) (dir : string) (m : gmap bytes bytes) (mx : Z) (c : nat) : Prop := {
  cd_some : (0 < c ≤ 1 + size m)%nat;
  cd_holds : dir_holds e dir (count_down c) m (Z.to_nat mx);
  cd_only : only_files e dir c;
  cd_small : ∀ id b, id ∈ count_down c → file_bytes e dir ".data" id = Some b → zlen b ≤ mx;
  cd_once : length (concat (dir_log e dir <$> count_down c)) = size m;
}.

Lemma copies_values (t : list ccask_keydir_record) (m : gmap bytes bytes) rs :
  Forall2 (copy_of m) t rs → (∀ k v, m !! k = Some v → k ∈ kd_key <$> t) →
  log_values rs ∅ = m.
Proof.
  intros Hrs Hkeys. assert (lr_key <$> rs = kd_key <$> t) as Heq.
  { clear Hkeys. induction Hrs as [|x r t rs (Hk & _) _ IH]; [done|]. cbn [fmap list_fmap].
    by rewrite Hk, IH. }
  apply map_eq. intros k. rewrite (log_values_lookup m).
  - case_decide as Hk; [done|]. rewrite lookup_empty. destruct (m !! k) as [v|] eqn:Hv; [|done].
    exfalso. apply Hk. rewrite Heq. by eapply Hkeys.
  - eapply Forall2_Forall_r; [exact Hrs|]. apply Forall_forall. intros x _ r (Hk & Hv & _).
    by rewrite Hk.
Qed.

(** The keys of a running store. *)
Lemma running_keys w l m n k v : running w l m n → m !! k = Some v → k ≠ [].
Proof.
  intros Hr. destruct (do_dir _ _ (st_disk _ _ _ (rn_store _ _ _ _ Hr))) as (a & dir & Hd & _).
  pose proof (running_dir_holds w l m n a dir Hr Hd) as Hdh.
  rewrite <-(dh_replay _ _ _ _ _ Hdh). apply replay_keys, (dh_keys _ _ _ _ _ Hdh).
Qed.

Lemma running_hints w l m n p x :
  running w l m n → p ∈ l → fs_nodes (w_files w) !! p = Some x →
  file_has_hint x = true ↔ is_Some (hint_ino (disk w) (file_id x)).
Proof.
  intros Hr Hp Hx. split; [|by apply (rn_hinted _ _ _ _ Hr p)]. intros Hh.
  destruct (rc_hint _ _ _ (rn_recoverable _ _ _ _ Hr) p x Hp Hx Hh) as (c & Hc & _).
  unfold hint_content in Hc. destruct (hint_ino (disk w) (file_id x)); [by eexists | done].
Qed.

Lemma compaction_ok fuel w l m n dir :
  running w l m n → compactable w l m dir →
  (length (events (w_env w)) + Z.to_nat (fs_max_active (w_files w)) < fuel)%nat →
  (size m < fuel)%nat →
  ∃ e' f' ru' c,
    ccask_compactor_dump_keydir fuel w = Ret CCASK_OK
      (World e' f' (w_keydir w) (w_ring w) (w_threads w) ru' (w_shutting_down w)) ∧
    compacted e' dir m (fs_max_active (w_files w)) c ∧ framed (w_env w) e' ∧
    (∀ u, u ∈ w_running w → u ∈ ru') ∧
    closable f' l ∧ fs_table f' ≡ₚ l ∧ fs_data_dir f' = fs_data_dir (w_files w).
Proof.
  intros Hr Hcp Hfuel Hsz. pose proof (rn_store _ _ _ _ Hr) as Hok.
  pose proof (running_hints w l m n) as Hh. pose proof (running_keys w l m n) as Hk.
  pose proof (store_key w l m) as Hkeys.
  destruct w as [e f [t lk] rg th ru sd]. pose proof (keydir_free _ (st_keydir _ _ _ Hok)) as Hfree.
  cbn [w_env w_files w_keydir w_ring w_threads w_running w_shutting_down snd hash_table
    hash_table_lock] in *. subst lk.
  destruct (compact_loop_ok fuel e f t rg th ru sd l m n dir Hr Hcp Hfuel Hsz) as
    (rs & ts & e1 & e2 & f1 & ru1 & fd & fd1 & Hopen & Hfd0 & Hloop & H & [Hts0 Htsn] & Hsmall & Hrs & Hrec & Hru).
  pose proof Hcp as [[a Hdir] [Hmx0 Hmx] _ Hsize Hdata Hhint Htemp].
  cbn [w_env w_files] in *. pose proof (st_disk _ _ _ Hok) as Hdisk. cbn [w_env w_files] in Hdisk.
  destruct (do_dir _ _ Hdisk) as (a' & dir' & Hd' & Hne). cbn [snd] in Hd'. rewrite Hdir in Hd'.
  injection Hd' as <- <-.
  destruct (replace_files_ok e f a dir l Hdir) with (e := close_fd fd1 e2) (f := f1) (ts := ts)
    (kd := Keydir t rwlock_new) (rg := rg) (th := th) (ru := ru1) (sd := sd)
    as (e3 & Hrun & Hfr & Hino & Hfiles & Honly);
    [intros p x Hp Hx; exact (Hh p x Hr Hp Hx) | exact Hdata | exact Hhint | exact Htemp | exact Hne
    | exact H | exact Hts0 | lia |].
  assert (∀ i t0, ts !! i = Some t0 → file_ino e3 dir ".data" (Z.of_nat i) = Some t0.1 ∧
    inodes e3 !! t0.1 = Some (log_bytes t0.2)) as Hall.
  { intros i t0 Ht0. split; [by apply Hfiles|]. rewrite Hino. by apply (dp_temps _ _ _ _ _ _ _ H i). }
  assert (∀ (P : log_record → Prop), (∀ x r, copy_of m x r → P r) → Forall P rs) as Hcopies.
  { intros P HP. eapply Forall2_Forall_r; [exact Hrs|]. apply Forall_forall. intros x _ r. apply HP. }
  assert (Forall log_record_ok (temp_records ts)) as Hrok.
  { rewrite Hrec. apply Hcopies. by intros x r (_ & _ & ? & _). }
  pose proof (dp_disk _ _ _ _ _ _ _ H) as Hdisk1.
  exists e3, f1, ru1, (length ts).
  split; [|split; [|split; [exact Hfr | split; [exact Hru | split; [exact (disk_closable _ _ _ Hdisk1)|split]]]]].
  3: { exact (rep_table _ _ (do_rep _ _ Hdisk1)). }
  3: { exact (dp_data_dir _ _ _ _ _ _ _ H). }
  - unfold ccask_compactor_dump_keydir. erewrite bind_run by exact Hopen.
    rewrite bool_decide_eq_false_2 by lia.
    erewrite bind_run by (apply zoom_keydir; reflexivity). erewrite bind_run by exact Hloop.
    cbv beta iota.
    erewrite bind_run by apply zoom_env, sys_close_run.
    erewrite bind_run by (apply zoom_keydir; reflexivity).
    erewrite bind_run by (apply (zoom_files (close_fd fd1 e2) (close_fd fd1 e2) f1 f1); reflexivity). cbn [snd].
    pose proof (rep_tail _ _ (do_rep _ _ (dp_disk _ _ _ _ _ _ _ H))) as Htail. cbn [snd] in Htail.
    rewrite Htail.
    replace (Z.to_nat (Z.of_nat (length ts) - 1 + 1)) with (length ts) by lia.
    exact (Hrun _ (λ r, mret r)).
  - constructor; [lia | | done | |].
    + apply (new_files_hold e3 dir ts); [exact Hall | exact Hrok | lia | | | apply (dp_distinct _ _ _ _ _ _ _ H)
        | exact Hsmall | exact Hmx | | |].
      * rewrite Hrec. apply Hcopies. by intros x r (_ & _ & _ & ?).
      * rewrite Hrec. apply Hcopies. intros x r (Hkx & Hv & _). rewrite Hkx. exact (Hk _ _ Hr Hv).
      * rewrite Hrec. apply (copies_values t m rs Hrs). intros k v. by apply Hkeys.
      * intros id Hle Hu. destruct (file_ino e3 dir ".data" id) as [i|] eqn:Hi; [|done].
        exfalso. assert (id ∈ count_down (length ts)) as Hin%elem_of_count_down
          by (apply (of_data _ _ _ Honly id Hu); by exists i). lia.
      * apply (of_hint _ _ _ Honly).
    + intros id b Hid Hb. apply elem_of_count_down in Hid.
      destruct (lookup_lt_is_Some_2 ts (Z.to_nat id)) as [t0 Ht0]; [lia|].
      destruct (new_file_log e3 dir ts Hall Hrok _ _ Ht0) as (Hb' & _). rewrite Z2Nat.id in Hb' by lia.
      rewrite Hb in Hb'. injection Hb' as ->. unfold temps_small in Hsmall. rewrite Forall_forall in Hsmall.
      apply Hsmall. by eapply list_elem_of_lookup_2.
    + rewrite <-(new_files_records e3 dir ts Hall Hrok (length ts)), firstn_all, Hrec by done.
      rewrite <-(Forall2_length _ _ _ Hrs). exact (store_size _ _ _ Hok).
Qed.
End compaction.
