(* ===== verification/Start.v ===== *)
(** * Start: opening a store

    What [ccask_init] makes of a data directory: the invariant of the whole
    system, for an empty directory and for one that holds a map. *)
From stdpp Require Import sorting.
From S2P Require Import Prelude Status Posix SafeIO Codec Records Ringbuf Uthash Keydir Log.
From S2P Require Import Filenames Files Disk DiskWrite World Hint Recovery Rotate Scan.
From S2P Require Import Writer Core Store Durable Tidy Run Turns System Directory.
Open Scope Z_scope.

(** ** The rest of [ccask_init] *)

Section start.
Context {host : Host} {zlib : Zlib} {laws : ZlibLaws}.

(** The files of a store that is to be started. *)
Record ready (s : fstate) (l : list Z) (m : gmap bytes bytes) (n : nat) : Prop := {
  rd_disk : disk_ok s l;
  rd_durable : durable s l m;
  rd_recoverable : recoverable s l n;
  rd_live : ∀ p, p ∈ l → p < e_brk s.1;
  rd_fresh : ∀ p id, head l = Some p → node_id (fs_nodes s.2) p < id → is_u64 id →
    data_ino s id = None;
  rd_unhinted : ∀ p id, head l = Some p → node_id (fs_nodes s.2) p ≤ id → is_u64 id →
    hint_ino s id = None;
  rd_keys : ∀ p, p ∈ l → Forall (λ r, lr_key r ≠ []) (log_of s (node_id (fs_nodes s.2) p));
  rd_hinted : ∀ p x, p ∈ l → fs_nodes s.2 !! p = Some x →
    is_Some (hint_ino s (file_id x)) → file_has_hint x = true;
}.

Lemma ready_grow e e' f l m n : env_grow e e' → ready (e, f) l m n → ready (e', f) l m n.
Proof.
  intros Hg [H1 H2 H3 H4 H5 H6 H7 H8]. constructor; cbn [fst snd] in *.
  - by eapply disk_ok_grow.
  - by eapply durable_grow.
  - by eapply recoverable_grow.
  - intros p Hp. pose proof (eg_brk _ _ Hg). specialize (H4 p Hp). lia.
  - intros p id Hh Hlt Hu. rewrite (data_ino_grow e e' f id Hg). by eapply H5.
  - intros p id Hh Hlt Hu. rewrite (hint_ino_grow e e' f id Hg). by eapply H6.
  - intros p Hp. rewrite (log_of_grow e e' f _ Hg). by apply H7.
  - intros p x Hp Hx. rewrite (hint_ino_grow e e' f _ Hg). by apply (H8 p).
Qed.

(** The writer's thread is the only one that runs. *)
Lemma ready_running e f kd rg th l m n :
  ready (e, f) l m n → store_ok (World e f kd rg th [TWriter] false) l m → calm e →
  running (World e f kd rg th [TWriter] false) l m n.
Proof.
  intros [H1 H2 H3 H4 H5 H6 H7 H8] Hok Hc.
  destruct (store_head _ _ _ Hok) as (p & l' & Hl & _ & Hact).
  constructor; unfold disk; cbn [w_env w_files w_running w_shutting_down]; try done.
  - intros id. rewrite Hact. apply H5. by rewrite Hl.
  - intros id. rewrite Hact. apply H6. by rewrite Hl.
  - by intros h q [?|?%elem_of_nil]%elem_of_cons.
  - by intros h h' q [?|?%elem_of_nil]%elem_of_cons.
  - by intros q [?|?%elem_of_nil]%elem_of_cons.
Qed.

Lemma writer_start_ok cap e f kd rg th ru sd :
  calm e → heap_wf e →
  ∃ e' self buf, CCASK_ATTEMPT 5 (ccask_writer_start cap) (World e f kd rg th ru sd) =
      Ret CCASK_OK (World e' f kd (Some (new_ring cap self buf)) th (TWriter :: ru) sd) ∧
    env_grow e e' ∧ e_brk e ≤ self < buf ∧ is_Some (e_heap e' !! self) ∧ is_Some (e_heap e' !! buf).
Proof.
  intros Hc Hwf.
  pose proof (ring_init_run e rg cap (calm_mallocs 2 e Hc)) as Hinit. cbv zeta in Hinit.
  set (e1 := put_block (zeros sizeof_ringbuf) e) in *.
  set (e2 := put_block (zeros (cap * sizeof_datafile_record)) e1) in *.
  assert (env_grow e e2) as Hg.
  { eapply env_grow_trans; [by apply put_block_grow|]. apply put_block_grow.
    eapply env_grow_heap_wf; [by apply put_block_grow | done]. }
  set (rg' := Some (new_ring cap (e_brk e) (e_brk e1))) in *.
  destruct (pthread_create_calm TWriter e2 f kd rg' th ru sd) as (e3 & Hg3 & Hrun);
    [by eapply env_grow_calm|].
  exists e3, (e_brk e), (e_brk e1). split; [|split; [by eapply env_grow_trans|]].
  2: { split; [unfold e1; simpl; lia|].
       split; eexists; (eapply lookup_weaken; [|apply (eg_heap _ _ Hg3)]); unfold e2, e1; simpl.
       - rewrite lookup_insert_ne by lia. apply lookup_insert_eq.
       - apply lookup_insert_eq. }
  apply attempt_once; [|done]. unfold ccask_writer_start.
  erewrite bind_run by apply zoom_ring, Hinit. rewrite bool_decide_neq_refl.
  by erewrite bind_run by exact Hrun.
Qed.

(** [ccask_init] after [ccask_files_init]. *)
Lemma start_owns lo e1 f e3 kd r th ru sd :
  files_own lo (e1, f) → env_grow e1 e3 → heap_wf e1 →
  (∀ c, c ∈ kd_blocks (hash_table kd) → e_brk e1 ≤ c) →
  e_brk e1 ≤ rb_self_at r < rb_buf_at r →
  (∀ c, c ∈ kd_blocks (hash_table kd) → c < rb_self_at r) →
  is_Some (e_heap e3 !! rb_self_at r) → is_Some (e_heap e3 !! rb_buf_at r) → th = [] →
  let w := World e3 f kd (Some r) th ru sd in owns (owned w ++ handles w) w.
Proof.
  intros Ho Hg Hwf Hkd Hr Hlt Hs Hb -> w.
  destruct (files_own_grow lo e1 e3 f Hg Ho) as [H1 H2]. destruct Ho as [_ Hold].
  cbn [fst snd] in *. set (bs := [rb_buf_at r; rb_self_at r]).
  assert (∀ c, c ∈ files_owned f → c < e_brk e1) as Hlow by (intros c Hc; by apply Hwf, Hold).
  assert (∀ c, c ∈ bs → rb_self_at r ≤ c ∧ is_Some (e_heap e3 !! c)) as Hbs.
  { intros c [->| ->%list_elem_of_singleton]%elem_of_cons; (split; [lia | done]). }
  apply (owns_perm (bs ++ files_owned f)).
  { unfold owned, handles, files_owned, bs. simpl. solve_Permutation. }
  constructor; cbn [w w_env w_keydir].
  - apply NoDup_app. split; [|split; [|done]].
    + constructor; [intros ?%list_elem_of_singleton; lia | apply NoDup_singleton].
    + intros c [Hc _]%Hbs Hf%Hlow. lia.
  - intros c [Hc|Hc]%elem_of_app; [by apply Hbs | by apply H2].
  - intros c [Hc|Hc]%elem_of_app Hk.
    + apply Hbs in Hc as [Hc _]. apply Hlt in Hk. lia.
    + apply Hlow in Hc. apply Hkd in Hk. lia.
Qed.

Lemma init_ready lo fuel opts es e f e1 f1 kd rg th sd l m n :
  ccask_files_init (opt_data_dir opts) (opt_datafile_rotate_threshold opts) es (e, f) =
    Ret CCASK_OK (e1, f1) →
  ready (e1, f1) l m n → files_own lo (e1, f1) → calm e1 → heap_wf e1 →
  fs_max_active f1 = opt_datafile_rotate_threshold opts →
  (∀ p c, head l = Some p → data_content (e1, f1) (node_id (fs_nodes f1) p) = Some c →
    zlen c ≤ opt_datafile_rotate_threshold opts) →
  0 < opt_writer_ringbuf_capacity opts < 2 ^ 63 →
  0 ≤ opt_datafile_rotate_threshold opts →
  (∀ a dir, fs_data_dir f1 = Some (a, dir) → tidy e1 dir (node_id (fs_nodes f1) <$> fs_table f1)) →
  (length (events e1) + 2 * n + 20 < fuel)%nat →
  ∃ w', ccask_init fuel opts es (World e f kd rg th [] sd) = Ret CCASK_OK w' ∧
    system (opt_writer_ringbuf_capacity opts) (opt_datafile_rotate_threshold opts) w' l m [] n ∧
    env_grow e1 (w_env w') ∧ w_files w' = f1 ∧ w_threads w' = [].
Proof.
  intros Hfiles Hrd Hown Hc1 Hwf1 Hmax Hact Hcap Hthr Htd Hfuel.
  destruct (keydir_init_store fuel e1 f1 kd rg th [] false l m n (rd_disk _ _ _ _ Hrd)
    (rd_recoverable _ _ _ _ Hrd) (rd_durable _ _ _ _ Hrd) Hc1 Hwf1 Hfuel)
    as (e2 & kd2 & Hkd & Hok2 & Hg2 & Hnew2).
  pose proof (env_grow_calm _ _ Hg2 Hc1) as Hc2. pose proof (env_grow_heap_wf _ _ Hg2 Hwf1) as Hwf2.
  destruct (writer_start_ok (opt_writer_ringbuf_capacity opts) e2 f1 kd2 rg th [] false Hc2 Hwf2)
    as (e3 & self & buf & Hstart & Hg3 & [Hself Hbuf] & Hls & Hlb).
  set (r := new_ring (opt_writer_ringbuf_capacity opts) self buf) in *.
  set (w' := World e3 f1 kd2 (Some r) [] [TWriter] false).
  pose proof (ready_grow _ _ _ _ _ _ (env_grow_trans _ _ _ Hg2 Hg3) Hrd) as Hrd3.
  assert (store_ok w' l m) as Hok'.
  { apply (store_ok_grow e2 e3 f1 kd2 rg th [] false (Some r) [] [TWriter] l m Hg3 Hok2). }
  assert (running w' l m n) as Hr.
  { apply ready_running; [done | done | by eapply env_grow_calm]. }
  exists w'. split.
  - unfold ccask_init. rewrite bind_modify. unfold set_w_shutting_down.
    cbn [w_env w_files w_keydir w_ring w_threads w_running].
    erewrite bind_run by (apply zoom_attempt_files; apply attempt_once; [exact Hfiles | done]).
    rewrite bool_decide_neq_refl.
    erewrite bind_run by (apply attempt_once; [exact Hkd | done]). rewrite bool_decide_neq_refl.
    erewrite bind_run by exact Hstart. rewrite bool_decide_neq_refl. reflexivity.
  - split; [|split; [exact (env_grow_trans _ _ _ Hg2 Hg3) | done]].
    constructor; [exact Hr | done | | | constructor | by left | done | | constructor |].
    + exists r. split; [done|]. split; [done|]. destruct (new_ring_ok _ self buf Hcap) as [Hrok Hq].
      constructor; try done. exists []. split; [|exact Hq]. split; constructor.
    + apply (start_owns lo e1); try done; [by eapply env_grow_trans | |].
      * simpl. pose proof (eg_brk _ _ Hg2). lia.
      * intros c Hc. pose proof (keydir_blocks_old _ _ (st_keydir _ _ _ Hok2) c Hc).
        cbn [w_env] in *. simpl. lia.
    + rewrite (active_size_id _ _ _ Hok').
      destruct (data_content (disk w') (active_id w')) as [c|] eqn:Hdc; [|done]. simpl.
      destruct (store_head _ _ _ Hok') as (p & l' & Hl & _ & Hid).
      apply (Hact p); [by rewrite Hl|]. rewrite Hid in Hdc.
      rewrite <-(data_content_grow e1 e3 f1) by (by eapply env_grow_trans). exact Hdc.
    + intros a dir Hdir. destruct (eg_ext _ _ (env_grow_trans _ _ _ Hg2 Hg3)) as [Hdirs _].
      exact (tidy_same _ _ _ _ _ Hdirs (λ i Hi, Hi) (Htd a dir Hdir)).
Qed.
End start.

(** ** Starting again *)

Lemma sorted_gt_unique (l1 l2 : list Z) :
  StronglySorted Z.gt l1 → StronglySorted Z.gt l2 → l1 ≡ₚ l2 → l1 = l2.
Proof.
  revert l2. induction l1 as [|x l1 IH]; intros [|y l2] Hs1 Hs2 Hp; [done | | |].
  { by apply Permutation_nil_cons in Hp. }
  { by apply Permutation_sym, Permutation_nil_cons in Hp. }
  apply StronglySorted_inv in Hs1 as [Hs1 Hx]. apply StronglySorted_inv in Hs2 as [Hs2 Hy].
  rewrite Forall_forall in Hx, Hy.
  assert (x = y) as ->.
  { assert (x ∈ y :: l2) as [->|H1]%elem_of_cons by (rewrite <-Hp; by left); [done|].
    assert (y ∈ x :: l1) as [->|H2]%elem_of_cons by (rewrite Hp; by left); [done|].
    apply Hx in H2. apply Hy in H1. lia. }
  f_equal. apply IH; [done | done | by eapply Permutation_cons_inv].
Qed.

Section restart.
Context {host : Host} {zlib : Zlib}.

(** The nodes are new, the directory and its files are there. *)
Lemma dir_holds_ready e f l ids m n a dir :
  dir_holds e dir ids m n → fs_data_dir f = Some (a, dir) → node_id (fs_nodes f) <$> l = ids →
  disk_ok (e, f) l → (∀ p, p ∈ l → p < e_brk e) →
  (∀ p x, p ∈ l → fs_nodes f !! p = Some x →
    file_has_hint x = bool_decide (is_Some (hint_ino (e, f) (file_id x)))) →
  ready (e, f) l m n.
Proof.
  intros [D1 D2 D3 D4 D5 D6 D7 D8 D9 D10 D11 D12 D13 D14] Hd Hids Hdisk Hlive Hhints.
  pose proof (data_ino_file e f a dir Hd) as Hdi. pose proof (hint_ino_file e f a dir Hd) as Hhi.
  pose proof (data_content_file e f a dir Hd) as Hdc.
  pose proof (hint_content_file e f a dir Hd) as Hhc. pose proof (log_of_file e f a dir Hd) as Hlog.
  assert (∀ p, p ∈ l → node_id (fs_nodes f) p ∈ ids) as Hin.
  { intros p Hp. rewrite <-Hids. by apply list_elem_of_fmap_2. }
  assert (∀ p x, p ∈ l → fs_nodes f !! p = Some x → file_id x ∈ ids) as Hfid.
  { intros p x Hp Hx. specialize (Hin p Hp). unfold node_id in Hin. by rewrite Hx in Hin. }
  assert (∀ p, head l = Some p → head ids = Some (node_id (fs_nodes f) p)) as Hhead.
  { intros p Hp. rewrite <-Hids. by destruct l; [|injection Hp as ->]. }
  constructor; cbn [fst snd]; [done | | | done | | | |].
  - constructor; cbn [fst snd].
    + by rewrite (recovered_values_replay e f a dir Hd), Hids.
    + intros p Hp. rewrite Hlog. by apply D7, Hin.
    + rewrite <-Hids, <-list_fmap_compose in D9. erewrite list_fmap_ext; [exact D9|].
      intros i p _. apply Hdi.
    + intros p c Hp. rewrite Hdc. by apply D10, Hhead.
    + intros p q Hp Hq. rewrite (Hhi (node_id (fs_nodes f) p)), (Hdi (node_id (fs_nodes f) q)).
      apply D12; by apply Hin.
    + intros p x Hp Hx. assert (p ∈ l) as Hpl by (destruct l; [|injection Hp as ->; left]; done).
      rewrite (Hhints p x Hpl Hx), bool_decide_eq_false_2; [done|]. rewrite Hhi.
      pose proof (Hhead p Hp) as Hh. unfold node_id in Hh. rewrite Hx in Hh.
      rewrite (D14 _ (file_id x) Hh); [by intros [] | done |].
      rewrite Forall_forall in D2. by apply D2, (Hfid p).
  - constructor; cbn [fst snd]; [done | |].
    + intros p x Hp Hx. rewrite Hdc. by apply D5, (Hfid p).
    + intros p x Hp Hx. rewrite (Hhints p x Hp Hx), bool_decide_eq_true, Hhi, Hhc, Hlog.
      by apply D11, (Hfid p).
  - intros p id Hp. rewrite Hdi. by apply D13, Hhead.
  - intros p id Hp. rewrite Hhi. by apply D14, Hhead.
  - intros p Hp. rewrite Hlog. by apply D8, Hin.
  - intros p x Hp Hx. rewrite (Hhints p x Hp Hx). by rewrite bool_decide_eq_true.
Qed.

Context {laws : ZlibLaws}.

(** The world [w] was opened on the files of [e], which it has not changed. *)
Record opened (e : env) (dir : string) (ids : list Z) (w : world) (l : list Z) : Prop := {
  op_data_dir : ∃ a, fs_data_dir (w_files w) = Some (a, dir);
  op_ids : node_id (fs_nodes (w_files w)) <$> l = ids;
  op_dir : k_dir (e_kernel (w_env w)) = k_dir (e_kernel e);
  op_inodes : inodes (w_env w) = inodes e;
  op_events : events (w_env w) `suffix_of` events e;
  op_threads : w_threads w = [];
}.

(** Opening a directory that holds a map.  [es] is what [readdir] says. *)
Lemma init_restores fuel opts es ids ids' m n e f kd rg th sd :
  dir_holds e (opt_data_dir opts) ids m n → tidy e (opt_data_dir opts) ids →
  opt_data_dir opts ≠ EmptyString →
  (∀ top c, head ids = Some top → file_bytes e (opt_data_dir opts) ".data" top = Some c →
    zlen c ≤ opt_datafile_rotate_threshold opts) →
  listing es ids' → ids' ≡ₚ ids → kernel_wf (e_kernel e) → calm e → heap_wf e →
  0 < opt_writer_ringbuf_capacity opts < 2 ^ 63 →
  (length (events e) + 2 * n + 20 < fuel)%nat →
  ∃ w' l, ccask_init fuel opts es (World e f kd rg th [] sd) = Ret CCASK_OK w' ∧
    system (opt_writer_ringbuf_capacity opts) (opt_datafile_rotate_threshold opts) w' l m [] n ∧
    opened e (opt_data_dir opts) ids w' l.
Proof.
  intros Hdh Htd Hne Has Hes Hids' Hk Hc Hwf Hcap Hfuel.
  set (dir := opt_data_dir opts) in *. set (thr := opt_datafile_rotate_threshold opts) in *.
  destruct (files_scanned dir thr es ids' e f Hes) as (lo & e1 & f1 & l & a & Hrun & Hsc & Hg & Hd & Hmax & Hlo);
    [|done..|].
  { rewrite Hids'. apply sorted_gt_NoDup, (dh_sorted _ _ _ _ _ Hdh). }
  pose proof (sc_rep _ _ _ _ Hsc) as Hrep1. cbn [snd] in Hrep1.
  assert (node_id (fs_nodes f1) <$> l = ids) as Heq.
  { apply sorted_gt_unique; [apply (rep_sorted _ _ Hrep1) | apply (dh_sorted _ _ _ _ _ Hdh) |].
    by rewrite <-Hids', <-(sc_ids _ _ _ _ Hsc). }
  destruct l as [|p l]; [by destruct (dh_some _ _ _ _ _ Hdh)|].
  assert (head ids = Some (node_id (fs_nodes f1) p)) as Hhead by by rewrite <-Heq.
  destruct (eg_ext _ _ Hg) as [Hdirs _].
  assert (dir_holds e1 dir ids m n) as Hdh1
    by (apply (dir_holds_same e); [exact Hdirs | apply (eg_inodes _ _ Hg) | exact Hdh]).
  assert (is_u64 (node_id (fs_nodes f1) p)) as Hu.
  { pose proof (dh_ids _ _ _ _ _ Hdh) as Hu. rewrite <-Heq in Hu. by apply Forall_cons in Hu as [? _]. }
  destruct (active_reopened lo e1 f1 p l ids' a dir Hsc Hd Hne) as
    (e2 & f2 & Hopen & Hg2 & Hdisk2 & Hd2 & Hmax2 & Hids2 & Hhints2 & Hown2).
  { by apply (eg_wf _ _ Hg). }
  { intros id Hid. rewrite (data_ino_file e1 f1 a dir Hd). rewrite Hids' in Hid.
    destruct (dh_data _ _ _ _ _ Hdh1 id Hid) as (c & Hcont & _). unfold file_bytes in Hcont.
    destruct (file_ino e1 dir ".data" id) as [j|]; [by exists j | done]. }
  { rewrite (hint_ino_file e1 f1 a dir Hd). by apply (dh_unhinted _ _ _ _ _ Hdh1 _ _ Hhead). }
  { by eapply env_grow_calm. }
  { by eapply env_grow_heap_wf. }
  rewrite <-Hd2 in Hd. destruct (eg_ext _ _ Hg2) as [Hdirs2 _].
  assert (dir_holds e2 dir ids m n) as Hdh2
    by (apply (dir_holds_same e1); [exact Hdirs2 | apply (eg_inodes _ _ Hg2) | exact Hdh1]).
  pose proof (env_grow_trans _ _ _ Hg Hg2) as Hg02.
  destruct (init_ready lo fuel opts es e f e2 f2 kd rg th sd (p :: l) m n) as
    (w' & Hinit & Hsys & Hg3 & Hf3 & Hth3).
  - by rewrite <-Hopen.
  - apply (dir_holds_ready e2 f2 (p :: l) ids m n a dir Hdh2 Hd); [| exact Hdisk2 | |].
    + rewrite <-Heq. apply list_fmap_ext. intros i q _. apply Hids2.
    + intros q Hq. pose proof (sc_live _ _ _ _ Hsc q Hq). pose proof (eg_brk _ _ Hg2). simpl in *. lia.
    + intros q x Hq Hx. rewrite (Hhints2 q x Hq Hx).
      unfold hint_ino. cbn [fst snd]. by rewrite Hd2, Hdirs2.
  - exact Hown2.
  - by eapply env_grow_calm.
  - by eapply env_grow_heap_wf.
  - by rewrite Hmax2, Hmax.
  - intros q c Hq. injection Hq as <-. rewrite Hids2, (data_content_file e2 f2 a dir Hd). intros Hdc.
    apply (Has _ c Hhead). rewrite <-Hdc. unfold file_bytes, file_ino.
    by rewrite Hdirs2, Hdirs, (eg_inodes _ _ Hg02).
  - exact Hcap.
  - destruct (dh_data _ _ _ _ _ Hdh (node_id (fs_nodes f1) p)) as (c & Hcont & _).
    { by apply head_Some_elem_of. }
    pose proof (Has _ c Hhead Hcont). pose proof (zlen_nonneg c). fold thr. lia.
  - intros a' dir'. rewrite Hd. intros [= <- <-].
    apply (tidy_same e _ dir ids); [by rewrite Hdirs2, Hdirs | | exact Htd].
    rewrite <-Heq. intros i (q & -> & Hq)%list_elem_of_fmap. rewrite <-(Hids2 q).
    apply list_elem_of_fmap_2. by rewrite (rep_table _ _ (do_rep _ _ Hdisk2)).
  - pose proof (suffix_length _ _ (eg_events _ _ Hg02)). lia.
  - exists w', (p :: l). split; [done|]. split; [done|]. destruct (eg_ext _ _ Hg3) as [Hdirs3 _].
    constructor; rewrite ?Hf3; [by exists a | | congruence | | | done].
    + rewrite <-Heq. apply list_fmap_ext. intros i q _. apply Hids2.
    + by rewrite (eg_inodes _ _ Hg3), (eg_inodes _ _ Hg02).
    + etrans; [apply (eg_events _ _ Hg3) | apply (eg_events _ _ Hg02)].
Qed.
End restart.

(** ** An empty directory *)

Section fresh.
Context {host : Host} {zlib : Zlib}.

(** The store without a record. *)
Lemma ready_fresh e e' f' p x a dir :
  fs_data_dir f' = Some (a, dir) → dir ≠ EmptyString → kernel_wf (e_kernel e) →
  (∀ id, is_u64 id → k_dir (e_kernel e) !! filepath dir id ".data" = None) →
  (∀ id, is_u64 id → k_dir (e_kernel e) !! filepath dir id ".hint" = None) →
  env_grow (put_file (filepath dir 0 ".data") e) e' → files_rep f' [p] → p < e_brk e' →
  fs_nodes f' !! p = Some x → file_id x = 0 → file_rwlock x = rwlock_new →
  file_is_active x = true → file_has_hint x = false → 0 ≤ file_fd x →
  fd_opened e' (file_fd x) (k_next_ino (e_kernel e)) true true →
  ready (e', f') [p] ∅ 0 ∧ data_content (e', f') 0 = Some [].
Proof.
  intros Hd Hdir Hk Hdata Hhint Hg Hrep Hp Hx Hid Hlock Hact Hnohint Hfd0 Hfd.
  set (path := filepath dir 0 ".data") in *. set (ino := k_next_ino (e_kernel e)) in *.
  assert (k_dir (e_kernel e') = <[path := ino]> (k_dir (e_kernel e))) as Hdirs
    by by destruct (eg_ext _ _ Hg) as [-> _].
  assert (inodes e' = <[ino := []]> (inodes e)) as Hinodes by apply (eg_inodes _ _ Hg).
  assert (data_ino (e', f') 0 = Some ino) as Hdi.
  { unfold data_ino. cbn [fst snd]. rewrite Hd, Hdirs. simpl. apply lookup_insert_eq. }
  assert (data_content (e', f') 0 = Some []) as Hdc.
  { unfold data_content. rewrite Hdi. simpl. rewrite Hinodes. apply lookup_insert_eq. }
  assert (∀ id, is_u64 id → hint_ino (e', f') id = None) as Hhi.
  { intros id Hu. unfold hint_ino. cbn [fst snd]. rewrite Hd, Hdirs. simpl.
    rewrite lookup_insert_ne; [by apply Hhint|]. intros Heq. symmetry in Heq.
    by apply hint_path_not_data in Heq. }
  assert (node_id (fs_nodes f') p = 0) as Hnid by (unfold node_id; by rewrite Hx).
  assert (log_of (e', f') 0 = []) as Hlog by (unfold log_of; by rewrite Hdc).
  assert (∀ q, q ∈ [p] → q = p) as Hin by (by intros q ->%list_elem_of_singleton).
  split; [|done]. constructor; cbn [fst snd].
  - constructor; cbn [fst snd]; [done | by exists a, dir | by apply (eg_wf _ _ Hg), put_file_wf | |].
    + intros q z ->%Hin Hz. assert (z = x) as -> by congruence. split; [done|]. rewrite Hid.
      split; [unfold is_u64; lia|]. exists ino. split; [done|]. intros _. by exists true, true.
    + exists p, x. split; [done|]. split; [done|]. split; [done|]. split; [done|]. exists ino.
      by rewrite Hid.
  - constructor; cbn [fst snd].
    + cbn [recovered_values foldr snd]. by rewrite Hnid, Hlog.
    + intros q ->%Hin. by rewrite Hnid, Hlog.
    + apply NoDup_singleton.
    + intros q c [= <-]. rewrite Hnid, Hdc. by intros <-%(inj Some).
    + intros q r ->%Hin ->%Hin. rewrite Hnid, (Hhi 0) by (unfold is_u64; lia). by intros [].
    + intros q z [= <-] Hz. assert (z = x) as -> by congruence. done.
  - constructor; cbn [fst snd]; [lia | |].
    + intros q z ->%Hin Hz. assert (z = x) as -> by congruence. exists []. by rewrite Hid.
    + intros q z ->%Hin Hz. assert (z = x) as -> by congruence. congruence.
  - by intros q ->%Hin.
  - intros q id [= <-] Hlt Hu. rewrite Hnid in Hlt. unfold data_ino. cbn [fst snd].
    rewrite Hd, Hdirs. simpl. rewrite lookup_insert_ne; [by apply Hdata|].
    intros Heq%filepath_inj; [lia | unfold is_u64; lia | done].
  - intros q id _ _ Hu. by apply Hhi.
  - intros q ->%Hin. rewrite Hnid, Hlog. apply Forall_nil_2.
  - intros q z ->%Hin Hz. assert (z = x) as -> by congruence. rewrite Hid, Hhi; [by intros []|].
    unfold is_u64; lia.
Qed.

Context {laws : ZlibLaws}.

(** Opening an empty directory gives the empty store. *)
Lemma init_fresh fuel opts es e f kd rg th sd :
  listing es [] → opt_data_dir opts ≠ EmptyString →
  (∀ id, is_u64 id → k_dir (e_kernel e) !! filepath (opt_data_dir opts) id ".data" = None) →
  (∀ id, is_u64 id → k_dir (e_kernel e) !! filepath (opt_data_dir opts) id ".hint" = None) →
  kernel_wf (e_kernel e) → calm e → heap_wf e →
  0 < opt_writer_ringbuf_capacity opts < 2 ^ 63 → 0 ≤ opt_datafile_rotate_threshold opts →
  (length (events e) + 20 < fuel)%nat →
  ∃ w' l, ccask_init fuel opts es (World e f kd rg th [] sd) = Ret CCASK_OK w' ∧
    system (opt_writer_ringbuf_capacity opts) (opt_datafile_rotate_threshold opts) w' l ∅ [] 0 ∧
    (∃ a, fs_data_dir (w_files w') = Some (a, opt_data_dir opts)) ∧ active_id w' = 0 ∧
    events (w_env w') `suffix_of` events e ∧ w_threads w' = [] ∧
    ∃ ino, k_dir (e_kernel (w_env w')) =
      <[filepath (opt_data_dir opts) 0 ".data" := ino]> (k_dir (e_kernel e)).
Proof.
  intros Hes Hne Hdata Hhint Hk Hc Hwf Hcap Hthr Hfuel.
  set (dir := opt_data_dir opts) in *. set (thr := opt_datafile_rotate_threshold opts) in *.
  destruct (files_scanned dir thr es [] e f Hes) as (lo & e1 & f1 & l & a & Hrun & Hsc & Hg & Hd & Hmax & Hlo);
    [apply NoDup_nil_2 | done..|].
  destruct l as [|p l]; [|destruct Hsc as [_ Hperm _ _]; symmetry in Hperm;
    by apply Permutation_nil_cons in Hperm].
  destruct (eg_ext _ _ Hg) as [Hdirs _].
  destruct (active_created lo e1 f1 a dir Hsc Hlo Hd Hne) as
    (e2 & f2 & p & x & Hopen & Hg2 & Hrep & Hp & Hx & Hid & Hlock & Hact & Hnohint & Hfd0 & Hfd & Hd2 & Hmax2 & Hown2).
  { by apply (eg_wf _ _ Hg). }
  { unfold data_ino. cbn [fst snd]. rewrite Hd, Hdirs. apply (Hdata 0). unfold is_u64. lia. }
  { by eapply env_grow_calm. }
  { by eapply env_grow_heap_wf. }
  destruct (ready_fresh e1 e2 f2 p x a dir) as [Hrd Hdc];
    [congruence | exact Hne | by apply (eg_wf _ _ Hg) | rewrite Hdirs; exact Hdata
    | rewrite Hdirs; exact Hhint | done..|].
  assert (calm e2) as Hc2.
  { eapply env_grow_calm; [exact Hg2|]. destruct (env_grow_calm _ _ Hg Hc). by constructor. }
  destruct (init_ready lo fuel opts es e f e2 f2 kd rg th sd [p] ∅ 0) as (w' & Hinit & Hsys & Hg3 & Hf3 & Hth3); try done.
  - by rewrite <-Hopen.
  - eapply env_grow_heap_wf; [exact Hg2|]. exact (env_grow_heap_wf _ _ Hg Hwf).
  - by rewrite Hmax2, Hmax.
  - intros q c [= <-]. unfold node_id. rewrite Hx. simpl. rewrite Hid, Hdc.
    by intros <-%(inj Some).
  - intros a' dir'. replace (fs_data_dir f2) with (Some (a, dir)) by congruence. intros [= <- <-].
    assert (k_dir (e_kernel e2) = <[filepath dir 0 ".data" := k_next_ino (e_kernel e1)]>
      (k_dir (e_kernel e1))) as Hdirs2 by by destruct (eg_ext _ _ Hg2) as [-> _].
    apply (tidy_put e1 e2 dir [] _ ".data" 0 (k_next_ino (e_kernel e1)));
      [by left | unfold is_u64; lia | exact Hdirs2 | by intros i ?%elem_of_nil | |].
    + replace 0 with (node_id (fs_nodes f2) p) at 1 by (unfold node_id; by rewrite Hx; simpl).
      apply list_elem_of_fmap_2. rewrite (rep_table _ _ Hrep). by left.
    + constructor; intros id Hu; unfold file_ino; rewrite Hdirs; intros [i Hi].
      * by rewrite Hdata in Hi.
      * by rewrite Hhint in Hi.
  - pose proof (suffix_length _ _ (eg_events _ _ Hg2)) as H2.
    pose proof (suffix_length _ _ (eg_events _ _ Hg)) as H1.
    change (events (put_file _ e1)) with (events e1) in H2. lia.
  - exists w', [p]. do 2 (split; [done|]). split; [|split; [|split; [|split; [exact Hth3|]]]].
    + rewrite Hf3. exists a. congruence.
    + unfold active_id. rewrite Hf3, (rep_head _ _ Hrep). unfold node_id. cbn [head].
      by rewrite Hx.
    + etrans; [apply (eg_events _ _ Hg3)|]. etrans; [apply (eg_events _ _ Hg2) | apply (eg_events _ _ Hg)].
    + exists (k_next_ino (e_kernel e1)). destruct (eg_ext _ _ Hg3) as [-> _].
      destruct (eg_ext _ _ Hg2) as [-> _]. by rewrite <-Hdirs.
Qed.
End fresh.
