(* ===== verification/Shutdown.v ===== *)
(** * Shutdown: what [ccask_shutdown] does to a running store

    The hint threads are joined, the writer thread writes what is queued and
    ends, and then all memory is given back; the files hold the map with the
    queued records. *)
From stdpp Require Import sorting.
From S2P Require Import Prelude Status Posix SafeIO Codec Records Ringbuf Uthash Keydir Log.
From S2P Require Import Filenames Files Disk DiskWrite World Hint Recovery HintGen.
From S2P Require Import Reader Writer Core Teardown Store Durable Tidy Run Turns System Directory.
Open Scope Z_scope.

(** The map after the queued records were written. *)
Definition apply_queue (q : queue) (m : gmap bytes bytes) : gmap bytes bytes :=
  foldl (λ m kv, <[kv.1 := kv.2]> m) m q.

Section closing.
Context {host : Host} {zlib : Zlib} (cap mx : Z) (w0 : world).

(** A store that is closing: [hs] are the handles of the threads that have
    not been joined; [b] says whether the ring was told; [w0] is where the
    closing began. *)
Record closing (b : bool) (w : world) (l : list Z) (m : gmap bytes bytes) (q : queue) (n : nat)
    (hs : list Z) : Prop := {
  cl_running : running w l m n;
  cl_ring : ∃ r, w_ring w = Some r ∧ rb_shutdown r = b ∧ ring_holds (w_env w) (blocks w) r cap q;
  cl_owns : owns (owned w ++ hs) w;
  cl_handles : ∀ c, c ∈ hs → c ∈ handles w;
  cl_writer : TWriter ∈ w_running w;
  cl_max : fs_max_active (w_files w) = mx;
  cl_active : active_size w ≤ mx;
  cl_fits : Forall (λ kv, record_size kv.1 kv.2 ≤ mx) q;
  cl_names : names_kept w0 w;
}.

Lemma running_down w l m n :
  running w l m n → running (set_w_shutting_down true w) l m n.
Proof. intros [[? ? ?] ? ? ? ? ? ? ? ? ? ? ?]. by constructor. Qed.

Lemma system_closing w l m q n :
  system cap mx w l m q n → names_kept w0 w →
  closing false (set_w_shutting_down true w) l m q n (handles w).
Proof.
  intros [H1 _ H2 [O1 O2 O3] _ H4 H5 H6 H7 _] Hn.
  constructor; [exact (running_down w l m n H1) | exact H2 | exact (Build_owns _ (set_w_shutting_down true w) O1 O2 O3) | by intros c
    | exact H4 | exact H5 | exact H6 | exact H7 |].
  exact (names_kept_trans _ _ _ Hn (names_kept_files w (set_w_shutting_down true w) eq_refl eq_refl)).
Qed.

(** A block that is freed. *)
Lemma kept_freed c w : kept (λ x, x = c) w (freed c w).
Proof.
  constructor; try done; simpl; [|by left|by destruct w; apply names_kept_env|by apply kp_owned_same].
  intros x blk Hx Hb. by rewrite lookup_delete_ne.
Qed.

Lemma running_freed c w l m n :
  running w l m n → c ∉ kd_blocks (hash_table (w_keydir w)) → running (freed c w) l m n.
Proof.
  intros Hr Hkd. apply (running_heap w l m n _ Hr).
  - intros a. simpl. rewrite lookup_delete. case_decide; [by intros []|].
    apply (keydir_heap _ (st_keydir _ _ _ (rn_store _ _ _ _ Hr))).
  - intros a Ha. apply lookup_delete_ne. by intros ->.
Qed.

(** The records in the ring are none of the blocks in use. *)
Lemma ring_holds_apart P w w' r q :
  kept P w w' → (∀ c, P c → c ∈ blocks w) →
  ring_holds (w_env w) (blocks w) r cap q → ring_holds (w_env w') (blocks w') r cap q.
Proof.
  intros Hk HP [H1 H3 H4 (bs & Hq & Hr)]. constructor; try done. exists bs. split; [|done].
  eapply queued_kept; [exact Hk | | exact Hq]. intros b c Hb Hc Hin%HP.
  destruct Hq as [Hq _]. apply list_elem_of_lookup in Hb as [i Hi].
  destruct (Forall2_lookup_l _ _ _ _ _ Hq Hi) as (kv & _ & h & Hra).
  by apply (ra_apart _ _ _ _ _ _ Hra c Hin).
Qed.

Lemma closing_kept P b w w' l m q n l' m' n' hs :
  closing b w l m q n hs → running w' l' m' n' → kept P w w' → active_size w' ≤ mx →
  (∀ c, P c → c ∈ blocks w) → (∀ c, c ∈ owned w ++ hs → ¬ P c) →
  closing b w' l' m' q n' hs.
Proof.
  intros [H1 (r & Hr & Hb & Hrh) H3 H4 H5 H6 H7 H8 H9] Hr' Hk Has HP Hhs.
  destruct (kp_owned _ _ _ Hk) as (ns & new & O & T & Hn). constructor; try done.
  - exists r. rewrite (kp_ring _ _ _ Hk). do 2 (split; [done|]). by eapply ring_holds_apart.
  - eapply owns_step; [exact Hk | | exact Hhs | exact H3].
    apply (keydir_heap _ (st_keydir _ _ _ (rn_store _ _ _ _ H1))).
  - intros c Hc%H4. rewrite T. apply elem_of_app. by right.
  - by apply (kp_writer _ _ _ Hk).
  - by rewrite (kp_max _ _ _ Hk).
  - exact (names_kept_trans _ _ _ H9 (kp_names _ _ _ Hk)).
Qed.

(** A handle is freed. *)
Lemma closing_freed b w l m q n c hs :
  closing b w l m q n (c :: hs) → closing b (freed c w) l m q n hs.
Proof.
  intros Hcl. pose proof Hcl as [H1 H2 H3 H4 H5 H6 H7 H8 H9].
  assert (owns (c :: owned w ++ hs) w) as [[Hc Hnd]%NoDup_cons Hlive Hkd].
  { eapply owns_perm; [|exact H3]. by rewrite <-Permutation_middle. }
  assert (c ∉ kd_blocks (hash_table (w_keydir w))) as Hck by (apply Hkd; by left).
  apply (closing_kept (λ x, x = c) b w (freed c w) l m q n l m n hs).
  - constructor; try done.
    + constructor; [done|..]; intros x Hx; [apply Hlive | apply Hkd]; by right.
    + intros x Hx. apply H4. by right.
  - by apply running_freed.
  - apply kept_freed.
  - exact H7.
  - intros x ->. apply elem_of_app. right. apply elem_of_app. right. apply H4. by left.
  - intros x Hx ->. done.
Qed.

Context {laws : ZlibLaws}.

(** The hint threads are joined, and their handles freed. *)
Lemma join_all_ok fuel ths b w l m q n :
  closing b w l m q n (th_at <$> ths) → Forall (λ h, ∃ p, th_thread h = THint (th_at h) p) ths →
  (length (events (w_env w)) + n + 20 < fuel)%nat →
  ∃ w', join_all fuel ths w = Ret tt w' ∧ closing b w' l m q n [] ∧
    events (w_env w') `suffix_of` events (w_env w) ∧ active_id w' = active_id w ∧
    fs_data_dir (w_files w') = fs_data_dir (w_files w).
Proof.
  revert w. induction ths as [|h ths IH]; intros w Hcl Hths Hfuel; [by exists w|].
  apply Forall_cons in Hths as [[p Hp] Hths]. cbn [fmap list_fmap] in Hcl.
  assert (∃ w1, pthread_join (hint_body fuel) (th_thread h) w = Ret tt w1 ∧
    closing b w1 l m q n (th_at h :: (th_at <$> ths)) ∧
    events (w_env w1) `suffix_of` events (w_env w) ∧ active_id w1 = active_id w ∧
    fs_data_dir (w_files w1) = fs_data_dir (w_files w)) as (w1 & Hjoin & Hcl1 & Hev & Hid & Hd).
  { rewrite Hp. destruct (decide (THint (th_at h) p ∈ w_running w)) as [Hin|Hin].
    - destruct (hint_running fuel w l m n (th_at h) p (cl_running _ _ _ _ _ _ _ Hcl) Hin Hfuel)
        as (w' & Hrun & Hr' & Hk & Hid & Has).
      exists w'. split; [done|]. split; [|split; [apply (kp_events _ _ _ Hk)|split; [done|apply (kp_dir _ _ _ Hk)]]].
      eapply closing_kept; [exact Hcl | exact Hr' | exact Hk | | by intros ? [] | by intros ? _ []].
      rewrite Has. apply (cl_active _ _ _ _ _ _ _ Hcl).
    - exists w. split; [|done]. unfold pthread_join. by rewrite bind_get, bool_decide_eq_false_2. }
  destruct (IH (freed (th_at h) w1)) as (w' & Hall & Hcl' & Hev' & Hid' & Hd').
  { by apply closing_freed. }
  { done. }
  { change (events (w_env (freed _ w1))) with (events (w_env w1)). apply suffix_length in Hev. lia. }
  exists w'. split; [|split; [done|split; [etrans; [exact Hev' | exact Hev]|split]]].
  - cbn [join_all]. erewrite bind_run by exact Hjoin.
    assert (is_Some (e_heap (w_env w1) !! th_at h)) as Hlive.
    { apply (ow_live _ _ (cl_owns _ _ _ _ _ _ _ Hcl1)), elem_of_app. right. by left. }
    destruct w1 as [e1 f1 kd1 rg1 th1 ru1 sd1].
    by erewrite bind_run by exact (zoom_env _ _ _ _ _ _ _ _ _ _ (free_run e1 (th_at h) Hlive)).
  - etrans; [exact Hid' | exact Hid].
  - etrans; [exact Hd' | exact Hd].
Qed.

Lemma writer_ends fuel e f kd r th ru sd others record :
  ring_holds e others r cap [] → rb_shutdown r = true →
  writer_turn fuel record (World e f kd (Some r) th ru sd) =
  Ret (false, record) (World e f kd (Some r) th ru sd).
Proof.
  intros Hrh Hb. pose proof (zlen_ring_queue _ _ _ _ _ Hrh) as Hcount. destruct Hrh as [Hm Hok _ _].
  rewrite <-length_ring_queue in Hcount by done. unfold writer_turn.
  erewrite bind_run by (apply zoom_ring; rewrite pop_run by done;
    destruct (ring_queue r); [by rewrite Hb | by unfold zlen in Hcount]).
  cbn beta iota. by rewrite bool_decide_eq_true_2.
Qed.

(** The writer thread writes the records that are left in the ring, and ends. *)
Lemma drain_ok fuel j record w l m q n :
  closing true w l m q n [] → (length q < j)%nat → active_id w + Z.of_nat (length q) < 2 ^ 64 →
  2 * Z.of_nat (n + queue_bytes q) < 2 ^ 32 →
  (length (events (w_env w)) + queue_bytes q < fuel)%nat →
  ∃ w' l' n', writer_loop fuel j record w = Ret tt w' ∧
    closing true w' l' (apply_queue q m) [] n' [] ∧ (n' ≤ n + queue_bytes q)%nat ∧
    fs_data_dir (w_files w') = fs_data_dir (w_files w) ∧
    active_id w' ≤ active_id w + Z.of_nat (length q).
Proof.
  revert j record w l m n. induction q as [|[k v] q IH]; intros j record w l m n Hcl Hj Hid Hsm Hfuel.
  all: destruct j as [|j]; [simpl in Hj; lia|]; cbn [writer_loop].
  all: pose proof Hcl as [Hr (r & Hring & Hb & Hrh) Ho _ Hwr Hmx Has Hfits Hnames].
  all: destruct w as [e f kd rg th ru sd]; cbn [w_env w_files w_keydir w_ring w_threads w_running] in *; subst rg.
  - exists (World e f kd (Some r) th ru sd), l, n. split; [|split; [exact Hcl|split; [lia | split; [done | simpl; lia]]]].
    by erewrite bind_run by exact (writer_ends fuel e f kd r th ru sd _ record Hrh Hb).
  - apply Forall_cons in Hfits as [Hfit Hfits]. simpl in Hfit, Hj, Hid.
    unfold queue_bytes in *. simpl in Hsm, Hfuel. fold (queue_bytes q) in *.
    pose proof (record_size_pos k v). pose proof (active_id_nonneg _ _ _ _ Hr).
    pose proof (keydir_heap _ (st_keydir _ _ _ (rn_store _ _ _ _ Hr))) as Hwf.
    destruct (writer_running fuel e f kd r th ru sd l m n cap k v q record) as
      (slot & w1 & r' & l' & P & Hrun & Hr' & Hk & HP & _ & Hb' & Hself & Hbuf & Hrh' & Hid' & Has');
      try done; [unfold is_u64; lia | lia | lia | lia |].
    set (w' := set_w_ring (Some r') w1) in *.
    assert (owned w' = owned w1) as Hown by exact (owned_ring w1 r r' (kp_ring _ _ _ Hk) Hself Hbuf).
    destruct (IH j slot w' l' (<[k:=v]> m) (n + Z.to_nat (record_size k v))%nat) as
      (w2 & l2 & n2 & Hloop & Hcl2 & Hn2 & Hd2 & Hid2).
    + constructor.
      * exact Hr'.
      * exists r'. split; [done|]. split; [congruence | exact Hrh'].
      * rewrite Hown. destruct (owns_step P [] _ w1 Hk Hwf) as [O1 O2 O3];
          [|exact Ho | by constructor]. intros c. rewrite app_nil_r. intros Hc. apply HP.
        apply elem_of_app. right. apply elem_of_app. by left.
      * by intros c ?%elem_of_nil.
      * by apply (kp_writer _ _ _ Hk).
      * rewrite <-Hmx. exact (kp_max _ _ _ Hk).
      * rewrite <-Hmx. apply Has'. by rewrite Hmx.
      * exact Hfits.
      * refine (names_kept_trans _ _ _ Hnames (names_kept_trans _ _ _ (kp_names _ _ _ Hk) _)).
        by apply names_kept_files.
    + lia.
    + lia.
    + lia.
    + pose proof (suffix_length _ _ (kp_events _ _ _ Hk)) as Hev. cbn [w_env] in Hev.
      change (events (w_env w')) with (events (w_env w1)). lia.
    + exists w2, l2, n2. split; [|split; [exact Hcl2|split; [unfold queue_bytes in *; simpl; lia|split]]].
      * erewrite bind_run by exact Hrun. exact Hloop.
      * etrans; [exact Hd2 | exact (kp_dir _ _ _ Hk)].
      * simpl. lia.
Qed.
End closing.

(** ** The memory *)

(** What can be released: the blocks of the statics are there, once each, and
    no lock is held. *)
Record releasable (w : world) (l : list Z) (r : ccask_writer_ringbuf) : Prop := {
  rs_ring : w_ring w = Some r;
  rs_owns : owns (owned w) w;
  rs_keydir : keydir_ok (w_env w, w_keydir w);
  rs_closable : closable (w_files w) l;
  rs_table : fs_table (w_files w) ≡ₚ l;
  rs_dir : is_Some (fs_data_dir (w_files w));
}.

Definition release : M world unit :=
  _ ← zoom ccask_writer_ringbuf_destroy;
  _ ← zoom ccask_keydir_shutdown;
  zoom ccask_files_shutdown.

Lemma release_ok w l r :
  releasable w l r →
  ∃ w' bs, release w = Ret tt w' ∧ bs ≡ₚ kd_blocks (hash_table (w_keydir w)) ++ owned w ∧
    released bs (w_env w) (w_env w') ∧ w_ring w' = None ∧ w_keydir w' = Keydir [] rwlock_new.
Proof.
  intros [Hr [Hnd Hlive Hkd] Hk Hcb Ht [[a dir] Hd]].
  destruct w as [e f kd rg th ru sd]. cbn [w_env w_files w_keydir w_ring] in *. subst rg.
  unfold owned in Hnd, Hlive, Hkd. cbn [w_files w_ring] in Hnd, Hlive, Hkd. rewrite Hd in Hnd, Hlive, Hkd.
  cbn [fmap option_fmap option_map option_list fst] in Hnd, Hlive, Hkd.
  rewrite app_assoc in Hnd, Hlive, Hkd. set (rs := [rb_buf_at r; rb_self_at r]) in *.
  change ([a] ++ fs_table f) with (a :: fs_table f) in Hnd, Hlive, Hkd.
  apply NoDup_app in Hnd as (Hnd1 & Hdis & Hnd2).
  assert (rb_buf_at r ≠ rb_self_at r) as Hne.
  { intros Heq. apply NoDup_cons in Hnd2 as [Hn _]. apply Hn. rewrite Heq. by left. }
  destruct (ring_destroy_ok e r) as (e1 & Hdestroy & Hr1); [| |done|].
  { apply Hlive, elem_of_app. right. by left. }
  { apply Hlive, elem_of_app. right. right. by left. }
  destruct (keydir_shutdown_run (e1, kd)) as (h & Hshut & Hh).
  { apply (keydir_ok_blocks e); [done | exact (released_heap_wf _ _ _ Hr1 (keydir_heap _ Hk)) |].
    intros c Hc. rewrite (rl_heap _ _ _ Hr1). rewrite decide_False; [done|]. intros Hin.
    apply (Hkd c); [|done]. apply elem_of_app. by right. }
  cbn [fst snd] in Hshut, Hh. set (e2 := set_heap h e1) in *.
  assert (released (kd_blocks (hash_table kd)) e1 e2) as Hr2 by by constructor.
  pose proof (released_trans _ _ _ _ _ Hr1 Hr2) as Hr12.
  assert (∀ c, c ∈ a :: fs_table f → is_Some (e_heap e2 !! c)) as Hlive2.
  { intros c Hc. apply (released_live _ _ _ _ Hr12); [apply Hlive, elem_of_app; by left|].
    intros [Hin|Hin]%elem_of_app; [by apply (Hdis c)|].
    apply (Hkd c); [apply elem_of_app; by left | done]. }
  destruct (files_shutdown_ok e2 f l a dir Hd Hcb Ht) as (e3 & f3 & Hfiles & Hr3).
  { by rewrite <-Ht. }
  { intros c. rewrite <-Ht. apply Hlive2. }
  exists (World e3 f3 (Keydir [] rwlock_new) None th ru sd). eexists.
  split; [|split; [|split; [exact (released_trans _ _ _ _ _ Hr12 Hr3)|]]].
  - unfold release. erewrite bind_run by (apply zoom_ring; exact Hdestroy).
    erewrite bind_run by (apply zoom_keydir; exact Hshut).
    apply zoom_files. exact Hfiles.
  - unfold owned. cbn [w_files w_ring w_keydir]. rewrite Hd. cbn [fmap option_fmap option_map option_list fst].
    fold rs. solve_Permutation.
  - by split.
Qed.

(** ** The whole function *)

(** The newest file of the directory is the active one. *)
Lemma top_file_small {host : Host} {zlib : Zlib} w l m n a dir e mx :
  running w l m n → active_size w ≤ mx → fs_data_dir (w_files w) = Some (a, dir) →
  k_dir (e_kernel e) = k_dir (e_kernel (w_env w)) → inodes e = inodes (w_env w) →
  ∀ top c, head (node_id (fs_nodes (w_files w)) <$> l) = Some top →
    file_bytes e dir ".data" top = Some c → zlen c ≤ mx.
Proof.
  intros Hr Has Hd Hdir Hino. pose proof (rn_store _ _ _ _ Hr) as Hok.
  rewrite (active_size_id _ _ _ Hok) in Has.
  destruct (store_head _ _ _ Hok) as (p & l' & -> & _ & Hact).
  intros top c [= <-]. rewrite <-Hact. unfold file_bytes, file_ino. rewrite Hdir, Hino.
  unfold disk in Has. rewrite (data_content_file _ _ _ _ Hd) in Has. unfold file_bytes, file_ino in Has.
  intros Hcont. by rewrite Hcont in Has.
Qed.

Section shutdown.
Context {host : Host} {zlib : Zlib}.

(** The parts of the function. *)
Lemma shutdown_steps fuel w w1 w2 w3 r :
  join_all fuel (w_threads w) (set_w_shutting_down true w) = Ret tt w1 →
  w_ring w1 = Some r → rb_mutex r = false → TWriter ∈ w_running w1 →
  writer_thread_main fuel (set_w_ring (Some (set_rb_shutdown true r)) w1) = Ret tt w2 →
  release (set_w_running (filter (λ u, u ≠ TWriter) (w_running w2)) w2) = Ret tt w3 →
  ccask_shutdown fuel w = Ret tt w3.
Proof.
  intros Hjoin Hr Hm Hw Hmain Hrel. unfold ccask_shutdown. rewrite bind_modify.
  erewrite bind_run by (unfold ccask_hintfile_generator_shutdown; rewrite bind_get; exact Hjoin).
  unfold ccask_writer_stop. rewrite bind_assoc. destruct w1 as [e1 f1 kd1 rg1 th1 ru1 sd1].
  cbn [w_ring w_running] in *. subst rg1.
  erewrite bind_run by (apply zoom_ring, start_shutdown_run; exact Hm).
  rewrite bind_assoc. unfold pthread_join. rewrite bind_assoc, bind_get. cbn [w_running].
  rewrite bool_decide_eq_true_2 by exact Hw. rewrite bind_assoc.
  erewrite bind_run by exact Hmain. rewrite bind_modify. exact Hrel.
Qed.

(** Nothing is queued, and no hint thread was started. *)
Lemma shutdown_idle fuel cap w l r others :
  releasable w l r → w_threads w = [] → TWriter ∈ w_running w →
  ring_holds (w_env w) others r cap [] → (0 < fuel)%nat →
  ∃ w' bs, ccask_shutdown fuel w = Ret tt w' ∧ released bs (w_env w) (w_env w') ∧
    w_ring w' = None ∧ w_keydir w' = Keydir [] rwlock_new.
Proof.
  intros [R1 R2 R3 R4 R5 R6] Hth Hwr Hrh Hfuel.
  destruct w as [e f kd rg th ru sd]. cbn [w_env w_files w_keydir w_ring w_threads w_running] in *. subst rg th.
  set (r' := set_rb_shutdown true r). set (ru' := filter (λ u, u ≠ TWriter) ru).
  assert (ring_holds e others r' cap []) as Hrh'.
  { destruct Hrh as [A1 [B1 B2 B3 B4 B5] A3 A4].
    constructor; [exact A1 | by constructor | exact A3 | exact A4]. }
  destruct (release_ok (World e f kd (Some r') [] ru' true) l r') as (w3 & bs & Hrel & _ & Hre & Hring & Hkd).
  { destruct R2 as [O1 O2 O3]. by constructor. }
  exists w3, bs. split; [|by split].
  apply (shutdown_steps fuel _ (World e f kd (Some r) [] ru true) (World e f kd (Some r') [] ru true) w3 r);
    [reflexivity | reflexivity | apply (rh_mutex _ _ _ _ _ Hrh) | exact Hwr | | exact Hrel].
  unfold writer_thread_main. destruct fuel as [|fuel]; [lia|]. cbn [writer_loop].
  by erewrite bind_run by exact (writer_ends cap (S fuel) e f kd r' [] ru true others _ Hrh' eq_refl).
Qed.

Context {laws : ZlibLaws}.

(** The shutdown of a running store. *)
Lemma shutdown_run fuel cap mx w l m q n a dir :
  system cap mx w l m q n → fs_data_dir (w_files w) = Some (a, dir) →
  active_id w + Z.of_nat (length q) < 2 ^ 64 → 2 * Z.of_nat (n + queue_bytes q) < 2 ^ 32 →
  (length (events (w_env w)) + (n + queue_bytes q) + length q + 20 < fuel)%nat →
  ∃ w2 l2 n2 w3, ccask_shutdown fuel w = Ret tt w3 ∧
    closing cap mx w true w2 l2 (apply_queue q m) [] n2 [] ∧ (n2 ≤ n + queue_bytes q)%nat ∧
    active_id w2 ≤ active_id w + Z.of_nat (length q) ∧ fs_data_dir (w_files w2) = Some (a, dir) ∧
    k_dir (e_kernel (w_env w3)) = k_dir (e_kernel (w_env w2)) ∧
    inodes (w_env w3) = inodes (w_env w2) ∧
    w_ring w3 = None ∧ w_keydir w3 = Keydir [] rwlock_new.
Proof.
  intros Hsy Hd Hid Hsm Hfuel.
  pose proof (system_closing cap mx w w l m q n Hsy (names_kept_files w w eq_refl eq_refl)) as Hcl.
  destruct (join_all_ok cap mx w fuel (w_threads w) false (set_w_shutting_down true w) l m q n Hcl)
    as (w1 & Hjoin & Hcl1 & Hev1 & Hid1 & Hd1); [apply (sy_threads _ _ _ _ _ _ _ Hsy) | |].
  { change (events (w_env (set_w_shutting_down true w))) with (events (w_env w)). lia. }
  pose proof Hcl1 as [Hr1 (r & Hring & Hb & Hrh) Ho1 Hh1 Hw1 Hm1 Ha1 Hf1 Hn1].
  set (r' := set_rb_shutdown true r). set (w1' := set_w_ring (Some r') w1).
  assert (owned w1' = owned w1) as Hown by exact (owned_ring w1 r r' Hring eq_refl eq_refl).
  assert (closing cap mx w true w1' l m q n []) as Hcl1'.
  { destruct w1 as [e1 f1 kd1 rg1 th1 ru1 sd1]. cbn [w_ring] in Hring. subst rg1.
    constructor; [exact (running_ring _ _ _ _ (Some r') _ _ _ _ _ _ Hr1) | | | exact Hh1 | exact Hw1
      | exact Hm1 | exact Ha1 | exact Hf1
      | refine (names_kept_trans _ _ _ Hn1 _); by apply names_kept_files].
    - exists r'. do 2 (split; [done|]). destruct Hrh as [A1 [B1 B2 B3 B4 B5] A3 A4].
      constructor; [exact A1 | by constructor | exact A3 | exact A4].
    - destruct Ho1 as [O1 O2 O3]. by constructor. }
  destruct (drain_ok cap mx w fuel fuel datafile_record_garbage w1' l m q n Hcl1') as
    (w2 & l2 & n2 & Hloop & Hcl2 & Hn2 & Hd2 & Hid2); [lia | | lia | |].
  { change (active_id w1') with (active_id w1). rewrite Hid1. exact Hid. }
  { apply suffix_length in Hev1. change (events (w_env w1')) with (events (w_env w1)).
    change (events (w_env (set_w_shutting_down true w))) with (events (w_env w)) in Hev1. lia. }
  pose proof Hcl2 as [Hr2 (r2 & Hring2 & _ & _) Ho2 _ _ Hm2 Ha2 _ _].
  set (w2' := set_w_running (filter (λ u, u ≠ TWriter) (w_running w2)) w2).
  assert (fs_data_dir (w_files w2) = Some (a, dir)) as Hdir2.
  { rewrite Hd2. change (fs_data_dir (w_files w1') ) with (fs_data_dir (w_files w1)). rewrite Hd1. exact Hd. }
  pose proof (st_disk _ _ _ (rn_store _ _ _ _ Hr2)) as Hdisk2.
  destruct (release_ok w2' l2 r2) as (w3 & bs & Hrel & Hbs & Hre & Hring3 & Hkd3).
  { constructor; [exact Hring2 | | exact (st_keydir _ _ _ (rn_store _ _ _ _ Hr2))
      | exact (disk_closable _ _ _ Hdisk2) | exact (rep_table _ _ (do_rep _ _ Hdisk2)) |].
    - rewrite app_nil_r in Ho2. destruct Ho2 as [O1 O2 O3]. by constructor.
    - exists (a, dir). exact Hdir2. }
  exists w2, l2, n2, w3.
  split; [exact (shutdown_steps fuel w w1 w2 w3 r Hjoin Hring (rh_mutex _ _ _ _ _ Hrh) Hw1 Hloop Hrel)|].
  split; [exact Hcl2|]. split; [exact Hn2|]. split.
  { change (active_id w1') with (active_id w1) in Hid2. rewrite Hid1 in Hid2. exact Hid2. }
  split; [exact Hdir2|]. split; [exact (rl_dir _ _ _ Hre)|]. split; [exact (rl_inodes _ _ _ Hre)|].
  by split.
Qed.

(** What it leaves in the directory. *)
Lemma shutdown_ok fuel cap mx w l m q n a dir :
  system cap mx w l m q n → fs_data_dir (w_files w) = Some (a, dir) →
  active_id w + Z.of_nat (length q) < 2 ^ 64 → 2 * Z.of_nat (n + queue_bytes q) < 2 ^ 32 →
  (length (events (w_env w)) + (n + queue_bytes q) + length q + 20 < fuel)%nat →
  ∃ w' ids n', ccask_shutdown fuel w = Ret tt w' ∧
    dir_holds (w_env w') dir ids (apply_queue q m) n' ∧ (n' ≤ n + queue_bytes q)%nat ∧
    default 0 (head ids) ≤ active_id w + Z.of_nat (length q) ∧
    (∀ top c, head ids = Some top → file_bytes (w_env w') dir ".data" top = Some c → zlen c ≤ mx) ∧
    tidy (w_env w') dir ids ∧ (no_temps (w_env w) dir → no_temps (w_env w') dir) ∧
    linked (w_env w') ∧
    w_ring w' = None ∧ w_keydir w' = Keydir [] rwlock_new.
Proof.
  intros Hsy Hd Hid Hsm Hfuel.
  destruct (shutdown_run fuel cap mx w l m q n a dir Hsy Hd Hid Hsm Hfuel)
    as (w2 & l2 & n2 & w3 & Hrun & [Hr _ _ _ _ _ Has _ [Ht Hn]] & Hn2 & Hact & Hdir & Hk & Hi & Hend).
  pose proof (rn_store _ _ _ _ Hr) as Hst.
  exists w3, (node_id (fs_nodes (w_files w2)) <$> l2), n2. split; [exact Hrun|].
  split; [|split; [exact Hn2|split; [|split; [|split; [|split; [|split; [|exact Hend]]]]]]].
  - exact (dir_holds_same (w_env w2) (w_env w3) _ _ _ _ Hk Hi
      (running_dir_holds w2 l2 _ n2 a dir Hr Hdir)).
  - by rewrite (store_top _ _ _ Hst).
  - exact (top_file_small w2 l2 _ n2 a dir (w_env w3) mx Hr Has Hdir Hk Hi).
  - apply (tidy_same (w_env w2) _ dir (file_ids w2)); [exact Hk | |].
    + intros i (p & -> & Hp)%list_elem_of_fmap. apply list_elem_of_fmap_2.
      by rewrite <-(rep_table _ _ (do_rep _ _ (st_disk _ _ _ Hst))).
    + exact (Ht (sy_tidy _ _ _ _ _ _ _ Hsy) a dir Hdir).
  - intros Hnt%Hn id Hu. unfold file_ino. rewrite Hk. by apply Hnt.
  - exact (linked_same _ _ Hk Hi (kernel_wf_linked _ (do_kernel _ _ (st_disk _ _ _ Hst)))).
Qed.
End shutdown.
