(* ===== verification/Session.v ===== *)
(** * Session: a process from its start to its end

    A process opens a directory; its clients and threads do what they do, and
    it closes the store, or dies; or it compacts the directory and closes it.
    The calls return what a finite map with a bounded queue returns, and the
    directory is left in a state from which the next process starts. *)
From stdpp Require Import sorting.
From S2P Require Import Prelude Status Posix SafeIO Codec Records Ringbuf Uthash Keydir Log.
From S2P Require Import Filenames Files Disk DiskWrite World Hint Recovery Scan.
From S2P Require Import Reader Writer Core Compactor Teardown Store Durable Tidy Run Turns System.
From S2P Require Import Directory DirOps Dump Compaction Compacted Start Shutdown.
Open Scope Z_scope.

Section represents.
Context {host : Host} {zlib : Zlib}.

(** The directory [dir] represents [m] with the data files [ids]: it has none
    yet, or it was left behind by another process. *)
Variant represents (e : env) (dir : string) (mx : Z) : list Z → gmap bytes bytes → nat → Prop :=
  | represents_nothing :
      linked e → no_temps e dir →
      (∀ id, is_u64 id → file_ino e dir ".data" id = None) →
      (∀ id, is_u64 id → file_ino e dir ".hint" id = None) →
      represents e dir mx [] ∅ 0
  | represents_files ids m n :
      linked e → no_temps e dir → tidy e dir ids → dir_holds e dir ids m n →
      (∀ top c, head ids = Some top → file_bytes e dir ".data" top = Some c → zlen c ≤ mx) →
      represents e dir mx ids m n.

(** A running store can be left at any time. *)
Lemma system_represents cap mx w l m q n a dir :
  system cap mx w l m q n → fs_data_dir (w_files w) = Some (a, dir) → no_temps (w_env w) dir →
  represents (w_env w) dir mx (node_id (fs_nodes (w_files w)) <$> l) m n.
Proof.
  intros Hsy Hd Hn. pose proof (sy_running _ _ _ _ _ _ _ Hsy) as Hr.
  constructor; [| exact Hn | | exact (running_dir_holds w l m n a dir Hr Hd) |].
  - exact (kernel_wf_linked _ (do_kernel _ _ (st_disk _ _ _ (rn_store _ _ _ _ Hr)))).
  - apply (tidy_same (w_env w) _ dir (file_ids w)); [done | | exact (sy_tidy _ _ _ _ _ _ _ Hsy a dir Hd)].
    intros i (p & -> & Hp)%list_elem_of_fmap. apply list_elem_of_fmap_2.
    by rewrite <-(rep_table _ _ (do_rep _ _ (st_disk _ _ _ (rn_store _ _ _ _ Hr)))).
  - exact (top_file_small w l m n a dir (w_env w) mx Hr (sy_active _ _ _ _ _ _ _ Hsy) Hd eq_refl eq_refl).
Qed.

(** What the compactor leaves behind. *)
Lemma compacted_represents e dir m mx c :
  linked e → compacted e dir m mx c → represents e dir mx (count_down c) m (Z.to_nat mx).
Proof.
  intros Hl [Hc Hh [H1 H2 H3] Hs _]. constructor; [exact Hl | exact H3 | | exact Hh |].
  - constructor; [exact H1|]. intros id Hu. rewrite H2 by done. by intros [].
  - intros top b Htop. apply Hs. by apply head_Some_elem_of.
Qed.

(** Only the directory and the contents of the files matter. *)
Lemma compacted_same e e' dir m mx c :
  k_dir (e_kernel e') = k_dir (e_kernel e) → inodes e' = inodes e →
  compacted e dir m mx c → compacted e' dir m mx c.
Proof.
  intros Hd Hi [H1 H2 [H3 H4 H5] H6 H7].
  assert (∀ ext id, file_ino e' dir ext id = file_ino e dir ext id) as Hino
    by (intros ext id; unfold file_ino; by rewrite Hd).
  assert (∀ ext id, file_bytes e' dir ext id = file_bytes e dir ext id) as Hb
    by (intros ext id; unfold file_bytes; by rewrite Hino, Hi).
  assert (∀ id, dir_log e' dir id = dir_log e dir id) as Hlog
    by (intros id; unfold dir_log; by rewrite Hb).
  constructor; [exact H1 | exact (dir_holds_same e e' _ _ _ _ Hd Hi H2) | | |].
  - constructor; intros id Hu; rewrite Hino; [by apply H3 | by apply H4 | by apply H5].
  - intros id b. rewrite Hb. apply H6.
  - rewrite <-H7. f_equal. f_equal. apply list_fmap_ext. intros i id _. apply Hlog.
Qed.
End represents.

(** ** Opening and compacting *)

Section opening.
Context {host : Host} {zlib : Zlib} {laws : ZlibLaws}.

(** Opening a directory, whatever is in it. *)
Lemma init_ok fuel opts es ids ids' m n e f kd rg th sd :
  represents e (opt_data_dir opts) (opt_datafile_rotate_threshold opts) ids m n →
  opt_data_dir opts ≠ EmptyString → listing es ids' → ids' ≡ₚ ids →
  kernel_wf (e_kernel e) → calm e → heap_wf e →
  0 < opt_writer_ringbuf_capacity opts < 2 ^ 63 → 0 ≤ opt_datafile_rotate_threshold opts →
  (length (events e) + 2 * n + 20 < fuel)%nat →
  ∃ w l, ccask_init fuel opts es (World e f kd rg th [] sd) = Ret CCASK_OK w ∧
    system (opt_writer_ringbuf_capacity opts) (opt_datafile_rotate_threshold opts) w l m [] n ∧
    (∃ a, fs_data_dir (w_files w) = Some (a, opt_data_dir opts)) ∧
    active_id w = default 0 (head ids) ∧ events (w_env w) `suffix_of` events e ∧
    w_threads w = [] ∧ no_temps (w_env w) (opt_data_dir opts).
Proof.
  intros [_ Hn Hdata Hhint|files map size _ Hn Htd Hdh Htop] Hne Hes Hids Hk Hc Hwf Hcap Hthr Hfuel.
  - apply Permutation_nil_r in Hids as ->.
    destruct (init_fresh fuel opts es e f kd rg th sd Hes Hne Hdata Hhint Hk Hc Hwf Hcap Hthr)
      as (w & l & Hinit & Hsys & Hd & Hact & Hev & Hth & ino & Hdirs); [lia|].
    exists w, l. do 6 (split; [done|]).
    exact (no_temps_put _ _ _ _ _ _ _ (or_introl eq_refl) Hdirs Hn).
  - destruct (init_restores fuel opts es files ids' map size e f kd rg th sd)
      as (w & l & Hinit & Hsys & [H1 H2 H3 H4 H5 H6]); [done..|].
    exists w, l. do 3 (split; [done|]). split; [|split; [done|split; [done|]]].
    + by rewrite <-(store_top _ _ _ (rn_store _ _ _ _ (sy_running _ _ _ _ _ _ _ Hsys))), H2.
    + intros id Hu. unfold file_ino. rewrite H3. by apply Hn.
Qed.

(** A running store whose records fit can be compacted. *)
Lemma system_compactable cap mx w l m q n a dir :
  system cap mx w l m q n → fs_data_dir (w_files w) = Some (a, dir) → no_temps (w_env w) dir →
  0 ≤ mx ∧ 2 * mx < 2 ^ 32 → map_Forall (λ k v, record_size k v ≤ mx) m →
  Z.of_nat (size m) < 2 ^ 31 → compactable w l m dir.
Proof.
  intros Hsy Hd Hn Hmx Hfits Hsz. pose proof (sy_tidy _ _ _ _ _ _ _ Hsy a dir Hd) as [T1 T2].
  pose proof (rep_table _ _ (do_rep _ _ (st_disk _ _ _ (rn_store _ _ _ _ (sy_running _ _ _ _ _ _ _ Hsy))))) as Ht.
  assert (file_ids w ≡ₚ node_id (fs_nodes (w_files w)) <$> l) as Hp by (unfold file_ids; by rewrite Ht).
  constructor; rewrite ?(sy_max _ _ _ _ _ _ _ Hsy); [by exists a | done | done | done | | | done];
    intros id Hu Hi; rewrite <-Hp; [by apply T1 | by apply T2].
Qed.

(** The memory of the statics is the same after the compaction. *)
Lemma compacted_releasable cap mx w l m n e' f' ru' r :
  system cap mx w l m [] n → w_ring w = Some r → framed (w_env w) e' → closable f' l →
  fs_table f' ≡ₚ l → fs_data_dir f' = fs_data_dir (w_files w) →
  releasable (World e' f' (w_keydir w) (w_ring w) (w_threads w) ru' (w_shutting_down w)) l r.
Proof.
  intros Hsy Hr Hf Hcb Ht Hd. pose proof (sy_running _ _ _ _ _ _ _ Hsy) as Hrun.
  pose proof (st_disk _ _ _ (rn_store _ _ _ _ Hrun)) as Hdisk.
  pose proof (st_keydir _ _ _ (rn_store _ _ _ _ Hrun)) as Hkd.
  pose proof (rep_table _ _ (do_rep _ _ Hdisk)) as Ht0. cbn [snd] in Ht0.
  pose proof (sy_owns _ _ _ _ _ _ _ Hsy) as [Hnd Hlive Hapart].
  set (w1 := World e' f' (w_keydir w) (w_ring w) (w_threads w) ru' (w_shutting_down w)).
  assert (owned w1 ≡ₚ owned w) as Hp by (unfold owned; cbn [w1 w_files w_ring]; by rewrite Hd, Ht, Ht0).
  constructor; cbn [w1 w_env w_files w_keydir w_ring]; [exact Hr | | | exact Hcb | exact Ht |].
  - apply (owns_perm (owned w)); [by rewrite Hp|]. apply NoDup_app in Hnd as (Hnd & _ & _).
    constructor; [exact Hnd | |]; intros c Hc.
    + destruct (Hlive c) as [blk Hb]; [apply elem_of_app; by left|]. exists blk.
      cbn [w1 w_env]. rewrite (fm_heap _ _ Hf); [exact Hb|]. apply (keydir_heap _ Hkd). by exists blk.
    + apply Hapart, elem_of_app. by left.
  - apply (keydir_ok_blocks (w_env w)); [exact Hkd | exact (fm_wf _ _ Hf) |].
    intros c Hc. apply (fm_heap _ _ Hf). exact (keydir_blocks_old _ _ Hkd c Hc).
  - rewrite Hd. destruct (do_dir _ _ Hdisk) as (a & dir & Hdir & _). cbn [snd] in Hdir.
    rewrite Hdir. by eexists.
Qed.

(** A store that is compacted and closed. *)
Lemma compact_and_close fuel cap mx w l m n a dir :
  system cap mx w l m [] n → w_threads w = [] → fs_data_dir (w_files w) = Some (a, dir) →
  no_temps (w_env w) dir → 0 ≤ mx ∧ 2 * mx < 2 ^ 32 →
  map_Forall (λ k v, record_size k v ≤ mx) m → Z.of_nat (size m) < 2 ^ 31 →
  (length (events (w_env w)) + size m + Z.to_nat mx + 1 < fuel)%nat →
  ∃ w1 w' c, ccask_compactor_dump_keydir fuel w = Ret CCASK_OK w1 ∧
    ccask_shutdown fuel w1 = Ret tt w' ∧ compacted (w_env w') dir m mx c ∧
    linked (w_env w') ∧ w_ring w' = None ∧ w_keydir w' = Keydir [] rwlock_new.
Proof.
  intros Hsy Hth Hd Hn Hmx Hfits Hsz Hfuel. pose proof (sy_max _ _ _ _ _ _ _ Hsy) as Hm.
  pose proof (system_compactable cap mx w l m [] n a dir Hsy Hd Hn Hmx Hfits Hsz) as Hcp.
  destruct (compaction_ok fuel w l m n dir (sy_running _ _ _ _ _ _ _ Hsy) Hcp) as
    (e1 & f1 & ru1 & c & Hrun & Hcd & Hf & Hru & Hcb & Ht & Hd1); [rewrite Hm; lia | lia |].
  rewrite Hm in Hcd. destruct (sy_ring _ _ _ _ _ _ _ Hsy) as (r & Hr & _ & Hrh).
  pose proof (compacted_releasable cap mx w l m n e1 f1 ru1 r Hsy Hr Hf Hcb Ht Hd1) as Hrs.
  destruct (shutdown_idle fuel cap _ l r [] Hrs Hth (Hru _ (sy_writer _ _ _ _ _ _ _ Hsy))
    (ring_holds_idle _ _ _ _ _ _ Hrh)) as (w2 & bs & Hstop & Hre & Hring & Hkd2); [lia|].
  exists (World e1 f1 (w_keydir w) (w_ring w) (w_threads w) ru1 (w_shutting_down w)), w2, c.
  pose proof (rl_dir _ _ _ Hre) as Hdir2. pose proof (rl_inodes _ _ _ Hre) as Hino2.
  split; [exact Hrun|]. split; [exact Hstop|].
  split; [exact (compacted_same e1 (w_env w2) dir m mx c Hdir2 Hino2 Hcd)|].
  split; [exact (linked_same e1 (w_env w2) Hdir2 Hino2 (kernel_wf_linked _ (fm_kernel _ _ Hf))) | by split].
Qed.
End opening.

(** ** A process *)

(** The life of a process after it has opened the store: it works and closes
    the store; it works and dies between two steps; or it compacts the files
    and closes the store. *)
Inductive life : Type :=
  | Closes (os : list op)
  | Dies (os : list op)
  | Compacts.

Definition life_ops (c : life) : list op :=
  match c with Closes os | Dies os => os | Compacts => [] end.

(** What the calls return, and the map that is left. *)
Definition life_answers (cap : Z) (c : life) (m : gmap bytes bytes) : list result :=
  (abs_ops cap (life_ops c) (m, [])).1.

Definition life_map (cap : Z) (c : life) (m : gmap bytes bytes) : gmap bytes bytes :=
  let '(m', q) := (abs_ops cap (life_ops c) (m, [])).2 in
  match c with Dies _ => m' | _ => apply_queue q m' end.

Section process.
Context {host : Host} {zlib : Zlib}.

Definition process (fuel : nat) (opts : ccask_options_t) (es : list dirent) (c : life) :
    M world (option (list result)) :=
  res ← ccask_init fuel opts es;
  if bool_decide (res ≠ CCASK_OK) then mret None
  else
    match c with
    | Closes os => rs ← run_ops fuel os; _ ← ccask_shutdown fuel; mret (Some rs)
    | Dies os => rs ← run_ops fuel os; mret (Some rs)
    | Compacts =>
        res ← ccask_compactor_dump_keydir fuel; _ ← ccask_shutdown fuel;
        mret (if bool_decide (res = CCASK_OK) then Some [] else None)
    end.

(** The records and the map are small enough for the life [c]. *)
Definition life_fits (mx : Z) (m : gmap bytes bytes) (c : life) : Prop :=
  match c with
  | Closes os | Dies os => Forall (op_ok mx) os
  | Compacts =>
      2 * mx < 2 ^ 32 ∧ map_Forall (λ k v, record_size k v ≤ mx) m ∧ Z.of_nat (size m) < 2 ^ 31
  end.

(** The greatest identifier there may then be. *)
Definition life_top (top : Z) (m : gmap bytes bytes) (c : life) : Z :=
  match c with Compacts => Z.of_nat (size m) | _ => top + 2 * Z.of_nat (length (life_ops c)) end.

(** How many bytes a file may then have. *)
Definition life_bytes (mx : Z) (n : nat) (c : life) : nat :=
  match c with Compacts => Z.to_nat mx | _ => (n + ops_bytes (life_ops c))%nat end.

Lemma abs_ops_queue cap os m q :
  (length (abs_ops cap os (m, q)).2.2 ≤ length q + length os)%nat.
Proof.
  revert m q. induction os as [|o os IH]; intros m q; [simpl; lia|]. cbn [abs_ops].
  destruct (abs_op cap o (m, q)) as [r [m1 q1]] eqn:Ho. specialize (IH m1 q1).
  destruct (abs_ops cap os (m1, q1)) as [rs [m2 q2]]. cbn [snd fst] in *.
  assert (length q1 ≤ S (length q))%nat; [|simpl; lia].
  destruct o; simpl in Ho; simplify_eq; try lia.
  - case_bool_decide; simplify_eq; [lia|]. rewrite length_app. simpl. lia.
  - destruct q as [|[k v] q]; simplify_eq; simpl; lia.
Qed.

Context {laws : ZlibLaws}.

(** The part of a process between opening and closing. *)
Lemma life_runs fuel cap mx os w l m n a dir :
  system cap mx w l m [] n → fs_data_dir (w_files w) = Some (a, dir) → no_temps (w_env w) dir →
  Forall (op_ok mx) os → active_id w + 2 * Z.of_nat (length os) < 2 ^ 64 →
  2 * Z.of_nat (n + ops_bytes os) < 2 ^ 32 →
  (length (events (w_env w)) + (n + ops_bytes os) + length os + 20 < fuel)%nat →
  ∃ w1 m1 q1 n1 rs, abs_ops cap os (m, []) = (rs, (m1, q1)) ∧ run_ops fuel os w = Ret rs w1 ∧
    (∃ ids1, represents (w_env w1) dir mx ids1 m1 n1 ∧
      default 0 (head ids1) ≤ active_id w + 2 * Z.of_nat (length os)) ∧
    (n1 ≤ n + ops_bytes os)%nat ∧
    ∃ w2 ids2 n2, ccask_shutdown fuel w1 = Ret tt w2 ∧
      represents (w_env w2) dir mx ids2 (apply_queue q1 m1) n2 ∧ (n2 ≤ n + ops_bytes os)%nat ∧
      default 0 (head ids2) ≤ active_id w + 2 * Z.of_nat (length os).
Proof.
  intros Hsy Hd Hn Hok Hid Hsm Hfuel.
  destruct (run_ops_refine cap mx fuel os w l m [] n Hsy Hok) as
    (w1 & l1 & n1 & m1 & q1 & rs & Habs & Hrun & Hsy1 & Hb & [Hid1 Hev1%suffix_length Hd1 [_ Hn1]]);
    [lia | simpl; lia | simpl; lia |].
  pose proof (abs_ops_queue cap os m []) as Hq. rewrite Habs in Hq. simpl in Hq, Hb.
  rewrite Hd in Hd1. specialize (Hn1 dir Hn).
  exists w1, m1, q1, n1, rs. split; [exact Habs|]. split; [exact Hrun|].
  split.
  { exists (node_id (fs_nodes (w_files w1)) <$> l1).
    split; [exact (system_represents cap mx w1 l1 m1 q1 n1 a dir Hsy1 Hd1 Hn1)|].
    rewrite (store_top _ _ _ (rn_store _ _ _ _ (sy_running _ _ _ _ _ _ _ Hsy1))). lia. }
  split; [lia|].
  destruct (shutdown_ok fuel cap mx w1 l1 m1 q1 n1 a dir Hsy1 Hd1) as
    (w2 & ids2 & n2 & Hstop & Hdh & Hn2 & Hids2 & Htop & Htd & Htemps & Hlink & _); [lia | lia | lia |].
  exists w2, ids2, n2. split; [exact Hstop|]. split; [|lia].
  constructor; [exact Hlink | by apply Htemps | exact Htd | exact Hdh | exact Htop].
Qed.

(** A process on a directory that represents a map. *)
Lemma process_ok fuel opts es ids ids' m n c e f kd rg th sd :
  let dir := opt_data_dir opts in let mx := opt_datafile_rotate_threshold opts in
  let cap := opt_writer_ringbuf_capacity opts in
  represents e dir mx ids m n → dir ≠ EmptyString → listing es ids' → ids' ≡ₚ ids →
  kernel_wf (e_kernel e) → calm e → heap_wf e → 0 < cap < 2 ^ 63 → 0 ≤ mx → life_fits mx m c →
  default 0 (head ids) + 2 * Z.of_nat (length (life_ops c)) < 2 ^ 64 →
  2 * Z.of_nat (n + ops_bytes (life_ops c)) < 2 ^ 32 →
  (length (events e) + 2 * (n + ops_bytes (life_ops c)) + length (life_ops c) + size m +
    Z.to_nat mx + 20 < fuel)%nat →
  ∃ w' ids2 n2, process fuel opts es c (World e f kd rg th [] sd) =
      Ret (Some (life_answers cap c m)) w' ∧
    represents (w_env w') dir mx ids2 (life_map cap c m) n2 ∧ (n2 ≤ life_bytes mx n c)%nat ∧
    default 0 (head ids2) ≤ life_top (default 0 (head ids)) m c.
Proof.
  intros dir mx cap Hrep Hne Hes Hids Hk Hc Hwf Hcap Hthr Hfit Hid Hsm Hfuel.
  destruct (init_ok fuel opts es ids ids' m n e f kd rg th sd Hrep Hne Hes Hids Hk Hc Hwf Hcap Hthr)
    as (w & l & Hinit & Hsy & (a & Hd) & Hact & Hev%suffix_length & Hth & Hn); [lia|].
  fold cap mx in Hsy. fold dir in Hd, Hn. rewrite <-Hact in Hid.
  unfold process. destruct c as [os|os|]; cbn [life_fits life_ops life_bytes life_top] in *.
  - destruct (life_runs fuel cap mx os w l m n a dir Hsy Hd Hn Hfit Hid Hsm) as
      (w1 & m1 & q1 & n1 & rs & Habs & Hrun & _ & _ & w2 & ids2 & n2 & Hstop & Hrep2 & Hn2 & Htop2); [lia|].
    exists w2, ids2, n2. unfold life_answers, life_map. cbn [life_ops]. rewrite Habs.
    split; [|split; [exact Hrep2 | split; [exact Hn2 | lia]]].
    erewrite bind_run by exact Hinit. cbn beta iota. rewrite bool_decide_neq_refl.
    erewrite bind_run by exact Hrun. by erewrite bind_run by exact Hstop.
  - destruct (life_runs fuel cap mx os w l m n a dir Hsy Hd Hn Hfit Hid Hsm) as
      (w1 & m1 & q1 & n1 & rs & Habs & Hrun & (ids1 & Hrep1 & Hid1) & Hn1 & _); [lia|].
    exists w1, ids1, n1. unfold life_answers, life_map.
    cbn [life_ops]. rewrite Habs. split; [|split; [exact Hrep1 | split; [exact Hn1 | lia]]].
    erewrite bind_run by exact Hinit. cbn beta iota. rewrite bool_decide_neq_refl.
    by erewrite bind_run by exact Hrun.
  - destruct Hfit as (Hmx & Hfits & Hsz).
    destruct (compact_and_close fuel cap mx w l m n a dir Hsy Hth Hd Hn) as
      (w1 & w2 & c & Hrun & Hstop & Hcd & Hlink & _); [by split | exact Hfits | exact Hsz | lia |].
    exists w2, (count_down c), (Z.to_nat mx).
    pose proof (cd_some _ _ _ _ _ Hcd) as Hsome.
    split; [|split; [exact (compacted_represents _ _ _ _ _ Hlink Hcd) | split; [lia|]]];
      [|destruct c; simpl; lia].
    erewrite bind_run by exact Hinit. cbn beta iota. rewrite bool_decide_neq_refl.
    erewrite bind_run by exact Hrun. by erewrite bind_run by exact Hstop.
Qed.
End process.
