(* ===== verification/History.v ===== *)
(** * History: one process after another

    A data directory outlives its processes.  Between two of them only the
    names and the contents of the files remain: the memory, the descriptors
    and the order in which the names are read are new.  Whatever the processes
    do there, one after another, is what the abstract machine does. *)
From stdpp Require Import sorting.
From S2P Require Import Prelude Status Posix SafeIO Codec Records Ringbuf Uthash Keydir Log.
From S2P Require Import Filenames Files Disk DiskWrite World Hint Recovery Scan.
From S2P Require Import Reader Writer Core Compactor Teardown Store Durable Tidy Run Turns System.
From S2P Require Import Directory DirOps Dump Compaction Compacted Start Shutdown Session.
Open Scope Z_scope.

(** ** A new process *)

(** The statics before the first call. *)
Definition boot (e : env) : world :=
  World e files_state_init (Keydir [] rwlock_new) None [] [] false.

(** [e'] is where a process starts after [e] was left; the kernel will cut
    at most [budget] of its transfers short. *)
Record reboots (budget : nat) (e e' : env) : Prop := {
  rb_dir : k_dir (e_kernel e') = k_dir (e_kernel e);
  rb_inodes : inodes e' = inodes e;
  rb_kernel : kernel_wf (e_kernel e');
  rb_calm : calm e';
  rb_heap : heap_wf e';
  rb_events : (length (events e') ≤ budget)%nat;
}.

(** What [readdir] may answer. *)
Definition readdir_of (e : env) (dir : string) (es : list dirent) : Prop :=
  ∃ ids, listing es ids ∧ NoDup ids ∧
    ∀ id, is_u64 id → id ∈ ids ↔ is_Some (file_ino e dir ".data" id).

Lemma listing_ids es ids : listing es ids → Forall (λ id, 0 ≤ id < 2 ^ 31) ids.
Proof. induction 1; [constructor | by constructor | done..]. Qed.

Lemma listing_exists ids : Forall (λ id, 0 ≤ id < 2 ^ 31) ids → ∃ es, listing es ids.
Proof.
  induction 1 as [|id ids Hid _ [es IH]]; [by exists []; constructor|].
  eexists. by apply (listing_data id es).
Qed.

(** Inode numbers are above all those that the names have. *)
Lemma inodes_bounded (d : gmap string Z) : ∃ n, ∀ path ino, d !! path = Some ino → ino < n.
Proof.
  induction d as [|path ino d _ [n IH]] using map_ind.
  - exists 0. intros path ino. by rewrite lookup_empty.
  - exists (Z.max (ino + 1) n). intros path' ino' [[_ <-]|[_ Hp%IH]]%lookup_insert_Some; lia.
Qed.

Lemma reboots_exists budget e : linked e → ∃ e', reboots budget e e'.
Proof.
  intros Hl. destruct (inodes_bounded (k_dir (e_kernel e))) as [n Hn].
  exists (Env ∅ 0 [] (Kernel (k_dir (e_kernel e)) (inodes e) ∅ 3 n [] []) CCASK_ERR_UNKNOWN).
  constructor; try done; [| | simpl; lia].
  - constructor; simpl.
    + intros fd [? Hfd]. by rewrite lookup_empty in Hfd.
    + lia.
    + intros path ino Hp. split; [by eapply Hn | by eapply Hl].
  - intros b [? Hb]. simpl in Hb. by rewrite lookup_empty in Hb.
Qed.

Section histories.
Context {host : Host} {zlib : Zlib}.

(** ** Directories across processes *)

Lemma represents_linked e dir mx ids m n : represents e dir mx ids m n → linked e.
Proof. by intros []. Qed.

Lemma represents_reboots budget e e' dir mx ids m n :
  reboots budget e e' → represents e dir mx ids m n → represents e' dir mx ids m n.
Proof.
  intros [Hd Hi _ _ _ _] Hrep.
  assert (∀ ext id, file_ino e' dir ext id = file_ino e dir ext id) as Hino
    by (intros ext id; unfold file_ino; by rewrite Hd).
  destruct Hrep as [Hl Hn Hdata Hhint|files map size Hl Hn Htd Hdh Htop].
  - constructor; [exact (linked_same e e' Hd Hi Hl) | | |]; intros id Hu; rewrite Hino; auto.
  - constructor; [exact (linked_same e e' Hd Hi Hl) | | exact (tidy_same e e' dir files files Hd (reflexivity _) Htd)
      | exact (dir_holds_same e e' _ _ _ _ Hd Hi Hdh) |].
    + intros id Hu. rewrite Hino. by apply Hn.
    + intros top c. unfold file_bytes. rewrite Hino, Hi. apply Htop.
Qed.

(** The names of the data files are those of the representation. *)
Lemma represents_names e dir mx ids m n id :
  represents e dir mx ids m n → is_u64 id → id ∈ ids ↔ is_Some (file_ino e dir ".data" id).
Proof.
  intros [_ _ Hdata _|files map size _ _ Htd Hdh _] Hu.
  - rewrite Hdata by done. split; [by intros ?%elem_of_nil | by intros []].
  - split; [|by apply Htd].
    intros (c & Hc & _)%(dh_data _ _ _ _ _ Hdh). unfold file_bytes in Hc.
    destruct (file_ino e dir ".data" id); [by eexists | done].
Qed.

Lemma represents_ids e dir mx ids m n : represents e dir mx ids m n → NoDup ids ∧ Forall is_u64 ids.
Proof.
  intros [|files map size _ _ _ [_ Hids Hs _ _ _ _ _ _ _ _ _ _ _] _]; [by repeat constructor|].
  split; [|done]. clear -Hs. induction Hs as [|id ids _ IH Hid]; constructor; [|done].
  rewrite Forall_forall in Hid. intros Hin%Hid. lia.
Qed.

Lemma readdir_listing e dir mx ids m n es :
  represents e dir mx ids m n → readdir_of e dir es → ∃ ids', listing es ids' ∧ ids' ≡ₚ ids.
Proof.
  intros Hrep (ids' & Hes & Hnd & Hids'). exists ids'. split; [done|].
  destruct (represents_ids _ _ _ _ _ _ Hrep) as [Hnd' Hu']. apply listing_ids in Hes.
  apply NoDup_Permutation; [done..|]. intros id. split; intros Hin.
  - assert (is_u64 id) as Hu by (rewrite Forall_forall in Hes; specialize (Hes id Hin); unfold is_u64; lia).
    by rewrite (represents_names _ _ _ _ _ _ _ Hrep Hu), <-Hids'.
  - assert (is_u64 id) as Hu by (rewrite Forall_forall in Hu'; by apply Hu').
    by rewrite (Hids' id Hu), <-(represents_names _ _ _ _ _ _ _ Hrep Hu).
Qed.

(** The names can be read as long as the identifiers are those of an [int]. *)
Lemma readdir_exists e dir mx ids m n :
  represents e dir mx ids m n → default 0 (head ids) < 2 ^ 31 → ∃ es, readdir_of e dir es.
Proof.
  intros Hrep Htop. destruct (represents_ids _ _ _ _ _ _ Hrep) as [Hnd Hu].
  destruct (listing_exists ids) as [es Hes].
  - destruct Hrep as [|files map size _ _ _ Hdh _]; [done|].
    pose proof (dh_sorted _ _ _ _ _ Hdh) as Hs. apply Forall_forall. intros id Hin.
    rewrite Forall_forall in Hu. destruct (Hu id Hin) as [H0 _]. split; [done|].
    destruct Hs as [|top ids' _ Hs]; [by apply elem_of_nil in Hin|]. simpl in Htop.
    apply elem_of_cons in Hin as [->|Hin]; [done|]. rewrite Forall_forall in Hs.
    specialize (Hs id Hin). lia.
  - exists es, ids. split; [done|]. split; [done|]. intros id Hid.
    exact (represents_names _ _ _ _ _ _ _ Hrep Hid).
Qed.

(** ** Histories *)

Section process.
Context (fuel budget : nat) (opts : ccask_options_t).

#[local] Notation dir := (opt_data_dir opts).
#[local] Notation mx := (opt_datafile_rotate_threshold opts).
#[local] Notation cap := (opt_writer_ringbuf_capacity opts).

(** Processes with the lives [cs] find the directory as [e] left it: each of
    them can be started, and however it is started, and in whatever order it
    reads the names, it returns; [Q] holds of all that was returned and of
    what the last one leaves. *)
Fixpoint every_history (cs : list life) (e : env) (Q : list (list result) → env → Prop) : Prop :=
  match cs with
  | [] => Q [] e
  | c :: cs' =>
      (∃ e1 es, reboots budget e e1 ∧ readdir_of e1 dir es) ∧
      ∀ e1 es, reboots budget e e1 → readdir_of e1 dir es →
        wp (process fuel opts es c) (boot e1) (λ res w, ∃ rs, res = Some rs ∧
          every_history cs' (w_env w) (λ rss, Q (rs :: rss)))
  end.

(** What is returned, and the map at the end. *)
Fixpoint lives_answers (cs : list life) (m : gmap bytes bytes) : list (list result) :=
  match cs with [] => [] | c :: cs' => life_answers cap c m :: lives_answers cs' (life_map cap c m) end.

Definition lives_map (cs : list life) (m : gmap bytes bytes) : gmap bytes bytes :=
  foldl (λ m c, life_map cap c m) m cs.

(** Every life is one that the store can cope with: [top] and [n] bound the
    identifiers and the sizes of the files that it finds. *)
Fixpoint lives_fit (cs : list life) (top : Z) (n : nat) (m : gmap bytes bytes) : Prop :=
  match cs with
  | [] => True
  | c :: cs' =>
      life_fits mx m c ∧ top + 2 * Z.of_nat (length (life_ops c)) < 2 ^ 31 ∧
      2 * Z.of_nat (n + ops_bytes (life_ops c)) < 2 ^ 32 ∧
      (budget + 2 * (n + ops_bytes (life_ops c)) + length (life_ops c) + size m + Z.to_nat mx + 20
        < fuel)%nat ∧
      lives_fit cs' (life_top top m c) (life_bytes mx n c) (life_map cap c m)
  end.

Context {laws : ZlibLaws}.

Lemma life_top_mono top top' m c : top ≤ top' → life_top top m c ≤ life_top top' m c.
Proof. destruct c; simpl; lia. Qed.

Lemma life_bytes_mono n n' c : (n ≤ n')%nat → (life_bytes mx n c ≤ life_bytes mx n' c)%nat.
Proof. destruct c; simpl; lia. Qed.

Lemma every_history_ok cs e ids m n top n' (Q : list (list result) → env → Prop) :
  represents e dir mx ids m n → default 0 (head ids) ≤ top → (n ≤ n')%nat →
  dir ≠ EmptyString → 0 < cap < 2 ^ 63 → 0 ≤ mx → lives_fit cs top n' m →
  (∀ e' ids' k, represents e' dir mx ids' (lives_map cs m) k → Q (lives_answers cs m) e') →
  every_history cs e Q.
Proof.
  intros Hrep Htop Hn Hne Hcap Hmx. revert e ids m n top n' Q Hrep Htop Hn.
  induction cs as [|c cs IH]; intros e ids m n top n' Q Hrep Htop Hn Hfit HQ; [by eapply HQ|].
  destruct Hfit as (Hfit & Hid & Hsm & Hfuel & Hfits). cbn [every_history]. split.
  - destruct (reboots_exists budget e) as [e1 Hre]; [by eapply represents_linked|].
    pose proof (represents_reboots _ _ _ _ _ _ _ _ Hre Hrep) as Hrep1.
    destruct (readdir_exists e1 dir mx ids m n Hrep1) as [es Hes]; [lia|].
    by exists e1, es.
  - intros e1 es Hre Hes. pose proof (represents_reboots _ _ _ _ _ _ _ _ Hre Hrep) as Hrep1.
    destruct (readdir_listing _ _ _ _ _ _ _ Hrep1 Hes) as (ids' & Hlist & Hperm).
    pose proof (rb_events _ _ _ Hre) as Hev.
    destruct (process_ok fuel opts es ids ids' m n c e1 files_state_init (Keydir [] rwlock_new) None []
      false Hrep1 Hne Hlist Hperm (rb_kernel _ _ _ Hre) (rb_calm _ _ _ Hre) (rb_heap _ _ _ Hre)
      Hcap Hmx Hfit) as (w & ids2 & n2 & Hrun & Hrep2 & Hn2 & Htop2); [lia | lia | lia |].
    eapply wp_run; [exact Hrun|]. exists (life_answers cap c m). split; [done|].
    pose proof (life_top_mono _ _ m c Htop). pose proof (life_bytes_mono _ _ c Hn).
    eapply (IH (w_env w) ids2 _ n2); [exact Hrep2 | | | exact Hfits |]; [lia | lia |].
    exact HQ.
Qed.
End process.
End histories.
