(* ===== verification/Program.v ===== *)
(** * Program: the command line program from its start to its end

    [main] opens the store in its directory, compacts it and closes it: what
    is left is the directory after the compaction. *)
From stdpp Require Import sorting.
From S2P Require Import Prelude Status Posix SafeIO Codec Records Ringbuf Uthash Keydir Log.
From S2P Require Import Filenames Files Disk DiskWrite World Hint Recovery Scan.
From S2P Require Import Reader Writer Core Compactor Main Teardown Store Durable Tidy Run Turns System.
From S2P Require Import Directory DirOps Dump Compaction Compacted Start Shutdown Session.
Open Scope Z_scope.

Section program.
Context {host : Host} {zlib : Zlib} {laws : ZlibLaws}.

(** The program compacts the directory. *)
Lemma main_ok fuel es ids ids' m n e f kd rg th sd :
  let dir := opt_data_dir main_options in let mx := opt_datafile_rotate_threshold main_options in
  represents e dir mx ids m n → listing es ids' → ids' ≡ₚ ids →
  map_Forall (λ k v, record_size k v ≤ mx) m → Z.of_nat (size m) < 2 ^ 31 →
  kernel_wf (e_kernel e) → calm e → heap_wf e →
  (length (events e) + 2 * n + size m + Z.to_nat mx + 20 < fuel)%nat →
  ∃ w' c, main fuel es (World e f kd rg th [] sd) = Ret 0 w' ∧
    compacted (w_env w') dir m mx c ∧ w_ring w' = None ∧ w_keydir w' = Keydir [] rwlock_new.
Proof.
  intros dir mx Hrep Hes Hids Hfits Hsz Hk Hc Hwf Hfuel.
  destruct (init_ok fuel main_options es ids ids' m n e f kd rg th sd)
    as (w & l & Hinit & Hsy & (a & Hd) & _ & Hev%suffix_length & Hth & Hn);
    [exact Hrep | done | exact Hes | exact Hids | exact Hk | exact Hc | exact Hwf | done | done | lia |].
  change (opt_datafile_rotate_threshold main_options) with mx in Hsy. fold dir in Hd, Hn.
  destruct (compact_and_close fuel _ mx w l m n a dir Hsy Hth Hd Hn) as
    (w1 & w2 & c & Hrun & Hstop & Hcd & _ & Hring & Hkd);
    [unfold mx; simpl; lia | exact Hfits | exact Hsz | lia |].
  exists w2, c. split; [|by split]. unfold main. erewrite bind_run by exact Hinit.
  rewrite bool_decide_eq_false_2 by by intros []. erewrite bind_run by exact Hrun.
  by erewrite bind_run by exact Hstop.
Qed.
End program.
