(* ===== verification/Samples.v ===== *)
(** * Samples: small concrete states

    The inputs at which the theorems are tried: an empty environment, one with
    an open file, and a store with one key. *)
From stdpp Require Import sorting.
From Stdlib Require Import Strings.Byte.
From S2P Require Import Prelude Status Posix SafeIO Codec Crc32 Records Ringbuf Uthash.
From S2P Require Import Keydir Filenames Files Disk World Hint Recovery Reader Writer Core.
From S2P Require Import Log Store Durable.
Open Scope Z_scope.

#[export] Existing Instance little.

Definition empty_kernel : kernel := Kernel ∅ ∅ ∅ 3 0 [] [].
Definition empty_env : env := Env ∅ 0 [] empty_kernel CCASK_ERR_UNKNOWN.

(** Descriptor [3] on a file with these contents; two blocks [abc] and [d] in
    memory; the first calls are interrupted and cut short. *)
Definition file_env (content : bytes) (evs : list event) : env :=
  Env {[0 := [x61; x62; x63]; 1 := [x64]]} 2 []
    (Kernel {["f"%string := 0]} {[0 := content]} {[3 := FDesc 0 0 true true]} 4 1 evs [])
    CCASK_ERR_UNKNOWN.
Definition two_buffers : list iovec := [IOV (Some (0, 0)) 3; IOV (Some (1, 0)) 1].

Lemma empty_heap_wf : heap_wf empty_env.
Proof. intros a [d Hd]. simpl in Hd. by rewrite lookup_empty in Hd. Qed.

(** ** A store with one key *)

Definition sample_key : bytes := [x6b].
Definition sample_value : bytes := [x76; x31].
Definition sample_header : ccask_datafile_record_header :=
  DatafileHeader (record_crc 7 sample_key sample_value) 7 1 2.
Definition sample_content : bytes := datafile_record_bytes sample_header sample_key sample_value.

(** Blocks: [0] the directory's name, [1] the node, [2] and [3] the entry of
    the key directory and its key. *)
Definition sample_env : env :=
  Env {[0 := zeros 2; 1 := zeros sizeof_file; 2 := zeros sizeof_keydir_record; 3 := sample_key]} 4 []
    (Kernel {["d/0.data"%string := 0]} {[0 := sample_content]} {[3 := FDesc 0 0 true true]}
       4 1 [EvShort 4; EvOk] [7; 8])
    CCASK_ERR_UNKNOWN.
Definition sample_node : ccask_file :=
  CFile 0 3 0 false true false rwlock_new None None.
Definition sample_files : files_state :=
  FilesState (Some (0, "d"%string)) [1] (Some 1) (Some 1) 1000 {[1 := sample_node]}.
Definition sample_keydir : keydir :=
  Keydir [KdRecord sample_key 1 0 0 2 7 2 3] rwlock_new.
Definition sample_world : world :=
  World sample_env sample_files sample_keydir None [] [] false.
Definition sample_map : gmap bytes bytes := {[sample_key := sample_value]}.

Lemma sample_kernel_wf : kernel_wf (e_kernel sample_env).
Proof.
  constructor; simpl.
  - intros fd [d Hd]. apply lookup_singleton_Some in Hd as [<- _]. lia.
  - lia.
  - intros p ino Hp. apply lookup_singleton_Some in Hp as [<- <-]. split; [lia|]. eauto.
Qed.

Lemma sample_disk_ok : disk_ok (sample_env, sample_files) [1].
Proof.
  constructor; simpl; [| by exists 0, "d"%string | apply sample_kernel_wf | |].
  - constructor; simpl; try done; [apply NoDup_singleton | eauto |].
    repeat constructor.
  - intros p x ->%list_elem_of_singleton. rewrite lookup_singleton_eq. intros [= <-].
    split_and!; [done | done |]. exists 0. split; [done|]. intros _. by exists true, true.
  - exists 1, sample_node. split_and!; [done | done |]. split_and!; [done | done |]. by exists 0.
Qed.

(** The cases of a lookup in a map that is written out. *)
Ltac map_cases H := repeat first
  [ apply lookup_insert_Some in H as [[<- <-]|[_ H]]
  | apply lookup_singleton_Some in H as [<- <-] ].

Lemma sample_heap_wf : heap_wf sample_env.
Proof. intros a [d Hd]. simpl in *. map_cases Hd; lia. Qed.

Lemma sample_keydir_ok : keydir_ok (sample_env, sample_keydir).
Proof.
  constructor; [|done|apply sample_heap_wf]. constructor; simpl.
  - apply NoDup_singleton.
  - repeat constructor; set_solver.
  - by repeat constructor.
  - repeat constructor. by eexists.
Qed.

Lemma sample_calm : calm sample_env.
Proof. by repeat constructor. Qed.

Lemma sample_record_ok : datafile_record_ok sample_header sample_key sample_value.
Proof. split; [|done]. split_and!; [apply crc32_range | done..]. Qed.

Lemma sample_store_ok : store_ok sample_world [1] sample_map.
Proof.
  constructor; [apply sample_disk_ok | apply sample_keydir_ok |].
  intros k. unfold keydir_map. simpl. unfold sample_map.
  destruct (decide (sample_key = k)) as [<-|Hk].
  - rewrite lookup_insert_eq, lookup_singleton_eq. exists sample_value. split; [done|].
    exists sample_content, sample_header. cbn [ki_file_id ki_record_pos ki_value_size].
    split; [by left|]. split; [done|].
    split; [unfold sample_content; by rewrite (zlen_datafile_record _ _ _ sample_record_ok)|].
    split; [apply sample_record_ok|]. split; [done|].
    split; [unfold sample_header; cbn [df_crc df_timestamp]; reflexivity|].
    split; [done|]. split; [done|].
    split; [by rewrite Z.add_0_l|]. apply slice_full.
  - by rewrite lookup_insert_ne, lookup_empty, lookup_singleton_ne.
Qed.

(** A ring with two slots, which holds one record at most. *)
Definition sample_ring : ccask_writer_ringbuf :=
  Ringbuf (replicate 2 (replicate 3 (IOV None 0))) 2 0 0 false false 4 5.

Lemma sample_ring_ok : ring_ok sample_ring.
Proof. constructor; simpl; [done | lia | lia | lia | by repeat constructor]. Qed.

(** The sample list of files, with a node of its own identifier to add. *)
Definition new_node : ccask_file := CFile 5 (-1) 0 true false false rwlock_new None None.
Definition files_and_new : files_state := set_fs_nodes (<[9 := new_node]> (fs_nodes sample_files)) sample_files.

Lemma files_and_new_rep : files_rep files_and_new [1].
Proof.
  pose proof (do_rep _ _ sample_disk_ok) as [H1 H2 H3 H4 H5 H6]. simpl in *.
  by constructor.
Qed.

(** The environment of the sample store in which no allocation succeeds. *)
Definition full_env : env :=
  Env (e_heap sample_env) 4 [true; false] (e_kernel sample_env) CCASK_ERR_UNKNOWN.

Lemma full_keydir_ok : keydir_ok (full_env, sample_keydir).
Proof. destruct sample_keydir_ok as [H1 H2 H3]. by constructor. Qed.

(** The sample store can be restarted. *)
Lemma sample_records : records_of sample_content = [LogRecord sample_header sample_key sample_value].
Proof. by vm_compute. Qed.

Lemma sample_log : log_of (sample_env, sample_files) 0 =
  [LogRecord sample_header sample_key sample_value].
Proof. exact sample_records. Qed.

Lemma sample_durable : durable (sample_env, sample_files) [1] sample_map.
Proof.
  assert (∀ p, p ∈ [1] → node_id (fs_nodes sample_files) p = 0) as Hid.
  { by intros p ->%list_elem_of_singleton. }
  constructor.
  - rewrite recovered_values_cons. change (node_id (fs_nodes sample_files) 1) with 0.
    rewrite sample_log. reflexivity.
  - intros p Hp. cbn [snd]. rewrite Hid, sample_log by done. by repeat constructor.
  - apply NoDup_singleton.
  - intros p c [= <-]. change (data_content _ _) with (Some sample_content).
    intros <-%(inj Some). rewrite sample_records. by vm_compute.
  - intros p q Hp Hq. cbn [snd]. rewrite Hid by done. by intros [? ?].
  - intros p x [= <-]. cbn [snd fs_nodes sample_files]. rewrite lookup_singleton_eq.
    by intros [= <-].
Qed.

Lemma sample_recoverable : recoverable (sample_env, sample_files) [1] 19.
Proof.
  constructor; [lia | |]; intros p x ->%list_elem_of_singleton; cbn [snd fs_nodes sample_files];
    rewrite lookup_singleton_eq; intros [= <-]; [|done].
  exists sample_content. split; [done|]. by vm_compute; lia.
Qed.

(** ** A store that has been rotated once

    File [0] has the record, and is not written to any more; file [1], in the
    node [5], is the active one, and empty. *)
Definition rotated_env : env :=
  Env {[0 := zeros 2; 1 := zeros sizeof_file; 2 := zeros sizeof_keydir_record; 3 := sample_key;
        5 := zeros sizeof_file]} 6 []
    (Kernel {["d/0.data"%string := 0; "d/1.data"%string := 1]} {[0 := sample_content; 1 := []]}
       {[3 := FDesc 1 0 true true]} 4 2 [EvShort 4; EvOk] [7; 8])
    CCASK_ERR_UNKNOWN.
Definition rotated_old : ccask_file := CFile 0 (-1) 0 false false false rwlock_new None (Some 5).
Definition rotated_active : ccask_file := CFile 1 3 0 false true false rwlock_new (Some 1) None.
Definition rotated_files : files_state :=
  FilesState (Some (0, "d"%string)) [5; 1] (Some 5) (Some 1) 1000
    {[1 := rotated_old; 5 := rotated_active]}.
Definition rotated_world : world :=
  World rotated_env rotated_files sample_keydir None [] [] false.

Lemma rotated_calm : calm rotated_env.
Proof. by repeat constructor. Qed.

Lemma rotated_kernel_wf : kernel_wf (e_kernel rotated_env).
Proof.
  constructor; simpl.
  - intros fd [d Hd]. map_cases Hd. lia.
  - lia.
  - intros p ino Hp. map_cases Hp; (split; [lia|]); vm_compute; eauto.
Qed.

(** The two nodes. *)
Lemma rotated_nodes p x :
  p ∈ [5; 1] → fs_nodes rotated_files !! p = Some x →
  p = 5 ∧ x = rotated_active ∨ p = 1 ∧ x = rotated_old.
Proof.
  intros [->|[->|[]%elem_of_nil]%elem_of_cons]%elem_of_cons Hx; vm_compute in Hx;
    injection Hx as <-; auto.
Qed.

Lemma two_disk_ok : disk_ok (rotated_env, rotated_files) [5; 1].
Proof.
  constructor; cbn [fst snd].
  - constructor; simpl; try done.
    + by apply (bool_decide_unpack _); vm_compute.
    + split; [by exists rotated_active|]. split; [by exists rotated_old|done].
    + repeat constructor.
  - by exists 0, "d"%string.
  - apply rotated_kernel_wf.
  - intros p x Hp Hx. destruct (rotated_nodes p x Hp Hx) as [[_ ->]|[_ ->]];
      (split_and!; [done | done |]).
    + exists 1. split; [by vm_compute|]. intros _. by exists true, true.
    + exists 0. split; [by vm_compute|]. done.
  - exists 5, rotated_active. split_and!; [done | done |]. split_and!; [done | done |].
    exists 1. by split; [vm_compute|].
Qed.

Lemma rotated_heap_wf : heap_wf rotated_env.
Proof. intros a [d Hd]. simpl in *. map_cases Hd; lia. Qed.

Lemma rotated_store_ok : store_ok rotated_world [5; 1] sample_map.
Proof.
  constructor; [apply two_disk_ok | |].
  - destruct sample_keydir_ok as [[H1 H2 H3 H4] H5 H6]. constructor; [|done|apply rotated_heap_wf].
    constructor; try done. by repeat constructor; eexists.
  - intros k. pose proof (st_data _ _ _ sample_store_ok k) as Hk. cbn [w_keydir rotated_world].
    cbn [w_keydir sample_world] in Hk.
    destruct (keydir_map sample_keydir !! k) as [i|] eqn:Hi; [|done].
    destruct Hk as (v & Hv & content & h & Hin & Hc & Hrest). exists v. split; [done|].
    cbn [w_env w_files sample_world snd] in Hin, Hc. simpl in Hin.
    apply list_elem_of_singleton in Hin. rewrite Hin in Hc.
    exists content, h. cbn [w_env w_files rotated_world snd]. rewrite Hin.
    split; [by right; left|]. split; [exact Hc | exact Hrest].
Qed.

Lemma two_durable : durable (rotated_env, rotated_files) [5; 1] sample_map.
Proof.
  pose proof rotated_nodes as Hn.
  constructor; cbn [fst snd].
  - reflexivity.
  - intros p [->|[->|[]%elem_of_nil]%elem_of_cons]%elem_of_cons; [done|].
    change (Forall log_crc_ok (records_of sample_content)). rewrite sample_records.
    by repeat constructor.
  - by apply (bool_decide_unpack _); vm_compute.
  - intros p c [= <-]. change (data_content _ _) with (Some (@nil Byte.byte)). by intros <-%(inj Some).
  - intros p q Hp Hq. intros [j Hj].
    assert (hint_ino (rotated_env, rotated_files) (node_id (fs_nodes rotated_files) p) = None) as Hno.
    { apply elem_of_cons in Hp as [->|[->|[]%elem_of_nil]%elem_of_cons]; by vm_compute. }
    congruence.
  - intros p x [= <-] Hx. vm_compute in Hx. by injection Hx as <-.
Qed.

Lemma two_recoverable : recoverable (rotated_env, rotated_files) [5; 1] 19.
Proof.
  constructor; [lia | |]; intros p x Hp Hx;
    destruct (rotated_nodes p x Hp Hx) as [[_ ->]|[_ ->]]; try done.
  - exists []. split; [done|simpl; lia].
  - exists sample_content. split; [done|]. vm_compute; lia.
Qed.

Lemma sample_log_record_ok : log_record_ok (LogRecord sample_header sample_key sample_value).
Proof. by split; [apply sample_record_ok|]. Qed.

(** The sample store after a crash: a second record was not written to its end. *)
Definition with_content (content : bytes) (e : env) : env :=
  set_kernel (set_inodes {[0 := content]} (e_kernel e)) e.
Definition torn_env : env :=
  with_content (log_bytes [LogRecord sample_header sample_key sample_value] ++
    take 17 (log_record_bytes (LogRecord sample_header sample_key sample_value))) sample_env.
Definition torn_world : world :=
  World torn_env sample_files sample_keydir None [] [] false.

Lemma with_content_disk_ok c : disk_ok (with_content c sample_env, sample_files) [1].
Proof.
  eapply disk_ok_env; [| |exact sample_disk_ok].
  - split_and!; [done | done | | simpl; lia]. simpl. by rewrite !dom_singleton_L.
  - destruct sample_kernel_wf as [H1 H2 H3]. constructor; simpl in *; [done | done |].
    intros p ino Hp. destruct (H3 p ino Hp) as [? Hi]. split; [done|].
    apply elem_of_dom. apply elem_of_dom in Hi. by rewrite dom_singleton_L in *.
Qed.

Lemma with_content_keydir_ok c : keydir_ok (with_content c sample_env, sample_keydir).
Proof. by apply (keydir_ok_same_heap sample_env); [exact sample_keydir_ok|..]. Qed.

Lemma torn_calm : calm torn_env.
Proof. by repeat constructor. Qed.

(** The sample store with the hints of its file. *)
Definition hinted_env : env :=
  Env (e_heap sample_env) 4 []
    (Kernel {["d/0.data"%string := 0; "d/0.hint"%string := 1]}
       {[0 := log_bytes [LogRecord sample_header sample_key sample_value];
         1 := hint_bytes (hints_of 0 [LogRecord sample_header sample_key sample_value])]}
       {[3 := FDesc 0 0 true true]} 4 2 [EvShort 4; EvOk] [7; 8])
    CCASK_ERR_UNKNOWN.
Definition hinted_world : world :=
  World hinted_env sample_files sample_keydir None [] [] false.

Lemma hinted_calm : calm hinted_env.
Proof. by repeat constructor. Qed.

Lemma hinted_disk_ok : disk_ok (hinted_env, sample_files) [1].
Proof.
  destruct sample_disk_ok as [H1 H2 H3 H4 H5]. constructor; cbn [fst snd] in *; [done | done | | |].
  - constructor; simpl.
    + intros fd [d Hd]. map_cases Hd. lia.
    + lia.
    + intros p ino Hp. map_cases Hp; (split; [lia|]); vm_compute; eauto.
  - intros p x Hp Hx. destruct (H4 p x Hp Hx) as (Hl & Hu & _). split_and!; [done | done |].
    apply list_elem_of_singleton in Hp as ->. simpl in Hx. rewrite lookup_singleton_eq in Hx.
    injection Hx as <-. exists 0. split; [by vm_compute|]. intros _. by exists true, true.
  - exists 1, sample_node. split_and!; [done | done |]. split_and!; [done | done |].
    exists 0. by split; [vm_compute|].
Qed.

Lemma hinted_keydir_ok : keydir_ok (hinted_env, sample_keydir).
Proof. by apply (keydir_ok_same_heap sample_env); [exact sample_keydir_ok|..]. Qed.
