(* ===== verification/BaseTheorems.v ===== *)
(** * BaseTheorems: input and output, encodings, records and file names

    The properties of [utils.c], [records.c] and [status.h]. *)
From Stdlib Require Import Strings.Byte Strings.Ascii.
From S2P Require Import Prelude Status Posix SafeIO Codec Crc32 Records Ringbuf Uthash.
From S2P Require Import Keydir Filenames Files Disk World Reader Writer Core Store Samples.
Open Scope Z_scope.

(** ** Input and output *)

(** C19. [safe_writev] on a file opened for appending, for buffers of which
    the last is not empty, against every sequence of short transfers,
    interruptions and errors: it returns; what it appends is a prefix of the
    concatenated buffers and nothing else changes; it answers [CCASK_OK]
    exactly when all of it was written, and otherwise [CCASK_FAIL] with
    [CCASK_ERR_WRITE_FAILED], which only a call that failed for another reason
    than an interruption can cause. *)
Theorem safe_writev_appends fuel fd iov e ino old data :
  0 ≤ fd → fd_opened e fd ino true true → inodes e !! ino = Some old →
  gather (e_heap e) iov = Some data → iov ≠ [] → ends_nonempty iov = true →
  (length (events e) + length data < fuel)%nat →
  wp (safe_writev fuel fd iov) e (λ r e', ∃ n, (n ≤ length data)%nat ∧
    io_frame e e' (e_heap e) (<[ino := old ++ take n data]> (inodes e)) ∧
    (r = CCASK_OK ∧ n = length data ∨
     r = CCASK_FAIL ∧ (n < length data)%nat ∧ e_errno e' = CCASK_ERR_WRITE_FAILED ∧
       ¬ Forall benign (events e))).
Proof. apply safe_writev_spec. Qed.

Lemma safe_writev_appends_witness :
  wp (safe_writev 100 3 two_buffers) (file_env [x30] [EvErr EINTR; EvShort 1; EvErr EAGAIN])
    (λ r e', ∃ n, (n ≤ 4)%nat ∧
      io_frame (file_env [x30] [EvErr EINTR; EvShort 1; EvErr EAGAIN]) e'
        (e_heap (file_env [x30] [])) (<[0 := [x30] ++ take n [x61; x62; x63; x64]]> {[0 := [x30]]}) ∧
      (r = CCASK_OK ∧ n = 4%nat ∨
       r = CCASK_FAIL ∧ (n < 4)%nat ∧ e_errno e' = CCASK_ERR_WRITE_FAILED ∧
         ¬ Forall benign [EvErr EINTR; EvShort 1; EvErr EAGAIN])).
Proof.
  apply (safe_writev_appends 100 3 two_buffers
    (file_env [x30] [EvErr EINTR; EvShort 1; EvErr EAGAIN]) 0 [x30] [x61; x62; x63; x64]);
    first [done | vm_compute; lia].
Defined.

(** C20. [safe_preadv], against the same machine and for any buffers: it
    returns; it fills the buffers with the bytes of the file from the offset
    on, in order.  It answers [CCASK_OK] only when the file has them all and
    the last buffer is not empty, and always then unless a call fails for
    another reason than an interruption.  Otherwise a prefix has been read and
    the error variable says why. *)
Theorem safe_preadv_reads fuel fd iov off e ino app wr content :
  0 ≤ fd → fd_opened e fd ino app wr → inodes e !! ino = Some content →
  is_Some (gather (e_heap e) iov) → iov ≠ [] → 0 ≤ off →
  (length (events e) + length (slice off (iov_total iov) content) < fuel)%nat →
  wp (safe_preadv fuel fd iov off) e (λ r e', ∃ n h',
    (n ≤ length (slice off (iov_total iov) content))%nat ∧
    scatter (e_heap e) iov (take n (slice off (iov_total iov) content)) = Some h' ∧
    io_frame e e' h' (inodes e) ∧
    (r = CCASK_OK ∧ n = length (slice off (iov_total iov) content) ∧
       ends_nonempty iov = true ∧ off + iov_total iov ≤ zlen content ∨
     r = CCASK_FAIL ∧
       (e_errno e' = CCASK_ERR_UNEXPECTED_EOF ∧
          (zlen content < off + iov_total iov ∨ ends_nonempty iov = false) ∨
        e_errno e' = CCASK_ERR_READ_FAILED ∧ ¬ Forall benign (events e))) ∧
    (Forall benign (events e) →
      r = CCASK_OK ↔ ends_nonempty iov = true ∧ off + iov_total iov ≤ zlen content)).
Proof.
  intros Hfd0 Hfd Hino Hg Hnil Hoff Hfuel.
  eapply wp_mono; [by apply (safe_preadv_spec fuel fd iov off e ino app wr content)|].
  intros r e' (n & h' & Hn & Hsc & Hfr & Hr). exists n, h'. do 4 (split; [done|]). intros Hb.
  destruct Hr as [(-> & _ & He & Hend)|(-> & [[_ Hno]|[_ Hnb]])]; [done | | done].
  split; [done|]. intros [He Hend]. destruct Hno; [lia | congruence].
Qed.

Lemma safe_preadv_reads_witness :
  let e := file_env [x30; x31; x32; x33; x34] [EvShort 0; EvErr EINTR] in
  let content := [x30; x31; x32; x33; x34] in
  wp (safe_preadv 100 3 two_buffers 1) e (λ r e', ∃ n h', (n ≤ 4)%nat ∧
    scatter (e_heap e) two_buffers (take n (slice 1 4 content)) = Some h' ∧
    io_frame e e' h' (inodes e) ∧
    (r = CCASK_OK ∧ n = 4%nat ∧ ends_nonempty two_buffers = true ∧ 1 + 4 ≤ 5 ∨
     r = CCASK_FAIL ∧
       (e_errno e' = CCASK_ERR_UNEXPECTED_EOF ∧ (5 < 1 + 4 ∨ ends_nonempty two_buffers = false) ∨
        e_errno e' = CCASK_ERR_READ_FAILED ∧ ¬ Forall benign (events e))) ∧
    (Forall benign (events e) →
      r = CCASK_OK ↔ ends_nonempty two_buffers = true ∧ 1 + 4 ≤ 5)).
Proof.
  intros e content.
  apply (safe_preadv_reads 100 3 two_buffers 1 e 0 true true content);
    first [done | vm_compute; lia | by eexists].
Defined.

(** [safe_pread] fills a block of memory, or says why it could not. *)
Theorem safe_pread_fills fuel fd a off e ino app wr content blk :
  fd_opened e fd ino app wr → inodes e !! ino = Some content →
  e_heap e !! a = Some blk → 0 < zlen blk → 0 ≤ off →
  (length (events e) + length blk < fuel)%nat →
  wp (safe_pread fuel fd (Some (a, 0)) (zlen blk) off) e (λ r e', ∃ blk',
    zlen blk' = zlen blk ∧ io_frame e e' (<[a := blk']> (e_heap e)) (inodes e) ∧
    (r = CCASK_OK ∧ off + zlen blk ≤ zlen content ∧ blk' = slice off (zlen blk) content ∨
     r = CCASK_FAIL ∧
       (e_errno e' = CCASK_ERR_UNEXPECTED_EOF ∧ zlen content < off + zlen blk ∨
        e_errno e' = CCASK_ERR_READ_FAILED ∧ ¬ Forall benign (events e)))).
Proof. apply safe_pread_spec. Qed.

Lemma safe_pread_fills_witness :
  let e := file_env [x30; x31; x32; x33; x34] [EvShort 0] in
  wp (safe_pread 100 3 (Some (0, 0)) 3 2) e (λ r e', ∃ blk',
    zlen blk' = 3 ∧ io_frame e e' (<[0 := blk']> (e_heap e)) (inodes e) ∧
    (r = CCASK_OK ∧ 2 + 3 ≤ 5 ∧ blk' = [x32; x33; x34] ∨
     r = CCASK_FAIL ∧
       (e_errno e' = CCASK_ERR_UNEXPECTED_EOF ∧ 5 < 2 + 3 ∨
        e_errno e' = CCASK_ERR_READ_FAILED ∧ ¬ Forall benign (events e)))).
Proof.
  intros e.
  apply (safe_pread_fills 100 3 0 2 e 0 true true [x30; x31; x32; x33; x34] [x61; x62; x63]);
    first [done | vm_compute; lia].
Defined.

(** C36. With an empty last buffer [safe_writev] never returns: after the last
    byte every [writev] of nothing answers [0], for ever. *)
Theorem safe_writev_empty_tail fuel fd iov e ino old :
  0 ≤ fd → fd_opened e fd ino true true → inodes e !! ino = Some old →
  is_Some (gather (e_heap e) iov) → ends_nonempty iov = false →
  Forall benign (events e) →
  safe_writev fuel fd iov e = NoFuel.
Proof. apply safe_writev_diverges. Qed.

Lemma safe_writev_empty_tail_witness :
  safe_writev 1000 3 [IOV (Some (0, 0)) 3; IOV (Some (1, 0)) 0] (file_env [x30] [EvShort 1]) = NoFuel.
Proof.
  apply (safe_writev_empty_tail _ _ _ _ 0 [x30]);
    first [done | by eexists | by repeat constructor].
Defined.

(** With an empty last buffer [safe_preadv] never answers [CCASK_OK],
    whatever the file holds and the machine does. *)
Theorem safe_preadv_empty_tail fuel fd iov off e e' :
  lens_ok iov → ends_nonempty iov = false → safe_preadv fuel fd iov off e ≠ Ret CCASK_OK e'.
Proof. apply safe_preadv_never_ok. Qed.

Lemma safe_preadv_empty_tail_witness :
  let e := file_env [x30; x31; x32; x33; x34] [] in
  safe_preadv 1000 3 [IOV (Some (0, 0)) 3; IOV (Some (1, 0)) 0] 0 e ≠ Ret CCASK_OK e.
Proof.
  intros e. apply safe_preadv_empty_tail; [by repeat constructor | done].
Defined.

(** ** Encodings *)

Section encodings.
Context {host : Host}.

Lemma splice_window off d (blk : bytes) :
  0 ≤ off → off + zlen d ≤ zlen blk → slice off (zlen d) (splice off d blk) = d.
Proof.
  intros. apply slice_exact; [|done]. unfold zlen in *. rewrite length_take. lia.
Qed.

(** C29. On every host the accessors store the big-endian bytes of an integer
    and read back what was stored, inside any block with room for it. *)
Theorem be_roundtrip e a off blk v16 v32 v64 :
  e_heap e !! a = Some blk → 0 ≤ off → off + 8 ≤ zlen blk →
  0 ≤ v16 < 2 ^ 16 → is_u32 v32 → is_u64 v64 →
  let p := Some (a, off) in
  let after d := set_heap (<[a := splice off d blk]> (e_heap e)) e in
  (_ ← write_be16 p v16; read_be16 p) e = Ret v16 (after (be_bytes 2 v16)) ∧
  (_ ← write_be32 p v32; read_be32 p) e = Ret v32 (after (be_bytes 4 v32)) ∧
  (_ ← write_be64 p v64; read_be64 p) e = Ret v64 (after (be_bytes 8 v64)).
Proof.
  intros Ha Hoff Hlen H16 H32 H64 p after.
  assert (∀ n v, Z.of_nat n ≤ 8 → 0 ≤ v < 256 ^ Z.of_nat n →
    (_ ← store p (native_bytes n (htobe n v)); be ← load p (Z.of_nat n);
     mret (htobe n (native_val be))) e = Ret v (after (be_bytes n v))) as H.
  { intros n v Hn Hv. rewrite native_htobe. pose proof (zlen_be_bytes n v) as Hz.
    erewrite bind_run by (apply (store_run e a off _ blk); [done | lia | lia]).
    erewrite bind_run by (apply (load_run _ a off (Z.of_nat n) (splice off (be_bytes n v) blk));
      [apply lookup_insert_eq | lia | lia | rewrite zlen_splice; lia]).
    rewrite <-Hz at 1. rewrite splice_window by lia.
    rewrite htobe_native, be_val_bytes by apply length_be_bytes.
    by rewrite Z.mod_small. }
  split_and!; [apply (H 2%nat) | apply (H 4%nat) | apply (H 8%nat)]; done || lia.
Qed.
End encodings.

Lemma be_roundtrip_witness :
  let p := Some (0, 1) in
  let e := Env {[0 := zeros 9]} 1 [] empty_kernel CCASK_ERR_UNKNOWN in
  let after d := set_heap (<[0 := splice 1 d (zeros 9)]> (e_heap e)) e in
  (_ ← write_be16 p 258; read_be16 p) e = Ret 258 (after [x01; x02]) ∧
  (_ ← write_be32 p 16909060; read_be32 p) e = Ret 16909060 (after [x01; x02; x03; x04]) ∧
  (_ ← write_be64 p 7; read_be64 p) e = Ret 7 (after [x00; x00; x00; x00; x00; x00; x00; x07]).
Proof.
  intros p e after. apply (be_roundtrip e 0 1 (zeros 9) 258 16909060 7); done.
Defined.

(** ** Records *)

Section record_theorems.
Context {host : Host} {zlib : Zlib} {laws : ZlibLaws}.

(** C30. A created record holds what went in: with memory for it,
    [ccask_create_datafile_record] succeeds, the gathered buffers are the
    record's bytes as they go to the file, the header read back has the
    arguments and the checksum of the whole record, and freeing the record
    gives the heap back as it was. *)
Theorem create_record_roundtrip e ts kb ks k vb vs v :
  heap_wf e → mallocs_ok 3 e → is_u32 ts → is_u32 ks → is_u32 vs →
  cbuf_read (Some kb) ks = Some k → cbuf_read (Some vb) vs = Some v →
  let h := DatafileHeader (record_crc ts k v) ts ks vs in
  wp (ccask_create_datafile_record datafile_record_garbage ts (Some kb) ks (Some vb) vs) e
    (λ out e', out.1 = CCASK_OK ∧
      gather (e_heap e') out.2 = Some (datafile_record_bytes h k v) ∧
      ccask_get_datafile_record_total_size out.2 = 16 + ks + vs ∧
      ccask_get_datafile_record_header out.2 e' = Ret h e' ∧
      wp (free_datafile_record out.2) e' (λ _ e'', e_heap e'' = e_heap e)).
Proof.
  intros Hwf Hm Hts Hks Hvs Hk Hv h.
  pose proof (cbuf_read_zlen _ _ _ Hk). pose proof (cbuf_read_zlen _ _ _ Hv). subst ks vs.
  eapply wp_run; [apply create_datafile_record_ok; try done; by apply calculate_crc32_record|].
  fold h. set (b := e_brk e). set (e' := put_block v _). cbn [fst snd].
  destruct (three_blocks_lookup (datafile_header_bytes h) k v e) as (Hb0 & Hb1 & Hb2 & _).
  assert (datafile_header_ok h) as Hh by (split_and!; try done; apply crc32_range).
  split; [done|]. split; [|split; [|split]].
  - unfold datafile_record_bytes. apply gather_datafile_iov; first [done | apply zlen_datafile_header].
  - apply datafile_iov_size; [apply zlen_nonneg.. | unfold is_u32 in *; lia].
  - rewrite (get_datafile_record_header_run _ _ b 16 (datafile_header_bytes h));
      [by rewrite datafile_header_of_bytes | done | done | apply zlen_datafile_header].
  - eapply wp_run; [apply free_datafile_iov; eauto|]. simpl.
    apply (delete_put_three e (datafile_header_bytes h) k v Hwf).
Qed.

(** C31. The same of hint records: header, key and position survive. *)
Theorem create_hint_roundtrip e ts kb ks k vs pos :
  heap_wf e → mallocs_ok 2 e → is_u32 ts → is_u32 ks → is_u32 vs → is_u64 pos →
  cbuf_read (Some kb) ks = Some k →
  let h := HintfileHeader ts ks vs pos in
  wp (ccask_create_hintfile_record hintfile_record_garbage ts ks vs pos (Some kb)) e
    (λ out e', out.1 = CCASK_OK ∧
      gather (e_heap e') out.2 = Some (hintfile_record_bytes h k) ∧
      zlen (hintfile_record_bytes h k) = ccask_get_hintfile_record_total_size out.2 ∧
      ccask_get_hintfile_record_header out.2 e' = Ret h e' ∧
      wp (free_hintfile_record out.2) e' (λ _ e'', e_heap e'' = e_heap e)).
Proof.
  intros Hwf Hm Hts Hks Hvs Hpos Hk h.
  pose proof (cbuf_read_zlen _ _ _ Hk). subst ks. pose proof (zlen_nonneg k).
  eapply wp_run; [by apply create_hintfile_record_ok|].
  fold h. set (b := e_brk e). set (e' := put_block k _). cbn [fst snd].
  assert (e_heap e' !! b = Some (hintfile_header_bytes h)) as Hb0
    by (simpl; rewrite lookup_insert_ne, lookup_insert_eq by lia; done).
  assert (e_heap e' !! (b + 1) = Some k) as Hb1 by apply lookup_insert_eq.
  split; [done|]. split; [|split; [|split]].
  - unfold hintfile_record_bytes. apply gather_hintfile_iov; first [done | apply zlen_hintfile_header].
  - rewrite zlen_hintfile_record by done. symmetry. apply u64_small.
    unfold is_u64, is_u32 in *. simpl. lia.
  - rewrite (get_hintfile_record_header_run _ _ b 20 (hintfile_header_bytes h));
      [by rewrite hintfile_header_of_bytes | done | done | apply zlen_hintfile_header].
  - eapply wp_run; [apply free_hintfile_iov; eauto|]. simpl. fold b.
    apply map_eq. intros i. rewrite !lookup_delete, !lookup_insert.
    repeat case_decide; subst; try done; symmetry; apply heap_wf_fresh; done || lia.
Qed.

(** The checksum is that of the concatenation of the fields in host
    order, key and value, however long the callers' buffers are; with a null
    value it is [0] whatever the rest. *)
Theorem checksum_is_crc_of_record ts kb ks k vb vs v :
  cbuf_read (Some kb) ks = Some k → cbuf_read (Some vb) vs = Some v →
  calculate_crc32 ts ks vs (Some kb) (Some vb) =
    Some (crc32 0 (Some (native_bytes 4 ts ++ native_bytes 4 ks ++ native_bytes 4 vs ++ k ++ v))) ∧
  calculate_crc32 ts ks 0 (Some kb) None = Some 0.
Proof.
  intros Hk Hv. split; [|by eapply calculate_crc32_null].
  rewrite (calculate_crc32_record _ _ _ k _ _ v) by done. unfold record_crc.
  by rewrite (cbuf_read_zlen _ _ _ Hk), (cbuf_read_zlen _ _ _ Hv).
Qed.
End record_theorems.

Lemma create_record_roundtrip_witness :
  let h := DatafileHeader (record_crc 7 [x6b] [x76; x31]) 7 1 2 in
  wp (ccask_create_datafile_record datafile_record_garbage 7 (Some [x6b]) 1 (Some [x76; x31]) 2)
    empty_env (λ out e', out.1 = CCASK_OK ∧
      gather (e_heap e') out.2 = Some (datafile_record_bytes h [x6b] [x76; x31]) ∧
      ccask_get_datafile_record_total_size out.2 = 16 + 1 + 2 ∧
      ccask_get_datafile_record_header out.2 e' = Ret h e' ∧
      wp (free_datafile_record out.2) e' (λ _ e'', e_heap e'' = ∅)).
Proof.
  intros h. apply (create_record_roundtrip empty_env 7 [x6b] 1 [x6b] [x76; x31] 2 [x76; x31]);
    first [exact empty_heap_wf | done | by repeat constructor].
Defined.

Lemma create_hint_roundtrip_witness :
  let h := HintfileHeader 7 1 2 19 in
  wp (ccask_create_hintfile_record hintfile_record_garbage 7 1 2 19 (Some [x6b])) empty_env
    (λ out e', out.1 = CCASK_OK ∧
      gather (e_heap e') out.2 = Some (hintfile_record_bytes h [x6b]) ∧
      zlen (hintfile_record_bytes h [x6b]) = ccask_get_hintfile_record_total_size out.2 ∧
      ccask_get_hintfile_record_header out.2 e' = Ret h e' ∧
      wp (free_hintfile_record out.2) e' (λ _ e'', e_heap e'' = ∅)).
Proof.
  intros h. apply (create_hint_roundtrip empty_env 7 [x6b] 1 [x6b] 2 19);
    first [exact empty_heap_wf | done | by repeat constructor].
Defined.

Lemma checksum_is_crc_of_record_witness :
  calculate_crc32 7 1 2 (Some [x6b; x00]) (Some [x76; x31]) =
    Some (crc32 0 (Some (native_bytes 4 7 ++ native_bytes 4 1 ++ native_bytes 4 2 ++
                         [x6b] ++ [x76; x31]))) ∧
  calculate_crc32 7 1 0 (Some [x6b; x00]) None = Some 0.
Proof. apply (checksum_is_crc_of_record 7 [x6b; x00] 1 [x6b] [x76; x31] 2 [x76; x31]); done. Defined.

(** Out of memory: when one of the three allocations fails the function
    answers [CCASK_FAIL] with [CCASK_ERR_NO_MEMORY], and what it had allocated
    is freed, except the header's block: the loop stops before [record[0]], so
    16 bytes are lost unless the first allocation is the one that failed. *)
Theorem allocate_out_of_memory e v0 v1 v2 ks vs k l :
  heap_wf e → (k < 3)%nat → e_malloc e = replicate k true ++ false :: l →
  wp (ccask_allocate_datafile_record [v0; v1; v2] ks vs) e (λ r e',
    r.1 = CCASK_FAIL ∧ e_errno e' = CCASK_ERR_NO_MEMORY ∧ e_kernel e' = e_kernel e ∧
    e_heap e' = if decide (k = 0%nat) then e_heap e
                else <[e_brk e := zeros 16]> (e_heap e)).
Proof. apply allocate_datafile_record_nomem_run. Qed.

Lemma allocate_out_of_memory_witness :
  let e := Env ∅ 0 [true; true; false] empty_kernel CCASK_ERR_UNKNOWN in
  wp (ccask_allocate_datafile_record datafile_record_garbage 3 5) e (λ r e',
    r.1 = CCASK_FAIL ∧ e_errno e' = CCASK_ERR_NO_MEMORY ∧ e_kernel e' = e_kernel e ∧
    e_heap e' = if decide (2%nat = 0%nat) then ∅ else <[0 := zeros 16]> ∅).
Proof.
  intros e. apply (allocate_out_of_memory e iov_garbage iov_garbage iov_garbage 3 5 2 []);
    [exact empty_heap_wf | lia | done].
Defined.

(** ** File names *)

(** C32. Building the path of a file and parsing the name that comes after the
    directory gives the identifier and the extension back, for every
    identifier an [int] can hold and every extension but that of a temporary
    data file ([FILE_TEMP_DATA], which is never recognised:
    [parse_never_temp]). *)
Theorem filename_roundtrip e dir id ext s :
  0 ≤ id < 2 ^ 31 → ext_string ext = Some s → ext ≠ FILE_TEMP_DATA →
  dir ≠ EmptyString → default true (head (e_malloc e)) = true →
  ∃ total name e', build_filepath dir id ext e =
      Ret (Some (filepath dir id s)) (put_block (zeros total) e) ∧
    filepath dir id s = string_app dir (if bool_decide (last_char dir = Some "/"%char)
                                        then name else String "/" name) ∧
    (default true (head (e_malloc (put_block (zeros total) e))) = true →
      parse_filename name (put_block (zeros total) e) = Ret (ext, id) e').
Proof.
  intros Hid Hs Hext Hdir Hm.
  destruct (build_filepath_run dir id ext e s Hs Hdir Hm) as [total Hrun].
  exists total, (file_name id s). eexists. split; [done|]. split.
  - unfold filepath. by case_bool_decide.
  - intros Hm'. assert (strrchr "." s = Some (EmptyString, s)) as Hdot.
    { by destruct ext; simplify_eq/=. }
    rewrite parse_filename_run by done. by destruct ext; simplify_eq/=.
Qed.

Lemma filename_roundtrip_witness :
  ∃ total name e', build_filepath "/data" 42 FILE_HINT empty_env =
      Ret (Some (filepath "/data" 42 ".hint")) (put_block (zeros total) empty_env) ∧
    filepath "/data" 42 ".hint" = string_app "/data" (if bool_decide (last_char "/data" = Some "/"%char)
                                        then name else String "/" name) ∧
    (default true (head (e_malloc (put_block (zeros total) empty_env))) = true →
      parse_filename name (put_block (zeros total) empty_env) = Ret (FILE_HINT, 42) e').
Proof. apply (filename_roundtrip empty_env "/data" 42 FILE_HINT ".hint"); done. Defined.

(** No file name is ever recognised as a temporary data file: the test
    compares what follows the last dot with [.data.tmp], which has two. *)
Theorem parse_never_temp name e id e' :
  parse_filename name e ≠ Ret (FILE_TEMP_DATA, id) e'.
Proof.
  unfold parse_filename. intros ([fname dot] & e1 & Hd & H)%bind_Ret.
  assert (strrchr "." name = Some (fname, dot)) as Hdot.
  { destruct (strrchr "." name) as [x|]; [|done]. by injection Hd as ->. }
  apply strrchr_suffix in Hdot as (d & -> & Hno).
  apply bind_Ret in H as (buf & e2 & _ & H). destruct buf; [|done].
  apply bind_Ret in H as (n & e3 & _ & H). cbv beta zeta in H.
  rewrite (bool_decide_eq_false_2 (String "." d = ".data.tmp"%string)) in H
    by (intros [= ->]; done).
  by repeat case_bool_decide; injection H.
Qed.

(** ** The retry macro *)

(** [CCASK_ATTEMPT] runs its expression once more after each
    [CCASK_RETRY], at most as often as it was told: it returns a value exactly
    when the earlier runs all asked for another one and the last run either
    did not, or was the last one allowed. *)
Theorem attempt_bounded {S A : Type} `{!Attempt A} n (e : M S A) s a s' :
  CCASK_ATTEMPT (1 + n) e s = Ret a s' ↔
  ∃ k, (k ≤ n)%nat ∧ attempts e s k a s' ∧ (is_retry a = true → k = n).
Proof. apply attempt_iff. Qed.
