(* ===== verification/TableTheorems.v ===== *)
(** * TableTheorems: the ring buffer, the key directory and the list of files

    The properties of [writer_ringbuf.c], of the table of [keydir.c], and of
    the linked list and hash table of [files.c]. *)
From stdpp Require Import sorting.
From Stdlib Require Import Strings.Byte.
From S2P Require Import Prelude Status Posix SafeIO Codec Crc32 Records Ringbuf Uthash.
From S2P Require Import Keydir Filenames Files Disk World Reader Writer Core Store Samples.
Open Scope Z_scope.

(** ** The ring buffer *)

Section ring.
Context {host : Host} {zlib : Zlib}.

(** C21. First in, first out, under every interleaving of pushes, pops,
    refusals, counts and shutdowns with anything else the threads do: what
    was in the ring and the records of the pushes since, each created of the
    arguments of its call and in the order of the calls, is what the pops gave
    their callers and what is in the ring now.  Nothing is lost, invented or
    reordered. *)
Theorem ring_fifo s ls s' r :
  rexec s ls s' → s.2 = Some r → ring_ok r →
  ∃ r' slots, s'.2 = Some r' ∧ ring_ok r' ∧ Forall2 record_of (pushed ls) slots ∧
    ring_queue r ++ slots = popped ls ++ ring_queue r'.
Proof. apply rexec_queue. Qed.

(** C22. [ccask_writer_ringbuf_push] refines the push of a bounded queue: a
    ring of [capacity] holds [capacity - 1] records; a full one is left alone
    and answers [CCASK_RETRY]; a record that was created is put at the end;
    one that could not be created leaves the queue as it was. *)
Theorem push_refines e r ts key ks value vs :
  rb_mutex r = false → ring_ok r →
  if bool_decide (zlen (ring_queue r) = rb_capacity r - 1)
  then ccask_writer_ringbuf_push ts key ks value vs (e, Some r) =
         Ret CCASK_RETRY (set_err CCASK_ERR_RINGBUFFER_FULL e, Some r)
  else ∀ res s', ccask_writer_ringbuf_push ts key ks value vs (e, Some r) = Ret res s' →
       ∃ r', s'.2 = Some r' ∧ ring_ok r' ∧
         (res = CCASK_OK ∧ rb_mutex r' = false ∧
            (∃ slot, ring_queue r' = ring_queue r ++ [slot] ∧
              ccask_create_datafile_record (rb_buf r !!! Z.to_nat (rb_head r))
                ts key ks value vs e = Ret (CCASK_OK, slot) s'.1) ∨
          res = CCASK_FAIL ∧ ring_queue r' = ring_queue r).
Proof.
  intros Hm Hr. rewrite length_ring_queue, push_run by done. case_bool_decide as Hfull; [done|].
  intros res s' H. rewrite <-ring_full in Hfull by done.
  destruct (ccask_create_datafile_record _ _ _ _ _ _ e) as [[res' slot] e'| | |] eqn:Hc;
    try done. pose proof (create_datafile_record_length _ _ _ _ _ _ _ _ _ _ Hc) as Hlen.
  pose proof Hr as [Hcap ? ? ? Hslots].
  assert (length slot = 3%nat) as Hslot.
  { rewrite Hlen. apply (Forall_lookup_1 _ _ (Z.to_nat (rb_head r)) _ Hslots).
    apply list_lookup_lookup_total_lt. zlen_lia. }
  destruct (ring_queue_slot r slot Hr Hslot) as [Hr1 Hq1].
  destruct (ring_queue_push r slot _ Hr Hslot eq_refl Hfull) as [Hr' Hq].
  destruct res'; injection H as <- <-; eexists; (split; [reflexivity|]).
  - split; [done|]. left. split_and!; [done | done |]. by exists slot.
  - split; [by apply ring_ok_mutex | by right].
  - split; [by apply ring_ok_mutex | by right].
Qed.

(** C23. [ccask_writer_ringbuf_pop] refines the pop: the oldest record; on an
    empty ring it waits, or answers [CCASK_FAIL] once the ring is shutting
    down - so a shutdown drains the queue first. *)
Theorem pop_refines e r record :
  rb_mutex r = false → ring_ok r →
  match ring_queue r with
  | [] => ccask_writer_ringbuf_pop record (e, Some r) =
            if rb_shutdown r then Ret (CCASK_FAIL, record) (e, Some r) else Blocked
  | slot :: q => ∃ r', ring_ok r' ∧ ring_queue r' = q ∧ rb_mutex r' = false ∧
      ccask_writer_ringbuf_pop record (e, Some r) = Ret (CCASK_OK, slot) (e, Some r')
  end.
Proof.
  intros Hm Hr. rewrite pop_run by done. destruct (ring_queue r) as [|slot q] eqn:Hq; [done|].
  assert (rb_tail r ≠ rb_head r) as Hne by (rewrite ring_empty, Hq; done).
  destruct (ring_queue_pop r _ Hr Hne eq_refl) as (Hr' & slot' & _ & Hq').
  eexists. split; [exact Hr'|]. split; [congruence | done].
Qed.

(** C38. A push that cannot create its record leaves the mutex locked: every
    later push, pop, count and shutdown waits for ever. *)
Theorem push_failure_deadlocks e r ts key ks value vs s' :
  rb_mutex r = false → ring_ok r →
  ccask_writer_ringbuf_push ts key ks value vs (e, Some r) = Ret CCASK_FAIL s' →
  (∀ ts key ks value vs, ccask_writer_ringbuf_push ts key ks value vs s' = Blocked) ∧
  (∀ record, ccask_writer_ringbuf_pop record s' = Blocked) ∧
  ccask_writer_ringbuf_count s' = Blocked ∧ ccask_writer_ringbuf_start_shutdown s' = Blocked.
Proof.
  intros Hm Hr H. rewrite push_run in H by done. case_bool_decide; [done|].
  destruct (ccask_create_datafile_record _ _ _ _ _ _ e) as [[res slot] e'| | |]; try done.
  destruct res; [done| |]; injection H as <-;
    split_and!; intros; apply bind_blocked, mutex_lock_blocked; done.
Qed.

(** A new ring is empty and well formed; creating and destroying it gives
    the memory back. *)
Theorem ring_init_destroy e capacity :
  0 < capacity < 2 ^ 63 → heap_wf e → mallocs_ok 2 e →
  wp (ccask_writer_ringbuf_init capacity) (e, None) (λ res s',
    res = CCASK_OK ∧
    (∃ r, s'.2 = Some r ∧ ring_ok r ∧ rb_mutex r = false ∧ ring_queue r = []) ∧
    wp ccask_writer_ringbuf_destroy s' (λ _ s'', s''.2 = None ∧ e_heap s''.1 = e_heap e)).
Proof.
  intros Hc Hwf Hm. eapply wp_run; [exact (ring_init_run e None capacity Hm)|].
  set (e1 := put_block (zeros sizeof_ringbuf) e).
  set (e2 := put_block (zeros (capacity * sizeof_datafile_record)) e1).
  destruct (new_ring_ok capacity (e_brk e) (e_brk e1) Hc) as [Hr Hq].
  split; [done|]. split; [by eexists|].
  assert (is_Some (e_heap e2 !! e_brk e1)) as Hb1 by (simpl; rewrite lookup_insert_eq; eauto).
  assert (is_Some (e_heap (set_heap (delete (e_brk e1) (e_heap e2)) e2) !! e_brk e)) as Hb0.
  { simpl. rewrite lookup_delete_ne, lookup_insert_ne, lookup_insert_eq by lia. eauto. }
  unfold ccask_writer_ringbuf_destroy, ringbuf. rewrite !wp_bind, wp_get. cbn [snd].
  rewrite wp_deref_Some, wp_bind.
  eapply wp_run; [exact (zoom_fst (free _) _ _ _ _ (free_run e2 _ Hb1))|].
  rewrite wp_bind. eapply wp_run; [exact (zoom_fst (free _) _ _ _ _ (free_run _ _ Hb0))|].
  unfold set_ringbuf. rewrite wp_modify. split; [done|]. simpl.
  apply map_eq. intros i. rewrite !lookup_delete, !lookup_insert.
  repeat case_decide; subst; try done; symmetry; apply heap_wf_fresh; done || lia.
Qed.
End ring.

Lemma ring_fifo_witness :
  let c := PushCall empty_env 7 (Some [x6b]) 1 (Some [x76]) 1 in
  ∃ slot s', rexec (empty_env, Some sample_ring) [RPush c; RPop slot] s' ∧
    ∃ r' slots, s'.2 = Some r' ∧ ring_ok r' ∧ Forall2 record_of [c] slots ∧
      ring_queue sample_ring ++ slots = [slot] ++ ring_queue r'.
Proof.
  intros c.
  assert (∃ slot s', rexec (empty_env, Some sample_ring) [RPush c; RPop slot] s')
    as (slot & s' & Hex).
  { eexists _, _. eapply rexec_cons.
    - eapply (rstep_push 7 (Some [x6b]) 1 (Some [x76]) 1); vm_compute; reflexivity.
    - eapply rexec_cons; [eapply (rstep_pop []); vm_compute; reflexivity | apply rexec_nil]. }
  exists slot, s'. split; [exact Hex|]. by apply (ring_fifo _ _ _ _ Hex), sample_ring_ok.
Defined.

Lemma push_refines_witness :
  if bool_decide (zlen (ring_queue sample_ring) = 2 - 1)
  then ccask_writer_ringbuf_push 7 (Some [x6b]) 1 (Some [x76]) 1 (empty_env, Some sample_ring) =
         Ret CCASK_RETRY (set_err CCASK_ERR_RINGBUFFER_FULL empty_env, Some sample_ring)
  else ∀ res s',
       ccask_writer_ringbuf_push 7 (Some [x6b]) 1 (Some [x76]) 1 (empty_env, Some sample_ring) =
         Ret res s' →
       ∃ r', s'.2 = Some r' ∧ ring_ok r' ∧
         (res = CCASK_OK ∧ rb_mutex r' = false ∧
            (∃ slot, ring_queue r' = ring_queue sample_ring ++ [slot] ∧
              ccask_create_datafile_record (rb_buf sample_ring !!! 0%nat)
                7 (Some [x6b]) 1 (Some [x76]) 1 empty_env = Ret (CCASK_OK, slot) s'.1) ∨
          res = CCASK_FAIL ∧ ring_queue r' = ring_queue sample_ring).
Proof. exact (push_refines empty_env sample_ring 7 _ 1 _ 1 eq_refl sample_ring_ok). Defined.

Lemma pop_refines_witness :
  match ring_queue sample_ring with
  | [] => ccask_writer_ringbuf_pop [] (empty_env, Some sample_ring) = Blocked
  | slot :: q => ∃ r', ring_ok r' ∧ ring_queue r' = q ∧ rb_mutex r' = false ∧
      ccask_writer_ringbuf_pop [] (empty_env, Some sample_ring) =
        Ret (CCASK_OK, slot) (empty_env, Some r')
  end.
Proof. exact (pop_refines empty_env sample_ring [] eq_refl sample_ring_ok). Defined.

(** The second allocation of a push fails. *)
Lemma push_failure_deadlocks_witness :
  ∃ s', (∀ ts key ks value vs, ccask_writer_ringbuf_push ts key ks value vs s' = Blocked) ∧
    (∀ record, ccask_writer_ringbuf_pop record s' = Blocked) ∧
    ccask_writer_ringbuf_count s' = Blocked ∧ ccask_writer_ringbuf_start_shutdown s' = Blocked.
Proof.
  eexists. eapply (push_failure_deadlocks (Env ∅ 0 [true; false] empty_kernel CCASK_ERR_UNKNOWN)
    sample_ring 7 (Some [x6b]) 1 (Some [x76]) 1 _ eq_refl sample_ring_ok).
  vm_compute. reflexivity.
Defined.

Lemma ring_init_destroy_witness :
  wp (ccask_writer_ringbuf_init 4) (empty_env, None) (λ res s', res = CCASK_OK ∧
    (∃ r, s'.2 = Some r ∧ ring_ok r ∧ rb_mutex r = false ∧ ring_queue r = []) ∧
    wp ccask_writer_ringbuf_destroy s' (λ _ s'', s''.2 = None ∧ e_heap s''.1 = ∅)).
Proof. apply (ring_init_destroy empty_env 4); [lia | exact empty_heap_wf | by repeat constructor]. Defined.

(** ** The key directory *)

(** C26. [ccask_keydir_find] refines lookup: it finds an entry exactly for the
    keys of the map, with what the map has for it, and changes nothing. *)
Theorem keydir_find_refines s key ks k :
  keydir_ok s → cbuf_read key ks = Some k →
  wp (ccask_keydir_find key ks) s (λ out s',
    s' = s ∧ kd_info_of <$> out = keydir_map s.2 !! k ∧
    ∀ x, out = Some x → kd_key x = k ∧ kd_key_size x = zlen k).
Proof.
  intros Hok Hk.
  eapply wp_run; [apply (keydir_find_run s key ks k 0); [apply (keydir_free _ Hok) | done]|].
  split; [done|]. split; [symmetry; by apply keydir_map_lookup|].
  intros x [Hx <-]%hash_find_Some. split; [done|].
  pose proof (table_sizes _ _ (keydir_table _ Hok)) as Hs. rewrite Forall_forall in Hs.
  symmetry. by apply Hs.
Qed.

(** C24. [ccask_keydir_upsert] refines insertion, whether the key is new or
    not, and copies the key into a block of its own. *)
Theorem keydir_upsert_refines s key ks k fid pos vs ts :
  keydir_ok s → cbuf_read key ks = Some k → mallocs_ok 2 s.1 →
  wp (ccask_keydir_upsert key ks fid pos vs ts) s (λ r s',
    r = CCASK_OK ∧ keydir_ok s' ∧
    keydir_map s'.2 = <[k := KdInfo fid pos vs ts]> (keydir_map s.2) ∧
    (s'.1 = s.1 ∨ s'.1 = put_block k (put_block (zeros sizeof_keydir_record) s.1))).
Proof.
  intros. eapply wp_mono; [by apply keydir_upsert_ok|]. naive_solver.
Qed.

(** Without memory for a new entry [ccask_keydir_upsert] answers
    [CCASK_RETRY]: nothing has been added, lost or leaked, and the lock is
    free again. *)
Theorem keydir_upsert_out_of_memory s key ks k fid pos vs ts m l :
  keydir_ok s → cbuf_read key ks = Some k → hash_find kd_key k (hash_table s.2) = None →
  e_malloc s.1 = replicate m true ++ false :: l → (m < 2)%nat →
  wp (ccask_keydir_upsert key ks fid pos vs ts) s (λ r s',
    r = CCASK_RETRY ∧ s'.2 = s.2 ∧ e_heap s'.1 = e_heap s.1 ∧
    e_kernel s'.1 = e_kernel s.1 ∧ e_errno s'.1 = CCASK_ERR_NO_MEMORY ∧ e_malloc s'.1 = l).
Proof. apply keydir_upsert_nomem. Qed.

(** C25. [ccask_keydir_delete] refines deletion: the entry and its two blocks
    are gone; for a key that is not there it answers [CCASK_FAIL] and changes
    nothing. *)
Theorem keydir_delete_refines s key ks k :
  keydir_ok s → cbuf_read key ks = Some k →
  wp (ccask_keydir_delete key ks) s (λ r s',
    keydir_ok s' ∧ keydir_map s'.2 = delete k (keydir_map s.2) ∧
    match hash_find kd_key k (hash_table s.2) with
    | None => r = CCASK_FAIL ∧ s' = s
    | Some x => r = CCASK_OK ∧
        s'.1 = set_heap (delete (kd_at x) (delete (kd_key_at x) (e_heap s.1))) s.1
    end).
Proof. apply keydir_delete_run. Qed.

(** C33. [ccask_keydir_shutdown] frees every block of the table, each once, and
    no other block. *)
Theorem keydir_shutdown_frees s :
  keydir_ok s →
  ∃ h, ccask_keydir_shutdown s = Ret tt (set_heap h s.1, Keydir [] rwlock_new) ∧
    ∀ a, h !! a = if decide (a ∈ kd_blocks (hash_table s.2)) then None else e_heap s.1 !! a.
Proof. apply keydir_shutdown_run. Qed.

(** C34. Iterating: the walk meets every entry of the map exactly once and ends;
    while it is open an insertion, or the deletion of an entry, has to wait;
    closing it gives the state back. *)
Theorem keydir_iteration s :
  keydir_ok s →
  ∃ iter s1 l, ccask_keydir_record_iter s = Ret iter s1 ∧
    iter_walk (1 + length (hash_table s.2)) iter s1 = Ret l s1 ∧
    NoDup (kd_key <$> l) ∧ table_map l = keydir_map s.2 ∧
    (∀ key ks k fid pos vs ts, cbuf_read key ks = Some k →
      ccask_keydir_upsert key ks fid pos vs ts s1 = Blocked) ∧
    (∀ key ks k, cbuf_read key ks = Some k → is_Some (keydir_map s.2 !! k) →
      ccask_keydir_delete key ks s1 = Blocked) ∧
    ccask_keydir_record_iter_close s1 = Ret None s.
Proof.
  intros Hok. pose proof (keydir_map_lookup s) as Hlook. destruct Hok as [Ht Hl Hwf] eqn:Hs.
  specialize (λ k, Hlook k Hok). clear Hs Hok.
  destruct s as [e [t lk]]. simpl in *. subst lk.
  exists (kd_at <$> head t), (e, Keydir t (RWLock 1 false)), t.
  split; [reflexivity|]. split.
  { exact (iter_walk_run e (RWLock 1 false) [] t (1 + length t)
      (kd_blocks_at _ (table_blocks _ _ Ht)) ltac:(lia)). }
  split; [apply Ht|]. split; [done|]. split; [|split; [|done]].
  - intros key ks k fid pos vs ts Hk. unfold ccask_keydir_upsert.
    by erewrite bind_run by (by apply (keydir_find_run _ _ _ k 1)).
  - intros key ks k Hk Hin. rewrite Hlook, fmap_is_Some in Hin. destruct Hin as [x Hx].
    unfold ccask_keydir_delete. erewrite bind_run by (by apply (keydir_find_run _ _ _ k 1)).
    simpl. by rewrite Hx.
Qed.

(** ** The list of files *)

(** C27. [add_file] keeps the list of files in order: the new node is linked
    in at the place that the descending order of the identifiers wants, the
    list stays doubly linked and the same as the hash table, and no node
    changes except in its links. *)
Theorem add_file_keeps_order e f l a x :
  files_rep f l → a ∉ l → fs_nodes f !! a = Some x → file_id x ∉ node_id (fs_nodes f) <$> l →
  ∃ l1 l2 f', l = l1 ++ l2 ∧ add_file a (e, f) = Ret tt (e, f') ∧
    files_rep f' (l1 ++ a :: l2) ∧ file_view <$> fs_nodes f' = file_view <$> fs_nodes f.
Proof.
  intros Hrep Ha Hx Hid.
  destruct (add_file_run e f l a x Hrep Ha Hx Hid) as (l1 & l2 & f' & H1 & H2 & H3 & H4 & _).
  by exists l1, l2, f'.
Qed.

(** C28. The active file is the newest one and the end of the list the oldest;
    every file is found by its identifier. *)
Theorem files_lookup e f l p x :
  files_rep f l → p ∈ l → fs_nodes f !! p = Some x →
  ccask_files_get_file (file_id x) (e, f) = Ret (Some p) (e, f) ∧
  (∃ n, ccask_files_get_active_file (e, f) = Ret (Some n) (e, f) ∧
    file_id x ≤ node_id (fs_nodes f) n) ∧
  (∃ o, ccask_files_get_oldest_file (e, f) = Ret (Some o) (e, f) ∧
    node_id (fs_nodes f) o ≤ file_id x).
Proof.
  intros Hrep Hp Hx. split; [by eapply get_file_run|].
  assert (node_id (fs_nodes f) p = file_id x) as Hid by (unfold node_id; by rewrite Hx).
  unfold ccask_files_get_active_file, ccask_files_get_oldest_file, gets. simpl.
  rewrite (rep_head _ _ Hrep), (rep_tail _ _ Hrep).
  apply list_elem_of_split in Hp as (l1 & l2 & ->). pose proof (rep_sorted _ _ Hrep) as Hs.
  rewrite fmap_app, fmap_cons, StronglySorted_app in Hs. destruct Hs as (H12 & _ & H2).
  split.
  - destruct l1 as [|n l1]; [exists p; split; [done | lia]|].
    exists n. split; [done|].
    specialize (H12 (node_id (fs_nodes f) n) (node_id (fs_nodes f) p)).
    rewrite fmap_cons, !elem_of_cons in H12. specialize (H12 ltac:(by left) ltac:(by left)). lia.
  - inversion H2 as [|? ? _ Hall]; subst. rewrite last_app, last_cons.
    destruct (last l2) as [o|] eqn:Ho; [|exists p; split; [done | lia]].
    exists o. split; [done|]. apply last_Some in Ho as [l3 ->].
    rewrite Forall_forall in Hall. specialize (Hall (node_id (fs_nodes f) o)).
    rewrite fmap_app, elem_of_app in Hall. specialize (Hall ltac:(right; by left)). lia.
Qed.

(** ** The theorems at concrete inputs *)

Lemma keydir_find_refines_witness :
  wp (ccask_keydir_find (Some sample_key) 1) (sample_env, sample_keydir) (λ out s',
    s' = (sample_env, sample_keydir) ∧ kd_info_of <$> out = keydir_map sample_keydir !! sample_key ∧
    ∀ x, out = Some x → kd_key x = sample_key ∧ kd_key_size x = 1).
Proof. apply (keydir_find_refines (sample_env, sample_keydir)); [exact sample_keydir_ok | done]. Defined.

Lemma keydir_upsert_refines_witness :
  wp (ccask_keydir_upsert (Some [x61; x62]) 2 3 40 5 6) (sample_env, sample_keydir) (λ r s',
    r = CCASK_OK ∧ keydir_ok s' ∧
    keydir_map s'.2 = <[[x61; x62] := KdInfo 3 40 5 6]> (keydir_map sample_keydir) ∧
    (s'.1 = sample_env ∨
     s'.1 = put_block [x61; x62] (put_block (zeros sizeof_keydir_record) sample_env))).
Proof.
  apply (keydir_upsert_refines (sample_env, sample_keydir));
    [exact sample_keydir_ok | done | by repeat constructor].
Defined.

Lemma keydir_upsert_out_of_memory_witness :
  wp (ccask_keydir_upsert (Some [x61; x62]) 2 3 40 5 6) (full_env, sample_keydir) (λ r s',
    r = CCASK_RETRY ∧ s'.2 = sample_keydir ∧ e_heap s'.1 = e_heap full_env ∧
    e_kernel s'.1 = e_kernel full_env ∧ e_errno s'.1 = CCASK_ERR_NO_MEMORY ∧ e_malloc s'.1 = []).
Proof.
  apply (keydir_upsert_out_of_memory (full_env, sample_keydir) _ _ [x61; x62] 3 40 5 6 1 []);
    first [exact full_keydir_ok | done | lia].
Defined.

Lemma keydir_delete_refines_witness :
  wp (ccask_keydir_delete (Some sample_key) 1) (sample_env, sample_keydir) (λ r s',
    keydir_ok s' ∧ keydir_map s'.2 = delete sample_key (keydir_map sample_keydir) ∧
    match hash_find kd_key sample_key (hash_table sample_keydir) with
    | None => r = CCASK_FAIL ∧ s' = (sample_env, sample_keydir)
    | Some x => r = CCASK_OK ∧
        s'.1 = set_heap (delete (kd_at x) (delete (kd_key_at x) (e_heap sample_env))) sample_env
    end).
Proof. apply (keydir_delete_refines (sample_env, sample_keydir)); [exact sample_keydir_ok | done]. Defined.

Lemma keydir_shutdown_frees_witness :
  ∃ h, ccask_keydir_shutdown (sample_env, sample_keydir) =
      Ret tt (set_heap h sample_env, Keydir [] rwlock_new) ∧
    ∀ a, h !! a = if decide (a ∈ [2; 3]) then None else e_heap sample_env !! a.
Proof. exact (keydir_shutdown_frees (sample_env, sample_keydir) sample_keydir_ok). Defined.

Lemma keydir_iteration_witness :
  ∃ iter s1 l, ccask_keydir_record_iter (sample_env, sample_keydir) = Ret iter s1 ∧
    iter_walk 2 iter s1 = Ret l s1 ∧
    NoDup (kd_key <$> l) ∧ table_map l = keydir_map sample_keydir ∧
    (∀ key ks k fid pos vs ts, cbuf_read key ks = Some k →
      ccask_keydir_upsert key ks fid pos vs ts s1 = Blocked) ∧
    (∀ key ks k, cbuf_read key ks = Some k → is_Some (keydir_map sample_keydir !! k) →
      ccask_keydir_delete key ks s1 = Blocked) ∧
    ccask_keydir_record_iter_close s1 = Ret None (sample_env, sample_keydir).
Proof. exact (keydir_iteration (sample_env, sample_keydir) sample_keydir_ok). Defined.

Lemma add_file_keeps_order_witness :
  ∃ l1 l2 f', [1] = l1 ++ l2 ∧ add_file 9 (sample_env, files_and_new) = Ret tt (sample_env, f') ∧
    files_rep f' (l1 ++ 9 :: l2) ∧ file_view <$> fs_nodes f' = file_view <$> fs_nodes files_and_new.
Proof.
  apply (add_file_keeps_order sample_env files_and_new [1] 9 new_node).
  - exact files_and_new_rep.
  - by intros H%list_elem_of_singleton.
  - done.
  - by intros H%list_elem_of_singleton.
Defined.

Lemma files_lookup_witness :
  ccask_files_get_file 0 (sample_env, sample_files) = Ret (Some 1) (sample_env, sample_files) ∧
  (∃ n, ccask_files_get_active_file (sample_env, sample_files) = Ret (Some n) (sample_env, sample_files) ∧
    0 ≤ node_id (fs_nodes sample_files) n) ∧
  (∃ o, ccask_files_get_oldest_file (sample_env, sample_files) = Ret (Some o) (sample_env, sample_files) ∧
    node_id (fs_nodes sample_files) o ≤ 0).
Proof.
  apply (files_lookup sample_env sample_files [1] 1 sample_node);
    [exact (do_rep _ _ sample_disk_ok) | by left | done].
Defined.
