(* ===== verification/StoreTheorems.v ===== *)
(** * StoreTheorems: what the library promises

    The properties of [core.c], [reader.c] and [writer.c] against the abstract
    specification of [Store]: a running store represents a finite map. *)
From stdpp Require Import sorting.
From Stdlib Require Import Strings.Byte.
From S2P Require Import Prelude Status Posix SafeIO Codec Crc32 Records Ringbuf Uthash.
From S2P Require Import Keydir Filenames Files Disk World Hint Recovery Reader Writer Core.
From S2P Require Import Store Samples.
Open Scope Z_scope.

Section theorems.
Context {host : Host} {zlib : Zlib} {laws : ZlibLaws}.

(** C5. For a value that is not empty and a record for which the active file
    has room (so it is not rotated), [ccask_put_blocking] refines insertion
    into the map, and the active file grows by the size of the record. *)
Theorem put_blocking_inserts fuel w l m kb ks k vb vs v :
  store_ok w l m → calm (w_env w) → w_shutting_down w = false →
  cbuf_read (Some kb) ks = Some k → cbuf_read (Some vb) vs = Some v →
  is_u32 ks → is_u32 vs → v ≠ [] →
  active_size w + (16 + ks + vs) ≤ fs_max_active (w_files w) →
  active_size w + (16 + ks + vs) < 2 ^ 63 →
  (length (events (w_env w)) + Z.to_nat (16 + ks + vs) < fuel)%nat →
  wp (ccask_put_blocking fuel (Some kb) ks (Some vb) vs) w (λ res w',
    res = CCASK_OK ∧ store_ok w' l (<[k := v]> m) ∧
    active_size w' = active_size w + (16 + ks + vs)).
Proof.
  intros Hok ?? Hk Hv *. intros. eapply wp_mono; [by eapply put_blocking_ok|].
  intros res w' (? & ? & _ & Hf & _ & h & Hrec & _ & Happ). split_and!; [done..|].
  rewrite (active_appended_size _ _ _ _ _ Hok Happ Hf), (zlen_datafile_record _ _ _ Hrec).
  destruct Hrec as (_ & <- & <-).
  by rewrite (cbuf_read_zlen _ _ _ Hk), (cbuf_read_zlen _ _ _ Hv).
Qed.

(** C6. [ccask_get] refines lookup in the map, and leaves the map as it
    was: [NULL] for a key that is not there, and otherwise the value in a
    new block.  A file that is closed is opened first. *)
Theorem get_looks_up fuel w l m key ks k r :
  store_ok w l m → calm (w_env w) → cbuf_read key ks = Some k →
  (∀ v, m !! k = Some v →
    (length (events (w_env w)) + Z.to_nat (16 + zlen k + zlen v) < fuel)%nat) →
  wp (ccask_get fuel key ks r) w (λ out w',
    out.1 = CCASK_OK ∧ store_ok w' l m ∧
    match m !! k with
    | None => rec_value out.2 = None
    | Some v => ∃ b, rec_value out.2 = Some (b, 0) ∧ e_heap (w_env w') !! b = Some v ∧
        e_heap (w_env w) !! b = None ∧ rec_value_size out.2 = zlen v
    end).
Proof.
  intros. eapply wp_mono; [by eapply get_ok|]. by intros out w' (? & ? & _ & _ & Hm).
Qed.

(** C35. A deletion appends a record with an empty value, and this never
    ends: for every amount of fuel [ccask_delete_blocking] has not returned
    (and holds the lock of the active file). *)
Theorem delete_blocking_never_returns fuel w l m kb ks k :
  store_ok w l m → calm (w_env w) → w_shutting_down w = false →
  cbuf_read (Some kb) ks = Some k →
  active_size w + (16 + ks) ≤ fs_max_active (w_files w) → active_size w + (16 + ks) < 2 ^ 63 →
  ccask_delete_blocking fuel (Some kb) ks w = NoFuel.
Proof. apply delete_blocking_hangs. Qed.
End theorems.

(** A record whose fields are not set yet. *)
Definition blank_record : ccask_record_t := CRecord 0 0 0 None.

Lemma put_blocking_inserts_witness :
  wp (ccask_put_blocking 100 (Some sample_key) 1 (Some [x61; x62; x63]) 3) sample_world
    (λ res w', res = CCASK_OK ∧ store_ok w' [1] (<[sample_key := [x61; x62; x63]]> sample_map) ∧
      active_size w' = active_size sample_world + (16 + 1 + 3)).
Proof.
  apply (put_blocking_inserts 100 sample_world [1] sample_map _ _ sample_key);
    first [exact sample_store_ok | exact sample_calm | done | by vm_compute | vm_compute; lia].
Defined.

Lemma get_looks_up_witness :
  wp (ccask_get 100 (Some sample_key) 1 blank_record) sample_world (λ out w',
    out.1 = CCASK_OK ∧ store_ok w' [1] sample_map ∧
    match sample_map !! sample_key with
    | None => rec_value out.2 = None
    | Some v => ∃ b, rec_value out.2 = Some (b, 0) ∧ e_heap (w_env w') !! b = Some v ∧
        e_heap sample_env !! b = None ∧ rec_value_size out.2 = zlen v
    end).
Proof.
  apply (get_looks_up 100 sample_world [1] sample_map);
    [apply sample_store_ok | apply sample_calm | done |].
  unfold sample_map. intros v. rewrite lookup_singleton_eq. intros [= <-]. vm_compute. lia.
Defined.

Lemma delete_blocking_never_returns_witness :
  ccask_delete_blocking 100 (Some sample_key) 1 sample_world = NoFuel.
Proof.
  apply (delete_blocking_never_returns 100 sample_world [1] sample_map _ _ sample_key);
    first [exact sample_store_ok | exact sample_calm | done | by vm_compute | vm_compute; lia].
Defined.
