(* ===== verification/DurableTheorems.v ===== *)
(** * DurableTheorems: what survives in the files

    The properties of recovery ([keydir.c]), of the iterators and of hint
    files ([hint.c]): what was put is in the files, and the key directory that
    is built from them leads to it. *)
From stdpp Require Import sorting.
From Stdlib Require Import Strings.Byte.
From S2P Require Import Prelude Status Posix SafeIO Codec Crc32 Records Ringbuf Uthash.
From S2P Require Import Keydir Log Filenames Files Disk DiskWrite Iterator World Hint Recovery.
From S2P Require Import HintGen Reader Writer Core Store Durable Samples.
Open Scope Z_scope.

Section theorems.
Context {host : Host} {zlib : Zlib} {laws : ZlibLaws}.

(** C12. A value that was put is in the files: after a blocking [put], the key
    directory can be thrown away and built again from the files, and the
    store has exactly the map with the new value; so it goes on from one
    restart to the next ([durable] and [recoverable] hold again). *)
Theorem put_survives_restart fuel w l m kb ks k vb vs v n :
  store_ok w l m → durable (w_env w, w_files w) l m → recoverable (w_env w, w_files w) l n →
  calm (w_env w) → w_shutting_down w = false →
  cbuf_read (Some kb) ks = Some k → cbuf_read (Some vb) vs = Some v →
  is_u32 ks → is_u32 vs → v ≠ [] →
  active_size w + (16 + ks + vs) ≤ fs_max_active (w_files w) →
  2 * (Z.of_nat n + (16 + ks + vs)) < 2 ^ 32 →
  (length (events (w_env w)) + 2 * (n + Z.to_nat (16 + ks + vs)) + 20 < fuel)%nat →
  wp (_ ← ccask_put_blocking fuel (Some kb) ks (Some vb) vs; ccask_keydir_init fuel) w
    (λ res w', res = CCASK_OK ∧ store_ok w' l (<[k := v]> m) ∧
      durable (w_env w', w_files w') l (<[k := v]> m) ∧
      recoverable (w_env w', w_files w') l (n + Z.to_nat (16 + ks + vs))).
Proof.
  intros Hok Hdu Hrc Hc Hsd Hk Hv Hku Hvu Hvn Hmax Hsm Hfuel.
  pose proof (active_size_recoverable _ _ _ _ Hok Hrc).
  rewrite wp_bind. eapply wp_mono; [eapply put_blocking_ok; try done; lia|].
  intros res w1 (_ & Hok1 & Hc1 & Hf & Hev & h & Hrec & Hcrc & Happ). cbv beta.
  pose proof (zlen_datafile_record _ _ _ Hrec) as Hz.
  assert (zlen (datafile_record_bytes h k v) = 16 + ks + vs) as Hz'.
  { rewrite Hz. destruct Hrec as (_ & <- & <-).
    by rewrite (cbuf_read_zlen _ _ _ Hk), (cbuf_read_zlen _ _ _ Hv). }
  destruct (active_appended_durable w w1 l m h k v n) as [Hdu1 Hrc1]; try done; [lia|].
  replace (length (datafile_record_bytes h k v)) with (Z.to_nat (16 + ks + vs)) in Hrc1 by zlen_lia.
  apply suffix_length in Hev. destruct w1 as [e1 f1 kd1 rg1 th1 ru1 sd1]. simpl in *.
  destruct (keydir_init_store fuel e1 f1 kd1 rg1 th1 ru1 sd1 l (<[k:=v]> m)
    (n + Z.to_nat (16 + ks + vs))) as (e2 & kd2 & Hrun & Hok2 & Hg & _); try done.
  { apply Hok1. }
  { apply (keydir_heap _ (st_keydir _ _ _ Hok1)). }
  { lia. }
  eapply wp_run; [exact Hrun|]. cbv beta. split_and!; [done | done | by eapply durable_grow
    | by eapply recoverable_grow].
Qed.

(** C15. Recovery is replay: whatever the key directory held,
    [ccask_keydir_init] fills it with the entries of the records in the
    files, from the oldest file to the newest one and from the beginning of
    each to its end, so that the newest record of a key counts; it reads the
    hint file of a file that has one; the files stay as they are. *)
Theorem keydir_init_replays fuel w l n :
  disk_ok (w_env w, w_files w) l → recoverable (w_env w, w_files w) l n →
  calm (w_env w) → heap_wf (w_env w) → (length (events (w_env w)) + 2 * n + 20 < fuel)%nat →
  wp (ccask_keydir_init fuel) w (λ res w',
    res = CCASK_OK ∧ keydir_ok (w_env w', w_keydir w') ∧
    keydir_map (w_keydir w') = recovered_index (w_env w, w_files w) l ∅ ∧
    w_files w' = w_files w ∧ inodes (w_env w') = inodes (w_env w)).
Proof.
  destruct w as [e f kd rg th ru sd]. simpl. intros Hd Hrc Hc Hwf Hfuel.
  destruct (keydir_init_ok fuel f rg th ru sd e kd l n) as (e' & kd' & Hrun & Hg & Hkd & Hm & _);
    [done..|].
  eapply wp_run; [exact Hrun|]. simpl. split_and!; try done. apply (eg_inodes _ _ Hg).
Qed.

(** C16. A hint file stands for its data file: when it holds the hints of the
    records in the data file, recovery from either gives the same directory. *)
Theorem hints_recover_the_same fuel w l p x rs rest :
  disk_ok (w_env w, w_files w) l → p ∈ l → fs_nodes (w_files w) !! p = Some x →
  Forall log_record_ok rs → Forall (λ r, lr_key r ≠ []) rs → next_record rest = None →
  data_content (w_env w, w_files w) (file_id x) = Some (log_bytes rs ++ rest) →
  hint_content (w_env w, w_files w) (file_id x) = Some (hint_bytes (hints_of 0 rs)) →
  2 * zlen (log_bytes rs ++ rest) < 2 ^ 32 →
  calm (w_env w) → keydir_ok (w_env w, w_keydir w) →
  (length (events (w_env w)) + 2 * length (log_bytes rs ++ rest) + 20 < fuel)%nat →
  wp (recover_hintfile fuel p) w (λ r1 w1, wp (recover_datafile fuel p) w (λ r2 w2,
    r1 = CCASK_OK ∧ r2 = CCASK_OK ∧ keydir_map (w_keydir w1) = keydir_map (w_keydir w2) ∧
    keydir_map (w_keydir w2) = index_log (file_id x) 0 rs (keydir_map (w_keydir w)))).
Proof.
  destruct w as [e f kd rg th ru sd]. simpl.
  intros Hd Hp Hx Hrs Hkeys Hrest Hdc Hhc Hsm Hc Hkd Hfuel.
  pose proof (hint_bytes_length 0 _ Hrs) as Hhl. pose proof (zlen_nonneg rest).
  rewrite zlen_app in Hsm. rewrite length_app in Hfuel.
  assert (length (log_bytes rs ++ rest) = length (log_bytes rs) + length rest)%nat as Hlen
    by apply length_app.
  destruct (recover_hintfile_ok fuel f rg th ru sd e kd l p x _ Hd Hp Hx Hhc)
    as (e1 & kd1 & Hrun1 & _ & _ & Hm1 & _); [zlen_lia | done | done | zlen_lia |].
  destruct (recover_datafile_ok fuel f rg th ru sd e kd l p x _ Hd Hp Hx Hdc)
    as (e2 & kd2 & Hrun2 & _ & _ & Hm2 & _); [zlen_lia | done | done | lia |].
  eapply wp_run; [exact Hrun1|]. eapply wp_run; [exact Hrun2|]. simpl.
  rewrite hints_roundtrip, index_hints_of in Hm1 by (done || zlen_lia).
  rewrite records_of_app, records_of_eq, Hrest, app_nil_r in Hm2 by done.
  split_and!; congruence.
Qed.

(** C17. A crash in the middle of an append does no harm: of a record that
    was written up to any byte before its last one recovery sees nothing, and
    of the records before it everything. *)
Theorem torn_record_ignored fuel w l p x rs r j :
  disk_ok (w_env w, w_files w) l → p ∈ l → fs_nodes (w_files w) !! p = Some x →
  Forall log_record_ok rs → log_record_ok r → (j < length (log_record_bytes r))%nat →
  data_content (w_env w, w_files w) (file_id x) =
    Some (log_bytes rs ++ take j (log_record_bytes r)) →
  zlen (log_bytes (rs ++ [r])) < 2 ^ 32 →
  calm (w_env w) → keydir_ok (w_env w, w_keydir w) →
  (length (events (w_env w)) + length (log_bytes (rs ++ [r])) + 20 < fuel)%nat →
  wp (recover_datafile fuel p) w (λ res w', res = CCASK_OK ∧
    keydir_map (w_keydir w') = index_log (file_id x) 0 rs (keydir_map (w_keydir w))).
Proof.
  destruct w as [e f kd rg th ru sd]. simpl.
  intros Hd Hp Hx Hrs Hr Hj Hdc Hsm Hc Hkd Hfuel.
  assert (length (log_bytes (rs ++ [r])) = length (log_bytes rs) + length (log_record_bytes r))%nat
    as Hlen.
  { rewrite log_bytes_app, length_app. unfold log_bytes at 2. simpl. by rewrite app_nil_r. }
  assert (length (log_bytes rs ++ take j (log_record_bytes r)) ≤ length (log_bytes (rs ++ [r])))%nat
    as Hle by (rewrite length_app, length_take; lia).
  destruct (recover_datafile_ok fuel f rg th ru sd e kd l p x _ Hd Hp Hx Hdc)
    as (e2 & kd2 & Hrun2 & _ & _ & Hm2 & _); [zlen_lia | done | done | lia |].
  eapply wp_run; [exact Hrun2|]. simpl. by rewrite records_of_torn in Hm2.
Qed.

(** C18. The hint thread on a file that is no longer written to: it ends, the
    hint file it creates has the hints of all records in their order, the
    node says so, and the store holds the same map, now and after a restart. *)
Theorem hint_thread_writes_hints fuel w l m n p x content :
  store_ok w l m → durable (w_env w, w_files w) l m → recoverable (w_env w, w_files w) l n →
  p ∈ l → head l ≠ Some p → fs_nodes (w_files w) !! p = Some x →
  data_content (w_env w, w_files w) (file_id x) = Some content →
  Forall (λ r, lr_key r ≠ []) (records_of content) →
  hint_ino (w_env w, w_files w) (file_id x) = None →
  calm (w_env w) →
  (length (events (w_env w)) + length content + 20 < fuel)%nat →
  wp (hintfile_generator_thread fuel p) w (λ _ w',
    hint_content (w_env w', w_files w') (file_id x) =
      Some (hint_bytes (hints_of 0 (records_of content))) ∧
    fs_nodes (w_files w') !! p = Some (set_file_has_hint true x) ∧
    store_ok w' l m ∧ durable (w_env w', w_files w') l m ∧
    recoverable (w_env w', w_files w') l n).
Proof.
  destruct w as [e f kd rg th ru sd]. cbn [w_env w_files].
  intros Hok Hdu Hrc Hp Hh Hx Hdc Hkeys Hnone Hc Hfuel.
  pose proof (st_disk _ _ _ Hok) as Hd. cbn [w_env w_files] in Hd.
  destruct (do_dir _ _ Hd) as (a & dir & Hdir & _). cbn [snd] in Hdir.
  assert (zlen content < 2 ^ 32) as Hlen.
  { pose proof (rc_small _ _ _ Hrc).
    destruct (rc_data _ _ _ Hrc p x Hp Hx) as (c & Hc' & ?). simplify_eq. zlen_lia. }
  destruct (hintfile_generator_ok fuel f kd rg th ru sd e l p x a dir content) as (e' & Hrun & Hw);
    try done; [apply (keydir_heap _ (st_keydir _ _ _ Hok))|].
  eapply wp_run; [exact Hrun|]. cbn [w_env w_files].
  assert (log_of (e, f) (file_id x) = records_of content) as Hlog.
  { unfold log_of. by rewrite Hdc. }
  split; [by eapply hint_file_new|]. split; [simpl; apply lookup_insert_eq|].
  split; [by eapply hint_file_store|]. split; [by eapply hint_file_durable|].
  eapply hint_file_recoverable; try done; by rewrite Hlog.
Qed.
End theorems.

Lemma put_survives_restart_witness :
  wp (_ ← ccask_put_blocking 200 (Some [x6b; x32]) 2 (Some [x61; x62; x63]) 3;
      ccask_keydir_init 200) sample_world
    (λ res w', res = CCASK_OK ∧ store_ok w' [1] (<[[x6b; x32] := [x61; x62; x63]]> sample_map) ∧
      durable (w_env w', w_files w') [1] (<[[x6b; x32] := [x61; x62; x63]]> sample_map) ∧
      recoverable (w_env w', w_files w') [1] (19 + Z.to_nat (16 + 2 + 3))).
Proof.
  apply (put_survives_restart 200 sample_world [1] sample_map);
    first [exact sample_store_ok | exact sample_durable | exact sample_recoverable
          | exact sample_calm | done | by vm_compute | vm_compute; lia].
Defined.

Lemma keydir_init_replays_witness :
  wp (ccask_keydir_init 100) rotated_world (λ res w',
    res = CCASK_OK ∧ keydir_ok (w_env w', w_keydir w') ∧
    keydir_map (w_keydir w') = recovered_index (rotated_env, rotated_files) [5; 1] ∅ ∧
    w_files w' = rotated_files ∧ inodes (w_env w') = inodes rotated_env).
Proof.
  apply (keydir_init_replays 100 rotated_world [5; 1] 19);
    first [exact two_disk_ok | exact two_recoverable | exact rotated_calm
          | exact rotated_heap_wf | vm_compute; lia].
Defined.

Lemma hints_recover_the_same_witness :
  let rs := [LogRecord sample_header sample_key sample_value] in
  wp (recover_hintfile 100 1) hinted_world (λ r1 w1, wp (recover_datafile 100 1) hinted_world
    (λ r2 w2, r1 = CCASK_OK ∧ r2 = CCASK_OK ∧
      keydir_map (w_keydir w1) = keydir_map (w_keydir w2) ∧
      keydir_map (w_keydir w2) = index_log 0 0 rs (keydir_map (w_keydir hinted_world)))).
Proof.
  intros rs. apply (hints_recover_the_same 100 hinted_world [1] 1 sample_node rs []).
  - exact hinted_disk_ok.
  - by left.
  - by vm_compute.
  - apply Forall_singleton, sample_log_record_ok.
  - by repeat constructor.
  - by vm_compute.
  - by vm_compute.
  - by vm_compute.
  - by vm_compute.
  - exact hinted_calm.
  - exact hinted_keydir_ok.
  - vm_compute. lia.
Defined.

(** The sample record is cut off after its header. *)
Lemma torn_record_ignored_witness :
  wp (recover_datafile 100 1) torn_world (λ res w', res = CCASK_OK ∧
    keydir_map (w_keydir w') =
      index_log 0 0 [LogRecord sample_header sample_key sample_value]
        (keydir_map (w_keydir torn_world))).
Proof.
  apply (torn_record_ignored 100 torn_world [1] 1 sample_node
    [LogRecord sample_header sample_key sample_value]
    (LogRecord sample_header sample_key sample_value) 17).
  - apply with_content_disk_ok.
  - by left.
  - by vm_compute.
  - apply Forall_singleton, sample_log_record_ok.
  - apply sample_log_record_ok.
  - vm_compute. lia.
  - by vm_compute.
  - by vm_compute.
  - exact torn_calm.
  - apply with_content_keydir_ok.
  - vm_compute. lia.
Defined.

Lemma hint_thread_writes_hints_witness :
  wp (hintfile_generator_thread 100 1) rotated_world (λ _ w',
    hint_content (w_env w', w_files w') 0 =
      Some (hint_bytes (hints_of 0 (records_of sample_content))) ∧
    fs_nodes (w_files w') !! 1 = Some (set_file_has_hint true rotated_old) ∧
    store_ok w' [5; 1] sample_map ∧ durable (w_env w', w_files w') [5; 1] sample_map ∧
    recoverable (w_env w', w_files w') [5; 1] 19).
Proof.
  apply (hint_thread_writes_hints 100 rotated_world [5; 1] sample_map 19 1 rotated_old sample_content);
    first [exact rotated_store_ok | exact two_durable | exact two_recoverable
          | exact rotated_calm | by right; left | done | by vm_compute
          | by rewrite sample_records; repeat constructor | vm_compute; lia].
Defined.
