(* ===== verification/SystemTheorems.v ===== *)
(** * SystemTheorems: what callers see of the whole program

    The properties of a running store: a write with rotation, and any sequence
    of calls and turns of the threads. *)
From stdpp Require Import sorting.
From Stdlib Require Import Strings.Byte.
From S2P Require Import Prelude Status Posix SafeIO Codec Crc32 Records Ringbuf Uthash Keydir Log.
From S2P Require Import Filenames Files Disk World Hint Recovery Reader Writer Core.
From S2P Require Import DiskWrite HintGen Store Durable Tidy Run Turns System Samples.
Open Scope Z_scope.

Section theorems.
Context {host : Host} {zlib : Zlib} {laws : ZlibLaws}.


(** C13. Whatever is in the active file, a blocking [put] of a key and a value
    that are not empty, whose record fits into an empty file, succeeds, if need
    be in a new active file; the active
    file never becomes larger than the maximum; and the store goes on: what
    was there is there, the hint thread of a file that was closed is waiting
    to run, and the files recover to the new map. *)
Theorem put_within_bounds fuel w l m n kb ks k vb vs v :
  running w l m n → w_shutting_down w = false →
  cbuf_read (Some kb) ks = Some k → cbuf_read (Some vb) vs = Some v →
  is_u32 ks → is_u32 vs → k ≠ [] → v ≠ [] → is_u64 (active_id w + 1) →
  active_size w ≤ fs_max_active (w_files w) → record_size k v ≤ fs_max_active (w_files w) →
  2 * (Z.of_nat n + record_size k v) < 2 ^ 32 →
  (length (events (w_env w)) + Z.to_nat (record_size k v) < fuel)%nat →
  wp (ccask_put_blocking fuel (Some kb) ks (Some vb) vs) w (λ res w',
    res = CCASK_OK ∧ active_size w' ≤ fs_max_active (w_files w') ∧
    ∃ l', running w' l' (<[k := v]> m) (n + Z.to_nat (record_size k v))).
Proof.
  intros Hr Hup Hk Hv Hku Hvu Hkn Hvn Hid Has Hsz Hsm Hfuel.
  destruct (put_running fuel w l m n kb ks k vb vs v Hr Hup Hk Hv Hku Hvu Hkn Hvn Hid Hsz Hsm Hfuel)
    as (w' & l' & Hrun & Hr' & _ & _ & Has').
  eapply wp_run; [exact Hrun|]. split; [done|]. split; [by apply Has'|]. by exists l'.
Qed.

(** C2. Clients and threads, in any order: every sequence of puts, queued puts,
    gets, turns of the writer thread, runs of hint threads and turns of the
    threads that close descriptors, in which the keys and values that are put
    are not empty and their records fit into a file ([op_ok]), returns, and
    returns what a map with a bounded queue returns; the files recover to the
    map all the time.  The identifiers stay below [2^64] and the sizes of the
    files below [2^31]. *)
Theorem run_ops_simulates fuel cap mx os w l m q n :
  system cap mx w l m q n → Forall (op_ok mx) os →
  active_id w + Z.of_nat (length os) < 2 ^ 64 →
  2 * Z.of_nat (n + queue_bytes q + ops_bytes os) < 2 ^ 32 →
  (length (events (w_env w)) + (n + queue_bytes q + ops_bytes os) + 20 < fuel)%nat →
  wp (run_ops fuel os) w (λ rs w',
    rs = (abs_ops cap os (m, q)).1 ∧ ∃ l' n', system cap mx w' l'
      (abs_ops cap os (m, q)).2.1 (abs_ops cap os (m, q)).2.2 n').
Proof.
  intros Hsy Hok Hid Hsm Hfuel.
  destruct (run_ops_refine cap mx fuel os w l m q n) as (w' & l' & n' & m' & q' & rs & Habs & Hrun & Hsy' & _);
    [done..|].
  eapply wp_run; [exact Hrun|]. rewrite Habs. split; [done|]. by exists l', n'.
Qed.
End theorems.

(** ** A small store *)

(** The sample store with files of at most 40 bytes and a ring for two
    records. *)
Definition small_files : files_state := set_fs_max_active 40 sample_files.
Definition small_ring : ccask_writer_ringbuf := new_ring 3 4 5.
Definition small_env : env :=
  put_block (zeros (3 * sizeof_datafile_record)) (put_block (zeros sizeof_ringbuf) sample_env).
Definition small_world : world :=
  World small_env small_files sample_keydir (Some small_ring) [] [TWriter] false.

Lemma small_grow : env_grow sample_env small_env.
Proof.
  eapply env_grow_trans; [apply put_block_grow, sample_heap_wf|].
  apply put_block_grow. eauto using sample_heap_wf with ccask.
Qed.

Lemma small_store_ok ru : store_ok (World sample_env small_files sample_keydir (Some small_ring) [] ru false) [1] sample_map.
Proof.
  destruct sample_store_ok as [[H1 H2 H3 H4 H5] Hk Hm]. constructor; [|done..].
  constructor; try done. destruct H1. by constructor.
Qed.

Lemma small_running : running small_world [1] sample_map 19.
Proof.
  eapply running_grow; [exact small_grow|].
  constructor; unfold disk; cbn [w_env w_files w_running].
  - apply small_store_ok.
  - destruct sample_durable. by constructor.
  - destruct sample_recoverable. by constructor.
  - exact sample_calm.
  - by intros p ->%list_elem_of_singleton.
  - intros id Hid Hu. apply eq_None_not_Some. intros [ino Hino].
    unfold data_ino in Hino. simpl in Hino.
    apply lookup_singleton_Some in Hino as [Heq _].
    change "d/0.data"%string with (filepath "d" 0 ".data") in Heq.
    apply filepath_inj in Heq; [|done|done]. subst id. by vm_compute in Hid.
  - intros id Hid Hu. apply eq_None_not_Some. intros [ino Hino].
    unfold hint_ino in Hino. simpl in Hino. apply lookup_singleton_Some in Hino as [Heq _].
    symmetry in Heq. change "d/0.data"%string with (filepath "d" 0 ".data") in Heq.
    by apply hint_path_not_data in Heq.
  - intros p ->%list_elem_of_singleton. change (node_id _ 1) with 0.
    change (log_of _ 0) with (log_of (sample_env, sample_files) 0). rewrite sample_log.
    by repeat constructor.
  - by intros h p ?%list_elem_of_singleton.
  - by intros h h' p ?%list_elem_of_singleton.
  - by intros p ?%list_elem_of_singleton.
  - intros p x ->%list_elem_of_singleton. cbn [fs_nodes small_files set_fs_max_active sample_files].
    rewrite lookup_singleton_eq. intros <-%(inj Some) [? Hj]. by vm_compute in Hj.
Qed.

(** The directory's name, the node and the ring are four blocks. *)
Lemma small_owns : owns (owned small_world ++ handles small_world) small_world.
Proof.
  constructor.
  - by apply (bool_decide_unpack _); vm_compute.
  - intros c Hc. change (c ∈ [0; 1; 5; 4]) in Hc. decompose_list_elem_of; subst c; vm_compute; eauto.
  - intros c Hc. change (c ∈ [0; 1; 5; 4]) in Hc. change (c ∉ [2; 3]).
    decompose_list_elem_of; subst c; set_solver by lia.
Qed.

(** The only file of the small store. *)
Lemma small_only_file (ext : string) id i :
  file_ino small_env "d" ext id = Some i → filepath "d" id ext = filepath "d" 0 ".data".
Proof.
  unfold file_ino. intros Hi. simpl in Hi. apply lookup_singleton_Some in Hi as [Heq _].
  symmetry. exact Heq.
Qed.

Lemma small_tidy : tidy_world small_world.
Proof.
  intros a dir [= <- <-]. constructor; intros id Hu [i Hi].
  - apply small_only_file, filepath_inj in Hi as ->; [by left | done..].
  - exfalso. apply small_only_file in Hi. by apply hint_path_not_data in Hi.
Qed.

Lemma small_no_temps : no_temps small_env "d".
Proof.
  intros id _. apply eq_None_not_Some. intros [i Hi%small_only_file]. by apply temp_not_data in Hi.
Qed.

Lemma small_system : system 3 40 small_world [1] sample_map [] 19.
Proof.
  constructor; [exact small_running | done | | exact small_owns | constructor | by left | done | by vm_compute | constructor | exact small_tidy].
  exists small_ring. destruct (new_ring_ok 3 4 5 ltac:(lia)) as [Hok Hq]. do 2 (split; [done|]).
  constructor; [done | exact Hok | done |]. exists []. split; [|exact Hq]. split; constructor.
Qed.


Lemma put_within_bounds_witness :
  wp (ccask_put_blocking 200 (Some [x6b; x32]) 2 (Some [x61; x62; x63; x64]) 4) small_world
    (λ res w', res = CCASK_OK ∧ active_size w' ≤ fs_max_active (w_files w') ∧
      ∃ l', running w' l' (<[[x6b; x32] := [x61; x62; x63; x64]]> sample_map) (19 + Z.to_nat 22)).
Proof.
  apply (put_within_bounds 200 small_world [1] sample_map 19 _ 2 [x6b; x32] _ 4
    [x61; x62; x63; x64]);
    first [exact small_running | done | by vm_compute | vm_compute; lia].
Defined.

(** The third put does not fit in the first file; the hint thread is then the
    thread [20] of the node [1]. *)
Definition small_ops : list op :=
  [OQueue [x6b; x32] [x61; x62; x63]; OGet [x6b; x32]; OWriter; OGet [x6b; x32];
   OPut sample_key [x76; x32]; OHint 20 1; OWriter; OGet sample_key; OGet [x6b; x32]].

Lemma run_ops_simulates_witness :
  wp (run_ops 200 small_ops) small_world (λ rs w',
    rs = [RStatus CCASK_OK; RValue None; RDone; RValue (Some [x61; x62; x63]);
          RStatus CCASK_OK; RDone; RWait; RValue (Some [x76; x32]);
          RValue (Some [x61; x62; x63])] ∧
    ∃ l' n', system 3 40 w' l' (<[sample_key := [x76; x32]]>
      (<[[x6b; x32] := [x61; x62; x63]]> sample_map)) [] n').
Proof.
  apply (run_ops_simulates 200 3 40 small_ops small_world [1] sample_map [] 19).
  - exact small_system.
  - repeat (apply Forall_cons_2; [first [exact I | split; [done | split; [done | by vm_compute]]]|]).
    apply Forall_nil_2.
  - by vm_compute.
  - by vm_compute.
  - vm_compute. lia.
Defined.
