(* ===== verification/RaceTheorems.v ===== *)
(** * RaceTheorems: what may come between the steps of a get

    The properties of a [ccask_get] whose steps are apart. *)
From stdpp Require Import sorting.
From Stdlib Require Import Strings.Byte.
From S2P Require Import Prelude Status Posix SafeIO Codec Crc32 Records Ringbuf Uthash Keydir Log.
From S2P Require Import Filenames Files Disk World Hint Recovery Reader Writer Core.
From S2P Require Import Store Durable Tidy Run Turns System Private Races Samples SystemTheorems.
Open Scope Z_scope.

(** A block into which [v5] bytes of [v] were copied. *)
Lemma copied_block (v5 v : bytes) n4 :
  zlen v5 ≤ zlen v → zlen v5 ≤ n4 → let blk := take (length v5) v ++ drop (length v5) (zeros n4) in
  zlen blk = n4 ∧ take (length v5) blk = take (length v5) v ∧
  (n4 = zlen v → zlen v5 = zlen v → blk = v).
Proof.
  intros H1 H2. cbv zeta. pose proof (zlen_nonneg v5).
  pose proof (zlen_zeros n4 ltac:(lia)) as Hz.
  assert (length (take (length v5) v) = length v5) as Hlen.
  { rewrite length_take. unfold zlen in *. lia. }
  split; [|split].
  - unfold zlen in *. rewrite length_app, length_drop, Hlen. lia.
  - rewrite take_app_le by lia. by rewrite take_ge by lia.
  - intros E4 E5. rewrite take_ge, drop_ge, app_nil_r by (unfold zlen in *; lia). done.
Qed.

Section theorems.
Context {host : Host} {zlib : Zlib} {laws : ZlibLaws}.
Context (fuel : nat) (cap mx : Z) (o : schedule) (w : world) (l : list Z)
  (m : gmap bytes bytes) (q : queue) (n : nat) (k : bytes).

(** The store can run all the calls, and it has the key. *)
Hypothesis Hsystem : system cap mx w l m q n.
Hypothesis Hkey : is_Some (m !! k).
Hypothesis Hops : Forall (op_ok mx) (calls o).
Hypothesis Hids : active_id w + Z.of_nat (length (calls o)) < 2 ^ 64.
Hypothesis Hsizes : 2 * Z.of_nat (n + queue_bytes q + ops_bytes (calls o)) < 2 ^ 32.
Hypothesis Hfuel :
  (length (events (w_env w)) + (n + queue_bytes q + ops_bytes (calls o)) + 20 < fuel)%nat.

(** The map and the queue when each of the steps runs. *)
Let s1 := (abs_ops cap (before_allocate o) (m, q)).2.
Let s2 := (abs_ops cap (before_place o) s1).2.
Let s3 := (abs_ops cap (before_read o) s2).2.
Let s4 := (abs_ops cap (before_space o) s3).2.
Let s5 := (abs_ops cap (before_copy o) s4).2.
Let s6 := (abs_ops cap (before_result o) s5).2.

(** C7. A get with other calls and turns of threads before each of its steps:
    puts of keys and values that are not empty and fit into a file, gets, and
    turns of the writer, hint and invalidator threads.  If the value [v] that
    the key has when its place is looked up is as long as the buffers that
    were allocated, and no more is copied than was read and than there is room
    for, then the get succeeds, the store goes on as if the get had not been
    there, and the block has as much of [v] as the length of the value at the
    time of the copy, with the size of the value at the end.  So if the length
    does not change in between the get returns [v], although puts of the key,
    rotations and the threads may have changed the entry before and since. *)
Theorem get_reads_now v1 v v4 v5 v6 :
  s1.1 !! k = Some v1 → s2.1 !! k = Some v → s4.1 !! k = Some v4 → s5.1 !! k = Some v5 →
  s6.1 !! k = Some v6 → zlen v = zlen v1 → zlen v5 ≤ zlen v → zlen v5 ≤ zlen v4 →
  wp (split_get fuel k o) w (λ out w', ∃ ts c blk,
    out = Some ((abs_ops cap (calls o) (m, q)).1,
      (CCASK_OK, CRecord ts (zlen k) (zlen v6) (Some (c, 0)))) ∧
    e_heap (w_env w') !! c = Some blk ∧ zlen blk = zlen v4 ∧
    take (length v5) blk = take (length v5) v ∧
    (zlen v4 = zlen v → zlen v5 = zlen v → blk = v) ∧
    ∃ l' n', system cap mx w' l' s6.1 s6.2 n').
Proof.
  destruct (split_get_meets fuel cap mx k o w l m q n Hsystem Hkey Hops Hids Hsizes Hfuel) as
    (rs1 & t1 & rs2 & t2 & rs3 & t3 & E1 & E2 & E3 & Hv1 & Hv2 & _ & Hgo). cbv zeta in *.
  subst s1 s2 s3 s4 s5 s6. rewrite E1. cbn [snd fst]. rewrite E2. cbn [snd fst]. rewrite E3. cbn [snd fst].
  rewrite Hv1, Hv2. intros [= <-] [= <-] H4 H5 H6 Heq Hle5 Hle4.
  destruct (Hgo Heq) as (rs4 & t4 & rs5 & t5 & E4 & E5 & Hv4 & Hv5 & _ & Hok).
  rewrite E4 in H4, H5, H6 |- *. cbn [snd fst] in *. rewrite E5 in H5, H6 |- *. cbn [snd fst] in *.
  rewrite Hv4 in H4. rewrite Hv5 in H5. injection H4 as <-. injection H5 as <-.
  destruct Hok as (rs6 & t6 & ts & c & E6 & Hv6 & Hrun & Hsy & Hc); [lia|].
  rewrite E6 in H6 |- *. cbn [snd fst] in *. rewrite Hv6 in H6. injection H6 as <-.
  eapply wp_run; [exact Hrun|].
  destruct (copied_block (at_value t5) (at_value t2) (zlen (at_value t4)) Hle5 Hle4) as (B1 & B2 & B3).
  eexists ts, c, _. split; [done|]. split; [exact Hc|]. do 3 (split; [done|]). by eexists _, _.
Qed.

End theorems.

(** ** Witnesses *)

(** Before the buffers are allocated the value becomes longer.  Before its
    place is looked up it is replaced, by the writer thread, and the active
    file is rotated.  Another value is put before the record is read, which
    moves the entry to a new file, and a third one before the copy. *)
Definition moved : schedule := Schedule
  [OQueue sample_key [x78; x79; x7a]; OPut sample_key [x61; x62; x63]]
  [OGet sample_key; OWriter; OPut [x6b; x32] [x61]]
  [OPut sample_key [x31; x32; x33]] [OGet sample_key] [OPut sample_key [x34; x35; x36]] [].

(** The calls have records that fit. *)
Ltac ops_fit :=
  repeat (apply Forall_cons_2; [first [exact I | split; [done | split; [done | by vm_compute]]]|]);
  apply Forall_nil_2.

Lemma get_reads_now_witness :
  wp (split_get 400 sample_key moved) small_world (λ out w', ∃ ts c blk,
    out = Some ([RStatus CCASK_OK; RStatus CCASK_OK; RValue (Some [x61; x62; x63]); RDone; RStatus CCASK_OK;
        RStatus CCASK_OK; RValue (Some [x31; x32; x33]); RStatus CCASK_OK],
      (CCASK_OK, CRecord ts 1 3 (Some (c, 0)))) ∧
    e_heap (w_env w') !! c = Some blk ∧ zlen blk = 3 ∧ take 3 blk = [x78; x79; x7a] ∧
    (3 = 3 → 3 = 3 → blk = [x78; x79; x7a]) ∧
    ∃ l' n', system 3 40 w' l' (abs_ops 3 (calls moved) (sample_map, [])).2.1 [] n').
Proof.
  apply (get_reads_now 400 3 40 moved small_world [1] sample_map [] 19 sample_key)
    with (v1 := [x61; x62; x63]) (v := [x78; x79; x7a]) (v4 := [x31; x32; x33]) (v5 := [x34; x35; x36])
      (v6 := [x34; x35; x36]);
    [exact small_system | by eexists | ops_fit | by vm_compute | by vm_compute | vm_compute; lia
    | by vm_compute..].
Defined.


