(* ===== verification/StartTheorems.v ===== *)
(** * StartTheorems: opening a store

    The properties of [ccask_init]: on an empty directory, and on the
    directory of a store whose process has died. *)
From stdpp Require Import sorting.
From Stdlib Require Import Strings.Byte.
From S2P Require Import Prelude Status Posix SafeIO Codec Crc32 Records Ringbuf Uthash Keydir Log.
From S2P Require Import Filenames Files Disk DiskWrite World Hint Recovery Reader Writer Core.
From S2P Require Import Store Durable Tidy Run Turns System Scan Directory Start Shutdown Samples SystemTheorems.
Open Scope Z_scope.

Section theorems.
Context {host : Host} {zlib : Zlib} {laws : ZlibLaws}.

(** C14. Opening an empty directory, whatever the statics of the program held,
    succeeds and establishes the invariant of the whole system: a file [0]
    that is active and empty, an empty key directory that represents the
    empty map, an empty ring of the capacity asked for, and a writer thread. *)
Theorem init_establishes fuel opts es e f kd rg th sd :
  listing es [] → opt_data_dir opts ≠ EmptyString →
  (∀ id, is_u64 id → k_dir (e_kernel e) !! filepath (opt_data_dir opts) id ".data" = None) →
  (∀ id, is_u64 id → k_dir (e_kernel e) !! filepath (opt_data_dir opts) id ".hint" = None) →
  kernel_wf (e_kernel e) → calm e → heap_wf e →
  0 < opt_writer_ringbuf_capacity opts < 2 ^ 63 → 0 ≤ opt_datafile_rotate_threshold opts →
  (length (events e) + 20 < fuel)%nat →
  wp (ccask_init fuel opts es) (World e f kd rg th [] sd) (λ res w', res = CCASK_OK ∧
    ∃ l, system (opt_writer_ringbuf_capacity opts) (opt_datafile_rotate_threshold opts) w' l ∅ [] 0).
Proof.
  intros Hes Hne Hdata Hhint Hk Hc Hwf Hcap Hthr Hfuel.
  destruct (init_fresh fuel opts es e f kd rg th sd Hes Hne Hdata Hhint Hk Hc Hwf Hcap Hthr Hfuel)
    as (w' & l & Hrun & Hsys & _).
  eapply wp_run; [exact Hrun|]. split; [done|]. by exists l.
Qed.

(** C3. After a crash between any two steps of the system, opening the
    directory again gives back the map: only the records that were still in
    the ring are lost.  [readdir] may give the files in any order; the new
    process has new nodes and descriptors, and the same files. *)
Theorem crash_and_restart fuel cap w l0 m q n a0 opts es ids e f kd rg th sd :
  system cap (opt_datafile_rotate_threshold opts) w l0 m q n →
  fs_data_dir (w_files w) = Some (a0, opt_data_dir opts) →
  listing es ids → ids ≡ₚ node_id (fs_nodes (w_files w)) <$> l0 →
  k_dir (e_kernel e) = k_dir (e_kernel (w_env w)) → inodes e = inodes (w_env w) →
  kernel_wf (e_kernel e) → calm e → heap_wf e →
  0 < opt_writer_ringbuf_capacity opts < 2 ^ 63 →
  (length (events e) + 2 * n + 20 < fuel)%nat →
  wp (ccask_init fuel opts es) (World e f kd rg th [] sd) (λ res w', res = CCASK_OK ∧
    ∃ l, system (opt_writer_ringbuf_capacity opts) (opt_datafile_rotate_threshold opts) w' l m [] n).
Proof.
  intros Hsy Hd Hes Hids Hdir Hinodes Hk Hc Hwf Hcap Hfuel.
  pose proof (sy_running _ _ _ _ _ _ _ Hsy) as Hr. pose proof (sy_active _ _ _ _ _ _ _ Hsy) as Has.
  pose proof (running_dir_holds w l0 m n a0 _ Hr Hd) as Hdh.
  destruct (init_restores fuel opts es (node_id (fs_nodes (w_files w)) <$> l0) ids m n e f kd rg th sd)
    as (w' & l & Hrun & Hsys & _); [| | | | done..|].
  { exact (dir_holds_same (w_env w) e _ _ _ _ Hdir Hinodes Hdh). }
  { apply (tidy_same (w_env w) _ _ (file_ids w)); [exact Hdir | | exact (sy_tidy _ _ _ _ _ _ _ Hsy _ _ Hd)].
    intros i (p & -> & Hp)%list_elem_of_fmap. apply list_elem_of_fmap_2.
    by rewrite <-(rep_table _ _ (do_rep _ _ (st_disk _ _ _ (rn_store _ _ _ _ Hr)))). }
  { destruct (do_dir _ _ (st_disk _ _ _ (rn_store _ _ _ _ Hr))) as (a & dir & Hd' & Hne).
    cbn [snd] in Hd'. rewrite Hd in Hd'. by injection Hd' as _ ->. }
  { exact (top_file_small w l0 m n a0 _ e _ Hr Has Hd Hdir Hinodes). }
  eapply wp_run; [exact Hrun|]. split; [done|]. by exists l.
Qed.

(** C39. A hint file is trusted as it is: when the thread that writes it was
    stopped after the hints of the first records, recovery succeeds with
    these records only, and a key that only newer records have is not found
    any more; recovery from the data file would have found them all. *)
Theorem partial_hints_hide_records fuel w l p x rs rs' :
  disk_ok (w_env w, w_files w) l → p ∈ l → fs_nodes (w_files w) !! p = Some x →
  Forall log_record_ok (rs ++ rs') → Forall (λ r, lr_key r ≠ []) (rs ++ rs') →
  data_content (w_env w, w_files w) (file_id x) = Some (log_bytes (rs ++ rs')) →
  hint_content (w_env w, w_files w) (file_id x) = Some (hint_bytes (hints_of 0 rs)) →
  2 * zlen (log_bytes (rs ++ rs')) < 2 ^ 32 →
  calm (w_env w) → keydir_ok (w_env w, w_keydir w) →
  (length (events (w_env w)) + 2 * length (log_bytes (rs ++ rs')) + 20 < fuel)%nat →
  wp (recover_hintfile fuel p) w (λ res w', res = CCASK_OK ∧
    keydir_map (w_keydir w') = index_log (file_id x) 0 rs (keydir_map (w_keydir w)) ∧
    ∀ k, k ∉ lr_key <$> rs → keydir_map (w_keydir w') !! k = keydir_map (w_keydir w) !! k) ∧
  wp (recover_datafile fuel p) w (λ res w', res = CCASK_OK ∧
    keydir_map (w_keydir w') = index_log (file_id x) 0 (rs ++ rs') (keydir_map (w_keydir w))).
Proof.
  destruct w as [e f kd rg th ru sd]. simpl. intros Hd Hp Hx Hall Hkeyall Hdc Hhc Hsm Hc Hkd Hfuel.
  split.
  2: { destruct (recover_datafile_ok fuel f rg th ru sd e kd l p x _ Hd Hp Hx Hdc)
         as (e2 & kd2 & Hrun2 & _ & _ & Hm2 & _); [zlen_lia | done | done | lia |].
       eapply wp_run; [exact Hrun2|]. split; [done|]. cbn [w_keydir].
       rewrite <-(app_nil_r (log_bytes (rs ++ rs'))), records_of_app in Hm2 by done.
       change (records_of []) with (@nil log_record) in Hm2. by rewrite app_nil_r in Hm2. }
  apply Forall_app in Hall as [Hrs _]. apply Forall_app in Hkeyall as [Hkeys _].
  rewrite log_bytes_app, zlen_app in Hsm. rewrite log_bytes_app, length_app in Hfuel.
  pose proof (zlen_nonneg (log_bytes rs')). pose proof (hint_bytes_length 0 _ Hrs) as Hhl.
  destruct (recover_hintfile_ok fuel f rg th ru sd e kd l p x _ Hd Hp Hx Hhc)
    as (e1 & kd1 & Hrun & _ & _ & Hm & _); [zlen_lia | done | done | zlen_lia |].
  eapply wp_run; [exact Hrun|]. split; [done|]. simpl.
  rewrite hints_roundtrip, index_hints_of in Hm by (done || zlen_lia). split; [done|].
  intros k Hk. by rewrite Hm, index_log_other.
Qed.
End theorems.

(** ** Witnesses *)

Definition start_options : ccask_options_t := Options "d" 4 40.

Lemma init_establishes_witness :
  wp (ccask_init 50 start_options [Dirent "." (Some false); Dirent "README" (Some false)])
    (World empty_env files_state_init (Keydir [] rwlock_new) None [] [] true)
    (λ res w', res = CCASK_OK ∧ ∃ l, system 4 40 w' l ∅ [] 0).
Proof.
  apply (init_establishes 50 start_options _ empty_env).
  - apply listing_dot; [by left|]. apply listing_other; [by vm_compute | done | constructor].
  - done.
  - intros id _. apply lookup_empty.
  - intros id _. apply lookup_empty.
  - constructor; simpl; [by intros fd [? ?] | lia | done].
  - by repeat constructor.
  - exact empty_heap_wf.
  - simpl. lia.
  - simpl. lia.
  - simpl. lia.
Defined.

(** The files of the small store, and nothing else. *)
Definition restart_env : env :=
  Env ∅ 0 [] (Kernel {["d/0.data"%string := 0]} {[0 := sample_content]} ∅ 3 1 [EvShort 3] [9])
    CCASK_ERR_UNKNOWN.

Lemma restart_kernel_wf : kernel_wf (e_kernel restart_env).
Proof.
  constructor; simpl.
  - intros fd [? Hfd]. by rewrite lookup_empty in Hfd.
  - lia.
  - intros p ino Hp. apply lookup_singleton_Some in Hp as [<- <-]. split; [lia|]. by eexists.
Qed.

Lemma crash_and_restart_witness :
  wp (ccask_init 80 start_options [Dirent ".." (Some false); Dirent "0.data" (Some true)])
    (World restart_env files_state_init (Keydir [] rwlock_new) None [] [] false)
    (λ res w', res = CCASK_OK ∧ ∃ l, system 4 40 w' l sample_map [] 19).
Proof.
  apply (crash_and_restart 80 3 small_world [1] sample_map [] 19 0 start_options _ [0] restart_env).
  - exact small_system.
  - done.
  - apply listing_dot; [by right|]. apply (listing_data 0); [lia | constructor].
  - done.
  - done.
  - done.
  - exact restart_kernel_wf.
  - by repeat constructor.
  - intros a [blk Ha]. simpl in Ha. by rewrite lookup_empty in Ha.
  - simpl. lia.
  - vm_compute. lia.
Defined.

(** The thread was stopped when it had just created the hint file. *)
Definition partial_env : env := put_inodes (<[1 := []]> (inodes hinted_env)) hinted_env.
Definition partial_world : world :=
  World partial_env sample_files sample_keydir None [] [] false.

Lemma partial_disk_ok : disk_ok (partial_env, sample_files) [1].
Proof.
  assert (dom (<[1 := []]> (inodes hinted_env)) = dom (inodes hinted_env)) as Hdom
    by by vm_compute.
  eapply disk_ok_env; [| |exact hinted_disk_ok].
  - split_and!; [done | done | | simpl; lia].
    change (dom (inodes hinted_env) ⊆ dom (<[1 := []]> (inodes hinted_env))). by rewrite Hdom.
  - apply put_inodes_wf; [exact Hdom | apply (do_kernel _ _ hinted_disk_ok)].
Qed.

Lemma partial_hints_hide_records_witness :
  wp (recover_hintfile 100 1) partial_world (λ res w', res = CCASK_OK ∧
    keydir_map (w_keydir w') = keydir_map sample_keydir ∧
    ∀ k, k ∉ [] → keydir_map (w_keydir w') !! k = keydir_map sample_keydir !! k) ∧
  wp (recover_datafile 100 1) partial_world (λ res w', res = CCASK_OK ∧
    keydir_map (w_keydir w') = index_log 0 0 [LogRecord sample_header sample_key sample_value]
      (keydir_map sample_keydir)).
Proof.
  apply (partial_hints_hide_records 100 partial_world [1] 1 sample_node []
    [LogRecord sample_header sample_key sample_value]).
  - exact partial_disk_ok.
  - by left.
  - by vm_compute.
  - apply Forall_singleton, sample_log_record_ok.
  - by repeat constructor.
  - by vm_compute.
  - by vm_compute.
  - by vm_compute.
  - by repeat constructor.
  - by apply (keydir_ok_same_heap sample_env); [exact sample_keydir_ok|..].
  - vm_compute. lia.
Defined.
