(* ===== verification/CompactTheorems.v ===== *)
(** * CompactTheorems: compaction keeps the map

    The properties of [ccask_compactor_dump_keydir]: what it leaves in the
    directory, and that a store opened from there represents the same map. *)
From stdpp Require Import sorting.
From Stdlib Require Import Strings.Byte.
From S2P Require Import Prelude Status Posix SafeIO Codec Crc32 Records Ringbuf Uthash Keydir Log.
From S2P Require Import Filenames Files Disk DiskWrite World Hint Recovery Reader Writer Core Compactor.
From S2P Require Import Store Durable Tidy Run Turns System Scan Directory DirOps Dump Compaction Compacted Start Session History.
From S2P Require Import Samples SystemTheorems StartTheorems.
Open Scope Z_scope.

Section theorems.
Context {host : Host} {zlib : Zlib} {laws : ZlibLaws}.

(** C8. Compaction of a running store, whose directory has no temporary files
    left and whose records each fit into a file (as those of every [put] that
    returned do), succeeds however the transfers are cut: the directory then has the
    data files [0], [1], ... and nothing else, none of them larger than the
    threshold, their replay is the same map, and there is exactly one record
    for each key. *)
Theorem compaction_keeps_map fuel cap mx w l m q n a dir :
  system cap mx w l m q n → fs_data_dir (w_files w) = Some (a, dir) → no_temps (w_env w) dir →
  0 ≤ mx ∧ 2 * mx < 2 ^ 32 → map_Forall (λ k v, record_size k v ≤ mx) m →
  Z.of_nat (size m) < 2 ^ 31 →
  (length (events (w_env w)) + Z.to_nat mx < fuel)%nat → (size m < fuel)%nat →
  wp (ccask_compactor_dump_keydir fuel) w (λ res w', res = CCASK_OK ∧
    ∃ c, compacted (w_env w') dir m mx c).
Proof.
  intros Hsy Hd Hn Hmx Hfits Hsz Hfuel Hlen. pose proof (sy_max _ _ _ _ _ _ _ Hsy) as Hm.
  pose proof (system_compactable cap mx w l m q n a dir Hsy Hd Hn Hmx Hfits Hsz) as Hcp.
  destruct (compaction_ok fuel w l m n dir (sy_running _ _ _ _ _ _ _ Hsy) Hcp)
    as (e' & f' & ru' & c & Hrun & Hcd & _); [by rewrite Hm | exact Hlen |].
  rewrite Hm in Hcd. eapply wp_run; [exact Hrun|]. split; [done|]. by exists c.
Qed.

(** C9. A process that opens the directory that a compaction has left, with
    its entries in any order, gets the map back, and the invariant of the
    whole system holds.  [readdir] can name all the files of this directory,
    and whatever it answers lists exactly them. *)
Theorem compact_and_restart fuel fuel' budget cap w l m q n a opts f kd rg th sd :
  let dir := opt_data_dir opts in let mx := opt_datafile_rotate_threshold opts in
  system cap mx w l m q n → fs_data_dir (w_files w) = Some (a, dir) → no_temps (w_env w) dir →
  0 ≤ mx ∧ 2 * mx < 2 ^ 32 → map_Forall (λ k v, record_size k v ≤ mx) m →
  Z.of_nat (size m) < 2 ^ 31 →
  (length (events (w_env w)) + Z.to_nat mx < fuel)%nat → (size m < fuel)%nat →
  0 < opt_writer_ringbuf_capacity opts < 2 ^ 63 → (budget + 2 * Z.to_nat mx + 20 < fuel')%nat →
  wp (ccask_compactor_dump_keydir fuel) w (λ res w1, res = CCASK_OK ∧
    (∃ e es, reboots budget (w_env w1) e ∧ readdir_of e dir es) ∧
    ∀ e es, reboots budget (w_env w1) e → readdir_of e dir es →
      wp (ccask_init fuel' opts es) (World e f kd rg th [] sd) (λ res w2, res = CCASK_OK ∧
        ∃ l2, system (opt_writer_ringbuf_capacity opts) mx w2 l2 m [] (Z.to_nat mx))).
Proof.
  intros dir mx Hsy Hd Hn Hmx Hfits Hsz Hfuel Hlen Hcap Hfuel'.
  pose proof (sy_max _ _ _ _ _ _ _ Hsy) as Hm. pose proof (sy_running _ _ _ _ _ _ _ Hsy) as Hr.
  pose proof (system_compactable cap mx w l m q n a dir Hsy Hd Hn Hmx Hfits Hsz) as Hcp.
  destruct (compaction_ok fuel w l m n dir Hr Hcp) as (e1 & f1 & ru1 & c & Hrun & Hcd & Hfr & _);
    [by rewrite Hm | exact Hlen |].
  rewrite Hm in Hcd. eapply wp_run; [exact Hrun|]. split; [done|]. cbn [w_env].
  pose proof (kernel_wf_linked e1 (fm_kernel _ _ Hfr)) as Hl.
  pose proof (compacted_represents e1 dir m mx c Hl Hcd) as Hrep. split.
  - destruct (reboots_exists budget e1 Hl) as [e He].
    destruct (readdir_exists e dir mx _ m _ (represents_reboots _ _ _ _ _ _ _ _ He Hrep)) as [es Hes];
      [|by exists e, es].
    pose proof (cd_some _ _ _ _ _ Hcd). destruct c as [|c]; [lia|]. simpl. lia.
  - intros e es He Hes. pose proof (represents_reboots _ _ _ _ _ _ _ _ He Hrep) as Hrep'.
    destruct (readdir_listing _ _ _ _ _ _ _ Hrep' Hes) as (ids & Hlist & Hids).
    assert (dir ≠ EmptyString) as Hne.
    { destruct (do_dir _ _ (st_disk _ _ _ (rn_store _ _ _ _ Hr))) as (a' & d & Hd' & Hne).
      cbn [snd] in Hd'. congruence. }
    pose proof (rb_events _ _ _ He).
    destruct (init_ok fuel' opts es (count_down c) ids m (Z.to_nat mx) e f kd rg th sd Hrep' Hne Hlist Hids
      (rb_kernel _ _ _ He) (rb_calm _ _ _ He) (rb_heap _ _ _ He) Hcap (proj1 Hmx))
      as (w2 & l2 & Hinit & Hsys & _); [lia|].
    eapply wp_run; [exact Hinit|]. split; [done|]. by exists l2.
Qed.
End theorems.

(** ** Witnesses *)

Lemma sample_map_fits : map_Forall (λ k v, record_size k v ≤ 40) sample_map.
Proof. unfold sample_map. apply map_Forall_singleton. by vm_compute. Qed.

Lemma compaction_keeps_map_witness :
  wp (ccask_compactor_dump_keydir 80) small_world (λ res w', res = CCASK_OK ∧
    ∃ c, compacted (w_env w') "d" sample_map 40 c).
Proof.
  apply (compaction_keeps_map 80 3 40 small_world [1] sample_map [] 19 0 "d").
  - exact small_system.
  - done.
  - exact small_no_temps.
  - lia.
  - exact sample_map_fits.
  - by vm_compute.
  - vm_compute. lia.
  - vm_compute. lia.
Defined.

Lemma compact_and_restart_witness :
  wp (ccask_compactor_dump_keydir 80) small_world (λ res w1, res = CCASK_OK ∧
    (∃ e es, reboots 2 (w_env w1) e ∧ readdir_of e "d" es) ∧
    ∀ e es, reboots 2 (w_env w1) e → readdir_of e "d" es →
      wp (ccask_init 120 start_options es) (World e files_state_init (Keydir [] rwlock_new) None [] [] false)
        (λ res w2, res = CCASK_OK ∧ ∃ l2, system 4 40 w2 l2 sample_map [] 40)).
Proof.
  apply (compact_and_restart 80 120 2 3 small_world [1] sample_map [] 19 0 start_options).
  - exact small_system.
  - done.
  - exact small_no_temps.
  - simpl. lia.
  - exact sample_map_fits.
  - by vm_compute.
  - vm_compute. lia.
  - vm_compute. lia.
  - simpl. lia.
  - vm_compute. lia.
Defined.
