(* ===== verification/SessionTheorems.v ===== *)
(** * SessionTheorems: closing a store, and whole processes

    The properties of [ccask_shutdown], of a process that opens a directory,
    works and closes it, and of the command line program. *)
From stdpp Require Import sorting.
From Stdlib Require Import Strings.Byte.
From S2P Require Import Prelude Status Posix SafeIO Codec Crc32 Records Ringbuf Uthash Keydir Log.
From S2P Require Import Filenames Files Disk DiskWrite World Hint Recovery Scan Reader Writer Core Main.
From S2P Require Import Store Durable Tidy Run Turns System Directory Compacted Start Shutdown Session History Program.
From S2P Require Import Samples SystemTheorems.
Open Scope Z_scope.

Section theorems.
Context {host : Host} {zlib : Zlib} {laws : ZlibLaws}.

(** C1. Processes one after another in the same directory: each opens it,
    works there, and then closes the store, dies, or compacts the files, and
    the next one starts from the names and contents that are left, whatever
    order it reads the names in.  Each of them can start and returns, every
    call returns what the map with the bounded queue says, and the directory
    represents the map at the end.  A process dies between two of its calls
    and turns; the keys and values that are put are not empty, their records
    fit into a file, and identifiers and files stay small ([lives_fit]). *)
Theorem histories_refine fuel budget opts cs e ids m n :
  let dir := opt_data_dir opts in let mx := opt_datafile_rotate_threshold opts in
  let cap := opt_writer_ringbuf_capacity opts in
  represents e dir mx ids m n → dir ≠ EmptyString → 0 < cap < 2 ^ 63 → 0 ≤ mx →
  lives_fit fuel budget opts cs (default 0 (head ids)) n m →
  every_history fuel budget opts cs e (λ rss e', rss = lives_answers opts cs m ∧
    ∃ ids' n', represents e' dir mx ids' (lives_map opts cs m) n').
Proof.
  intros dir mx cap Hrep Hne Hcap Hmx Hfit.
  apply (every_history_ok fuel budget opts cs e ids m n (default 0 (head ids)) n);
    [exact Hrep | reflexivity | reflexivity | exact Hne | exact Hcap | exact Hmx | exact Hfit |].
  intros e' ids' k Hrep'. split; [done|]. by exists ids', k.
Qed.

(** A process that opens a directory which is empty or represents a map,
    and then runs any sequence of calls and turns of its threads and closes
    the store, or dies between two of them, or compacts the files, gets the
    answers of a map with a bounded queue.  It leaves a directory that
    represents the resulting map: a store that is closed keeps the records
    that were still queued, and a compaction keeps the map. *)
Theorem session_refines fuel opts es ids ids' m n c e f kd rg th sd :
  let dir := opt_data_dir opts in let mx := opt_datafile_rotate_threshold opts in
  let cap := opt_writer_ringbuf_capacity opts in
  represents e dir mx ids m n → dir ≠ EmptyString → listing es ids' → ids' ≡ₚ ids →
  kernel_wf (e_kernel e) → calm e → heap_wf e → 0 < cap < 2 ^ 63 → 0 ≤ mx → life_fits mx m c →
  default 0 (head ids) + 2 * Z.of_nat (length (life_ops c)) < 2 ^ 64 →
  2 * Z.of_nat (n + ops_bytes (life_ops c)) < 2 ^ 32 →
  (length (events e) + 2 * (n + ops_bytes (life_ops c)) + length (life_ops c) + size m +
    Z.to_nat mx + 20 < fuel)%nat →
  wp (process fuel opts es c) (World e f kd rg th [] sd) (λ res w',
    res = Some (life_answers cap c m) ∧
    ∃ ids2 n2, represents (w_env w') dir mx ids2 (life_map cap c m) n2 ∧
      (n2 ≤ life_bytes mx n c)%nat).
Proof.
  intros dir mx cap Hrep Hne Hes Hids Hk Hc Hwf Hcap Hthr Hok Hid Hsm Hfuel.
  destruct (process_ok fuel opts es ids ids' m n c e f kd rg th sd Hrep Hne Hes Hids Hk Hc Hwf
    Hcap Hthr Hok Hid Hsm Hfuel) as (w' & ids2 & n2 & Hrun & Hrep' & Hn2 & _).
  eapply wp_run; [exact Hrun|]. split; [done|]. by exists ids2, n2.
Qed.

(** C11. [ccask_shutdown] of a running store returns: the hint threads are
    joined, the writer thread writes every queued record, in order, before it
    ends, the ring and the key directory are given back, and the files then
    represent the map with the queued records. *)
Theorem shutdown_flushes fuel cap mx w l m q n a dir :
  system cap mx w l m q n → fs_data_dir (w_files w) = Some (a, dir) →
  active_id w + Z.of_nat (length q) < 2 ^ 64 → 2 * Z.of_nat (n + queue_bytes q) < 2 ^ 32 →
  (length (events (w_env w)) + (n + queue_bytes q) + length q + 20 < fuel)%nat →
  wp (ccask_shutdown fuel) w (λ _ w', w_ring w' = None ∧ w_keydir w' = Keydir [] rwlock_new ∧
    ∃ ids n', dir_holds (w_env w') dir ids (apply_queue q m) n').
Proof.
  intros Hsy Hd Hid Hsm Hfuel.
  destruct (shutdown_ok fuel cap mx w l m q n a dir Hsy Hd Hid Hsm Hfuel)
    as (w' & ids & n' & Hrun & Hdh & _ & _ & _ & _ & _ & _ & Hring & Hkd).
  eapply wp_run; [exact Hrun|]. split; [done|]. split; [done|]. by exists ids, n'.
Qed.

(** C10. The command line program, started on a directory whose records fit
    under its threshold, opens the store, compacts it and closes it: it exits
    with [0] and leaves the compacted directory. *)
Theorem main_compacts fuel es ids ids' m n e f kd rg th sd :
  let dir := opt_data_dir main_options in let mx := opt_datafile_rotate_threshold main_options in
  represents e dir mx ids m n → listing es ids' → ids' ≡ₚ ids →
  map_Forall (λ k v, record_size k v ≤ mx) m → Z.of_nat (size m) < 2 ^ 31 →
  kernel_wf (e_kernel e) → calm e → heap_wf e →
  (length (events e) + 2 * n + size m + Z.to_nat mx + 20 < fuel)%nat →
  wp (main fuel es) (World e f kd rg th [] sd) (λ status w', status = 0 ∧
    ∃ c, compacted (w_env w') dir m mx c).
Proof.
  intros dir mx Hrep Hes Hids Hfits Hsz Hk Hc Hwf Hfuel.
  destruct (main_ok fuel es ids ids' m n e f kd rg th sd Hrep Hes Hids Hfits Hsz Hk Hc Hwf Hfuel)
    as (w' & c & Hrun & Hcd & _).
  eapply wp_run; [exact Hrun|]. split; [done|]. by exists c.
Qed.
End theorems.

(** ** Witnesses *)

(** A directory with one file, which has the sample record. *)
Definition one_file_env (dir : string) : env :=
  Env ∅ 0 [] (Kernel {[filepath dir 0 ".data" := 0]} {[0 := sample_content]} ∅ 3 1 [EvShort 3] [9])
    CCASK_ERR_UNKNOWN.

Section one_file.
Context (dir : string).

Lemma one_file_kernel_wf : kernel_wf (e_kernel (one_file_env dir)).
Proof.
  constructor; simpl.
  - intros fd [? Hfd]. by rewrite lookup_empty in Hfd.
  - lia.
  - intros p ino Hp. apply lookup_singleton_Some in Hp as [<- <-]. split; [lia|]. by eexists.
Qed.

Lemma one_file_ino : file_ino (one_file_env dir) dir ".data" 0 = Some 0.
Proof. apply lookup_singleton_eq. Qed.

Lemma one_file_bytes : file_bytes (one_file_env dir) dir ".data" 0 = Some sample_content.
Proof. unfold file_bytes. by rewrite one_file_ino. Qed.

Lemma one_file_log :
  dir_log (one_file_env dir) dir 0 = [LogRecord sample_header sample_key sample_value].
Proof. unfold dir_log. rewrite one_file_bytes. exact sample_records. Qed.

Lemma one_file_path ext id i :
  file_ino (one_file_env dir) dir ext id = Some i → filepath dir id ext = filepath dir 0 ".data".
Proof. unfold file_ino. simpl. by intros [<- _]%lookup_singleton_Some. Qed.

Lemma one_file_data id : is_u64 id → is_Some (file_ino (one_file_env dir) dir ".data" id) → id = 0.
Proof. intros Hu [i Hi]. by apply one_file_path, filepath_inj in Hi. Qed.

Lemma one_file_no_hint id : file_ino (one_file_env dir) dir ".hint" id = None.
Proof.
  apply eq_None_not_Some. intros [i Hi%one_file_path]. by apply hint_path_not_data in Hi.
Qed.

Lemma one_file_no_temps : no_temps (one_file_env dir) dir.
Proof.
  intros id _. apply eq_None_not_Some. intros [i Hi%one_file_path]. by apply temp_not_data in Hi.
Qed.

Lemma one_file_tidy : tidy (one_file_env dir) dir [0].
Proof.
  constructor.
  - intros id Hu Hi. apply one_file_data in Hi as ->; [by left | done].
  - intros id _. rewrite one_file_no_hint. by intros [].
Qed.

Lemma one_file_holds : dir_holds (one_file_env dir) dir [0] sample_map 19.
Proof.
  assert (∀ id, id ∈ [0] → id = 0) as Hin by (by intros id ->%list_elem_of_singleton).
  constructor.
  - lia.
  - by repeat constructor.
  - repeat constructor.
  - done.
  - intros id ->%Hin. exists sample_content. split; [exact one_file_bytes | vm_compute; lia].
  - cbn [replay foldr]. by rewrite one_file_log.
  - intros id ->%Hin. rewrite one_file_log. by repeat constructor.
  - intros id ->%Hin. rewrite one_file_log. by repeat constructor.
  - apply NoDup_singleton.
  - intros id c [= <-]. rewrite one_file_bytes. intros [= <-]. by rewrite sample_records.
  - intros id _. rewrite one_file_no_hint. by intros [].
  - intros id id' _ _. rewrite one_file_no_hint. by intros [].
  - intros top id [= <-] Hlt Hu. apply eq_None_not_Some. intros ->%one_file_data; [lia | done].
  - intros top id _ _ _. apply one_file_no_hint.
Qed.

Lemma one_file_small mx top c :
  19 ≤ mx → head [0] = Some top → file_bytes (one_file_env dir) dir ".data" top = Some c → zlen c ≤ mx.
Proof. intros Hmx [= <-]. rewrite one_file_bytes. intros [= <-]. change (19 ≤ mx). exact Hmx. Qed.

Lemma one_file_represents mx : 19 ≤ mx → represents (one_file_env dir) dir mx [0] sample_map 19.
Proof.
  intros Hmx. constructor; [exact (kernel_wf_linked _ one_file_kernel_wf) | exact one_file_no_temps | exact one_file_tidy | exact one_file_holds |].
  intros top c. by apply one_file_small.
Qed.

Lemma one_file_heap_wf : heap_wf (one_file_env dir).
Proof. intros a [blk Ha]. simpl in Ha. by rewrite lookup_empty in Ha. Qed.
End one_file.

(** One record is still queued when the store is closed. *)
Definition session_options : ccask_options_t := Options "d" 4 40.
Definition session_ops : list op :=
  [OGet sample_key; OPut sample_key [x76; x32]; OQueue [x6b; x32] [x61; x62; x63];
   OGet [x6b; x32]; OGet sample_key].

Lemma session_refines_witness :
  wp (process 250 session_options [Dirent "." (Some false); Dirent "0.data" (Some true)]
      (Closes session_ops))
    (World (one_file_env "d") files_state_init (Keydir [] rwlock_new) None [] [] false)
    (λ res w', res = Some [RValue (Some sample_value); RStatus CCASK_OK; RStatus CCASK_OK;
        RValue None; RValue (Some [x76; x32])] ∧
      ∃ ids2 n2, represents (w_env w') "d" 40 ids2
        (<[[x6b; x32] := [x61; x62; x63]]> (<[sample_key := [x76; x32]]> sample_map)) n2 ∧
        (n2 ≤ 59)%nat).
Proof.
  apply (session_refines 250 session_options _ [0] [0] sample_map 19 (Closes session_ops)
    (one_file_env "d")).
  - by apply one_file_represents.
  - done.
  - apply listing_dot; [by left|]. apply (listing_data 0); [lia | constructor].
  - done.
  - apply one_file_kernel_wf.
  - by repeat constructor.
  - apply one_file_heap_wf.
  - simpl. lia.
  - simpl. lia.
  - repeat (apply Forall_cons_2; [first [exact I | split; [done | split; [done | by vm_compute]]]|]).
    apply Forall_nil_2.
  - by vm_compute.
  - by vm_compute.
  - vm_compute. lia.
Defined.

(** Four processes: one closes the store, one dies with a record in the queue,
    one compacts the files, and one asks for what is left. *)
Definition four_lives : list life :=
  [Closes session_ops; Dies [OPut [x61] [x62]; OQueue [x61] [x63]; OGet [x61]]; Compacts;
   Closes [OGet sample_key; OGet [x61]; OGet [x6b; x32]]].

Lemma histories_refine_witness :
  every_history 500 10 session_options four_lives (one_file_env "d") (λ rss e',
    rss = [[RValue (Some sample_value); RStatus CCASK_OK; RStatus CCASK_OK; RValue None;
            RValue (Some [x76; x32])];
           [RStatus CCASK_OK; RStatus CCASK_OK; RValue (Some [x62])];
           [];
           [RValue (Some [x76; x32]); RValue (Some [x62]); RValue (Some [x61; x62; x63])]] ∧
    ∃ ids' n', represents e' "d" 40 ids' (lives_map session_options four_lives sample_map) n').
Proof.
  apply (histories_refine 500 10 session_options four_lives (one_file_env "d") [0] sample_map 19).
  - by apply one_file_represents.
  - done.
  - simpl. lia.
  - simpl. lia.
  - assert (∀ k v, k ≠ [] → v ≠ [] → bool_decide (record_size k v ≤ 40) = true → op_ok 40 (OPut k v) ∧
      op_ok 40 (OQueue k v)) as Hop by (intros k v Hk Hv Hs%bool_decide_eq_true; by repeat split).
    repeat split; try (by vm_compute); try (by apply (bool_decide_unpack _); vm_compute);
      repeat (apply Forall_cons_2; [first [exact I | by apply Hop]|]); try apply Forall_nil_2;
      vm_compute; lia.
Defined.

Lemma shutdown_flushes_witness :
  wp (_ ← run_op 200 (OQueue [x6b; x32] [x61; x62; x63]); ccask_shutdown 200) small_world
    (λ _ w', w_ring w' = None ∧ w_keydir w' = Keydir [] rwlock_new ∧
      ∃ ids n', dir_holds (w_env w') "d" ids (<[[x6b; x32] := [x61; x62; x63]]> sample_map) n').
Proof.
  destruct (queue_refines 3 40 200 small_world [1] sample_map [] 19 [x6b; x32] [x61; x62; x63])
    as (w1 & l1 & m1 & q1 & n1 & r & Habs & Hrun & Hsy & Hn & [Hid Hev%suffix_length Hd]).
  - exact small_system.
  - split; [done | split; [done | by vm_compute]].
  - by vm_compute.
  - injection Habs as <- <- <-.
    change (n1 + 21 ≤ 40)%nat in Hn. change (length (events (w_env small_world))) with 2%nat in Hev.
    change (active_id small_world) with 0 in Hid.
    assert (wp (ccask_shutdown 200) w1 (λ _ w', w_ring w' = None ∧ w_keydir w' = Keydir [] rwlock_new ∧
      ∃ ids n', dir_holds (w_env w') "d" ids
        (apply_queue [([x6b; x32], [x61; x62; x63])] sample_map) n')) as Hwp.
    + apply (shutdown_flushes 200 3 40 w1 l1 _ _ n1 0); [exact Hsy | exact Hd | | |].
      * simpl. lia.
      * change (2 * Z.of_nat (n1 + 21) < 2 ^ 32). lia.
      * change (length (events (w_env w1)) + (n1 + 21) + 1 + 20 < 200)%nat. lia.
    + unfold wp. by rewrite (bind_run _ _ _ _ _ Hrun).
Defined.

Lemma main_compacts_witness :
  wp (main 200 [Dirent "0.data" (Some true); Dirent "README" (Some false)])
    (World (one_file_env "../test_data") files_state_init (Keydir [] rwlock_new) None [] [] false)
    (λ status w', status = 0 ∧ ∃ c, compacted (w_env w') "../test_data" sample_map 60 c).
Proof.
  apply (main_compacts 200 _ [0] [0] sample_map 19 (one_file_env "../test_data")).
  - by apply one_file_represents.
  - apply (listing_data 0); [lia|]. apply listing_other; [by vm_compute | done | constructor].
  - done.
  - unfold sample_map. apply map_Forall_singleton. by vm_compute.
  - by vm_compute.
  - apply one_file_kernel_wf.
  - by repeat constructor.
  - apply one_file_heap_wf.
  - vm_compute. lia.
Defined.
